(** * A two-way translator between a C++ subset and a Python subset

    Shallow embedding of the four-stage pipeline of the Capstone sources
    (tokenizer, recursive-descent parser, scope-aware semantic analyzer and
    structural code generator, once per source grammar), followed by the
    properties of the specification that are settled against it.

    Source text is modelled as ASCII: a Python [str] is a [string], a
    character an [ascii].  Exceptions are values of [exn]; a function that
    can raise returns a [result]. *)

From Stdlib Require Import ZArith Ascii String List Lia DecimalString.
From stdpp Require Import gmap strings list.

Set Warnings "-register-all".
Local Open Scope string_scope.

(** ** Results and exceptions *)

(** A token is the Python pair [(kind, lexeme)]. *)
Definition token : Type := string * string.

(** The exceptions the sources raise.  Formatted messages that embed the
    [repr] of a token keep the token as data instead of text. *)
Inductive exn : Type :=
| LexError (position : nat)
    (* ValueError("Unable to match contents at position {position}...") and
       ValueError("Unable to tokenize at position {position}") *)
| ExpectedToken (expected_type : string) (got : option token)
    (* ValueError(f"Expected {expected_type} but got {token}") *)
| SyntaxError (message : string) (at_token : option token)
| NotImplementedError (message : string)
| KeyError (key : string)
| TypeError (what : string)
| IndexError
| ValueError (message : string)
| IntValueError (literal : string).
    (* ValueError: invalid literal for int() with base 10 *)

(** [Diverge] is not an exception: it marks a run whose fuel ran out. *)
Inductive result (A : Type) : Type :=
| Ok (a : A)
| Raise (e : exn)
| Diverge.
Arguments Ok {A} a.
Arguments Raise {A} e.
Arguments Diverge {A}.

Definition rbind {A B} (r : result A) (f : A -> result B) : result B :=
  match r with
  | Ok a => f a
  | Raise e => Raise e
  | Diverge => Diverge
  end.

Declare Scope result_scope.
Delimit Scope result_scope with result.
Notation "x <- r ;; k" := (rbind r (fun x => k))
  (at level 100, r at next level, right associativity) : result_scope.

(** ** Python string operations used by the sources *)

Module PyStr.

Definition nl : string := String "010"%char EmptyString.
Definition dq : string := String "034"%char EmptyString.
Definition bs : string := String "092"%char EmptyString.

Definition in_range (lo hi : nat) (c : ascii) : bool :=
  (lo <=? nat_of_ascii c)%nat && (nat_of_ascii c <=? hi)%nat.

Definition is_digit (c : ascii) : bool := in_range 48 57 c.
Definition is_upper (c : ascii) : bool := in_range 65 90 c.
Definition is_lower (c : ascii) : bool := in_range 97 122 c.
Definition is_alpha_ (c : ascii) : bool :=
  is_upper c || is_lower c || Ascii.eqb c "_"%char.
(** [\w] on ASCII text. *)
Definition is_word (c : ascii) : bool := is_alpha_ c || is_digit c.
(** [str.isspace] on ASCII text: tab .. carriage return, the four
    separators 28 .. 31, and the blank. *)
Definition is_space (c : ascii) : bool :=
  in_range 9 13 c || in_range 28 31 c || Ascii.eqb c " "%char.

(** [sep.join(l)] *)
Fixpoint join (sep : string) (l : list string) : string :=
  match l with
  | [] => EmptyString
  | [s] => s
  | s :: l' => s ++ sep ++ join sep l'
  end.

Fixpoint lstrip_by (p : ascii -> bool) (s : string) : string :=
  match s with
  | EmptyString => EmptyString
  | String c s' => if p c then lstrip_by p s' else s
  end.

Fixpoint rstrip_by (p : ascii -> bool) (s : string) : string :=
  match s with
  | EmptyString => EmptyString
  | String c s' =>
      match rstrip_by p s' with
      | EmptyString => if p c then EmptyString else String c EmptyString
      | r => String c r
      end
  end.

Definition lstrip (s : string) : string := lstrip_by is_space s.
Definition rstrip (s : string) : string := rstrip_by is_space s.
Definition strip (s : string) : string := lstrip (rstrip s).
(** [s.strip(c)] for a one-character argument. *)
Definition strip_char (c : ascii) (s : string) : string :=
  lstrip_by (Ascii.eqb c) (rstrip_by (Ascii.eqb c) s).

Definition startswith (s p : string) : bool := String.prefix p s.

Fixpoint endswith (s p : string) : bool :=
  (s =? p) ||
  match s with
  | EmptyString => false
  | String _ s' => endswith s' p
  end.

(** [p in s] on strings. *)
Fixpoint contains (s p : string) : bool :=
  String.prefix p s ||
  match s with
  | EmptyString => false
  | String _ s' => contains s' p
  end.

(** [s.replace(old, new)] for a non-empty [old]: leftmost, not
    overlapping.  [skip] counts the characters of a match still to drop. *)
Fixpoint replace_from (old new s : string) (skip : nat) : string :=
  match s with
  | EmptyString => EmptyString
  | String c s' =>
      match skip with
      | S k => replace_from old new s' k
      | O =>
          if String.prefix old s
          then new ++ replace_from old new s' (String.length old - 1)
          else String c (replace_from old new s' 0)
      end
  end.
Definition replace (old new s : string) : string := replace_from old new s 0.

(** [s[1:-1]] *)
Definition slice_1_m1 (s : string) : string :=
  String.substring 1 (String.length s - 2) s.

(** [str(z)] for an integer. *)
Definition str_of_Z (z : Z) : string := NilZero.string_of_int (Z.to_int z).

Fixpoint digits_value (acc : Z) (s : string) : option Z :=
  match s with
  | EmptyString => Some acc
  | String c s' =>
      if is_digit c
      then digits_value (10 * acc + Z.of_nat (nat_of_ascii c - 48)) s'
      else None
  end.

(** [int(s)] on a string: surrounding blanks dropped, an optional sign,
    then decimal digits.  (Digit-group underscores are not modelled; no
    generated text carries them.) *)
Definition int_of_str (s : string) : result Z :=
  let body := strip s in
  let unsigned (d : string) (sgn : Z) : result Z :=
    match d with
    | EmptyString => Raise (IntValueError s)
    | _ => match digits_value 0 d with
           | Some v => Ok (sgn * v)%Z
           | None => Raise (IntValueError s)
           end
    end in
  match body with
  | String "-"%char d => unsigned d (-1)%Z
  | String "+"%char d => unsigned d 1%Z
  | d => unsigned d 1%Z
  end.

(** [re.findall(r'\w+', s)]: the maximal runs of word characters. *)
Fixpoint findall_word_from (cur : string) (s : string) : list string :=
  match s with
  | EmptyString =>
      match cur with EmptyString => [] | _ => [cur] end
  | String c s' =>
      if is_word c
      then findall_word_from (cur ++ String c EmptyString) s'
      else match cur with
           | EmptyString => findall_word_from EmptyString s'
           | _ => cur :: findall_word_from EmptyString s'
           end
  end.
Definition findall_word (s : string) : list string :=
  findall_word_from EmptyString s.

(** [x in l] for a list of strings. *)
Definition mem (x : string) (l : list string) : bool :=
  existsb (String.eqb x) l.

End PyStr.

(** ** Regular expressions, as Python's [re] matches them

    Patterns are quoted in comments with blanks between their parts.
    A backtracking matcher in continuation style: alternatives are tried
    left to right, repetition is greedy, and the first way to reach the
    end of the pattern wins.  A [cursor] is a position in the subject
    string: the characters before it (nearest first) and those after. *)

Module Regex.
Import PyStr.

Record cursor : Type := { before : list ascii; after : list ascii }.

Definition position (c : cursor) : nat := length (before c).

Inductive regex : Type :=
| Eps
| Cls (p : ascii -> bool)          (* one character of a class *)
| Cat (r1 r2 : regex)
| Alt (r1 r2 : regex)              (* r1|r2, r1 first *)
| Star (r : regex)                 (* r*, greedy *)
| Bol                              (* ^ without MULTILINE *)
| WordB                            (* \b *)
| NotAfter (c : ascii).            (* (?<!c) *)

Definition at_word_boundary (c : cursor) : bool :=
  let w (o : option ascii) :=
    match o with Some a => is_word a | None => false end in
  xorb (w (head (before c))) (w (head (after c))).

(** The body of a star is only iterated while it consumes input, and an
    iteration is retried from the longest match backwards. *)
Fixpoint rmatch (r : regex) (c : cursor) (k : cursor -> option cursor)
  {struct r} : option cursor :=
  match r with
  | Eps => k c
  | Cls p =>
      match after c with
      | a :: rest =>
          if p a then k {| before := a :: before c; after := rest |}
          else None
      | [] => None
      end
  | Cat r1 r2 => rmatch r1 c (fun c' => rmatch r2 c' k)
  | Alt r1 r2 =>
      match rmatch r1 c k with
      | Some c' => Some c'
      | None => rmatch r2 c k
      end
  | Star r1 =>
      (fix loop (n : nat) (c0 : cursor) {struct n} : option cursor :=
         match n with
         | O => k c0
         | S n' =>
             match rmatch r1 c0 (fun c' =>
                      if (length (after c') <? length (after c0))%nat
                      then loop n' c' else None) with
             | Some c' => Some c'
             | None => k c0
             end
         end) (length (after c)) c
  | Bol => match before c with [] => k c | _ :: _ => None end
  | WordB => if at_word_boundary c then k c else None
  | NotAfter a =>
      match before c with
      | b :: _ => if Ascii.eqb b a then None else k c
      | [] => k c
      end
  end.

(** [pattern.match(s, pos)], with the cursor standing for [(s, pos)]. *)
Definition match_at (r : regex) (c : cursor) : option cursor :=
  rmatch r c Some.

(** [match.group(0)] for a match from [c] to [c']. *)
Definition group0 (c c' : cursor) : string :=
  string_of_list_ascii
    (rev (firstn (position c' - position c) (before c'))).

Definition start_of (s : string) : cursor :=
  {| before := []; after := list_ascii_of_string s |}.

(** Pattern combinators. *)
Definition chr (a : ascii) : regex := Cls (Ascii.eqb a).
Fixpoint lit (s : string) : regex :=
  match s with
  | EmptyString => Eps
  | String a EmptyString => chr a
  | String a s' => Cat (chr a) (lit s')
  end.
Fixpoint cats (l : list regex) : regex :=
  match l with
  | [] => Eps
  | [r] => r
  | r :: l' => Cat r (cats l')
  end.
Fixpoint alts (l : list regex) : regex :=
  match l with
  | [] => Cls (fun _ => false)
  | [r] => r
  | r :: l' => Alt r (alts l')
  end.
Definition plus (r : regex) : regex := Cat r (Star r).
Definition opt (r : regex) : regex := Alt r Eps.
Definition one_of (s : string) : regex :=
  Cls (fun a => existsb (Ascii.eqb a) (list_ascii_of_string s)).
Definition none_of (s : string) : regex :=
  Cls (fun a => negb (existsb (Ascii.eqb a) (list_ascii_of_string s))).
Definition digit : regex := Cls is_digit.
Definition space : regex := Cls is_space.
(** [.] without DOTALL *)
Definition dot : regex := Cls (fun a => negb (Ascii.eqb a "010"%char)).

End Regex.

(** ** The tokenizer loop shared by the two lexers

    One turn of [while position < len(source)]: the patterns are tried in
    declaration order at the cursor and the first that matches wins.  A
    match object is always true in Python, also when it is empty. *)

Module TokenLoop.
Import Regex.

Definition token_types : Type := list (string * regex).

Record state : Type := { cur : cursor; tokens : list token }.

Inductive outcome : Type :=
| Running (st : state)
| Finished (toks : list token)
| Failed (position : nat).

Fixpoint first_match (table : token_types) (c : cursor)
  : option (string * cursor) :=
  match table with
  | [] => None
  | (name, pattern) :: table' =>
      match match_at pattern c with
      | Some c' => Some (name, c')
      | None => first_match table' c
      end
  end.

Section Loop.
(** The pattern table, and [emit name value]: the token appended for a
    match, if any. *)
Variable table : token_types.
Variable emit : string -> string -> option token.

Definition step (st : state) : outcome :=
  match after (cur st) with
  | [] => Finished (tokens st)
  | _ :: _ =>
      match first_match table (cur st) with
      | Some (name, c') =>
          Running
            {| cur := c';
               tokens :=
                 match emit name (group0 (cur st) c') with
                 | Some t => tokens st ++ [t]
                 | None => tokens st
                 end |}
      | None => Failed (position (cur st))
      end
  end.

Fixpoint run (fuel : nat) (st : state) : result (list token) :=
  match fuel with
  | O => Diverge
  | S fuel' =>
      match step st with
      | Running st' => run fuel' st'
      | Finished toks => Ok toks
      | Failed p => Raise (LexError p)
      end
  end.

(** The state after [n] turns, when the loop is still running then. *)
Fixpoint iterate (n : nat) (st : state) : option state :=
  match n with
  | O => Some st
  | S n' =>
      match step st with
      | Running st' => iterate n' st'
      | _ => None
      end
  end.
End Loop.

Definition init (source : string) : state :=
  {| cur := start_of source; tokens := [] |}.

End TokenLoop.

(** ** lexercpp.py *)

Module Lexer.
Import PyStr Regex TokenLoop.

(** The text of the KEYWORD pattern, from which [__init__] extracts the
    keyword set with [re.findall(r'\w+', keyword_pattern)]. *)
Definition keyword_pattern : string :=
  "\b(int|float|double|bool|char|string|void|if|else|while|for|return|using|namespace|include)\b".

Definition keywords : list string := findall_word keyword_pattern.

Definition TOKEN_TYPES : token_types :=
  [ ("KEYWORD",
      (* \b ( int | float | ... | include ) \b *)
      cats [WordB;
            alts (map lit ["int"; "float"; "double"; "bool"; "char";
                           "string"; "void"; "if"; "else"; "while"; "for";
                           "return"; "using"; "namespace"; "include"]);
            WordB]);
    ("IDENTIFIER",
      (* \b [a-zA-Z_] [a-zA-Z0-9_]* \b *)
      cats [WordB; Cls is_alpha_; Star (Cls is_word); WordB]);
    ("NUMBER",
      (* \b \d+ ( \. \d* )? \b *)
      cats [WordB; plus digit; opt (Cat (chr ".") (Star digit)); WordB]);
    ("INSERTION_OPERATOR", (* >> | << *) alts [lit ">>"; lit "<<"]);
    ("RELATIONAL_OPERATOR",
      (* <= | >= | == | != | < | > *)
      alts [lit "<="; lit ">="; lit "=="; lit "!="; lit "<"; lit ">"]);
    ("COMPOUND_ASSIGNMENT",
      (* \+= | -= | \*= | /= *)
      alts [lit "+="; lit "-="; lit "*="; lit "/="]);
    ("ARITHMETIC_OPERATOR",
      (* \+\+ | -- | [+\-*/%=] *)
      alts [lit "++"; lit "--"; one_of "+-*/%="]);
    ("STRING",
      (* DQ [^DQ\\]* (?: \\. [^DQ\\]* )* DQ   with DQ the double quote *)
      cats [lit dq; Star (none_of (dq ++ bs));
            Star (cats [lit bs; dot; Star (none_of (dq ++ bs))]);
            lit dq]);
    ("SEMICOLON", lit ";");
    ("COMMA", lit ",");
    ("LBRACE", lit "{");
    ("RBRACE", lit "}");
    ("LPAREN", lit "(");
    ("RPAREN", lit ")");
    ("SPECIAL_CHARACTER", (* [@_!#$^&?~] *) one_of "@_!#$^&?~");
    ("APOSTROPHE", lit "'");
    ("WHITESPACE", (* \s+ *) plus space) ].

Definition emit (name value : string) : option token :=
  if (name =? "IDENTIFIER") && mem value keywords
  then Some ("KEYWORD", value)
  else if negb (name =? "WHITESPACE") then Some (name, value)
  else None.

Definition tokenize_fuel (fuel : nat) (contents : string)
  : result (list token) :=
  run TOKEN_TYPES emit fuel (init contents).

(** Every turn of the loop consumes a character, so this fuel is never
    used up: [Lexer_tokenize_total] below. *)
Definition tokenize (contents : string) : result (list token) :=
  tokenize_fuel (S (String.length contents)) contents.

End Lexer.

(** ** python_lexer.py *)

Module PythonLexer.
Import PyStr Regex TokenLoop.

Definition TOKEN_TYPES : token_types :=
  [ ("STRING",
      (* (?<!\\) ( ' (?: [^'\\] | \\. )* ' | DQ (?: [^DQ\\] | \\. )* DQ ) *)
      Cat (NotAfter "092"%char)
        (Alt
           (cats [lit "'";
                  Star (Alt (none_of ("'" ++ bs)) (Cat (lit bs) dot));
                  lit "'"])
           (cats [lit dq;
                  Star (Alt (none_of (dq ++ bs)) (Cat (lit bs) dot));
                  lit dq])));
    ("KEYWORD",
      (* \b (?: print | input | while | for | if | elif | else ) \b *)
      cats [WordB;
            alts (map lit ["print"; "input"; "while"; "for"; "if"; "elif";
                           "else"]);
            WordB]);
    ("IDENTIFIER",
      (* [a-zA-Z_] [a-zA-Z0-9_]* *)
      Cat (Cls is_alpha_) (Star (Cls is_word)));
    ("COMPARISON_OPERATOR",
      (* [<>]=? | == | != | >= | <= *)
      alts [Cat (one_of "<>") (opt (lit "=")); lit "=="; lit "!=";
            lit ">="; lit "<="]);
    ("ARITHMETIC_OPERATOR", (* [+\-*/%] *) one_of "+-*/%");
    ("ASSIGNMENT_OPERATOR", lit "=");
    ("LOGICAL_OPERATOR", (* && | \|\| *) alts [lit "&&"; lit "||"]);
    ("BITWISE_OPERATOR",
      (* & | \| | ~ | ^   where the bare ^ is the start-of-string anchor *)
      alts [lit "&"; lit "|"; lit "~"; Bol]);
    ("LPAREN", lit "(");
    ("RPAREN", lit ")");
    ("WHITESPACE", (* \s+ *) plus space);
    ("COLON", lit ":");
    ("NUMBER",
      (* \d+ ( \. \d* )? *)
      Cat (plus digit) (opt (Cat (chr ".") (Star digit))));
    ("COMMA", lit ",") ].

Definition emit (name value : string) : option token :=
  if negb (name =? "WHITESPACE") then Some (name, value) else None.

Definition tokenize_fuel (fuel : nat) (source : string)
  : result (list token) :=
  run TOKEN_TYPES emit fuel (init source).

(** One turn per character and one more.  [Diverge] is a loop still
    turning when the fuel is spent; the statements about it below are made
    for every fuel. *)
Definition tokenize (source : string) : result (list token) :=
  tokenize_fuel (S (String.length source)) source.

End PythonLexer.

(** ** The syntax tree shared by the two grammars

    The parsers build dictionaries with a ['type'] discriminant; each
    constructor below is one such shape, with the dictionary's keys as
    argument names.  A key that may be absent or [None] is an [option].
    Where the two parsers give one discriminant two shapes there are two
    constructors.  [Other t] is a node of discriminant [t] carrying no
    further key. *)

Inductive node : Type :=
| Program (statements : list node)
| FunctionDefinition (return_type func_name : string) (body : list node)
| VariableDeclaration (var_type var_name : string) (initializer : option node)
| Assignment (var_name : string) (expression : node)
| ExpressionStatement (expression : node)
| BinaryExpression (operator : string) (left right : node)
| Identifier (value : string)
| Number (value : string)
| StringLiteral (value : string)
| BooleanLiteral (value : string)
| Increment (var_name operator : string)
| FunctionCall (func_name : string) (args : list node)
| IfStatement (condition true_branch : node) (false_branch : option node)
| WhileLoop (condition body : node)
    (* parsercpp.py: 'body' is a statement *)
| WhileLoopPy (condition : node) (body : list node)
    (* python_parser.py: 'body' is a list *)
| ForLoop (init condition : node) (increment : option node) (body : node)
    (* parsercpp.py: init; condition; increment *)
| ForRange (iterator : string) (limit start stop step : option node)
    (body : list node)
    (* python_parser.py: range(limit) or range(start, stop[, step]) *)
| IOStatement (io_operator : string) (expressions : list node)
    (* parsercpp.py *)
| IOStatementPy (io_operator : string) (expression : node)
    (* python_parser.py *)
| PrintStatement (args : list node)
| ReturnStatement (expression : node)
| Block (statements : list node)
| EmptyStatement
| Other (type : string).

(** [n] is the dictionary [{'type': t}]. *)
Definition bare (n : node) (t : string) : bool :=
  match n with Other u => u =? t | _ => false end.

(** [node["type"]] *)
Definition node_type (n : node) : string :=
  match n with
  | Program _ => "PROGRAM"
  | FunctionDefinition _ _ _ => "FUNCTION_DEFINITION"
  | VariableDeclaration _ _ _ => "VARIABLE_DECLARATION"
  | Assignment _ _ => "ASSIGNMENT"
  | ExpressionStatement _ => "EXPRESSION_STATEMENT"
  | BinaryExpression _ _ _ => "BINARY_EXPRESSION"
  | Identifier _ => "IDENTIFIER"
  | Number _ => "NUMBER"
  | StringLiteral _ => "STRING_LITERAL"
  | BooleanLiteral _ => "BOOLEAN_LITERAL"
  | Increment _ _ => "INCREMENT"
  | FunctionCall _ _ => "FUNCTION_CALL"
  | IfStatement _ _ _ => "IF_STATEMENT"
  | WhileLoop _ _ | WhileLoopPy _ _ => "WHILE_LOOP"
  | ForLoop _ _ _ _ | ForRange _ _ _ _ _ _ => "FOR_LOOP"
  | IOStatement _ _ | IOStatementPy _ _ => "IO_STATEMENT"
  | PrintStatement _ => "PRINT_STATEMENT"
  | ReturnStatement _ => "RETURN_STATEMENT"
  | Block _ => "BLOCK"
  | EmptyStatement => "EMPTY_STATEMENT"
  | Other t => t
  end.

(** ** A state-and-exception monad

    The parsers thread the unread tokens, the analyzers their scope stack
    and diagnostics, the generators their bookkeeping. *)

Definition M (S A : Type) : Type := S -> result (A * S).

Definition ret {S A} (a : A) : M S A := fun s => Ok (a, s).
Definition raise {S A} (e : exn) : M S A := fun _ => Raise e.
Definition diverge {S A} : M S A := fun _ => Diverge.
Definition bind {S A B} (m : M S A) (f : A -> M S B) : M S B :=
  fun s =>
    match m s with
    | Ok (a, s') => f a s'
    | Raise e => Raise e
    | Diverge => Diverge
    end.
Definition get {S} : M S S := fun s => Ok (s, s).
Definition put {S} (s : S) : M S unit := fun _ => Ok (tt, s).
Definition modify {S} (f : S -> S) : M S unit := fun s => Ok (tt, f s).

Declare Scope monad_scope.
Delimit Scope monad_scope with monad.
Notation "x <- m ;; k" := (bind m (fun x => k))
  (at level 100, m at next level, right associativity) : monad_scope.
Notation "m ;;; k" := (bind m (fun _ => k))
  (at level 100, right associativity) : monad_scope.

Section Loops.
Context {S A B : Type}.
Variable f : A -> M S B.

(** [[f(x) for x in l]] *)
Fixpoint mapM (l : list A) : M S (list B) :=
  match l with
  | [] => ret []
  | a :: l' => (b <- f a ;; bs <- mapM l' ;; ret (b :: bs))%monad
  end.

(** [for x in l: f(x)] *)
Fixpoint forM_ (l : list A) : M S unit :=
  match l with
  | [] => ret tt
  | a :: l' => (f a ;;; forM_ l')%monad
  end.
End Loops.

(** ** Token-stream primitives common to both parsers *)

Module Tokens.
Import PyStr.

Definition P (A : Type) : Type := M (list token) A.

(** [self.tokens[self.position + n] if ... else None] *)
Definition peek (n : nat) : P (option token) :=
  fun ts => Ok (nth_error ts n, ts).

Definition current_token : P (option token) := peek 0.

(** [self.current_token()[i]]: subscripting [None] is a TypeError. *)
Definition current_unchecked : P token :=
  (t <- current_token ;;
   match t with
   | Some t => ret t
   | None => raise (TypeError "'NoneType' object is not subscriptable")
   end)%monad.

(** [self.match(expected_type)] *)
Definition match_ (expected_type : string) : P token :=
  fun ts =>
    match ts with
    | t :: ts' =>
        if fst t =? expected_type then Ok (t, ts')
        else Raise (ExpectedToken expected_type (Some t))
    | [] => Raise (ExpectedToken expected_type None)
    end.

Definition is_type (t : option token) (ty : string) : bool :=
  match t with Some t => fst t =? ty | None => false end.
Definition is_value (t : option token) (v : string) : bool :=
  match t with Some t => snd t =? v | None => false end.
Definition value_in (t : option token) (l : list string) : bool :=
  match t with Some t => mem (snd t) l | None => false end.
Definition type_in (t : option token) (l : list string) : bool :=
  match t with Some t => mem (fst t) l | None => false end.

(** [is_function_definition], identical in both parsers *)
Definition is_function_definition : P bool :=
  (t0 <- peek 0 ;; t1 <- peek 1 ;; t2 <- peek 2 ;;
   ret (is_type t0 "KEYWORD" && value_in t0 ["int"; "float"; "void"]
        && is_type t1 "IDENTIFIER" && is_type t2 "LPAREN"))%monad.

End Tokens.

(** ** parsercpp.py *)

Module Parser.
Import PyStr Tokens.
Local Open Scope monad_scope.

(** *** ExpressionParser

    [parse_term] calls [parse_expression] back for a parenthesised
    expression; the three functions descend on a shared fuel. *)

Fixpoint parse_expression (fuel : nat) (ts : list token)
  : result (node * list token) :=
  match fuel with
  | O => Diverge
  | S fuel' =>
      (left <- parse_term fuel' ;;
       expression_loop fuel' left) ts
  end

(** [while current_token and current_token[0] in [...]] *)
with expression_loop (fuel : nat) (left : node) (ts : list token)
  : result (node * list token) :=
  match fuel with
  | O => Diverge
  | S fuel' =>
      (t <- current_token ;;
       if type_in t ["ARITHMETIC_OPERATOR"; "RELATIONAL_OPERATOR"]
       then
         ty <- current_unchecked ;;
         op <- match_ (fst ty) ;;
         right <- parse_term fuel' ;;
         expression_loop fuel' (BinaryExpression (snd op) left right)
       else ret left) ts
  end

with parse_term (fuel : nat) (ts : list token)
  : result (node * list token) :=
  match fuel with
  | O => Diverge
  | S fuel' =>
     (token <- current_unchecked ;;
      if fst token =? "NUMBER" then
        t <- match_ "NUMBER" ;; ret (Number (snd t))
      else if fst token =? "IDENTIFIER" then
        t <- match_ "IDENTIFIER" ;;
        nxt <- current_token ;;
        if is_type nxt "ARITHMETIC_OPERATOR" && value_in nxt ["++"; "--"]
        then
          op <- match_ "ARITHMETIC_OPERATOR" ;;
          ret (Increment (snd t) (snd op))
        else ret (Identifier (snd t))
      else if fst token =? "STRING" then
        t <- match_ "STRING" ;; ret (StringLiteral (snd t))
      else if fst token =? "LPAREN" then
        match_ "LPAREN" ;;;
        expression <- parse_expression fuel' ;;
        match_ "RPAREN" ;;;
        ret expression
      else if mem (fst token) ["SEMICOLON"; "LBRACE"; "RBRACE"] then
        raise (SyntaxError "Unexpected end of expression: " (Some token))
      else
        raise (SyntaxError "Unexpected token in expression: " (Some token)))
       ts
  end.

(** [while cond: body] with a turn counter: [body] returns [None] when
    the condition fails, and the accumulated list when the loop ends. *)
Fixpoint collect {A} (turns : nat) (body : P (option A)) (acc : list A)
  (ts : list token) : result (list A * list token) :=
  match turns with
  | O => Diverge
  | S turns' =>
      (r <- body ;;
       match r with
       | Some a => collect turns' body (acc ++ [a])
       | None => ret acc
       end) ts
  end.

(** An upper bound on the turns of a loop that reads a token per turn. *)
Definition turns_left : P nat := ts <- get ;; ret (S (length ts)).

Section StatementParser.
(** The fuel handed to the expression parser, and the recursive calls
    of the statement parser. *)
Variable fuel : nat.
Variable parse_statement : P node.
Variable parse_if_statement_rec : P node.

Definition parse_block : P node :=
  match_ "LBRACE" ;;;
  n <- turns_left ;;
  statements <-
    collect n
      (t <- current_token ;;
       match t with
       | Some t =>
           if negb (fst t =? "RBRACE")
           then st <- parse_statement ;; ret (Some st)
           else ret None
       | None => ret None
       end) [] ;;
  match_ "RBRACE" ;;;
  ret (Block statements).

Definition parse_function_definition : P node :=
  return_type <- match_ "KEYWORD" ;;
  func_name <- match_ "IDENTIFIER" ;;
  match_ "LPAREN" ;;;
  match_ "RPAREN" ;;;
  body <- parse_block ;;
  match body with
  | Block statements =>
      ret (FunctionDefinition (snd return_type) (snd func_name) statements)
  | _ => raise (KeyError "statements")
  end.

Definition parse_assignment : P node :=
  var_name <- match_ "IDENTIFIER" ;;
  next_token <- current_token ;;
  if is_type next_token "ARITHMETIC_OPERATOR" && is_value next_token "="
  then
    match_ "ARITHMETIC_OPERATOR" ;;;
    expression <- parse_expression fuel ;;
    match_ "SEMICOLON" ;;;
    ret (Assignment (snd var_name) expression)
  else if is_type next_token "COMPOUND_ASSIGNMENT" then
    operator <- match_ "COMPOUND_ASSIGNMENT" ;;
    right_expr <- parse_expression fuel ;;
    match_ "SEMICOLON" ;;;
    ret (Assignment (snd var_name)
           (BinaryExpression (String.substring 0 1 (snd operator))
              (Identifier (snd var_name)) right_expr))
  else
    raise (SyntaxError
             ("Expected '=' or compound assignment operator after identifier '"
              ++ snd var_name ++ "' in assignment") None).

Definition parse_expression_statement : P node :=
  expression <- parse_expression fuel ;;
  match_ "SEMICOLON" ;;;
  ret (ExpressionStatement expression).

Definition parse_while_loop : P node :=
  match_ "KEYWORD" ;;;
  match_ "LPAREN" ;;;
  condition <- parse_expression fuel ;;
  match_ "RPAREN" ;;;
  body <- parse_statement ;;
  ret (WhileLoop condition body).

Definition parse_for_increment : P (option node) :=
  c <- current_unchecked ;;
  if negb (fst c =? "RPAREN") then
    if fst c =? "IDENTIFIER" then
      inc_var <- match_ "IDENTIFIER" ;;
      next_token <- current_unchecked ;;
      if (fst next_token =? "ARITHMETIC_OPERATOR")
         && mem (snd next_token) ["++"; "--"]
      then
        operator <- match_ "ARITHMETIC_OPERATOR" ;;
        ret (Some (Increment (snd inc_var) (snd operator)))
      else if (fst next_token =? "ARITHMETIC_OPERATOR")
              && (snd next_token =? "=")
      then
        match_ "ARITHMETIC_OPERATOR" ;;;
        expression <- parse_expression fuel ;;
        ret (Some (Assignment (snd inc_var) expression))
      else if fst next_token =? "COMPOUND_ASSIGNMENT" then
        operator <- match_ "COMPOUND_ASSIGNMENT" ;;
        expression <- parse_expression fuel ;;
        ret (Some (Assignment (snd inc_var)
                     (BinaryExpression (String.substring 0 1 (snd operator))
                        (Identifier (snd inc_var)) expression)))
      else
        raise (SyntaxError "Unexpected token after increment variable: "
                 (Some next_token))
    else ret None
  else ret None.

Definition parse_for_loop : P node :=
  match_ "KEYWORD" ;;;
  match_ "LPAREN" ;;;
  c <- current_unchecked ;;
  init <-
    (if fst c =? "KEYWORD" then
       init_type <- match_ "KEYWORD" ;;
       var_name <- match_ "IDENTIFIER" ;;
       match_ "ARITHMETIC_OPERATOR" ;;;
       start_value <- parse_expression fuel ;;
       ret (VariableDeclaration (snd init_type) (snd var_name)
              (Some start_value))
     else if fst c =? "IDENTIFIER" then
       var_name <- match_ "IDENTIFIER" ;;
       match_ "ARITHMETIC_OPERATOR" ;;;
       start_value <- parse_expression fuel ;;
       ret (Assignment (snd var_name) start_value)
     else
       raise (SyntaxError
                "For loop initialization must start with a type or identifier"
                None)) ;;
  match_ "SEMICOLON" ;;;
  c <- current_unchecked ;;
  condition <-
    (if negb (fst c =? "SEMICOLON") then parse_expression fuel
     else ret (BooleanLiteral "true")) ;;
  match_ "SEMICOLON" ;;;
  increment <- parse_for_increment ;;
  match_ "RPAREN" ;;;
  body <- parse_statement ;;
  ret (ForLoop init condition increment body).

Definition parse_if_statement_body : P node :=
  match_ "KEYWORD" ;;;
  match_ "LPAREN" ;;;
  condition <- parse_expression fuel ;;
  match_ "RPAREN" ;;;
  true_branch <- parse_statement ;;
  t <- current_token ;;
  false_branch <-
    (if is_value t "else" then
       match_ "KEYWORD" ;;;
       t <- current_token ;;
       if is_type t "KEYWORD" && is_value t "if"
       then fb <- parse_if_statement_rec ;; ret (Some fb)
       else fb <- parse_statement ;; ret (Some fb)
     else ret None) ;;
  ret (IfStatement condition true_branch false_branch).

Definition parse_io_statement : P node :=
  io_operator <- match_ "IDENTIFIER" ;;
  n <- turns_left ;;
  expressions <-
    collect n
      (t <- current_token ;;
       if is_type t "INSERTION_OPERATOR" then
         match_ "INSERTION_OPERATOR" ;;;
         c <- current_unchecked ;;
         if mem (fst c) ["STRING"; "IDENTIFIER"; "NUMBER"; "LPAREN"]
         then e <- parse_expression fuel ;; ret (Some e)
         else raise (SyntaxError
                       ("Expected expression after '" ++ snd io_operator
                        ++ " <<'") None)
       else ret None) [] ;;
  match_ "SEMICOLON" ;;;
  ret (IOStatement (snd io_operator) expressions).

Definition parse_return_statement : P node :=
  match_ "KEYWORD" ;;;
  expression <- parse_expression fuel ;;
  match_ "SEMICOLON" ;;;
  ret (ReturnStatement expression).

Definition type_keywords : list string :=
  ["int"; "float"; "double"; "bool"; "char"; "string"; "void"].

Definition parse_variable_declaration : P node :=
  c <- current_unchecked ;;
  if mem (snd c) type_keywords then
    var_type <- match_ "KEYWORD" ;;
    var_name <- match_ "IDENTIFIER" ;;
    t <- current_token ;;
    if is_type t "ARITHMETIC_OPERATOR" && is_value t "=" then
      match_ "ARITHMETIC_OPERATOR" ;;;
      initializer <- parse_expression fuel ;;
      match_ "SEMICOLON" ;;;
      ret (VariableDeclaration (snd var_type) (snd var_name)
             (Some initializer))
    else
      match_ "SEMICOLON" ;;;
      ret (VariableDeclaration (snd var_type) (snd var_name) None)
  else raise (SyntaxError ("Unsupported type: " ++ snd c) None).

Definition parse_function_call : P node :=
  func_name <- match_ "IDENTIFIER" ;;
  match_ "LPAREN" ;;;
  c <- current_unchecked ;;
  args <-
    (if negb (fst c =? "RPAREN") then
       first <- parse_expression fuel ;;
       n <- turns_left ;;
       collect n
         (t <- current_token ;;
          if is_type t "COMMA" then
            match_ "COMMA" ;;;
            e <- parse_expression fuel ;; ret (Some e)
          else ret None) [first]
     else ret []) ;;
  match_ "RPAREN" ;;;
  match_ "SEMICOLON" ;;;
  ret (FunctionCall (snd func_name) args).

Definition parse_statement_body : P node :=
  token <- current_token ;;
  match token with
  | None =>
      raise (SyntaxError "Unexpected end of input while parsing statement"
               None)
  | Some (token_type, token_value) =>
      if token_type =? "KEYWORD" then
        if token_value =? "if" then parse_if_statement_body
        else if token_value =? "while" then parse_while_loop
        else if token_value =? "for" then parse_for_loop
        else if token_value =? "return" then parse_return_statement
        else if mem token_value type_keywords then
          next_token <- peek 1 ;;
          if is_type next_token "IDENTIFIER" then
            next_next_token <- peek 2 ;;
            if is_type next_next_token "LPAREN"
            then parse_function_definition
            else parse_variable_declaration
          else
            raise (SyntaxError
                     ("Expected identifier after type '" ++ token_value
                      ++ "'") None)
        else raise (SyntaxError ("Unsupported keyword: " ++ token_value)
                      None)
      else if token_type =? "IDENTIFIER" then
        next_token <- peek 1 ;;
        if is_type next_token "LPAREN" then parse_function_call
        else if is_type next_token "ARITHMETIC_OPERATOR"
                && value_in next_token ["++"; "--"]
        then parse_expression_statement
        else if type_in next_token
                  ["ARITHMETIC_OPERATOR"; "COMPOUND_ASSIGNMENT"]
                && negb (value_in next_token ["++"; "--"])
        then parse_assignment
        else if mem token_value ["cout"; "cin"] then parse_io_statement
        else parse_expression_statement
      else if token_type =? "NUMBER" then parse_expression_statement
      else if token_type =? "LBRACE" then parse_block
      else if token_type =? "SEMICOLON" then
        match_ "SEMICOLON" ;;; ret EmptyStatement
      else
        raise (SyntaxError
                 ("Unexpected token: " ++ token_type ++ " " ++ token_value)
                 None)
  end.
End StatementParser.

Fixpoint parse_statement (fuel : nat) (ts : list token)
  : result (node * list token) :=
  match fuel with
  | O => Diverge
  | S fuel' =>
      parse_statement_body fuel'
        (parse_statement fuel') (parse_if_statement fuel') ts
  end
with parse_if_statement (fuel : nat) (ts : list token)
  : result (node * list token) :=
  match fuel with
  | O => Diverge
  | S fuel' =>
      parse_if_statement_body fuel'
        (parse_statement fuel') (parse_if_statement fuel') ts
  end.

Definition parse_program_fuel (fuel : nat) : P node :=
  n <- turns_left ;;
  statements <-
    collect n
      (t <- current_token ;;
       match t with
       | Some _ =>
           fd <- is_function_definition ;;
           if fd
           then st <- parse_function_definition (parse_statement fuel) ;;
                ret (Some st)
           else st <- parse_statement fuel ;; ret (Some st)
       | None => ret None
       end) [] ;;
  ret (Program statements).

(** [Parser(tokens).parse_program()].  The fuel bounds the nesting of the
    recursive calls. *)
Definition parse_program (tokens : list token) : result node :=
  match parse_program_fuel (2 * length tokens + 2) tokens with
  | Ok (ast, _) => Ok ast
  | Raise e => Raise e
  | Diverge => Diverge
  end.

End Parser.

(** ** python_parser.py *)

Module PythonParser.
Import PyStr Tokens.
Local Open Scope monad_scope.

(** *** ExpressionParser *)

Fixpoint parse_expression (fuel : nat) (ts : list token)
  : result (node * list token) :=
  match fuel with
  | O => Diverge
  | S fuel' =>
      (left <- parse_term fuel' ;;
       expression_loop fuel' left) ts
  end

with expression_loop (fuel : nat) (left : node) (ts : list token)
  : result (node * list token) :=
  match fuel with
  | O => Diverge
  | S fuel' =>
      (t <- current_token ;;
       if type_in t ["ARITHMETIC_OPERATOR"; "RELATIONAL_OPERATOR";
                     "COMPARISON_OPERATOR"]
       then
         ty <- current_unchecked ;;
         op <- match_ (fst ty) ;;
         right <- parse_term fuel' ;;
         expression_loop fuel' (BinaryExpression (snd op) left right)
       else ret left) ts
  end

with parse_term (fuel : nat) (ts : list token)
  : result (node * list token) :=
  match fuel with
  | O => Diverge
  | S fuel' =>
      (token <- current_token ;;
       match token with
       | None =>
           raise (SyntaxError "Unexpected end of input in expression" None)
       | Some (token_type, token_value) =>
           if token_type =? "NUMBER" then
             t <- match_ "NUMBER" ;; ret (Number (snd t))
           else if token_type =? "STRING" then
             t <- match_ "STRING" ;; ret (StringLiteral (snd t))
           else if mem token_type ["IDENTIFIER"; "KEYWORD"] then
             match_ token_type ;;;
             nxt <- current_token ;;
             if is_type nxt "LPAREN" then
               match_ "LPAREN" ;;;
               args <- parse_arguments fuel' [] ;;
               match_ "RPAREN" ;;;
               ret (FunctionCall token_value args)
             else if token_type =? "IDENTIFIER" then
               ret (Identifier token_value)
             else
               raise (SyntaxError
                        ("Keyword '" ++ token_value
                         ++ "' used outside of function call") None)
           else if token_type =? "LPAREN" then
             match_ "LPAREN" ;;;
             expression <- parse_expression fuel' ;;
             match_ "RPAREN" ;;;
             ret expression
           else
             raise (SyntaxError "Unexpected token in expression: "
                      (Some (token_type, token_value)))
       end) ts
  end

(** [parse_arguments]: the loop, with the arguments read so far *)
with parse_arguments (fuel : nat) (args : list node) (ts : list token)
  : result (list node * list token) :=
  match fuel with
  | O => Diverge
  | S fuel' =>
      (t <- current_token ;;
       match t with
       | Some t =>
           if negb (fst t =? "RPAREN") then
             e <- parse_expression fuel' ;;
             c <- current_token ;;
             (if is_type c "COMMA" then match_ "COMMA" ;;; ret tt
              else ret tt) ;;;
             parse_arguments fuel' (args ++ [e])
           else ret args
       | None => ret args
       end) ts
  end.

Definition collect {A} := @Parser.collect A.
Definition turns_left := Parser.turns_left.

(** [if current_token and current_token[0] == 'SEMICOLON': match] *)
Definition skip_semicolon : P unit :=
  t <- current_token ;;
  if is_type t "SEMICOLON" then match_ "SEMICOLON" ;;; ret tt else ret tt.

Section StatementParser.
Variable fuel : nat.
Variable parse_statement : P node.

Definition parse_block : P node :=
  match_ "LBRACE" ;;;
  n <- turns_left ;;
  statements <-
    collect n
      (t <- current_token ;;
       match t with
       | Some t =>
           if negb (fst t =? "RBRACE")
           then st <- parse_statement ;; ret (Some st)
           else ret None
       | None => ret None
       end) [] ;;
  match_ "RBRACE" ;;;
  ret (Block statements).

Definition parse_function_definition : P node :=
  return_type <- match_ "KEYWORD" ;;
  func_name <- match_ "IDENTIFIER" ;;
  match_ "LPAREN" ;;;
  match_ "RPAREN" ;;;
  body <- parse_block ;;
  match body with
  | Block statements =>
      ret (FunctionDefinition (snd return_type) (snd func_name) statements)
  | _ => raise (KeyError "statements")
  end.

Definition parse_for_loop : P node :=
  match_ "KEYWORD" ;;;
  iterator <- match_ "IDENTIFIER" ;;
  match_ "IDENTIFIER" ;;;
  range_token <- match_ "IDENTIFIER" ;;
  if negb (snd range_token =? "range") then
    raise (SyntaxError "Expected 'range' after 'in' in for loop" None)
  else
    match_ "LPAREN" ;;;
    start <- parse_expression fuel ;;
    t <- current_token ;;
    stop_step <-
      (if is_type t "COMMA" then
         match_ "COMMA" ;;;
         stop <- parse_expression fuel ;;
         t <- current_token ;;
         if is_type t "COMMA" then
           match_ "COMMA" ;;;
           step <- parse_expression fuel ;;
           ret (Some stop, Some step)
         else ret (Some stop, None)
       else ret (None, None)) ;;
    match_ "RPAREN" ;;;
    match_ "COLON" ;;;
    st <- parse_statement ;;
    let body := [st] in
    match stop_step with
    | (None, _) =>
        ret (ForRange (snd iterator) (Some start) None None None body)
    | (Some stop, None) =>
        ret (ForRange (snd iterator) None (Some start) (Some stop) None
               body)
    | (Some stop, Some step) =>
        ret (ForRange (snd iterator) None (Some start) (Some stop)
               (Some step) body)
    end.

Definition parse_while_loop : P node :=
  match_ "KEYWORD" ;;;
  condition <- parse_expression fuel ;;
  match_ "COLON" ;;;
  n <- turns_left ;;
  body <-
    collect n
      (t <- current_token ;;
       match t with
       | Some t =>
           if negb (mem (snd t) ["while"; "for"])
           then st <- parse_statement ;; ret (Some st)
           else ret None
       | None => ret None
       end) [] ;;
  ret (WhileLoopPy condition body).

Definition parse_variable_declaration : P node :=
  var_type <- match_ "KEYWORD" ;;
  var_name <- match_ "IDENTIFIER" ;;
  t <- current_token ;;
  if is_type t "ASSIGNMENT_OPERATOR" then
    match_ "ASSIGNMENT_OPERATOR" ;;;
    initializer <- parse_expression fuel ;;
    skip_semicolon ;;;
    ret (VariableDeclaration (snd var_type) (snd var_name)
           (Some initializer))
  else
    skip_semicolon ;;;
    ret (VariableDeclaration (snd var_type) (snd var_name) None).

Definition parse_assignment : P node :=
  var_name <- match_ "IDENTIFIER" ;;
  next_token <- current_unchecked ;;
  expression <-
    (if fst next_token =? "ASSIGNMENT_OPERATOR" then
       match_ "ASSIGNMENT_OPERATOR" ;;;
       parse_expression fuel
     else if fst next_token =? "ARITHMETIC_OPERATOR" then
       operator <- match_ "ARITHMETIC_OPERATOR" ;;
       match_ "ASSIGNMENT_OPERATOR" ;;;
       right <- parse_expression fuel ;;
       ret (BinaryExpression (snd operator) (Identifier (snd var_name))
              right)
     else
       raise (SyntaxError
                ("Expected assignment operator after " ++ snd var_name)
                None)) ;;
  skip_semicolon ;;;
  ret (Assignment (snd var_name) expression).

(** [StatementParser.parse_arguments] runs the same loop as the
    expression parser's. *)
Definition parse_function_call : P node :=
  func_name <- match_ "IDENTIFIER" ;;
  match_ "LPAREN" ;;;
  args <- parse_arguments fuel [] ;;
  match_ "RPAREN" ;;;
  skip_semicolon ;;;
  ret (FunctionCall (snd func_name) args).

(** [if self.parser.current_token(): body.append(parse_statement())] *)
Definition single_statement_block : P node :=
  t <- current_token ;;
  match t with
  | Some _ => st <- parse_statement ;; ret (Block [st])
  | None => ret (Block [])
  end.

(** The [elif]/[else] loop.  The source links each new node into the
    ['false_branch'] slot of the previous one; here the tail of the
    chain is parsed first and returned as that slot's value. *)
Fixpoint parse_else_chain (turns : nat) (ts : list token)
  : result (option node * list token) :=
  match turns with
  | O => Diverge
  | S turns' =>
      (t <- current_token ;;
       if is_value t "elif" then
         match_ "KEYWORD" ;;;
         elif_condition <- parse_expression fuel ;;
         match_ "COLON" ;;;
         elif_true_branch <- single_statement_block ;;
         rest <- parse_else_chain turns' ;;
         ret (Some (IfStatement elif_condition elif_true_branch rest))
       else if is_value t "else" then
         match_ "KEYWORD" ;;;
         match_ "COLON" ;;;
         else_block <- single_statement_block ;;
         ret (Some else_block)
       else ret None) ts
  end.

Definition parse_if_statement : P node :=
  match_ "KEYWORD" ;;;
  condition <- parse_expression fuel ;;
  match_ "COLON" ;;;
  true_branch <- single_statement_block ;;
  n <- turns_left ;;
  false_branch <- parse_else_chain n ;;
  ret (IfStatement condition true_branch false_branch).

Definition parse_io_statement : P node :=
  io_operator <- match_ "IDENTIFIER" ;;
  operator_token <- current_token ;;
  if is_type operator_token "INSERTION_OPERATOR" then
    match_ "INSERTION_OPERATOR" ;;;
    expression <- parse_expression fuel ;;
    match_ "SEMICOLON" ;;;
    ret (IOStatementPy (snd io_operator) expression)
  else
    raise (SyntaxError
             ("Expected insertion operator after " ++ snd io_operator)
             None).

Definition parse_print_statement : P node :=
  match_ "KEYWORD" ;;;
  match_ "LPAREN" ;;;
  args <- parse_arguments fuel [] ;;
  match_ "RPAREN" ;;;
  ret (PrintStatement args).

Definition parse_return_statement : P node :=
  raise (NotImplementedError "Return statement parsing not implemented").

Definition parse_statement_body : P node :=
  token <- current_token ;;
  match token with
  | None =>
      raise (SyntaxError "Unexpected end of input while parsing statement"
               None)
  | Some (token_type, token_value) =>
      if token_type =? "KEYWORD" then
        if token_value =? "print" then parse_print_statement
        else if token_value =? "if" then parse_if_statement
        else if token_value =? "while" then parse_while_loop
        else if token_value =? "return" then parse_return_statement
        else if token_value =? "for" then parse_for_loop
        else if mem token_value ["int"; "float"; "void"] then
          next_token <- peek 1 ;;
          if is_type next_token "IDENTIFIER" then
            next_next_token <- peek 2 ;;
            if is_type next_next_token "LPAREN"
            then parse_function_definition
            else parse_variable_declaration
          else
            raise (SyntaxError
                     ("Unexpected token after type: " ++ token_value) None)
        else if mem token_value ["elif"; "else"] then
          raise (SyntaxError
                   ("'" ++ token_value
                    ++ "' encountered outside of if statement context")
                   None)
        else raise (SyntaxError ("Unsupported keyword: " ++ token_value)
                      None)
      else if token_type =? "IDENTIFIER" then
        next_token <- peek 1 ;;
        next_next_token <- peek 2 ;;
        if is_type next_token "LPAREN" then parse_function_call
        else if is_type next_token "ASSIGNMENT_OPERATOR"
                || (is_type next_token "ARITHMETIC_OPERATOR"
                    && is_type next_next_token "ASSIGNMENT_OPERATOR")
        then parse_assignment
        else if mem token_value ["cout"; "cin"] then parse_io_statement
        else
          raise (SyntaxError
                   ("Unexpected identifier usage: " ++ token_value) None)
      else if token_type =? "LBRACE" then parse_block
      else
        raise (SyntaxError
                 ("Unexpected token: " ++ token_type ++ " " ++ token_value)
                 None)
  end.
End StatementParser.

Fixpoint parse_statement (fuel : nat) (ts : list token)
  : result (node * list token) :=
  match fuel with
  | O => Diverge
  | S fuel' => parse_statement_body fuel' (parse_statement fuel') ts
  end.

Definition parse_program_fuel (fuel : nat) : P node :=
  n <- turns_left ;;
  statements <-
    collect n
      (t <- current_token ;;
       match t with
       | Some _ =>
           fd <- is_function_definition ;;
           if fd
           then st <- parse_function_definition (parse_statement fuel) ;;
                ret (Some st)
           else st <- parse_statement fuel ;; ret (Some st)
       | None => ret None
       end) [] ;;
  ret (Program statements).

(** [PythonParser(tokens).parse_program()] *)
Definition parse_program (tokens : list token) : result node :=
  match parse_program_fuel (2 * length tokens + 2) tokens with
  | Ok (ast, _) => Ok ast
  | Raise e => Raise e
  | Diverge => Diverge
  end.

End PythonParser.

(** ** semantic_analyzer_cpp.py *)

Module SemanticAnalyzer.
Import PyStr.
Local Open Scope monad_scope.

(** What a scope binds a name to: the declared type of a variable, or
    the dictionary [{'type': 'function', 'params': {}, 'return_type': rt}]
    that [analyze_function] stores for a function (the parsers give
    functions no parameters). *)
Inductive symbol : Type :=
| VarType (t : string)
| FunctionInfo (return_type : string).

Definition symbol_eqb (a b : symbol) : bool :=
  match a, b with
  | VarType s, VarType t => s =? t
  | FunctionInfo s, FunctionInfo t => s =? t
  | _, _ => false
  end.

(** [scope_stack] in Python's order: the global scope first, the
    innermost scope last. *)
Record state : Type :=
  { scope_stack : list (gmap string symbol);
    errors : list string }.

Definition A (T : Type) : Type := M state T.

(** [__init__] *)
Definition initial : state := {| scope_stack := [∅]; errors := [] |}.

(** [errors.append(msg)] *)
Definition report (msg : string) : A unit :=
  modify (fun st =>
            {| scope_stack := scope_stack st; errors := errors st ++ [msg] |}).

Definition set_stack (stk : list (gmap string symbol)) : A unit :=
  modify (fun st => {| scope_stack := stk; errors := errors st |}).

Definition enter_scope : A unit :=
  st <- get ;; set_stack (scope_stack st ++ [∅]).

Definition exit_scope : A unit :=
  st <- get ;;
  match scope_stack st with
  | [] => raise IndexError
  | _ :: _ => set_stack (removelast (scope_stack st))
  end.

(** [for scope in reversed(scope_stack): if var_name in scope: return ...] *)
Fixpoint lookup_in (var_name : string) (innermost_first : list (gmap string symbol))
  : option symbol :=
  match innermost_first with
  | [] => None
  | scope :: outer =>
      match scope !! var_name with
      | Some v => Some v
      | None => lookup_in var_name outer
      end
  end.

Definition lookup_stack (var_name : string) (stk : list (gmap string symbol))
  : option symbol :=
  lookup_in var_name (rev stk).

Definition lookup_variable (var_name : string) : A (option symbol) :=
  st <- get ;; ret (lookup_stack var_name (scope_stack st)).

(** Python truth value of a lookup result: [None] and the empty string
    are false. *)
Definition truthy (v : option symbol) : bool :=
  match v with
  | None => false
  | Some (VarType t) => negb (t =? EmptyString)
  | Some (FunctionInfo _) => true
  end.

(** [f"{v}"] for a lookup result or an expression type *)
Definition fmt (v : option symbol) : string :=
  match v with
  | None => "None"
  | Some (VarType t) => t
  | Some (FunctionInfo rt) =>
      "{'type': 'function', 'params': {}, 'return_type': '" ++ rt ++ "'}"
  end.

Definition is_str (v : option symbol) (t : string) : bool :=
  match v with Some (VarType s) => s =? t | _ => false end.

Definition numeric (v : option symbol) : bool :=
  is_str v "int" || is_str v "float".

Definition opt_symbol_eqb (a b : option symbol) : bool :=
  match a, b with
  | Some x, Some y => symbol_eqb x y
  | None, None => true
  | _, _ => false
  end.

Definition msg_redeclared (x : string) : string :=
  "Error: Variable '" ++ x ++ "' already declared in this scope.".
Definition msg_shadows (x : string) : string :=
  "Warning: Variable '" ++ x ++ "' shadows a declaration in an outer scope.".
Definition msg_already_declared (x : string) : string :=
  "Error: Variable '" ++ x ++ "' already declared.".
Definition msg_undeclared_in (x context : string) : string :=
  "Error: Variable '" ++ x ++ "' not declared in " ++ context ++ ".".
Definition msg_undeclared (x : string) : string :=
  "Error: Variable '" ++ x ++ "' not declared.".
Definition msg_non_numeric_increment (ty x : string) : string :=
  "Warning: Increment operation on non-numeric type '" ++ ty
  ++ "' for variable '" ++ x ++ "'.".
Definition msg_unsupported_statement (ty : string) : string :=
  "Warning: Unsupported statement type '" ++ ty ++ "'.".

Definition declare_variable (var_name : string) (var_type : symbol)
  (is_member : bool) : A unit :=
  st <- get ;;
  match last (scope_stack st) with
  | None => raise IndexError
  | Some scope =>
      match scope !! var_name with
      | Some _ => report (msg_redeclared var_name)
      | None =>
          match lookup_stack var_name (scope_stack st) with
          | Some _ =>
              if negb is_member then report (msg_shadows var_name)
              else set_stack (removelast (scope_stack st)
                              ++ [<[var_name := var_type]> scope])
          | None =>
              set_stack (removelast (scope_stack st)
                         ++ [<[var_name := var_type]> scope])
          end
      end
  end.

Definition comparison_operators : list string :=
  [">"; "<"; ">="; "<="; "=="; "!="].

Fixpoint evaluate_expression_type (expression : node) (context : string)
  : A (option symbol) :=
  match expression with
  | Number _ => ret (Some (VarType "int"))
  | Identifier value =>
      var_type <- lookup_variable value ;;
      match var_type with
      | None => report (msg_undeclared_in value context) ;;; ret None
      | Some _ => ret var_type
      end
  | BinaryExpression operator lhs rhs =>
      left_type <-
        evaluate_expression_type lhs
          ("left operand of '" ++ operator ++ "' in " ++ context) ;;
      right_type <-
        evaluate_expression_type rhs
          ("right operand of '" ++ operator ++ "' in " ++ context) ;;
      if mem operator comparison_operators then
        if truthy left_type && truthy right_type then
          if opt_symbol_eqb left_type right_type
          then ret (Some (VarType "bool"))
          else
            report ("Error: Type mismatch in " ++ context
                    ++ " for operator '" ++ operator ++ "'. Cannot compare '"
                    ++ fmt left_type ++ "' with '" ++ fmt right_type ++ "'.") ;;;
            ret None
        else ret None
      else if is_str left_type "float" || is_str right_type "float"
      then ret (Some (VarType "float"))
      else if is_str left_type "int" && is_str right_type "int"
      then ret (Some (VarType "int"))
      else
        report ("Error: Invalid types '" ++ fmt left_type ++ "' and '"
                ++ fmt right_type ++ "' for operator '" ++ operator
                ++ "' in " ++ context ++ ".") ;;;
        ret None
  | StringLiteral _ => ret (Some (VarType "string"))
  | FunctionCall func_name _ =>
      func_info <- lookup_variable func_name ;;
      if truthy func_info then
        match func_info with
        | Some (FunctionInfo rt) => ret (Some (VarType rt))
        | _ => raise (TypeError "string indices must be integers")
        end
      else
        report ("Error: Function '" ++ func_name ++ "' not declared in "
                ++ context ++ ".") ;;;
        ret None
  | BooleanLiteral _ => ret (Some (VarType "bool"))
  | Other t =>
      if (t =? "NUMBER") then ret (Some (VarType "int"))
      else if (t =? "STRING_LITERAL") then ret (Some (VarType "string"))
      else if (t =? "BOOLEAN_LITERAL") then ret (Some (VarType "bool"))
      else if (t =? "IDENTIFIER") then raise (KeyError "value")
      else if (t =? "BINARY_EXPRESSION") then raise (KeyError "left")
      else if (t =? "FUNCTION_CALL") then raise (KeyError "func_name")
      else
        report ("Error: Unsupported expression type '" ++ t ++ "' in "
                ++ context ++ ".") ;;;
        ret None
  | _ =>
      report ("Error: Unsupported expression type '" ++ node_type expression
              ++ "' in " ++ context ++ ".") ;;;
      ret None
  end.

(** [_is_type_compatible] *)
Definition _is_type_compatible (declared_type : string)
  (expr_type : option symbol) : bool :=
  is_str expr_type declared_type
  || (mem declared_type ["int"; "float"] && numeric expr_type)
  || ((declared_type =? "string") && is_str expr_type "string").

Definition _analyze_variable_declaration (var_type var_name : string)
  (initializer : option node) : A unit :=
  bound <- lookup_variable var_name ;;
  (if truthy bound then report (msg_already_declared var_name)
   else declare_variable var_name (VarType var_type) false) ;;;
  match initializer with
  | Some init =>
      init_type <-
        evaluate_expression_type init
          ("initializer for '" ++ var_name ++ "'") ;;
      if truthy init_type && negb (_is_type_compatible var_type init_type)
      then
        report ("Error: Type mismatch in variable declaration: '" ++ var_name
                ++ "' declared as '" ++ var_type
                ++ "' but initialized with type '" ++ fmt init_type ++ "'.")
      else ret tt
  | None => ret tt
  end.

Definition check_assignment (var_name : string) (expression : node)
  : A unit :=
  var_type <- lookup_variable var_name ;;
  match var_type with
  | None => report (msg_undeclared var_name)
  | Some _ =>
      expr_type <-
        evaluate_expression_type expression
          ("assignment to '" ++ var_name ++ "'") ;;
      if truthy expr_type && negb (opt_symbol_eqb var_type expr_type)
      then
        report ("Error: Type mismatch in assignment to '" ++ var_name
                ++ "'. Expected " ++ fmt var_type ++ ", got "
                ++ fmt expr_type ++ ".")
      else ret tt
  end.

Definition analyze_return_statement (expression : node) : A unit :=
  expression_type <- evaluate_expression_type expression "return statement" ;;
  match expression_type with
  | None => report "Error: Invalid expression in return statement."
  | Some _ => ret tt
  end.

Definition analyze_io_statement (io_operator : string)
  (expressions : list node) : A unit :=
  forM_ (fun expression =>
           expr_type <-
             evaluate_expression_type expression
               ("I/O statement with operator '" ++ io_operator ++ "'") ;;
           match expr_type with
           | None => report "Error: Invalid expression in I/O statement."
           | Some _ => ret tt
           end) expressions.

(** The check shared by [analyze_increment], the INCREMENT case of
    [analyze_expression_statement] and the loop header; [missing] is the
    message for an unbound name. *)
Definition check_increment (var_name missing : string) : A unit :=
  var_type <- lookup_variable var_name ;;
  match var_type with
  | None => report missing
  | Some _ =>
      if negb (numeric var_type)
      then report (msg_non_numeric_increment (fmt var_type) var_name)
      else ret tt
  end.

Definition analyze_increment (var_name : string) : A unit :=
  check_increment var_name
    ("Error: Variable '" ++ var_name
     ++ "' not declared for increment operation.").

Definition analyze_expression_statement (expression : node) : A unit :=
  match expression with
  | Increment var_name _ =>
      check_increment var_name
        ("Error: Variable '" ++ var_name ++ "' not declared for increment.")
  | _ =>
      if bare expression "INCREMENT" then raise (KeyError "var_name")
      else
        evaluate_expression_type expression "expression statement" ;;;
        ret tt
  end.

(** The diagnostic of each handler on a dictionary that carries the
    discriminant [t] and no other key; [None] when no handler is
    registered for [t]. *)
Definition bare_node (t : string) : option (A unit) :=
  if t =? "VARIABLE_DECLARATION" then
    Some (report "Variable declaration must have 'var_name' and 'var_type' fields.")
  else if t =? "ASSIGNMENT" then
    Some (report "Assignment statement must have 'var_name' and 'expression' fields.")
  else if t =? "FUNCTION_DEFINITION" then
    Some (report "Function definition must include 'func_name' and 'body' fields.")
  else if t =? "BLOCK" then
    Some (report "Invalid block structure. Expected a dictionary with 'statements' key.")
  else if t =? "IF_STATEMENT" then
    Some (report "If statement must have 'condition' and 'true_branch' fields.")
  else if t =? "WHILE_LOOP" then
    Some (report "While loop must have 'condition' and 'body' fields.")
  else if t =? "RETURN_STATEMENT" then
    Some (report "Return statement must have an 'expression' field.")
  else if t =? "CLASS_DEFINITION" then
    Some (report "Class definition must have 'class_name' and 'body' fields.")
  else if t =? "IO_STATEMENT" then
    Some (report "I/O statement must have an 'io_operator' field.")
  else if t =? "INCREMENT" then Some (raise (KeyError "var_name"))
  else if t =? "FOR_LOOP" then
    Some (report "For loop must have 'init', 'condition', 'increment', and 'body' fields.")
  else if t =? "EXPRESSION_STATEMENT" then
    Some (report "Expression statement must have an 'expression' field.")
  else None.

(** The header of [analyze_for_loop], up to the body. *)
Definition analyze_for_header (init condition : node)
  (increment : option node) : A unit :=
  match init with
  | VariableDeclaration var_type var_name initializer =>
      _analyze_variable_declaration var_type var_name initializer
  | Assignment var_name expression => check_assignment var_name expression
  | _ =>
      if bare init "VARIABLE_DECLARATION" then
        report "Variable declaration must have 'var_name' and 'var_type' fields."
      else if bare init "ASSIGNMENT" then
        report "Assignment statement must have 'var_name' and 'expression' fields."
      else
        report ("Unsupported initialization type '" ++ node_type init
                ++ "' in for loop.")
  end ;;;
  condition_type <- evaluate_expression_type condition "for loop condition" ;;
  (match condition_type with
   | Some _ =>
       if negb (is_str condition_type "bool")
       then report ("Error: Condition in for loop should evaluate to 'bool', got "
                    ++ fmt condition_type ++ ".")
       else ret tt
   | None => ret tt
   end) ;;;
  match increment with
  | None => raise (TypeError "argument of type 'NoneType' is not iterable")
  | Some (VariableDeclaration _ var_name _)
  | Some (Assignment var_name _)
  | Some (Increment var_name _) =>
      var_type <- lookup_variable var_name ;;
      match var_type with
      | None =>
          report ("Error: Variable '" ++ var_name
                  ++ "' for increment not declared.")
      | Some _ =>
          if negb (numeric var_type)
          then report (msg_non_numeric_increment (fmt var_type) var_name)
          else ret tt
      end
  | Some (ExpressionStatement expression)
  | Some (ReturnStatement expression)
  | Some (IOStatementPy _ expression) =>
      evaluate_expression_type expression "for loop increment" ;;; ret tt
  | Some _ => ret tt
  end.

Definition condition_must_be_bool (construct : string)
  (condition_type : option symbol) : A unit :=
  if negb (is_str condition_type "bool")
  then report ("Error: Condition in " ++ construct
               ++ " must be of type 'bool', got " ++ fmt condition_type ++ ".")
  else ret tt.

Fixpoint analyze_statement (statement : node) : A unit :=
  match statement with
  | VariableDeclaration var_type var_name initializer =>
      _analyze_variable_declaration var_type var_name initializer
  | Assignment var_name expression => check_assignment var_name expression
  | FunctionDefinition return_type func_name body =>
      (* analyze_function *)
      st <- get ;;
      match scope_stack st with
      | [] => raise IndexError
      | global :: inner =>
          match global !! func_name with
          | Some _ =>
              report ("Error: Function '" ++ func_name
                      ++ "' already declared.")
          | None =>
              set_stack (<[func_name := FunctionInfo return_type]> global
                         :: inner)
          end
      end ;;;
      enter_scope ;;;
      (* analyze_block({'statements': function['body']}) *)
      enter_scope ;;;
      forM_ analyze_statement body ;;;
      exit_scope ;;;
      exit_scope
  | Block statements =>
      (* analyze_block *)
      enter_scope ;;;
      forM_ analyze_statement statements ;;;
      exit_scope
  | IfStatement condition true_branch false_branch =>
      condition_type <-
        evaluate_expression_type condition "if statement condition" ;;
      condition_must_be_bool "if statement" condition_type ;;;
      analyze_statement true_branch ;;;
      match false_branch with
      | Some fb => analyze_statement fb
      | None => ret tt
      end
  | WhileLoop condition body =>
      condition_type <-
        evaluate_expression_type condition "while loop condition" ;;
      condition_must_be_bool "while loop" condition_type ;;;
      analyze_statement body
  | WhileLoopPy condition body =>
      condition_type <-
        evaluate_expression_type condition "while loop condition" ;;
      condition_must_be_bool "while loop" condition_type ;;;
      (* analyze_statement on a list *)
      raise (TypeError "list indices must be integers or slices, not str")
  | ReturnStatement expression => analyze_return_statement expression
  | IOStatement io_operator expressions =>
      analyze_io_statement io_operator expressions
  | IOStatementPy _ _ =>
      report "I/O statement must have an 'expressions' field."
  | Increment var_name _ => analyze_increment var_name
  | ForLoop init condition increment body =>
      analyze_for_header init condition increment ;;;
      analyze_statement body
  | ForRange _ _ _ _ _ _ =>
      report "For loop must have 'init', 'condition', 'increment', and 'body' fields."
  | ExpressionStatement expression =>
      analyze_expression_statement expression
  | Other t =>
      match bare_node t with
      | Some handler => handler
      | None => report (msg_unsupported_statement t)
      end
  | _ => report (msg_unsupported_statement (node_type statement))
  end.

(** [SemanticAnalyzer().analyze(ast)]: the diagnostics, and the analyzer
    state that [Converter] keeps for its look-ups. *)
Definition analyze_from (ast : node) : A unit :=
  match ast with
  | Program statements => forM_ analyze_statement statements
  | _ =>
      if bare ast "PROGRAM" then raise (KeyError "statements")
      else report "Expected AST root to be of type 'PROGRAM'"
  end.

Definition analyze (ast : node) : result (list string * state) :=
  match analyze_from ast initial with
  | Ok (_, st) => Ok (errors st, st)
  | Raise e => Raise e
  | Diverge => Diverge
  end.

End SemanticAnalyzer.

(** ** python_semantic_analyzer.py *)

Module PythonSemanticAnalyzer.
Import PyStr.
Local Open Scope result_scope.

Section Extend.
Variable f : node -> result (list string).
(** [for stmt in l: errors.extend(self.analyze({'statements': [stmt]}))] *)
Fixpoint extend_all (l : list node) : result (list string) :=
  match l with
  | [] => Ok []
  | stmt :: l' =>
      sub_errors <- f stmt ;;
      more <- extend_all l' ;;
      Ok (sub_errors ++ more)%list
  end.
End Extend.

Definition expression_types : list string :=
  ["BINARY_EXPRESSION"; "IDENTIFIER"; "NUMBER"; "STRING_LITERAL";
   "FUNCTION_CALL"].

Definition present {A} (o : option A) : bool :=
  match o with Some _ => true | None => false end.

(** The diagnostics of one turn of the loop of [analyze]. *)
Fixpoint analyze_statement (statement : node) : result (list string) :=
  match statement with
  | PrintStatement args =>
      match args with
      | [] =>
          Ok ["Print statement must have at least one argument to print."]
      | _ :: _ =>
          Ok (flat_map
                (fun arg =>
                   if negb (mem (node_type arg)
                              ["STRING_LITERAL"; "IDENTIFIER";
                               "BINARY_EXPRESSION"; "NUMBER";
                               "FUNCTION_CALL"])
                   then ["Print statement only supports string literals, identifiers, binary expressions, numbers, or function calls. Found: "
                         ++ node_type arg]
                   else []) args)
      end
  | Assignment var_name expr =>
      if bare expr "FUNCTION_CALL" then Raise (KeyError "func_name")
      else
        Ok ((if var_name =? EmptyString
             then ["Assignment must have a valid variable name, got: "
                   +:+ var_name]
             else [])
            ++
            match expr with
            | FunctionCall func_name _ =>
                if negb (mem func_name ["input"; "int"])
                then ["Unsupported function call '" +:+ func_name
                      +:+ "' in assignment."]
                else []
            | _ => []
            end)%list
  | ForRange iterator limit start stop step body =>
      sub_errors <- extend_all analyze_statement body ;;
      Ok ((if iterator =? EmptyString
           then ["For loop must have a valid iterator variable."] else [])
          ++ (if present limit then
                if present start || present stop || present step
                then ["For loop with 'limit' cannot have 'start', 'stop', or 'step'."]
                else []
              else
                (if present start then []
                 else ["For loop with multiple arguments must have a start value."])
                ++ (if present stop then []
                    else ["For loop with multiple arguments must have a stop value."]))
          ++ sub_errors)%list
  | ForLoop _ _ _ _ =>
      Ok ["For loop must have a valid iterator variable.";
          "For loop with multiple arguments must have a start value.";
          "For loop with multiple arguments must have a stop value.";
          "For loop body must be a list of statements."]
  | WhileLoopPy condition body =>
      sub_errors <- extend_all analyze_statement body ;;
      Ok ((if negb (mem (node_type condition) expression_types)
           then ["Invalid condition type in while loop: "
                 +:+ node_type condition]
           else [])
          ++ sub_errors)%list
  | WhileLoop condition _ =>
      Ok ((if negb (mem (node_type condition) expression_types)
           then ["Invalid condition type in while loop: "
                 +:+ node_type condition]
           else [])
          ++ ["While loop body must be a list of statements."])%list
  | IfStatement condition true_branch false_branch =>
      true_errors <-
        match true_branch with
        | Block statements => extend_all analyze_statement statements
        | _ => analyze_statement true_branch
        end ;;
      false_errors <-
        match false_branch with
        | Some (Block statements) => extend_all analyze_statement statements
        | Some fb => analyze_statement fb
        | None => Ok []
        end ;;
      Ok ((if negb (mem (node_type condition) expression_types)
           then ["Invalid condition type in if statement: "
                 +:+ node_type condition]
           else [])
          ++ true_errors ++ false_errors)%list
  | FunctionCall _ _ => Ok []
  | ReturnStatement _ => Ok []
  | VariableDeclaration _ _ initializer =>
      match initializer with
      | Some init =>
          if negb (mem (node_type init)
                     ["NUMBER"; "STRING_LITERAL"; "IDENTIFIER";
                      "BINARY_EXPRESSION"; "FUNCTION_CALL"])
          then Ok ["Variable initializer must be a valid expression, got: "
                   ++ node_type init]
          else Ok []
      | None => Ok []
      end
  | IOStatementPy _ _ => Ok []
  | IOStatement _ _ =>
      Ok ["IO statement must have an operator and expression."]
  | Block statements => extend_all analyze_statement statements
  | Other t =>
      if t =? "PRINT_STATEMENT" then
        Ok ["Print statement must have at least one argument to print."]
      else if t =? "ASSIGNMENT" then Raise (KeyError "var_name")
      else if t =? "FOR_LOOP" then
        Ok ["For loop must have a valid iterator variable.";
            "For loop with multiple arguments must have a start value.";
            "For loop with multiple arguments must have a stop value.";
            "For loop must have a body."]
      else if t =? "WHILE_LOOP" then
        Ok ["While loop must have a condition.";
            "While loop must have a body."]
      else if t =? "IF_STATEMENT" then
        Ok ["If statement must have a condition.";
            "If statement must have a true branch."]
      else if t =? "FUNCTION_CALL" then
        Ok ["Function call must have a name and arguments."]
      else if t =? "RETURN_STATEMENT" then
        Ok ["Return statement must have an expression."]
      else if t =? "VARIABLE_DECLARATION" then
        Ok ["Variable declaration must have a type and name."]
      else if t =? "IO_STATEMENT" then
        Ok ["IO statement must have an operator and expression."]
      else if t =? "BLOCK" then Raise (KeyError "statements")
      else Ok ["Unsupported statement type: " ++ t]
  | _ => Ok ["Unsupported statement type: " ++ node_type statement]
  end.

(** [PythonSemanticAnalyzer().analyze(ast)] *)
Definition analyze (ast : node) : result (list string) :=
  match ast with
  | Program statements | Block statements =>
      extend_all analyze_statement statements
  | _ => Raise (KeyError "statements")
  end.

End PythonSemanticAnalyzer.

(** ** Dictionary look-ups on nodes

    [node[key]] raises KeyError when the shape has no such key. *)

Module Keys.

Definition right_of (n : node) : result node :=
  match n with
  | BinaryExpression _ _ r => Ok r
  | _ => Raise (KeyError "right")
  end.

Definition operator_of (n : node) : result string :=
  match n with
  | BinaryExpression op _ _ | Increment _ op => Ok op
  | _ => Raise (KeyError "operator")
  end.

Definition var_name_of (n : node) : result string :=
  match n with
  | VariableDeclaration _ x _ | Assignment x _ | Increment x _ => Ok x
  | _ => Raise (KeyError "var_name")
  end.

(** [==] on nodes: equality of the dictionaries.  [EmptyStatement] and
    [Other "EMPTY_STATEMENT"] are the same dictionary. *)
Fixpoint node_eqb (a b : node) {struct a} : bool :=
  let fix list_eqb (l1 l2 : list node) {struct l1} : bool :=
    match l1, l2 with
    | [], [] => true
    | x :: l1', y :: l2' => node_eqb x y && list_eqb l1' l2'
    | _, _ => false
    end in
  let opt_eqb (o1 o2 : option node) : bool :=
    match o1, o2 with
    | Some x, Some y => node_eqb x y
    | None, None => true
    | _, _ => false
    end in
  match a, b with
  | Program s1, Program s2 => list_eqb s1 s2
  | FunctionDefinition r1 f1 b1, FunctionDefinition r2 f2 b2 =>
      (r1 =? r2) && (f1 =? f2) && list_eqb b1 b2
  | VariableDeclaration t1 x1 i1, VariableDeclaration t2 x2 i2 =>
      (t1 =? t2) && (x1 =? x2) && opt_eqb i1 i2
  | Assignment x1 e1, Assignment x2 e2 => (x1 =? x2) && node_eqb e1 e2
  | ExpressionStatement e1, ExpressionStatement e2 => node_eqb e1 e2
  | BinaryExpression o1 l1 r1, BinaryExpression o2 l2 r2 =>
      (o1 =? o2) && node_eqb l1 l2 && node_eqb r1 r2
  | Identifier v1, Identifier v2 => v1 =? v2
  | Number v1, Number v2 => v1 =? v2
  | StringLiteral v1, StringLiteral v2 => v1 =? v2
  | BooleanLiteral v1, BooleanLiteral v2 => v1 =? v2
  | Increment x1 o1, Increment x2 o2 => (x1 =? x2) && (o1 =? o2)
  | FunctionCall f1 a1, FunctionCall f2 a2 => (f1 =? f2) && list_eqb a1 a2
  | IfStatement c1 t1 f1, IfStatement c2 t2 f2 =>
      node_eqb c1 c2 && node_eqb t1 t2 && opt_eqb f1 f2
  | WhileLoop c1 b1, WhileLoop c2 b2 => node_eqb c1 c2 && node_eqb b1 b2
  | WhileLoopPy c1 b1, WhileLoopPy c2 b2 =>
      node_eqb c1 c2 && list_eqb b1 b2
  | ForLoop i1 c1 n1 b1, ForLoop i2 c2 n2 b2 =>
      node_eqb i1 i2 && node_eqb c1 c2 && opt_eqb n1 n2 && node_eqb b1 b2
  | ForRange x1 l1 a1 o1 e1 b1, ForRange x2 l2 a2 o2 e2 b2 =>
      (x1 =? x2) && opt_eqb l1 l2 && opt_eqb a1 a2 && opt_eqb o1 o2
      && opt_eqb e1 e2 && list_eqb b1 b2
  | IOStatement o1 e1, IOStatement o2 e2 => (o1 =? o2) && list_eqb e1 e2
  | IOStatementPy o1 e1, IOStatementPy o2 e2 => (o1 =? o2) && node_eqb e1 e2
  | PrintStatement a1, PrintStatement a2 => list_eqb a1 a2
  | ReturnStatement e1, ReturnStatement e2 => node_eqb e1 e2
  | Block s1, Block s2 => list_eqb s1 s2
  | EmptyStatement, EmptyStatement => true
  | EmptyStatement, Other t | Other t, EmptyStatement =>
      t =? "EMPTY_STATEMENT"
  | Other t1, Other t2 => t1 =? t2
  | _, _ => false
  end.

(** The nesting depth of a tree. *)
Fixpoint depth (n : node) : nat :=
  let fix list_depth (l : list node) : nat :=
    match l with
    | [] => 0
    | x :: l' => Nat.max (depth x) (list_depth l')
    end in
  let opt_depth (o : option node) : nat :=
    match o with Some x => depth x | None => 0 end in
  S match n with
    | Program s | Block s | PrintStatement s => list_depth s
    | FunctionDefinition _ _ b => list_depth b
    | VariableDeclaration _ _ i => opt_depth i
    | Assignment _ e | ExpressionStatement e | ReturnStatement e
    | IOStatementPy _ e => depth e
    | BinaryExpression _ l r => Nat.max (depth l) (depth r)
    | FunctionCall _ a | IOStatement _ a => list_depth a
    | IfStatement c t f =>
        Nat.max (depth c) (Nat.max (depth t) (opt_depth f))
    | WhileLoop c b => Nat.max (depth c) (depth b)
    | WhileLoopPy c b => Nat.max (depth c) (list_depth b)
    | ForLoop i c n b =>
        Nat.max (Nat.max (depth i) (depth c))
          (Nat.max (opt_depth n) (depth b))
    | ForRange _ l a o e b =>
        Nat.max (Nat.max (opt_depth l) (opt_depth a))
          (Nat.max (Nat.max (opt_depth o) (opt_depth e)) (list_depth b))
    | _ => 0
    end.

End Keys.

(** ** convertercpp.py *)

Module Converter.
Import PyStr Keys.
Local Open Scope result_scope.

(** [[f(i, x) for i, x in enumerate(l)]], counting from [i]. *)
Fixpoint enumerate_from {A B} (f : nat -> A -> result B) (i : nat)
  (l : list A) : result (list B) :=
  match l with
  | [] => Ok []
  | x :: l' =>
      y <- f i x ;;
      ys <- enumerate_from f (S i) l' ;;
      Ok (y :: ys)
  end.

Definition nonempty (s : string) : bool := negb (s =? EmptyString).

(** [s.replace('\n', '\n    ')] *)
Definition indent (s : string) : string := replace nl (nl ++ "    ") s.

(** The truth value of a list argument that may be [None]. *)
Definition some_nonempty (statements : option (list node))
  : option (list node) :=
  match statements with
  | Some (_ :: _) => statements
  | _ => None
  end.

(** [lookup_variable_type] *)
Definition lookup_variable_type (var_name : string)
  (statements : option (list node)) (position : nat)
  : result (option string) :=
  match some_nonempty statements with
  | None => Ok None
  | Some stmts =>
      if (length stmts <? position)%nat then Raise IndexError
      else
        Ok (match
               find (fun stmt =>
                       match stmt with
                       | VariableDeclaration _ x _ => x =? var_name
                       | _ => false
                       end) (rev (firstn position stmts))
             with
             | Some (VariableDeclaration var_type _ _) => Some var_type
             | _ => None
             end)
  end.

(** [find_parent]'s [search(n, target)] *)
Fixpoint search (n target : node) {struct n} : option node :=
  let fix scan (l : list node) {struct l} : option node :=
    match l with
    | [] => None
    | stmt :: l' =>
        if node_eqb stmt target then Some n
        else match search stmt target with
             | Some r => Some r
             | None => scan l'
             end
    end in
  match n with
  | Program statements | Block statements => scan statements
  | FunctionDefinition _ _ body | WhileLoopPy _ body
  | ForRange _ _ _ _ _ body => scan body
  | WhileLoop _ (Block statements) | ForLoop _ _ _ (Block statements) =>
      scan statements
  | _ => None
  end.

(** The f-string of a cout statement: literal fragments are joined with
    their quotes and the text backslash-n removed, other expressions are
    interpolated. *)
Definition f_string_parts (expressions : list string) : list string :=
  flat_map
    (fun expr =>
       if startswith expr dq && endswith expr dq then
         let cleaned_expr :=
           replace (bs ++ "n") EmptyString (strip_char "034"%char expr) in
         if nonempty cleaned_expr then [cleaned_expr] else []
       else ["{" ++ expr ++ "}"])
    expressions.

Section Instance.
(** The fields of a [Converter] after the semantic pass: [self.ast],
    [self.use_main], [self.semantic_analyzer]. *)
Variable ast : node.
Variable use_main : bool.
Variable semantic_analyzer : SemanticAnalyzer.state.

Definition find_parent (n : node) : option node := search ast n.

Section Branches.
(** [self.generate_node], as called back from a branch. *)
Variable gen :
  node -> option (list node) -> nat -> option (list node) -> result string.

Definition gen1 (n : node) : result string := gen n None 0 None.

(** The loop of the IO_STATEMENT branch over [node["expressions"]]:
    the printed expressions and the assignments found inside cout. *)
Fixpoint io_expressions (io_operator : string) (l : list node)
  : result (list string * list string) :=
  match l with
  | [] => Ok ([], [])
  | expr_node :: l' =>
      this <-
        match expr_node with
        | BinaryExpression operator lhs rhs =>
            if (operator =? "=") && (io_operator =? "cout") then
              var_name <- gen1 lhs ;;
              value <- gen1 rhs ;;
              Ok (var_name, [var_name ++ " = " ++ value])
            else e <- gen1 expr_node ;; Ok (e, [])
        | _ => e <- gen1 expr_node ;; Ok (e, [])
        end ;;
      rest <- io_expressions io_operator l' ;;
      Ok (fst this :: fst rest, (snd this ++ snd rest)%list)
  end.

Definition is_cin (n : node) : result bool :=
  match n with
  | IOStatement op _ | IOStatementPy op _ => Ok (op =? "cin")
  | _ =>
      if bare n "IO_STATEMENT" then Raise (KeyError "io_operator")
      else Ok false
  end.

Definition io_statement (io_operator : string) (exprs : list node)
  (statements : option (list node)) (position : nat)
  : result string :=
  match exprs with
  | [] => Ok "print()"
  | _ :: _ =>
      ea <- io_expressions io_operator exprs ;;
      let expressions := fst ea in
      let assignments := snd ea in
      if io_operator =? "cout" then
        is_prompt <-
          match some_nonempty statements with
          | Some stmts =>
              match nth_error stmts (position + 1) with
              | Some next => is_cin next
              | None => Ok false
              end
          | None => Ok false
          end ;;
        if is_prompt && (length expressions =? 1)%nat
           && startswith (hd EmptyString expressions) dq
        then Ok (join nl assignments)
        else
          let output :=
            "print(f" ++ dq ++ join EmptyString (f_string_parts expressions)
            ++ dq ++ ")" in
          Ok (join nl (assignments ++ [output]))
      else if io_operator =? "cin" then
        let var_name := hd EmptyString expressions in
        declared <-
          (if SemanticAnalyzer.truthy
                (SemanticAnalyzer.lookup_stack var_name
                   (SemanticAnalyzer.scope_stack semantic_analyzer))
           then Ok (SemanticAnalyzer.is_str
                      (SemanticAnalyzer.lookup_stack var_name
                         (SemanticAnalyzer.scope_stack semantic_analyzer))
                      "int")
           else
             t <- lookup_variable_type var_name statements position ;;
             Ok match t with Some t => t =? "int" | None => false end) ;;
        let plain :=
          if declared : bool then Ok (var_name ++ " = int(input())")
          else Ok (var_name ++ " = input()") in
        match some_nonempty statements, position with
        | Some stmts, S p =>
            match nth_error stmts p with
            | None => Raise IndexError
            | Some (IOStatement prev_operator prev_exprs) =>
                if prev_operator =? "cout" then
                  match prev_exprs with
                  | [] => Raise IndexError
                  | first :: _ =>
                      text <- gen1 first ;;
                      let prompt := strip_char "034"%char text in
                      if declared
                      then Ok (var_name ++ " = int(input(" ++ dq
                               ++ prompt ++ dq ++ "))")
                      else Ok (var_name ++ " = input(" ++ dq ++ prompt
                               ++ dq ++ ")")
                  end
                else plain
            | Some (IOStatementPy prev_operator _) =>
                if prev_operator =? "cout"
                then Raise (KeyError "expressions") else plain
            | Some prev_stmt =>
                if bare prev_stmt "IO_STATEMENT"
                then Raise (KeyError "io_operator") else plain
            end
        | _, _ => plain
        end
      else Ok EmptyString
  end.

(** The FOR_LOOP branch up to [range_str]: the three arguments of
    the generated [range]. *)
Definition range_arguments (init condition : node)
  (increment : option node) : result (string * string * string) :=
  start <-
    match init with
    | VariableDeclaration _ _ (Some initializer) => gen1 initializer
    | Assignment _ expression => gen1 expression
    | _ =>
        if bare init "ASSIGNMENT" then Raise (KeyError "expression")
        else Ok "0"
    end ;;
  bound <- right_of condition ;;
  end_ <- gen1 bound ;;
  op <- operator_of condition ;;
  sse <-
    (if op =? "<=" then
       e <- int_of_str end_ ;; Ok (start, str_of_Z (e + 1), "1")
     else if op =? "<" then Ok (start, end_, "1")
     else if op =? ">" then Ok (end_, start, "-1")
     else if op =? ">=" then
       e <- int_of_str end_ ;; Ok (start, str_of_Z (e - 1), "-1")
     else Ok (start, end_, "1")) ;;
  let '(start, end_, step) := sse in
  step <-
    match increment with
    | Some (Assignment _ (BinaryExpression operator _ r)) =>
        if operator =? "+" then gen1 r
        else if operator =? "-" then s <- gen1 r ;; Ok ("-" ++ s)
        else Ok step
    | Some (Assignment _ incr_expr) =>
        if bare incr_expr "BINARY_EXPRESSION"
        then Raise (KeyError "operator") else Ok step
    | Some (Increment _ operator) =>
        Ok (if operator =? "++" then "1" else "-1")
    | Some other =>
        if bare other "ASSIGNMENT" then Raise (KeyError "expression")
        else if bare other "INCREMENT" then Raise (KeyError "operator")
        else Ok step
    | None => Ok step
    end ;;
  Ok (start, end_, step).

(** [[gen(stmt, stmts, i, parent) for i, stmt in enumerate(stmts)]] *)
Definition each (stmts : list node) (parent : option (list node))
  : result (list string) :=
  enumerate_from (fun i stmt => gen stmt (Some stmts) i parent) 0 stmts.

(** A branch of an if statement, rendered and indented. *)
Definition branch_text (branch : node) : result string :=
  match branch with
  | Block statements =>
      body_lines <- each statements (Some statements) ;;
      Ok (indent (join nl (List.filter nonempty body_lines)))
  | _ =>
      if bare branch "BLOCK" then Raise (KeyError "statements")
      else s <- gen1 branch ;; Ok (indent s)
  end.

(** [process_false_branch] *)
Fixpoint process_false_branch (fb_node : node) : result string :=
  match fb_node with
  | IfStatement next_condition next_true_branch false_branch =>
      c <- gen1 next_condition ;;
      t <- branch_text next_true_branch ;;
      rest <-
        match false_branch with
        | Some fb => process_false_branch fb
        | None => Ok EmptyString
        end ;;
      Ok (nl ++ "elif " ++ c ++ ":" ++ nl ++ "    " ++ t ++ rest)
  | _ =>
      if bare fb_node "IF_STATEMENT" then Raise (KeyError "condition")
      else
        f <- branch_text fb_node ;;
        Ok (nl ++ "else:" ++ nl ++ "    " ++ f)
  end.

Definition handled : list string :=
  ["PROGRAM"; "FUNCTION_DEFINITION"; "IO_STATEMENT";
   "VARIABLE_DECLARATION"; "ASSIGNMENT"; "EXPRESSION_STATEMENT";
   "FOR_LOOP"; "WHILE_LOOP"; "INCREMENT"; "BINARY_EXPRESSION";
   "STRING_LITERAL"; "NUMBER"; "IDENTIFIER"; "RETURN_STATEMENT";
   "IF_STATEMENT"].

(** The body of [generate_node]: one branch per discriminant, and
    the empty string for all others. *)
Definition generate_node_body (nd : node)
  (statements : option (list node)) (position : nat)
  (parent_statements : option (list node)) : result string :=
  match nd with
  | Program stmts =>
      texts <- each stmts (Some stmts) ;;
      Ok (join nl (map lstrip (List.filter nonempty texts)))
  | FunctionDefinition _ func_name body =>
      texts <- each body (Some body) ;;
      let body_str :=
        join nl (List.filter (fun s => nonempty (strip s)) texts) in
      if (func_name =? "main") && negb use_main then Ok body_str
      else Ok ("def " ++ func_name ++ "():" ++ nl ++ "    "
               ++ indent body_str)
  | IOStatement io_operator exprs =>
      io_statement io_operator exprs statements position
  | IOStatementPy _ _ => Ok "print()"
  | VariableDeclaration _ var_name initializer =>
      match initializer with
      | Some init =>
          i <- gen1 init ;; Ok (var_name ++ " = " ++ i)
      | None => Ok EmptyString
      end
  | Assignment var_name expression =>
      let regular :=
        expr_code <- gen1 expression ;;
        Ok (var_name ++ " = " ++ expr_code) in
      match expression with
      | BinaryExpression operator lhs rhs =>
          if mem operator ["+"; "-"; "*"; "/"; "%"] then
            match lhs with
            | Identifier value =>
                if value =? var_name then
                  r <- gen1 rhs ;;
                  Ok (var_name ++ " " ++ operator ++ "= " ++ r)
                else regular
            | _ =>
                if bare lhs "IDENTIFIER" then Raise (KeyError "value")
                else regular
            end
          else regular
      | _ =>
          if bare expression "BINARY_EXPRESSION"
          then Raise (KeyError "operator") else regular
      end
  | ExpressionStatement expression => gen1 expression
  | ForLoop init condition increment body =>
      args <- range_arguments init condition increment ;;
      let '(start, end_, step) := args in
      var_name <- var_name_of init ;;
      let range_str :=
        "range(" ++ start ++ ", " ++ end_ ++ ", " ++ step ++ ")" in
      body_str <-
        match body with
        | Block stmts =>
            texts <- each stmts None ;; Ok (join nl texts)
        | _ =>
            if bare body "BLOCK" then Raise (KeyError "statements")
            else gen1 body
        end ;;
      Ok ("for " ++ var_name ++ " in " ++ range_str ++ ":" ++ nl
          ++ "    " ++ indent body_str)
  | ForRange _ _ _ _ _ _ => Raise (KeyError "init")
  | WhileLoop condition body_node =>
      condition_str <- gen1 condition ;;
      body <-
        match body_node with
        | Block stmts =>
            body_lines <- each stmts parent_statements ;;
            Ok (join nl (List.filter nonempty body_lines))
        | _ =>
            if bare body_node "BLOCK" then Raise (KeyError "statements")
            else gen1 body_node
        end ;;
      Ok ("while " ++ condition_str ++ ":" ++ nl ++ "    "
          ++ indent body)
  | WhileLoopPy condition _ =>
      _ <- gen1 condition ;;
      Raise (TypeError "list indices must be integers or slices, not str")
  | Increment var_name operator =>
      if operator =? "++" then Ok (var_name ++ " += 1")
      else if operator =? "--" then Ok (var_name ++ " -= 1")
      else Raise (ValueError
                    ("Unsupported increment operator: " ++ operator))
  | BinaryExpression operator lhs rhs =>
      l <- gen1 lhs ;;
      r <- gen1 rhs ;;
      Ok (l ++ " " ++ operator ++ " " ++ r)
  | StringLiteral value | Number value | Identifier value => Ok value
  | ReturnStatement expression =>
      e <- gen1 expression ;;
      match find_parent nd with
      | Some (FunctionDefinition _ func_name _) =>
          if negb (func_name =? "main") then Ok ("return " ++ e)
          else Ok EmptyString
      | _ => Ok EmptyString
      end
  | IfStatement condition true_branch false_branch =>
      c <- gen1 condition ;;
      t <- branch_text true_branch ;;
      rest <-
        match false_branch with
        | Some fb => process_false_branch fb
        | None => Ok EmptyString
        end ;;
      Ok ("if " ++ c ++ ":" ++ nl ++ "    " ++ t ++ rest)
  | Other t =>
      if t =? "IO_STATEMENT" then Ok "print()"
      else if t =? "VARIABLE_DECLARATION" then Raise (KeyError "var_name")
      else if mem t handled then
        (* the first key the branch reads *)
        Raise (KeyError
                 (if t =? "PROGRAM" then "statements"
                  else if t =? "FUNCTION_DEFINITION" then "body"
                  else if (t =? "ASSIGNMENT") || (t =? "INCREMENT")
                  then "var_name"
                  else if (t =? "EXPRESSION_STATEMENT")
                          || (t =? "RETURN_STATEMENT")
                  then "expression"
                  else if t =? "FOR_LOOP" then "init"
                  else if (t =? "WHILE_LOOP") || (t =? "IF_STATEMENT")
                  then "condition"
                  else if t =? "BINARY_EXPRESSION" then "left"
                  else "value"))
      else Ok EmptyString
  | BooleanLiteral _ | FunctionCall _ _ | PrintStatement _ | Block _
  | EmptyStatement => Ok EmptyString
  end.
End Branches.

(** [generate_node(node, statements, position, parent_statements)].
    The prompt of a cin statement is rendered from the statement before
    it, which is no part of [nd]; so the recursion descends on a fuel
    that bounds the nesting depth instead of on [nd]. *)
Fixpoint generate_node (fuel : nat) (nd : node)
  (statements : option (list node)) (position : nat)
  (parent_statements : option (list node)) : result string :=
  match fuel with
  | O => Diverge
  | S fuel' =>
      generate_node_body (generate_node fuel') nd statements position
        parent_statements
  end.
End Instance.

(** The [if self.use_main:] wrapping of the converted code. *)
Definition main_wrapper (use_main : bool) (converted_code : string) : string :=
  if use_main then
    "def main():" ++ nl ++ "    " ++ indent converted_code ++ nl ++ nl
    ++ "if __name__ == " ++ dq ++ "__main__" ++ dq ++ ":" ++ nl ++ "    main()"
  else converted_code.

(** [Converter(ast, use_main).generate_code()].  [errors] is the one list
    the analyzer appends all its diagnostics to. *)
Definition generate_code (ast : node) (use_main : bool) : result string :=
  r <- SemanticAnalyzer.analyze ast ;;
  let '(errors, semantic_analyzer) := r in
  match errors with
  | _ :: _ => Ok EmptyString
  | [] =>
      code <-
        generate_node ast use_main semantic_analyzer (S (depth ast)) ast
          None 0 None ;;
      Ok (main_wrapper use_main (strip code))
  end.

End Converter.

(** ** python_to_cpp_converter.py *)

Module PythonToCppConverter.
Import PyStr.

Record state : Type :=
  { variables : gset string;
    declarations : list string;
    statements : list string }.

(** [__init__] *)
Definition initial : state :=
  {| variables := ∅; declarations := []; statements := [] |}.

Definition declared (x : string) (st : state) : bool :=
  bool_decide (x ∈ variables st).

(** [x in self.variables] *)
Definition is_declared (x : string) : M state bool :=
  fun st => Ok (declared x st, st).

(** [self.variables.add(x)] *)
Definition add_variable (x : string) : M state unit :=
  modify (fun st =>
            {| variables := {[x]} ∪ variables st;
               declarations := declarations st;
               statements := statements st |}).

Definition cout_cin (prompt target_var : string) : string :=
  "    cout << " ++ prompt ++ ";" ++ nl ++ "    cin >> " ++ target_var ++ ";".

(** [generate_expression(node, target_var, wrap_binary)]; a [target_var]
    of [None] or of the empty string is false. *)
Fixpoint generate_expression (nd : node) (target_var : option string)
  (wrap_binary : bool) {struct nd} : result string :=
  let plain (n : node) := generate_expression n None false in
  let fix all_args (l : list node) : result (list string) :=
    match l with
    | [] => Ok []
    | arg :: l' =>
        (a <- plain arg ;; rest <- all_args l' ;; Ok (a :: rest))%result
    end in
  match nd with
  | StringLiteral value => Ok (dq ++ slice_1_m1 value ++ dq)
  | Identifier value | Number value => Ok value
  | BinaryExpression operator lhs rhs =>
      (l <- plain lhs ;;
       r <- plain rhs ;;
       let expr := l ++ " " ++ operator ++ " " ++ r in
       Ok (if wrap_binary then "(" ++ expr ++ ")" else expr))%result
  | FunctionCall func_name call_args =>
      (args <- all_args call_args ;;
       match target_var with
       | Some (String c v) =>
           let target_var := String c v in
           if func_name =? "input" then
             Ok (cout_cin (hd (dq ++ dq) args) target_var)
           else if func_name =? "int" then
             match call_args with
             | [] => Raise IndexError
             | FunctionCall nested_name nested_args :: _ =>
                 if nested_name =? "input" then
                   prompt <-
                     match nested_args with
                     | first :: _ => plain first
                     | [] => Ok (dq ++ dq)
                     end ;;
                   Ok (cout_cin prompt target_var)
                 else Ok EmptyString
             | nested_input :: _ =>
                 if bare nested_input "FUNCTION_CALL"
                 then Raise (KeyError "func_name") else Ok EmptyString
             end
           else Ok EmptyString
       | _ => Ok EmptyString
       end)%result
  | Other t =>
      if mem t ["STRING_LITERAL"; "IDENTIFIER"; "NUMBER"] then
        Raise (KeyError "value")
      else if t =? "BINARY_EXPRESSION" then Raise (KeyError "left")
      else if t =? "FUNCTION_CALL" then Raise (KeyError "func_name")
      else Ok EmptyString
  | _ => Ok EmptyString
  end.

(** The discriminants [generate_expression] has a branch for. *)
Definition expression_handled : list string :=
  ["STRING_LITERAL"; "IDENTIFIER"; "NUMBER"; "BINARY_EXPRESSION";
   "FUNCTION_CALL"].

(** [determine_value_type] *)
Fixpoint determine_value_type (nd : node) : string :=
  match nd with
  | Number _ => "number"
  | StringLiteral _ => "string"
  | FunctionCall func_name _ =>
      if func_name =? "input" then "string"
      else if func_name =? "int" then "number"
      else "unknown"
  | BinaryExpression operator lhs rhs =>
      if operator =? "+" then
        let left_type := determine_value_type lhs in
        let right_type := determine_value_type rhs in
        if (left_type =? "string") || (right_type =? "string")
        then "string" else "number"
      else "unknown"
  | _ => "unknown"
  end.

Local Open Scope monad_scope.

Definition lift {A} (r : result A) : M state A :=
  fun st =>
    match r with
    | Ok a => Ok (a, st)
    | Raise e => Raise e
    | Diverge => Diverge
    end.

Definition nonempty (s : string) : bool := negb (s =? EmptyString).

(** ["\n".join(f"{pad}{g(line)}" for line in body_lines if line)] *)
Definition join_lines (pad : string) (g : string -> string)
  (body_lines : list string) : string :=
  join nl (map (fun line => pad ++ g line) (List.filter nonempty body_lines)).

Definition handled : list string :=
  ["ASSIGNMENT"; "PRINT_STATEMENT"; "IF_STATEMENT"; "WHILE_LOOP";
   "FOR_LOOP"; "BLOCK"].

(** The ASSIGNMENT branch of [process_node], regular case. *)
Definition assign_regular (var_name : string) (expr : node)
  : M state string :=
  expr_result <- lift (generate_expression expr (Some var_name) false) ;;
  known <- is_declared var_name ;;
  if negb known then
    add_variable var_name ;;;
    let var_type := determine_value_type expr in
    if var_type =? "string" then
      if startswith expr_result "    cout"
      then ret ("    string " ++ var_name ++ ";" ++ nl ++ expr_result)
      else ret ("    string " ++ var_name ++ " = " ++ expr_result ++ ";")
    else if var_type =? "number" then
      if startswith expr_result "    cout"
      then ret ("    int " ++ var_name ++ ";" ++ nl ++ expr_result)
      else ret ("    int " ++ var_name ++ " = " ++ expr_result ++ ";")
    else ret ("    auto " ++ var_name ++ " = " ++ expr_result ++ ";")
  else if nonempty expr_result
  then ret ("    " ++ var_name ++ " = " ++ expr_result ++ ";")
  else ret EmptyString.

(** The ASSIGNMENT branch of [process_node], compound case. *)
Definition assign_compound (var_name operator : string) (rhs : node)
  : M state string :=
  right <- lift (generate_expression rhs None false) ;;
  let update :=
    "    " ++ var_name ++ " " ++ operator ++ "= " ++ right ++ ";" in
  known <- is_declared var_name ;;
  if negb known then
    add_variable var_name ;;;
    let var_type := determine_value_type rhs in
    let ty := if var_type =? "string" then "string"
              else if var_type =? "number" then "int" else "auto" in
    ret ("    " ++ ty ++ " " ++ var_name ++ " = " ++ right ++ ";" ++ nl
         ++ update)
  else ret update.

(** The ASSIGNMENT branch of [process_node]. *)
Definition process_assignment (var_name : string) (expr : node)
  : M state string :=
  match expr with
  | BinaryExpression operator lhs rhs =>
      if mem operator ["+"; "-"; "*"; "/"; "%"] then
        match lhs with
        | Identifier value =>
            if value =? var_name
            then assign_compound var_name operator rhs
            else assign_regular var_name expr
        | _ =>
            if bare lhs "IDENTIFIER" then raise (KeyError "value")
            else assign_regular var_name expr
        end
      else assign_regular var_name expr
  | _ =>
      if bare expr "BINARY_EXPRESSION" then raise (KeyError "operator")
      else assign_regular var_name expr
  end.

Section IfStatement.
(** [self.process_node], as called back from the IF_STATEMENT branch. *)
Variable process : node -> M state string.

(** The body of a branch of an if statement. *)
Definition branch (b : node) : M state string :=
  match b with
  | Block stmts =>
      body_lines <- mapM process stmts ;;
      ret (join_lines "        " id body_lines)
  | _ =>
      body <- process b ;;
      ret (if nonempty body then "        " ++ body else EmptyString)
  end.

(** The [while false_branch:] loop, from one link of the chain on. *)
Fixpoint else_chain (false_branch : node) : M state string :=
  match false_branch with
  | IfStatement elif_condition elif_true_branch next =>
      c <- lift (generate_expression elif_condition None false) ;;
      elif_body <- branch elif_true_branch ;;
      rest <- match next with
              | Some fb => else_chain fb
              | None => ret EmptyString
              end ;;
      ret (nl ++ "    else if (" ++ c ++ ") {" ++ nl ++ elif_body ++ nl
           ++ "    }" ++ rest)
  | _ =>
      else_body <- branch false_branch ;;
      ret (nl ++ "    else {" ++ nl ++ else_body ++ nl ++ "    }")
  end.
End IfStatement.

(** [[generate_expression(arg, wrap_binary=True) for arg in args]] *)
Fixpoint print_arguments (l : list node) : result (list string) :=
  match l with
  | [] => Ok []
  | arg :: l' =>
      (a <- generate_expression arg None true ;;
       rest <- print_arguments l' ;; Ok (a :: rest))%result
  end.

Fixpoint process_node (nd : node) {struct nd} : M state string :=
  match nd with
  | Assignment var_name expr => process_assignment var_name expr
  | PrintStatement args =>
      cpp_args <- lift (print_arguments args) ;;
      ret ("    cout << " ++ join " << " cpp_args ++ " << endl;")
  | IfStatement condition true_branch false_branch =>
      c <- lift (generate_expression condition None false) ;;
      body <- branch process_node true_branch ;;
      rest <- match false_branch with
              | Some fb => else_chain process_node fb
              | None => ret EmptyString
              end ;;
      ret ("    if (" ++ c ++ ") {" ++ nl ++ body ++ nl ++ "    }" ++ rest)
  | WhileLoopPy condition body =>
      c <- lift (generate_expression condition None false) ;;
      body_lines <- mapM process_node body ;;
      ret ("    while (" ++ c ++ ") {" ++ nl
           ++ join_lines "        " rstrip body_lines ++ nl ++ "    }")
  | WhileLoop condition _ =>
      lift (generate_expression condition None false) ;;;
      raise (TypeError "string indices must be integers")
  | ForRange iterator limit start stop step body =>
      start <-
        lift match start with
             | Some e => generate_expression e None false
             | None => Ok "0"
             end ;;
      stop <-
        lift match stop, limit with
             | Some e, _ => generate_expression e None false
             | None, Some e => generate_expression e None false
             | None, None => Raise (KeyError "limit")
             end ;;
      step <-
        lift match step with
             | Some e => generate_expression e None false
             | None => Ok "1"
             end ;;
      body_lines <- mapM process_node body ;;
      let body := join_lines "        " rstrip body_lines in
      let increment :=
        if step =? "1" then iterator ++ "++"
        else iterator ++ " += " ++ step in
      known <- is_declared iterator ;;
      let header (decl : string) :=
        "    for (" ++ decl ++ iterator ++ " = " ++ start ++ "; " ++ iterator
        ++ " < " ++ stop ++ "; " ++ increment ++ ") {" ++ nl ++ body ++ nl
        ++ "    }" in
      if negb known then
        add_variable iterator ;;; ret (header "int ")
      else ret (header EmptyString)
  | ForLoop _ _ _ _ => raise (KeyError "iterator")
  | Block stmts =>
      body_lines <- mapM process_node stmts ;;
      ret (join_lines "    " strip body_lines)
  | Other t =>
      if t =? "ASSIGNMENT" then raise (KeyError "var_name")
      else if t =? "PRINT_STATEMENT" then raise (KeyError "args")
      else if t =? "IF_STATEMENT" then raise (KeyError "condition")
      else if t =? "WHILE_LOOP" then raise (KeyError "condition")
      else if t =? "FOR_LOOP" then raise (KeyError "iterator")
      else if t =? "BLOCK" then raise (KeyError "statements")
      else ret EmptyString
  | _ => ret EmptyString
  end.

(** One turn of the loop of [process_program]. *)
Definition process_statement (stmt : node) : M state unit :=
  res <- process_node stmt ;;
  if nonempty res then
    hoist <-
      match stmt with
      | Assignment var_name _ =>
          known <- is_declared var_name ;; ret (negb known)
      | _ => ret false
      end ;;
    if hoist : bool
    then modify (fun st =>
                   {| variables := variables st;
                      declarations := declarations st ++ [rstrip res];
                      statements := statements st |})
    else modify (fun st =>
                   {| variables := variables st;
                      declarations := declarations st;
                      statements := statements st ++ [rstrip res] |})
  else ret tt.

Definition process_program (nd : node) : M state unit :=
  match nd with
  | Program stmts => forM_ process_statement stmts
  | _ =>
      if bare nd "PROGRAM" then raise (KeyError "statements") else ret tt
  end.

(** [PythonToCppConverter(ast).generate_code()] *)
Definition generate_code (ast : node) : result string :=
  match process_program ast initial with
  | Ok (_, st) =>
      Ok ("#include <iostream>" ++ nl ++ "#include <string>" ++ nl
          ++ "using namespace std;" ++ nl ++ nl ++ "int main() {" ++ nl
          ++ join nl (declarations st) ++ nl
          ++ join nl (statements st) ++ nl
          ++ "    return 0;" ++ nl ++ "}")
  | Raise e => Raise e
  | Diverge => Diverge
  end.

End PythonToCppConverter.

(** ** The two pipelines *)

Module Pipeline.
Import PyStr.
Local Open Scope result_scope.

(** What a translation call hands back. *)
Inductive outcome : Type :=
| Translated (code : string)
| Rejected (diagnostics : list string).

(** Modelled from the spec: the driver [main_cpp.process_file], which
    [ui.py] imports, is not among the sources.  Section 2: text enters the
    tokenizer, its output feeds the parser, whose tree feeds the semantic
    analyzer, and generation proceeds from there.  The analysis and the
    gate are those of [Converter.generate_code]. *)
Definition cpp_to_python (source : string) : result string :=
  tokens <- Lexer.tokenize source ;;
  ast <- Parser.parse_program tokens ;;
  Converter.generate_code ast false.

(** Modelled from the spec: the driver [mainpython.process_file] is not
    among the sources.  Sections 2 and 6: the same four stages; a
    non-empty diagnostic list is returned instead of target text. *)
Definition python_to_cpp (source : string) : result outcome :=
  tokens <- PythonLexer.tokenize source ;;
  ast <- PythonParser.parse_program tokens ;;
  diagnostics <- PythonSemanticAnalyzer.analyze ast ;;
  match diagnostics with
  | _ :: _ => Ok (Rejected diagnostics)
  | [] =>
      code <- PythonToCppConverter.generate_code ast ;;
      Ok (Translated code)
  end.

(** The front ends alone. *)
Definition cpp_ast (source : string) : result node :=
  tokens <- Lexer.tokenize source ;; Parser.parse_program tokens.
Definition python_ast (source : string) : result node :=
  tokens <- PythonLexer.tokenize source ;; PythonParser.parse_program tokens.

End Pipeline.

(** ** What the two loop forms mean

    Not part of the sources: the meaning the two languages give to the
    loops the generators write, needed to say which values a loop variable
    takes. *)

Module LoopSemantics.
Local Open Scope Z_scope.

(** [i op bound] for the four direction operators. *)
Definition holds (op : string) (i bound : Z) : bool :=
  if (op =? "<")%string then i <? bound
  else if (op =? "<=")%string then i <=? bound
  else if (op =? ">")%string then i >? bound
  else if (op =? ">=")%string then i >=? bound
  else false.

(** The values of [i] in [for (i = start; i op bound; i += step)], as far
    as [fuel] turns go. *)
Fixpoint cpp_for_values (fuel : nat) (op : string) (i bound step : Z)
  : list Z :=
  match fuel with
  | O => []
  | S fuel' =>
      if holds op i bound
      then i :: cpp_for_values fuel' op (i + step) bound step
      else []
  end.

(** [len(range(start, stop, step))] *)
Definition range_length (start stop step : Z) : nat :=
  if step >? 0 then Z.to_nat ((stop - start + step - 1) / step)
  else if step <? 0 then Z.to_nat ((start - stop - step - 1) / (- step))
  else O.

(** [list(range(start, stop, step))]: [start + k * step] for
    [k < len(range)]. *)
Definition py_range (start stop step : Z) : list Z :=
  map (fun k => start + Z.of_nat k * step)
    (seq 0 (range_length start stop step)).

End LoopSemantics.

(** ** Induction over trees

    The sub-trees of a node, and induction over them. *)

Definition option_list {A} (o : option A) : list A :=
  match o with Some a => [a] | None => [] end.

Definition children (n : node) : list node :=
  match n with
  | Program s | Block s | PrintStatement s => s
  | FunctionDefinition _ _ b => b
  | VariableDeclaration _ _ i => option_list i
  | Assignment _ e | ExpressionStatement e | ReturnStatement e
  | IOStatementPy _ e => [e]
  | BinaryExpression _ l r => [l; r]
  | FunctionCall _ a | IOStatement _ a => a
  | IfStatement c t f => c :: t :: option_list f
  | WhileLoop c b => [c; b]
  | WhileLoopPy c b => c :: b
  | ForLoop i c n b => i :: c :: option_list n ++ [b]
  | ForRange _ l a o e b =>
      option_list l ++ option_list a ++ option_list o ++ option_list e ++ b
  | _ => []
  end.

(** ** Notions used in the statements below *)

Import PyStr.

(** A diagnostic of the C++-side analyzer is an error or a warning by the
    word it starts with. *)
Definition is_warning (diagnostic : string) : bool :=
  startswith diagnostic "Warning:".

Definition is_error (diagnostic : string) : bool :=
  startswith diagnostic "Error:".

Definition non_numeric_increment_source : string :=
  "string s = " ++ dq ++ "a" ++ dq ++ "; s++;".

Definition non_numeric_increment_ast : node :=
  Program [VariableDeclaration "string" "s"
             (Some (StringLiteral (dq ++ "a" ++ dq)));
           ExpressionStatement (Increment "s" "++")].

(** The tree both grammars build for [x = x op e]. *)
Definition compound (x op : string) (e : node) : node :=
  Assignment x (BinaryExpression op (Identifier x) e).

Definition shadowing_source : string := "int x = 1; { int x = 2; }".

Definition shadowing_ast : node :=
  Program [VariableDeclaration "int" "x" (Some (Number "1"));
           Block [VariableDeclaration "int" "x" (Some (Number "2"))]].

Definition later_conversion_source : string :=
  "x = input(" ++ dq ++ "Enter: " ++ dq ++ ")" ++ nl ++ "y = int(x)".

Definition undeclared_operand_example : node :=
  BinaryExpression "+" (Identifier "a") (BinaryExpression "*" (Identifier "k") (Number "2")).

Definition descending_source : string :=
  "for (int i = 3; i > 0; i--) cout << i;".

Definition descending_ast : node :=
  Program
    [ForLoop (VariableDeclaration "int" "i" (Some (Number "3")))
       (BinaryExpression ">" (Identifier "i") (Number "0"))
       (Some (Increment "i" "--"))
       (IOStatement "cout" [Identifier "i"])].

(** An expression on which [evaluate_expression_type] raises no
    exception: no call, and no node without its keys. *)
Fixpoint call_free (e : node) : bool :=
  match e with
  | BinaryExpression _ l r => call_free l && call_free r
  | FunctionCall _ _ | Other _ => false
  | _ => true
  end.

(** [x] is an operand of [e]. *)
Fixpoint mentions (x : string) (e : node) : bool :=
  match e with
  | Identifier v => v =? x
  | BinaryExpression _ l r => mentions x l || mentions x r
  | _ => false
  end.

Section AnalyzerNotions.
Import SemanticAnalyzer.

Definition with_error (st : state) (msg : string) : state :=
  {| scope_stack := scope_stack st; errors := errors st ++ [msg] |}.

Definition extends (st st' : state) (extra : list string) : Prop :=
  scope_stack st' = scope_stack st /\ errors st' = (errors st ++ extra)%list.
End AnalyzerNotions.

Section GeneratorNotions.
Import PythonToCppConverter.

(** The state with its two output lists replaced. *)
Definition with_output (d s : list string) (st : state) : state :=
  {| variables := variables st; declarations := d; statements := s |}.

Definition on_state {A} (f : state -> state) (r : result (A * state))
  : result (A * state) :=
  match r with
  | Ok (a, st) => Ok (a, f st)
  | Raise e => Raise e
  | Diverge => Diverge
  end.

(** A computation that neither reads nor writes the output lists. *)
Definition output_blind {A} (m : M state A) : Prop :=
  forall d s st, m (with_output d s st) = on_state (with_output d s) (m st).

(** What [process_program] appends for a translated statement. *)
Definition emitted (outs : list string) : list string :=
  map rstrip (List.filter nonempty outs).
End GeneratorNotions.

Definition read_into (ty x prompt : string) : string :=
  "    " ++ ty ++ " " ++ x ++ ";" ++ nl ++ "    cout << " ++ prompt ++ ";"
  ++ nl ++ "    cin >> " ++ x ++ ";".

Definition declare (x : string) (st : PythonToCppConverter.state)
  : PythonToCppConverter.state :=
  {| PythonToCppConverter.variables :=
       {[x]} ∪ PythonToCppConverter.variables st;
     PythonToCppConverter.declarations :=
       PythonToCppConverter.declarations st;
     PythonToCppConverter.statements := PythonToCppConverter.statements st |}.

Section TokenizerNotions.
Import Regex TokenLoop.

Definition empty_operator : token := ("BITWISE_OPERATOR", EmptyString).

(** Every match of the pattern takes at least one character. *)
Fixpoint consuming (r : regex) : bool :=
  match r with
  | Cls _ => true
  | Cat r1 r2 => consuming r1 || consuming r2
  | Alt r1 r2 => consuming r1 && consuming r2
  | _ => false
  end.

Definition left_of (c : cursor) : nat := length (after c).
End TokenizerNotions.

Section TokenizerNotions2.
Import Regex TokenLoop.

(** The cursor [c1] is [c] moved forward over the characters [mid]. *)
Definition reads (c : cursor) (mid : list ascii) (c1 : cursor) : Prop :=
  after c = (mid ++ after c1)%list /\ before c1 = (rev mid ++ before c)%list.

(** Every character the pattern can take satisfies [p]. *)
Fixpoint within (p : ascii -> bool) (r : regex) : Prop :=
  match r with
  | Cls q => forall a, q a = true -> p a = true
  | Cat r1 r2 | Alt r1 r2 => within p r1 /\ within p r2
  | Star r1 => within p r1
  | _ => True
  end.

(** The cursor at offset [p] of [s]. *)
Definition cursor_at (s : string) (p : nat) : cursor :=
  {| before := rev (firstn p (list_ascii_of_string s));
     after := skipn p (list_ascii_of_string s) |}.

(** [text] is the [lexemes] in order, with nothing but white space before,
    between and after them. *)
Fixpoint spaced (lexemes : list string) (text : list ascii) : Prop :=
  match lexemes with
  | [] => forallb is_space text = true
  | l :: ls =>
      exists ws rest,
        forallb is_space ws = true
        /\ text = (ws ++ list_ascii_of_string l ++ rest)%list
        /\ spaced ls rest
  end.

(** The kinds a tokenizer can emit: those of its table, white space
    apart. *)
Definition token_kinds (table : token_types) : list string :=
  List.filter (fun n => negb (n =? "WHITESPACE")) (map fst table).
End TokenizerNotions2.

Section TokenizerNotions3.
Import Regex TokenLoop.

(** Like [consuming], for a position past the start of the text, where the
    anchor cannot match. *)
Fixpoint consuming_inside (r : regex) : bool :=
  match r with
  | Cls _ | Bol => true
  | Cat r1 r2 => consuming_inside r1 || consuming_inside r2
  | Alt r1 r2 => consuming_inside r1 && consuming_inside r2
  | _ => false
  end.

(** The first turn of the Python-side tokenizer on [source] matches the
    empty string. *)
Definition stalls (source : string) : bool :=
  match source with
  | EmptyString => false
  | String _ _ =>
      match first_match PythonLexer.TOKEN_TYPES (start_of source) with
      | Some (_, c') => (left_of c' =? left_of (start_of source))%nat
      | None => false
      end
  end.

(** The characters with which one of the patterns tried before
    BITWISE_OPERATOR's anchor can begin: a quote, a letter or underscore,
    an operator character. *)
Definition opens_token (a : ascii) : bool :=
  is_alpha_ a
  || existsb (Ascii.eqb a) (list_ascii_of_string ("'" ++ dq ++ "<>=!+-*/%&|~")).
End TokenizerNotions3.

Section ParserNotions.
Import Tokens.

(** The leaf a token stands for as an operand of an expression. *)
Definition operand (t : token) : option node :=
  if fst t =? "NUMBER" then Some (Number (snd t))
  else if fst t =? "IDENTIFIER" then Some (Identifier (snd t))
  else if fst t =? "STRING" then Some (StringLiteral (snd t))
  else None.

Definition leaf (t : token) : node :=
  match operand t with Some n => n | None => Other (fst t) end.

(** A token of one of the operator [kinds] that is not an increment. *)
Definition binary_operator (kinds : list string) (t : token) : bool :=
  mem (fst t) kinds && negb (mem (snd t) ["++"; "--"]).

(** [(op1, t1); (op2, t2); ...] as the token sequence [op1 t1 op2 t2 ...] *)
Definition chain_tokens (rest : list (token * token)) : list token :=
  flat_map (fun p => [fst p; snd p]) rest.

(** The tree of [first op1 t1 op2 t2 ...] in which every operator takes
    all that stands before it as its left operand. *)
Definition chain_tree (first : token) (rest : list (token * token)) : node :=
  fold_left (fun left p => BinaryExpression (snd (fst p)) left (leaf (snd p)))
    rest (leaf first).

(** The tokens [more] begin with none of [kinds] nor of [others]. *)
Definition stops (kinds others : list string) (more : list token) : bool :=
  match more with
  | [] => true
  | t :: _ => negb (mem (fst t) kinds) && negb (mem (fst t) others)
  end.

Definition cpp_operator_kinds : list string :=
  ["ARITHMETIC_OPERATOR"; "RELATIONAL_OPERATOR"].
Definition python_operator_kinds : list string :=
  ["ARITHMETIC_OPERATOR"; "RELATIONAL_OPERATOR"; "COMPARISON_OPERATOR"].

(** What follows an operand in a chain is no increment operator. *)
Definition no_increment (ts : list token) : Prop :=
  match ts with
  | [] => True
  | t :: _ =>
      (fst t =? "ARITHMETIC_OPERATOR") && mem (snd t) ["++"; "--"] = false
  end.

(** What follows an operand in a chain opens no argument list. *)
Definition no_call (ts : list token) : Prop :=
  match ts with
  | [] => True
  | t :: _ => (fst t =? "LPAREN") = false
  end.
End ParserNotions.

Section AnalyzerNotions2.
Import SemanticAnalyzer.

(** The two ways the analysis writes to the scope stack: a declaration
    binds, in the innermost frame, a name that no frame binds; a function
    definition binds, in the global frame, a name that frame does not
    bind. *)
Inductive declares : list (gmap string symbol) -> list (gmap string symbol) -> Prop :=
| declares_variable outer scope x ty :
    lookup_stack x (outer ++ [scope]) = None ->
    declares (outer ++ [scope]) (outer ++ [<[x := VarType ty]> scope]).

Inductive defines : list (gmap string symbol) -> list (gmap string symbol) -> Prop :=
| defines_function global inner f rt :
    global !! f = None ->
    defines (global :: inner) (<[f := FunctionInfo rt]> global :: inner).

Definition writes (stk stk' : list (gmap string symbol)) : Prop :=
  declares stk stk' \/ defines stk stk'.

(** A computation of the analyzer that, when it returns, has only added
    diagnostics and has changed the scope stack by steps of [step]. *)
Definition keeps (step : relation (list (gmap string symbol))) {T}
  (m : A T) : Prop :=
  forall st a st',
    m st = Ok (a, st') ->
    rtc step (scope_stack st) (scope_stack st')
    /\ exists extra, errors st' = (errors st ++ extra)%list.
End AnalyzerNotions2.

Section AnalyzerNotions3.
Import SemanticAnalyzer.

(** A computation that returns or raises from every state. *)
Definition ends {S T} (m : M S T) : Prop := forall st, m st <> Diverge.

(** The discriminants [analyze_statement] has a handler for. *)
Definition analyzed_kinds : list string :=
  ["VARIABLE_DECLARATION"; "ASSIGNMENT"; "FUNCTION_DEFINITION"; "BLOCK";
   "IF_STATEMENT"; "WHILE_LOOP"; "RETURN_STATEMENT"; "CLASS_DEFINITION";
   "IO_STATEMENT"; "INCREMENT"; "FOR_LOOP"; "EXPRESSION_STATEMENT"].
End AnalyzerNotions3.

Section GeneratorNotions2.

(** An expression made of literals, names and operators. *)
Fixpoint plain (e : node) : bool :=
  match e with
  | Number _ | Identifier _ | StringLiteral _ => true
  | BinaryExpression _ l r => plain l && plain r
  | _ => false
  end.

(** The operands and operators of a plain expression in their order, with
    a blank on either side of an operator and no parenthesis; [quote]
    renders a string literal. *)
Fixpoint infix (quote : string -> string) (e : node) : string :=
  match e with
  | Number v | Identifier v => v
  | StringLiteral v => quote v
  | BinaryExpression op l r =>
      infix quote l ++ " " ++ op ++ " " ++ infix quote r
  | _ => EmptyString
  end.

(** A string literal as the Python-to-C++ generator writes it. *)
Definition requoted (v : string) : string := dq ++ slice_1_m1 v ++ dq.
End GeneratorNotions2.

Section ConverterNotions.

(** [stmt] is a VARIABLE_DECLARATION of the name [x]. *)
Definition declares_name (x : string) (stmt : node) : bool :=
  match stmt with
  | VariableDeclaration _ y _ => y =? x
  | _ => false
  end.

(** A text that begins like a name: with a letter or an underscore. *)
Definition begins_like_a_name (s : string) : bool :=
  match s with
  | String c _ => is_alpha_ c
  | EmptyString => false
  end.
End ConverterNotions.

Section GeneratorNotions3.
Import PythonToCppConverter.

(** A computation that never takes a name out of [self.variables]. *)
Definition grows {A} (m : M state A) : Prop :=
  forall st a st', m st = Ok (a, st') ->
  forall x, declared x st = true -> declared x st' = true.
End GeneratorNotions3.

(** ** The places of a use, and a tree under other names *)

(** The place of every use of [x] in [e], as
    [evaluate_expression_type] words it: the context of the expression,
    with "left operand of '<op>' in" or "right operand of '<op>' in"
    put before it for every operator on the way down to the use. *)
Fixpoint places (x : string) (e : node) (context : string) : list string :=
  match e with
  | Identifier v => if v =? x then [context] else []
  | BinaryExpression operator l r =>
      (places x l ("left operand of '" ++ operator ++ "' in " ++ context)
       ++ places x r
            ("right operand of '" ++ operator ++ "' in " ++ context))%list
  | _ => []
  end.

(** The tree with every name it uses replaced: [f v] for the identifier
    [v], everything else as it is. *)
Fixpoint rename_uses (f : string -> string) (n : node) : node :=
  match n with
  | Identifier v => Identifier (f v)
  | Program s => Program (map (rename_uses f) s)
  | FunctionDefinition r g b => FunctionDefinition r g (map (rename_uses f) b)
  | VariableDeclaration t x i =>
      VariableDeclaration t x (option_map (rename_uses f) i)
  | Assignment x e => Assignment x (rename_uses f e)
  | ExpressionStatement e => ExpressionStatement (rename_uses f e)
  | BinaryExpression o l r =>
      BinaryExpression o (rename_uses f l) (rename_uses f r)
  | FunctionCall g a => FunctionCall g (map (rename_uses f) a)
  | IfStatement c t e =>
      IfStatement (rename_uses f c) (rename_uses f t)
        (option_map (rename_uses f) e)
  | WhileLoop c b => WhileLoop (rename_uses f c) (rename_uses f b)
  | WhileLoopPy c b => WhileLoopPy (rename_uses f c) (map (rename_uses f) b)
  | ForLoop i c n b =>
      ForLoop (rename_uses f i) (rename_uses f c)
        (option_map (rename_uses f) n) (rename_uses f b)
  | ForRange x l a o e b =>
      ForRange x (option_map (rename_uses f) l) (option_map (rename_uses f) a)
        (option_map (rename_uses f) o) (option_map (rename_uses f) e)
        (map (rename_uses f) b)
  | IOStatement o e => IOStatement o (map (rename_uses f) e)
  | IOStatementPy o e => IOStatementPy o (rename_uses f e)
  | PrintStatement a => PrintStatement (map (rename_uses f) a)
  | ReturnStatement e => ReturnStatement (rename_uses f e)
  | Block s => Block (map (rename_uses f) s)
  | Number _ | StringLiteral _ | BooleanLiteral _ | Increment _ _
  | EmptyStatement | Other _ => n
  end.

(** ** The lines of a text *)

(** [text.split("\n")] *)
Fixpoint lines_of (text : string) : list string :=
  match text with
  | EmptyString => [EmptyString]
  | String c s =>
      if Ascii.eqb c "010" then EmptyString :: lines_of s
      else match lines_of s with
           | l :: ls => String c l :: ls
           | [] => [String c EmptyString]
           end
  end.

(** The lines of a text that are not blank, without their indentation:
    what a text says, its layout put aside. *)
Definition outline (text : string) : list string :=
  List.filter (fun l => negb (l =? EmptyString)) (map strip (lines_of text)).

(** A text of white space only. *)
Fixpoint blank (s : string) : bool :=
  match s with
  | EmptyString => true
  | String c s' => is_space c && blank s'
  end.

(** The lines of a text, each without its trailing white space. *)
Definition right_stripped (s : string) : list string :=
  map rstrip (lines_of s).

(** * Properties *)

(** ** The gate of [Converter.generate_code] *)

(** C1 (as amended).  Generation is gated on the diagnostic list being
    empty.  With no diagnostic at all [generate_code] returns the text
    generated for the tree; with any diagnostic in the list, a warning as
    much as an error, it returns the empty string. *)
Theorem C1_generation_gated_on_empty_diagnostics ast use_main diagnostics st :
  SemanticAnalyzer.analyze ast = Ok (diagnostics, st) ->
  Converter.generate_code ast use_main
  = match diagnostics with
    | [] =>
        rbind
          (Converter.generate_node ast use_main st (S (Keys.depth ast)) ast
             None 0 None)
          (fun code => Ok (Converter.main_wrapper use_main (strip code)))
    | _ :: _ => Ok EmptyString
    end.
Proof.
  intros H. unfold Converter.generate_code. rewrite H. cbn.
  destruct diagnostics; reflexivity.
Qed.

(** The gate at [int x = 5;], which has no diagnostic, and at
    [string s = "a"; s++;], which has one warning. *)
Lemma C1_generation_gated_witness :
  (exists st,
     SemanticAnalyzer.analyze
       (Program [VariableDeclaration "int" "x" (Some (Number "5"))])
     = Ok ([], st)
     /\ Converter.generate_code
          (Program [VariableDeclaration "int" "x" (Some (Number "5"))]) false
        = Ok "x = 5")
  /\ (exists st,
        SemanticAnalyzer.analyze non_numeric_increment_ast
        = Ok ([SemanticAnalyzer.msg_non_numeric_increment "string" "s"], st)
        /\ Converter.generate_code non_numeric_increment_ast false
           = Ok EmptyString).
Proof.
  split.
  - destruct (SemanticAnalyzer.analyze
                (Program [VariableDeclaration "int" "x" (Some (Number "5"))]))
      as [[ds st]| |] eqn:E; try (vm_compute in E; discriminate).
    assert (Hds : ds = []).
    { revert E. vm_compute. intros E. injection E as <- _. reflexivity. }
    subst ds. exists st. split; [reflexivity|].
    rewrite (C1_generation_gated_on_empty_diagnostics _ false _ _ E).
    vm_compute. reflexivity.
  - destruct (SemanticAnalyzer.analyze non_numeric_increment_ast)
      as [[ds st]| |] eqn:E; try (vm_compute in E; discriminate).
    assert (Hds : ds = [SemanticAnalyzer.msg_non_numeric_increment
                          "string" "s"]).
    { revert E. vm_compute. intros E. injection E as <- _. reflexivity. }
    subst ds. exists st. split; [reflexivity|].
    exact (C1_generation_gated_on_empty_diagnostics _ false _ _ E).
Defined.

(** The program [string s = "a"; s++;] parses; its analysis yields one
    diagnostic, the warning about an increment on a non-numeric type, and
    no error; [generate_code] returns the empty string, although the
    generator run on the same tree renders both statements. *)
Lemma C1_warning_alone_counterexample :
  Pipeline.cpp_ast non_numeric_increment_source
    = Ok non_numeric_increment_ast
  /\ (exists st,
        SemanticAnalyzer.analyze non_numeric_increment_ast
          = Ok ([SemanticAnalyzer.msg_non_numeric_increment "string" "s"], st)
        /\ Converter.generate_node non_numeric_increment_ast false st 3
             non_numeric_increment_ast None 0 None
           = Ok ("s = " ++ dq ++ "a" ++ dq ++ nl ++ "s += 1"))
  /\ is_warning (SemanticAnalyzer.msg_non_numeric_increment "string" "s") = true
  /\ is_error (SemanticAnalyzer.msg_non_numeric_increment "string" "s") = false
  /\ Converter.generate_code non_numeric_increment_ast false = Ok EmptyString
  /\ Pipeline.cpp_to_python non_numeric_increment_source = Ok EmptyString.
Proof.
  split; [vm_compute; reflexivity|].
  split.
  - destruct (SemanticAnalyzer.analyze non_numeric_increment_ast)
      as [[ds st]| |] eqn:E; try (vm_compute in E; discriminate).
    exists st. split.
    + revert E. vm_compute. intros E. injection E as <- _. reflexivity.
    + revert E. vm_compute. intros E. injection E as _ <-. reflexivity.
  - repeat split; vm_compute; reflexivity.
Qed.

(** ** Declarations lose their type on the way to Python *)

(** The VARIABLE_DECLARATION branch never reads ['var_type']. *)
Lemma declaration_text_ignores_type ast use_main st fuel ty1 ty2 x init
  stmts pos parent :
  Converter.generate_node ast use_main st fuel
    (VariableDeclaration ty1 x init) stmts pos parent
  = Converter.generate_node ast use_main st fuel
      (VariableDeclaration ty2 x init) stmts pos parent.
Proof. destruct fuel; reflexivity. Qed.

(** C9.  The pipeline turns [int x = 5;] into exactly [x = 5]; and the
    text generated for a declaration is the same whatever its declared
    type: the name, [ = ] and the initialiser's text, or nothing when
    there is no initialiser. *)
Theorem C9_declaration_type_erased :
  Lexer.tokenize "int x = 5;"
    = Ok [("KEYWORD", "int"); ("IDENTIFIER", "x");
          ("ARITHMETIC_OPERATOR", "="); ("NUMBER", "5"); ("SEMICOLON", ";")]
  /\ Parser.parse_program
       [("KEYWORD", "int"); ("IDENTIFIER", "x");
        ("ARITHMETIC_OPERATOR", "="); ("NUMBER", "5"); ("SEMICOLON", ";")]
     = Ok (Program [VariableDeclaration "int" "x" (Some (Number "5"))])
  /\ (exists st,
        SemanticAnalyzer.analyze
          (Program [VariableDeclaration "int" "x" (Some (Number "5"))])
        = Ok ([], st))
  /\ Converter.generate_code
       (Program [VariableDeclaration "int" "x" (Some (Number "5"))]) false
     = Ok "x = 5"
  /\ Pipeline.cpp_to_python "int x = 5;" = Ok "x = 5"
  /\ (forall ast use_main st fuel ty1 ty2 x init stmts pos parent,
        Converter.generate_node ast use_main st fuel
          (VariableDeclaration ty1 x init) stmts pos parent
        = Converter.generate_node ast use_main st fuel
            (VariableDeclaration ty2 x init) stmts pos parent)
  /\ (forall ast use_main st fuel ty x init stmts pos parent,
        Converter.generate_node ast use_main st (S fuel)
          (VariableDeclaration ty x (Some init)) stmts pos parent
        = rbind (Converter.generate_node ast use_main st fuel init None 0 None)
            (fun i => Ok (x ++ " = " ++ i)))
  /\ (forall ast use_main st fuel ty x stmts pos parent,
        Converter.generate_node ast use_main st (S fuel)
          (VariableDeclaration ty x None) stmts pos parent
        = Ok EmptyString).
Proof.
  split; [vm_compute; reflexivity|].
  split; [vm_compute; reflexivity|].
  split.
  { destruct (SemanticAnalyzer.analyze
                (Program [VariableDeclaration "int" "x" (Some (Number "5"))]))
      as [[ds st]| |] eqn:E; try (vm_compute in E; discriminate).
    exists st. revert E. vm_compute. intros E. injection E as <- _.
    reflexivity. }
  split; [vm_compute; reflexivity|].
  split; [vm_compute; reflexivity|].
  split; [intros; apply declaration_text_ignores_type|].
  split; intros; reflexivity.
Qed.

(** ** Compound assignment *)

(** For [+ - * /] the C++ front end builds one tree for both spellings. *)
Lemma cpp_compound_same_tree_for_four :
  Forall
    (fun op =>
       Pipeline.cpp_ast ("x " ++ op ++ "= 2;")
         = Ok (Program [compound "x" op (Number "2")])
       /\ Pipeline.cpp_ast ("x = x " ++ op ++ " 2;")
            = Ok (Program [compound "x" op (Number "2")]))
    ["+"; "-"; "*"; "/"].
Proof. repeat constructor; vm_compute; reflexivity. Qed.

(** The Python front end builds one tree for both spellings, for all five
    operators. *)
Lemma python_compound_same_tree_for_five :
  Forall
    (fun op =>
       Pipeline.python_ast ("x " ++ op ++ "= 2")
         = Ok (Program [compound "x" op (Number "2")])
       /\ Pipeline.python_ast ("x = x " ++ op ++ " 2")
            = Ok (Program [compound "x" op (Number "2")]))
    ["+"; "-"; "*"; "/"; "%"].
Proof. repeat constructor; vm_compute; reflexivity. Qed.

(** With a right-hand side of several terms the two spellings are the
    same tree when the right-hand side is kept together by parentheses. *)
Lemma cpp_compound_same_tree_parenthesised :
  Pipeline.cpp_ast "x -= (a - c);"
    = Ok (Program
            [compound "x" "-"
               (BinaryExpression "-" (Identifier "a") (Identifier "c"))])
  /\ Pipeline.cpp_ast "x = x - (a - c);"
     = Ok (Program
             [compound "x" "-"
                (BinaryExpression "-" (Identifier "a") (Identifier "c"))]).
Proof. split; vm_compute; reflexivity. Qed.

(** The generator to Python renders the shared tree as a compound
    assignment, for all five operators. *)
Lemma compound_rendered_by_both ast use_main st fuel x op e stmts pos parent :
  mem op ["+"; "-"; "*"; "/"; "%"] = true ->
  Converter.generate_node ast use_main st (S fuel) (compound x op e)
    stmts pos parent
  = rbind (Converter.generate_node ast use_main st fuel e None 0 None)
      (fun r => Ok (x ++ " " ++ op ++ "= " ++ r)).
Proof.
  intros Hop. unfold compound. cbn [Converter.generate_node
    Converter.generate_node_body]. rewrite Hop, String.eqb_refl. reflexivity.
Qed.

(** C3 (the code departs from the claim).  The C++ tokenizer has no
    compound operator for the remainder: [x %= 2;] is read as [x], [%],
    [=], [2], [;] and the parser rejects it, while [x = x % 2;] parses to
    the tree of a compound assignment, which the generator renders as
    [x %= 2]. *)
Theorem C3_cpp_remainder_assignment_rejected :
  Lexer.tokenize "x %= 2;"
    = Ok [("IDENTIFIER", "x"); ("ARITHMETIC_OPERATOR", "%");
          ("ARITHMETIC_OPERATOR", "="); ("NUMBER", "2"); ("SEMICOLON", ";")]
  /\ Pipeline.cpp_ast "x %= 2;"
     = Raise (SyntaxError
                "Expected '=' or compound assignment operator after identifier 'x' in assignment"
                None)
  /\ Pipeline.cpp_ast "x = x % 2;"
     = Ok (Program [compound "x" "%" (Number "2")])
  /\ Pipeline.cpp_to_python "int x = 7; x = x % 2;"
     = Ok ("x = 7" ++ nl ++ "x %= 2")
  /\ Pipeline.cpp_to_python "int x = 7; x %= 2;"
     = Raise (SyntaxError
                "Expected '=' or compound assignment operator after identifier 'x' in assignment"
                None).
Proof. repeat split; vm_compute; reflexivity. Qed.

(** ** Declaring a name *)

Section Declare.
Import SemanticAnalyzer.

(** What [declare_variable] itself does, by where the name is bound: in
    the current frame, a redeclaration error and no change of the frame;
    in an outer frame only, a shadowing warning; nowhere, the binding is
    added to the current frame without a diagnostic. *)
Lemma declare_variable_outcomes x ty st scope :
  last (scope_stack st) = Some scope ->
  (is_Some (scope !! x) ->
     declare_variable x ty false st
     = Ok (tt, with_error st (msg_redeclared x)))
  /\ (scope !! x = None ->
      is_Some (lookup_stack x (scope_stack st)) ->
      declare_variable x ty false st
      = Ok (tt, with_error st (msg_shadows x)))
  /\ (lookup_stack x (scope_stack st) = None ->
      declare_variable x ty false st
      = Ok (tt, {| scope_stack :=
                     removelast (scope_stack st) ++ [<[x := ty]> scope];
                   errors := errors st |})).
Proof.
  intros Hlast. unfold declare_variable, bind, get. cbn. rewrite Hlast.
  repeat split.
  - intros [v Hv]. rewrite Hv. reflexivity.
  - intros Hnone [v Hv]. rewrite Hnone, Hv. reflexivity.
  - intros Hnone.
    assert (Hscope : scope !! x = None).
    { destruct (scope !! x) as [v|] eqn:E; [|reflexivity].
      exfalso. revert Hnone. unfold lookup_stack.
      destruct (scope_stack st) as [|s0 stk] using rev_ind;
        [discriminate|].
      rewrite last_snoc in Hlast. injection Hlast as ->.
      rewrite rev_app_distr. cbn. rewrite E. discriminate. }
    rewrite Hscope, Hnone. reflexivity.
Qed.
End Declare.

(** C5 (the code departs from the claim).  In [int x = 1; { int x = 2; }]
    the inner declaration meets a name bound in the outer frame only.
    [declare_variable], asked directly in that very state, answers with the
    shadowing warning; the analysis of the declaration never asks it,
    because [_analyze_variable_declaration] first looks the name up through
    all frames and reports the error "already declared". *)
Theorem C5_outer_binding_reported_as_error :
  Pipeline.cpp_ast shadowing_source = Ok shadowing_ast
  /\ (exists st,
        SemanticAnalyzer.analyze shadowing_ast
        = Ok ([SemanticAnalyzer.msg_already_declared "x"], st))
  /\ is_error (SemanticAnalyzer.msg_already_declared "x") = true
  /\ is_warning (SemanticAnalyzer.msg_already_declared "x") = false
  /\ (let outer : gmap string SemanticAnalyzer.symbol :=
        <["x" := SemanticAnalyzer.VarType "int"]> ∅ in
      let inside_block :=
        {| SemanticAnalyzer.scope_stack := [outer; ∅];
           SemanticAnalyzer.errors := [] |} in
      exists st',
        SemanticAnalyzer.declare_variable "x" (SemanticAnalyzer.VarType "int")
          false inside_block = Ok (tt, st')
        /\ SemanticAnalyzer.errors st' = [SemanticAnalyzer.msg_shadows "x"]).
Proof.
  split; [vm_compute; reflexivity|].
  split.
  { destruct (SemanticAnalyzer.analyze shadowing_ast) as [[ds st]| |] eqn:E;
      try (vm_compute in E; discriminate).
    exists st. revert E. vm_compute. intros E. injection E as <- _.
    reflexivity. }
  split; [reflexivity|]. split; [reflexivity|].
  cbv zeta.
  edestruct (declare_variable_outcomes "x" (SemanticAnalyzer.VarType "int")
    {| SemanticAnalyzer.scope_stack :=
         [<["x" := SemanticAnalyzer.VarType "int"]> ∅; ∅];
       SemanticAnalyzer.errors := [] |} ∅ eq_refl) as (_ & Hshadow & _).
  eexists. split.
  - apply Hshadow; [apply lookup_empty|]. vm_compute. eauto.
  - reflexivity.
Qed.

(** ** Nodes no generator has a branch for *)

Lemma mem_cons_false x y l :
  mem x (y :: l) = false -> (x =? y) = false /\ mem x l = false.
Proof. unfold mem. cbn. apply orb_false_elim. Qed.

Ltac split_mem H :=
  repeat (let H1 := fresh "Hne" in
          apply mem_cons_false in H; destruct H as [H1 H]).

(** C10.  A node whose discriminant is none of those [generate_node] has a
    branch for is rendered as the empty string, without an exception and
    without a diagnostic; the same holds for [process_node] and for
    [generate_expression] of the Python-to-C++ generator, whose state is
    left as it was. *)
Theorem C10_unhandled_node_renders_empty (nd : node) :
  (mem (node_type nd) Converter.handled = false ->
   forall ast use_main st fuel stmts pos parent,
     Converter.generate_node ast use_main st (S fuel) nd stmts pos parent
     = Ok EmptyString)
  /\ (mem (node_type nd) PythonToCppConverter.handled = false ->
      forall st,
        PythonToCppConverter.process_node nd st = Ok (EmptyString, st))
  /\ (mem (node_type nd) PythonToCppConverter.expression_handled = false ->
      forall target_var wrap_binary,
        PythonToCppConverter.generate_expression nd target_var wrap_binary
        = Ok EmptyString).
Proof.
  split; [|split].
  - intros H ast use_main st fuel stmts pos parent.
    destruct nd; try (vm_compute in H; discriminate H); try reflexivity.
    cbn [node_type] in H.
    cbn [Converter.generate_node Converter.generate_node_body].
    pose proof H as Hall. unfold Converter.handled in H. split_mem H.
    rewrite Hne1, Hne2, Hall. reflexivity.
  - intros H st.
    destruct nd; try (vm_compute in H; discriminate H); try reflexivity.
    cbn [node_type] in H. unfold PythonToCppConverter.handled in H.
    split_mem H. cbn.
    rewrite Hne, Hne0, Hne1, Hne2, Hne3, Hne4. reflexivity.
  - intros H target_var wrap_binary.
    destruct nd; try (vm_compute in H; discriminate H); try reflexivity.
    cbn [node_type] in H.
    unfold PythonToCppConverter.expression_handled in H. split_mem H.
    cbn. unfold mem. cbn. rewrite Hne, Hne0, Hne1, Hne2, Hne3. reflexivity.
Qed.

(** A call statement [foo()] and an empty statement, at which the three
    parts of C10 apply. *)
Lemma C10_unhandled_node_witness :
  (mem (node_type (FunctionCall "foo" [])) Converter.handled = false
   /\ forall ast use_main st fuel stmts pos parent,
       Converter.generate_node ast use_main st (S fuel) (FunctionCall "foo" [])
         stmts pos parent = Ok EmptyString)
  /\ (mem (node_type (FunctionCall "foo" [])) PythonToCppConverter.handled
      = false
      /\ forall st,
          PythonToCppConverter.process_node (FunctionCall "foo" []) st
          = Ok (EmptyString, st))
  /\ (mem (node_type EmptyStatement) PythonToCppConverter.expression_handled
      = false
      /\ forall target_var wrap_binary,
          PythonToCppConverter.generate_expression EmptyStatement target_var
            wrap_binary = Ok EmptyString).
Proof.
  split; [|split]; (split; [reflexivity|]).
  - apply (C10_unhandled_node_renders_empty (FunctionCall "foo" [])).
    reflexivity.
  - apply (C10_unhandled_node_renders_empty (FunctionCall "foo" [])).
    reflexivity.
  - apply (C10_unhandled_node_renders_empty EmptyStatement). reflexivity.
Defined.

(** A construct that passes the analysis and is dropped: a nested block on
    the C++ side, a call statement on the Python side. *)
Lemma unhandled_statement_dropped :
  Pipeline.cpp_to_python "int x = 1; { x = 2; } x = 3;"
    = Ok ("x = 1" ++ nl ++ "x = 3")
  /\ Pipeline.python_to_cpp ("x = 1" ++ nl ++ "foo(x)")
     = Ok (Pipeline.Translated
             ("#include <iostream>" ++ nl ++ "#include <string>" ++ nl
              ++ "using namespace std;" ++ nl ++ nl ++ "int main() {" ++ nl
              ++ nl ++ "    int x = 1;" ++ nl ++ "    return 0;" ++ nl ++ "}")).
Proof. split; vm_compute; reflexivity. Qed.

(** ** Statement order

    Induction on a tree, with the property known of all sub-trees. *)

Lemma node_children_ind (P : node -> Prop)
  (H : forall n, Forall P (children n) -> P n) : forall n, P n.
Proof.
  fix IH 1. intros n. apply H.
  pose (all := fix all (l : list node) : Forall P l :=
          match l with
          | [] => @List.Forall_nil _ P
          | x :: l' => @List.Forall_cons _ P x l' (IH x) (all l')
          end).
  pose (opt := fun o : option node =>
          match o return Forall P (option_list o) with
          | Some x => @List.Forall_cons _ P x [] (IH x) (@List.Forall_nil _ P)
          | None => @List.Forall_nil _ P
          end).
  destruct n; cbn [children];
    repeat first [ apply List.Forall_nil
                 | apply List.Forall_cons; [apply IH|]
                 | apply Forall_app; split
                 | apply opt | apply all ].
Qed.

Section OutputBlind.
Import PythonToCppConverter.

Lemma blind_ret {A} (a : A) : output_blind (ret a).
Proof. intros d s st. reflexivity. Qed.

Lemma blind_raise {A} e : output_blind (@raise state A e).
Proof. intros d s st. reflexivity. Qed.

Lemma blind_lift {A} (r : result A) : output_blind (lift r).
Proof. intros d s st. destruct r; reflexivity. Qed.

Lemma blind_is_declared x : output_blind (is_declared x).
Proof. intros d s st. reflexivity. Qed.

Lemma blind_add_variable x : output_blind (add_variable x).
Proof. intros d s st. reflexivity. Qed.

Lemma blind_bind {A B} (m : M state A) (k : A -> M state B) :
  output_blind m -> (forall a, output_blind (k a)) ->
  output_blind (bind m k).
Proof.
  intros Hm Hk d s st. unfold bind. rewrite Hm.
  destruct (m st) as [[a st']| |]; cbn; [apply Hk|reflexivity..].
Qed.

Lemma blind_mapM {A B} (f : A -> M state B) l :
  Forall (fun a => output_blind (f a)) l -> output_blind (mapM f l).
Proof.
  induction 1 as [|a l Ha _ IH]; cbn [mapM].
  - apply blind_ret.
  - apply blind_bind; [exact Ha|]. intros b.
    apply blind_bind; [exact IH|]. intros bs. apply blind_ret.
Qed.

Lemma blind_if {A} (b : bool) (m1 m2 : M state A) :
  output_blind m1 -> output_blind m2 -> output_blind (if b then m1 else m2).
Proof. destruct b; auto. Qed.

Ltac blind :=
  repeat first
    [ apply blind_ret | apply blind_raise | apply blind_lift
    | apply blind_is_declared | apply blind_add_variable
    | apply blind_bind; [|intros ?]
    | apply blind_if
    | assumption
    | match goal with
      | |- output_blind (match ?x with _ => _ end) => destruct x
      end ].

Lemma blind_assign_regular x e : output_blind (assign_regular x e).
Proof. unfold assign_regular. blind. Qed.

Lemma blind_assign_compound x op e : output_blind (assign_compound x op e).
Proof. unfold assign_compound. blind. Qed.

Lemma blind_process_assignment x e : output_blind (process_assignment x e).
Proof.
  unfold process_assignment.
  destruct e; try (apply blind_if; [apply blind_raise|apply blind_assign_regular]);
    try apply blind_assign_regular.
  apply blind_if; [|apply blind_assign_regular].
  destruct e1; try (apply blind_if; [apply blind_raise|apply blind_assign_regular]);
    try apply blind_assign_regular.
  apply blind_if; [apply blind_assign_compound|apply blind_assign_regular].
Qed.

Lemma blind_branch (process : node -> M state string) b :
  output_blind (process b) ->
  Forall (fun c => output_blind (process c)) (children b) ->
  output_blind (branch process b).
Proof.
  intros Hb Hc. unfold branch.
  destruct b; try (apply blind_bind; [exact Hb|intros ?; apply blind_ret]).
  cbn [children] in Hc.
  apply blind_bind; [apply blind_mapM; exact Hc|intros ?; apply blind_ret].
Qed.

(** [process_node] works on the set of variables alone. *)
Lemma blind_process_node nd :
  output_blind (process_node nd)
  /\ output_blind (branch process_node nd)
  /\ output_blind (else_chain process_node nd).
Proof.
  induction nd as [nd IH] using node_children_ind.
  assert (H1 : output_blind (process_node nd)).
  { destruct nd; cbn [process_node]; try apply blind_ret;
      try apply blind_raise; cbn [children] in IH.
    - apply blind_process_assignment.
    - (* if *)
      apply List.Forall_cons_iff in IH as [_ IH].
      apply List.Forall_cons_iff in IH as [Ht IH].
      apply blind_bind; [apply blind_lift|intros c].
      apply blind_bind; [apply Ht|intros body].
      apply blind_bind; [|intros rest; apply blind_ret].
      destruct false_branch as [fb|]; [|apply blind_ret].
      cbn in IH. apply List.Forall_cons_iff in IH as [Hf _]. apply Hf.
    - (* while, C++ shape *)
      apply blind_bind; [apply blind_lift|intros ?; apply blind_raise].
    - (* while *)
      apply List.Forall_cons_iff in IH as [_ IH].
      apply blind_bind; [apply blind_lift|intros c].
      apply blind_bind; [|intros ?; apply blind_ret].
      apply blind_mapM. eapply Forall_impl; [exact IH|]. intros ? H; apply H.
    - (* for range *)
      apply blind_bind; [apply blind_lift|intros ?].
      apply blind_bind; [apply blind_lift|intros ?].
      apply blind_bind; [apply blind_lift|intros ?].
      apply blind_bind.
      + apply blind_mapM.
        repeat (apply Forall_app in IH as [_ IH]).
        eapply Forall_impl; [exact IH|]. intros ? H; apply H.
      + intros ?. apply blind_bind; [apply blind_is_declared|intros known].
        apply blind_if; [|apply blind_ret].
        apply blind_bind; [apply blind_add_variable|intros ?; apply blind_ret].
    - (* print *)
      apply blind_bind; [apply blind_lift|intros ?; apply blind_ret].
    - (* block *)
      apply blind_bind; [|intros ?; apply blind_ret].
      apply blind_mapM. eapply Forall_impl; [exact IH|]. intros ? H; apply H.
    - (* other *)
      repeat (apply blind_if; [apply blind_raise|]). apply blind_ret. }
  assert (H2 : output_blind (branch process_node nd)).
  { apply blind_branch; [exact H1|].
    eapply Forall_impl; [exact IH|]. intros ? H; apply H. }
  split; [exact H1|]. split; [exact H2|].
  destruct nd; try exact (blind_bind _ _ H2 (fun _ => blind_ret _)).
  cbn [else_chain]. cbn [children] in IH.
  apply List.Forall_cons_iff in IH as [_ IH].
  apply List.Forall_cons_iff in IH as [Ht IH].
  apply blind_bind; [apply blind_lift|intros c].
  apply blind_bind; [apply Ht|intros body].
  apply blind_bind; [|intros rest; apply blind_ret].
  destruct false_branch as [fb|]; [|apply blind_ret].
  cbn in IH. apply List.Forall_cons_iff in IH as [Hf _]. apply Hf.
Qed.
End OutputBlind.

Section Order.
Import PythonToCppConverter.

Lemma with_output_same st :
  with_output (declarations st) (statements st) st = st.
Proof. destruct st; reflexivity. Qed.

(** [process_node] leaves both output lists alone. *)
Lemma process_node_frame nd st res st' :
  process_node nd st = Ok (res, st') ->
  declarations st' = declarations st /\ statements st' = statements st.
Proof.
  intros H.
  pose proof (proj1 (blind_process_node nd) (declarations st)
                (statements st) st) as Hb.
  rewrite with_output_same, H in Hb. cbn in Hb. injection Hb as ->.
  split; reflexivity.
Qed.

Lemma declared_add x vars d s :
  declared x {| variables := {[x]} ∪ vars; declarations := d;
                statements := s |} = true.
Proof. unfold declared. cbn. apply bool_decide_eq_true. set_solver. Qed.

(** After an assignment has been translated its variable is in
    [self.variables]. *)
Lemma assignment_declares x e st res st' :
  process_node (Assignment x e) st = Ok (res, st') ->
  declared x st' = true.
Proof.
  cbn [process_node].
  assert (Hreg : forall st res st',
             assign_regular x e st = Ok (res, st') -> declared x st' = true).
  { clear. intros st res st'. unfold assign_regular, bind, lift, is_declared.
    destruct (generate_expression e (Some x) false) as [r| |];
      try discriminate.
    destruct (declared x st) eqn:Hd; cbn.
    - destruct (nonempty r); cbn; intros H; injection H as _ <-; exact Hd.
    - repeat match goal with
             | |- context [if ?b then _ else _] => destruct b
             end; cbn; intros H; injection H as _ <-; apply declared_add. }
  unfold process_assignment.
  destruct e; try (cbn [bare]; try destruct (_ =? _)%string;
                   first [discriminate | apply Hreg]).
  destruct (mem operator _); [|apply Hreg].
  destruct e1; try (cbn [bare]; try destruct (_ =? _)%string;
                    first [discriminate | apply Hreg]).
  destruct (value =? x)%string; [|apply Hreg].
  clear Hreg. unfold assign_compound, bind, lift, is_declared.
  destruct (generate_expression e2 None false) as [r| |]; try discriminate.
  destruct (declared x st) eqn:Hd; cbn.
  - intros H; injection H as _ <-; exact Hd.
  - intros H; injection H as _ <-; apply declared_add.
Qed.

(** One turn of [process_program]: the text goes to [self.statements],
    never to [self.declarations]. *)
Lemma process_statement_appends stmt st :
  process_statement stmt st
  = match process_node stmt st with
    | Ok (res, st1) =>
        Ok (tt, with_output (declarations st)
                  (statements st ++ emitted [res]) st1)
    | Raise e => Raise e
    | Diverge => Diverge
    end.
Proof.
  unfold process_statement, bind.
  destruct (process_node stmt st) as [[res st1]| |] eqn:H; try reflexivity.
  destruct (process_node_frame _ _ _ _ H) as [Hd Hs].
  unfold emitted. cbn [List.filter].
  destruct (nonempty res) eqn:Hne; cbn.
  - assert (Hput :
      modify (fun st0 =>
                {| variables := variables st0;
                   declarations := declarations st0;
                   statements := statements st0 ++ [rstrip res] |}) st1
      = Ok (tt, with_output (declarations st)
                  (statements st ++ [rstrip res]) st1)).
    { unfold modify, with_output. rewrite Hd, Hs. reflexivity. }
    destruct stmt; try exact Hput.
    unfold bind, is_declared. rewrite (assignment_declares _ _ _ _ _ H).
    exact Hput.
  - unfold with_output. rewrite app_nil_r, <- Hd, <- Hs.
    destruct st1; reflexivity.
Qed.

Lemma emitted_app a b :
  emitted (a ++ b)%list = (emitted a ++ emitted b)%list.
Proof. unfold emitted. rewrite List.filter_app, map_app. reflexivity. Qed.

Lemma process_statements_in_order stmts : forall st,
  forM_ process_statement stmts st
  = match mapM process_node stmts st with
    | Ok (outs, st1) =>
        Ok (tt, with_output (declarations st)
                  (statements st ++ emitted outs) st1)
    | Raise e => Raise e
    | Diverge => Diverge
    end.
Proof.
  induction stmts as [|stmt stmts IH]; intros st.
  - cbn. unfold emitted. cbn. rewrite app_nil_r.
    destruct st; reflexivity.
  - cbn [forM_ mapM]. unfold bind at 1. rewrite process_statement_appends.
    unfold bind at 1.
    destruct (process_node stmt st) as [[res st1]| |] eqn:H; try reflexivity.
    rewrite IH.
    pose proof (blind_mapM process_node stmts) as Hb.
    rewrite Hb by (apply Forall_forall; intros; apply blind_process_node).
    unfold bind.
    destruct (mapM process_node stmts st1) as [[outs st2]| |];
      try reflexivity.
    unfold on_state, with_output. cbn [variables declarations statements].
    unfold ret. rewrite <- app_assoc, <- emitted_app. reflexivity.
Qed.
End Order.

(** ** The lines of a generated text *)

Section Outline.

Lemma append_cons c a b : String c a ++ b = String c (a ++ b).
Proof. reflexivity. Qed.

Lemma append_nil b : EmptyString ++ b = b.
Proof. reflexivity. Qed.

Lemma lines_of_cons c s :
  lines_of (String c s)
  = if Ascii.eqb c "010" then EmptyString :: lines_of s
    else String c (hd EmptyString (lines_of s)) :: tl (lines_of s).
Proof.
  cbn [lines_of]. destruct (Ascii.eqb c "010"); [reflexivity|].
  destruct (lines_of s); reflexivity.
Qed.

Lemma lines_of_not_nil s : lines_of s <> [].
Proof.
  destruct s as [|c s]; [discriminate|]. rewrite lines_of_cons.
  destruct (Ascii.eqb c "010"); discriminate.
Qed.

Lemma lines_of_hd_tl s :
  lines_of s = hd EmptyString (lines_of s) :: tl (lines_of s).
Proof.
  pose proof (lines_of_not_nil s).
  destruct (lines_of s); [contradiction|reflexivity].
Qed.

Lemma lines_of_app_nl a b :
  lines_of (a ++ nl ++ b) = (lines_of a ++ lines_of b)%list.
Proof.
  induction a as [|c a IH].
  - reflexivity.
  - change (String c a ++ nl ++ b) with (String c (a ++ nl ++ b)).
    rewrite !lines_of_cons, IH.
    destruct (Ascii.eqb c "010"); [reflexivity|].
    rewrite (lines_of_hd_tl a). reflexivity.
Qed.

Lemma rstrip_cons c s :
  rstrip (String c s)
  = match rstrip s with
    | EmptyString => if is_space c then EmptyString else String c EmptyString
    | r => String c r
    end.
Proof. reflexivity. Qed.

Lemma strip_space_cons c s : is_space c = true -> strip (String c s) = strip s.
Proof.
  intros Hc. unfold strip. rewrite rstrip_cons.
  destruct (rstrip s) as [|d r] eqn:E.
  - rewrite Hc. reflexivity.
  - unfold lstrip. cbn [lstrip_by]. rewrite Hc. reflexivity.
Qed.

Lemma outline_space_cons c s :
  is_space c = true -> outline (String c s) = outline s.
Proof.
  intros Hc. unfold outline. rewrite lines_of_cons.
  destruct (Ascii.eqb c "010").
  - reflexivity.
  - pose proof (lines_of_not_nil s) as Hn.
    destruct (lines_of s) as [|l ls]; [contradiction|].
    cbn [map hd tl]. rewrite strip_space_cons by exact Hc. reflexivity.
Qed.

Lemma outline_blank_app w s : blank w = true -> outline (w ++ s) = outline s.
Proof.
  induction w as [|c w IH]; intros Hw; [reflexivity|].
  cbn [blank] in Hw. apply andb_prop in Hw as [Hc Hw].
  change (String c w ++ s) with (String c (w ++ s)).
  rewrite outline_space_cons by exact Hc. apply IH. exact Hw.
Qed.

Lemma outline_empty : outline EmptyString = [].
Proof. reflexivity. Qed.

Lemma outline_app_nl a b :
  outline (a ++ nl ++ b) = (outline a ++ outline b)%list.
Proof.
  unfold outline. rewrite lines_of_app_nl, map_app, List.filter_app.
  reflexivity.
Qed.

Lemma outline_nl_cons s : outline (nl ++ s) = outline s.
Proof. apply (outline_app_nl EmptyString s). Qed.

Lemma lstrip_blank s : exists w, blank w = true /\ s = w ++ lstrip s.
Proof.
  induction s as [|c s (w & Hw & IH)].
  - exists EmptyString. split; reflexivity.
  - unfold lstrip. cbn [lstrip_by]. destruct (is_space c) eqn:Hc.
    + exists (String c w). split; [cbn; rewrite Hc; exact Hw|].
      rewrite append_cons. f_equal. exact IH.
    + exists EmptyString. split; reflexivity.
Qed.

Lemma outline_lstrip s : outline (lstrip s) = outline s.
Proof.
  destruct (lstrip_blank s) as (w & Hw & E).
  rewrite E at 2. symmetry. apply outline_blank_app. exact Hw.
Qed.

Lemma outline_right_stripped s :
  outline s
  = List.filter (fun l => negb (l =? EmptyString))
      (map lstrip (right_stripped s)).
Proof. unfold outline, right_stripped. rewrite map_map. reflexivity. Qed.

Lemma right_stripped_cons c s :
  right_stripped (String c s)
  = if Ascii.eqb c "010" then EmptyString :: right_stripped s
    else match hd EmptyString (right_stripped s) with
         | EmptyString =>
             if is_space c then EmptyString else String c EmptyString
         | r => String c r
         end :: tl (right_stripped s).
Proof.
  unfold right_stripped. rewrite lines_of_cons.
  destruct (Ascii.eqb c "010"); [reflexivity|].
  pose proof (lines_of_not_nil s) as Hn.
  destruct (lines_of s) as [|l ls]; [contradiction|].
  cbn [map hd tl]. rewrite rstrip_cons. reflexivity.
Qed.

Lemma right_stripped_blank w :
  blank w = true ->
  right_stripped w = repeat EmptyString (length (lines_of w)).
Proof.
  induction w as [|c w IH]; intros Hw; [reflexivity|].
  cbn [blank] in Hw. apply andb_prop in Hw as [Hc Hw].
  rewrite right_stripped_cons, lines_of_cons, (IH Hw).
  destruct (Ascii.eqb c "010"); [reflexivity|].
  pose proof (lines_of_not_nil w) as Hn.
  destruct (lines_of w) as [|l ls]; [contradiction|].
  cbn [length repeat hd tl]. rewrite Hc. reflexivity.
Qed.

Lemma right_stripped_app_blank s w :
  blank w = true ->
  exists k, right_stripped (s ++ w)
            = (right_stripped s ++ repeat EmptyString k)%list.
Proof.
  intros Hw. induction s as [|c s (k & IH)].
  - rewrite append_nil. rewrite (right_stripped_blank w Hw).
    pose proof (lines_of_not_nil w) as Hn.
    destruct (lines_of w) as [|l ls]; [contradiction|].
    exists (length ls). reflexivity.
  - change (String c s ++ w) with (String c (s ++ w)).
    rewrite !right_stripped_cons, IH.
    exists k. destruct (Ascii.eqb c "010"); [reflexivity|].
    unfold right_stripped.
    pose proof (lines_of_not_nil s) as Hn.
    destruct (lines_of s) as [|l ls]; [contradiction|]. reflexivity.
Qed.

Lemma filter_repeat_empty k :
  List.filter (fun l => negb (l =? EmptyString))
    (map lstrip (repeat EmptyString k)) = [].
Proof. induction k; [reflexivity|exact IHk]. Qed.

Lemma outline_app_blank s w : blank w = true -> outline (s ++ w) = outline s.
Proof.
  intros Hw. rewrite !outline_right_stripped.
  destruct (right_stripped_app_blank s w Hw) as (k & ->).
  rewrite map_app, List.filter_app, filter_repeat_empty, app_nil_r.
  reflexivity.
Qed.

Lemma rstrip_blank s : exists w, blank w = true /\ s = rstrip s ++ w.
Proof.
  induction s as [|c s (w & Hw & IH)].
  - exists EmptyString. split; reflexivity.
  - rewrite rstrip_cons. destruct (rstrip s) as [|d r] eqn:E.
    + destruct (is_space c) eqn:Hc.
      * exists (String c w). split; [cbn; rewrite Hc; exact Hw|].
        rewrite append_nil. f_equal. rewrite IH at 1. reflexivity.
      * exists w. split; [exact Hw|]. rewrite append_cons, append_nil.
        f_equal. rewrite IH at 1. reflexivity.
    + exists w. split; [exact Hw|].
      change (String c (String d r) ++ w) with (String c (String d r ++ w)).
      f_equal. exact IH.
Qed.

Lemma outline_rstrip s : outline (rstrip s) = outline s.
Proof.
  destruct (rstrip_blank s) as (w & Hw & E).
  rewrite E at 2. symmetry. apply outline_app_blank. exact Hw.
Qed.

Lemma outline_strip s : outline (strip s) = outline s.
Proof. unfold strip. rewrite outline_lstrip. apply outline_rstrip. Qed.

Lemma outline_join l : outline (join nl l) = concat (map outline l).
Proof.
  induction l as [|s l IH]; [reflexivity|].
  destruct l as [|s' l].
  - cbn. rewrite app_nil_r. reflexivity.
  - change (join nl (s :: s' :: l)) with (s ++ nl ++ join nl (s' :: l)).
    rewrite outline_app_nl, IH. reflexivity.
Qed.

Lemma concat_outline_filter (keep : string -> bool) l :
  (forall s, keep s = false -> outline s = []) ->
  concat (map outline (List.filter keep l)) = concat (map outline l).
Proof.
  intros H. induction l as [|s l IH]; [reflexivity|].
  cbn [List.filter]. destruct (keep s) eqn:E; cbn [map concat].
  - rewrite IH. reflexivity.
  - rewrite (H s E), IH. reflexivity.
Qed.

Lemma concat_outline_map g l :
  (forall s, outline (g s) = outline s) ->
  concat (map outline (map g l)) = concat (map outline l).
Proof.
  intros H. induction l as [|s l IH]; [reflexivity|].
  cbn [map concat]. rewrite H, IH. reflexivity.
Qed.
End Outline.

Section OutlineLayout.

Lemma string_app_assoc a b c : (a ++ b) ++ c = a ++ b ++ c.
Proof.
  induction a as [|x a IH]; [reflexivity|].
  change (String x ((a ++ b) ++ c) = String x (a ++ (b ++ c))).
  f_equal. exact IH.
Qed.

Lemma append_empty a : a ++ EmptyString = a.
Proof.
  induction a as [|x a IH]; [reflexivity|].
  change (String x (a ++ EmptyString) = String x a). f_equal. exact IH.
Qed.

Lemma indent_cons c s :
  Converter.indent (String c s)
  = if Ascii.eqb c "010" then nl ++ "    " ++ Converter.indent s
    else String c (Converter.indent s).
Proof.
  unfold Converter.indent, replace, nl.
  cbn [replace_from String.prefix String.length Nat.sub].
  destruct (ascii_dec "010" c) as [E|E].
  - subst c. cbn [Ascii.eqb Bool.eqb]. destruct s; reflexivity.
  - destruct (Ascii.eqb_spec c "010") as [->|Hne]; [congruence|reflexivity].
Qed.

Lemma lines_of_indent s :
  lines_of (Converter.indent s)
  = hd EmptyString (lines_of s)
    :: map (fun l => "    " ++ l) (tl (lines_of s)).
Proof.
  induction s as [|c s IH]; [reflexivity|].
  rewrite indent_cons, (lines_of_cons c s).
  pose proof (lines_of_not_nil s) as Hn.
  destruct (Ascii.eqb c "010") eqn:E.
  - change (nl ++ "    " ++ Converter.indent s)
      with (String "010" (String " " (String " " (String " " (String " "
              (Converter.indent s)))))).
    rewrite !lines_of_cons, IH. cbn [Ascii.eqb Bool.eqb hd tl].
    destruct (lines_of s) as [|l ls]; [contradiction|]. reflexivity.
  - rewrite lines_of_cons, E, IH.
    destruct (lines_of s) as [|l ls]; [contradiction|]. reflexivity.
Qed.

Lemma strip_pad l : strip ("    " ++ l) = strip l.
Proof.
  change ("    " ++ l)
    with (String " " (String " " (String " " (String " " l)))).
  rewrite !strip_space_cons by reflexivity. reflexivity.
Qed.

Lemma outline_indent s : outline (Converter.indent s) = outline s.
Proof.
  unfold outline. rewrite lines_of_indent.
  pose proof (lines_of_not_nil s) as Hn.
  destruct (lines_of s) as [|l ls]; [contradiction|].
  cbn [hd tl map]. rewrite map_map.
  f_equal. f_equal. apply map_ext. intros a. apply strip_pad.
Qed.

(** A text followed by nothing, or by a new line and more. *)
Lemma outline_continued a rest :
  rest = EmptyString \/ (exists r, rest = nl ++ r) ->
  outline (a ++ rest) = (outline a ++ outline rest)%list.
Proof.
  intros [->|[r ->]].
  - rewrite append_empty, outline_empty, app_nil_r. reflexivity.
  - rewrite outline_app_nl, outline_nl_cons. reflexivity.
Qed.

Lemma outline_blank s : strip s = EmptyString -> outline s = [].
Proof. intros H. rewrite <- outline_strip, H. reflexivity. Qed.
End OutlineLayout.

Section PythonContainers.
Import PythonToCppConverter.

Lemma join_lines_outline pad g body_lines :
  blank pad = true -> (forall s, outline (g s) = outline s) ->
  outline (join_lines pad g body_lines) = concat (map outline body_lines).
Proof.
  intros Hpad Hg. unfold join_lines. rewrite outline_join.
  rewrite (concat_outline_map (fun line => pad ++ g line)).
  - apply concat_outline_filter. intros s Hs. unfold nonempty in Hs.
    apply Bool.negb_false_iff, String.eqb_eq in Hs. subst s. reflexivity.
  - intros s. rewrite outline_blank_app by exact Hpad. apply Hg.
Qed.

Lemma emitted_outline outs :
  outline (join nl (emitted outs)) = concat (map outline outs).
Proof.
  unfold emitted. rewrite outline_join.
  rewrite (concat_outline_map rstrip) by apply outline_rstrip.
  apply concat_outline_filter. intros s Hs. unfold nonempty in Hs.
  apply Bool.negb_false_iff, String.eqb_eq in Hs. subst s. reflexivity.
Qed.

(** A header line, a body, a closing brace. *)
Lemma outline_braced header body :
  outline ("    " ++ header ++ nl ++ body ++ nl ++ "    }")
  = (outline header ++ outline body ++ ["}"])%list.
Proof.
  rewrite outline_blank_app by reflexivity.
  rewrite !outline_app_nl. reflexivity.
Qed.

Lemma mapM_app {S A B} (f : A -> M S B) (a b : list A) (st : S) :
  mapM f (a ++ b) st
  = match mapM f a st with
    | Ok (first, st1) =>
        match mapM f b st1 with
        | Ok (second, st2) => Ok ((first ++ second)%list, st2)
        | Raise e => Raise e
        | Diverge => Diverge
        end
    | Raise e => Raise e
    | Diverge => Diverge
    end.
Proof.
  revert st. induction a as [|x a IH]; intros st.
  - cbn [app mapM]. unfold ret.
    destruct (mapM f b st) as [[o s]| |]; reflexivity.
  - cbn [app mapM]. unfold bind at 1 3.
    destruct (f x st) as [[y st1]| |]; try reflexivity.
    unfold bind at 1 2. rewrite IH.
    destruct (mapM f a st1) as [[o1 st2]| |]; try reflexivity.
    unfold ret. destruct (mapM f b st2) as [[o2 st3]| |]; reflexivity.
Qed.

Lemma while_lines c body st text st' :
  process_node (WhileLoopPy c body) st = Ok (text, st') ->
  exists c' outs,
    generate_expression c None false = Ok c'
    /\ mapM process_node body st = Ok (outs, st')
    /\ outline text
       = (outline ("while (" ++ c' ++ ") {") ++ concat (map outline outs)
          ++ ["}"])%list.
Proof.
  cbn [process_node]. unfold bind, lift.
  destruct (generate_expression c None false) as [c'| |]; try discriminate.
  destruct (mapM process_node body st) as [[outs st1]| |]; try discriminate.
  intros H. injection H as <- <-. exists c', outs.
  split; [reflexivity|]. split; [reflexivity|].
  replace ("    while (" ++ c' ++ ") {" ++ nl
           ++ join_lines "        " rstrip outs ++ nl ++ "    }")
    with ("    " ++ ("while (" ++ c' ++ ") {") ++ nl
          ++ join_lines "        " rstrip outs ++ nl ++ "    }")
    by (rewrite ?string_app_assoc; reflexivity).
  rewrite outline_braced, join_lines_outline;
    [reflexivity|reflexivity|apply outline_rstrip].
Qed.

Lemma block_lines stmts st text st' :
  process_node (Block stmts) st = Ok (text, st') ->
  exists outs,
    mapM process_node stmts st = Ok (outs, st')
    /\ outline text = concat (map outline outs).
Proof.
  cbn [process_node]. unfold bind.
  destruct (mapM process_node stmts st) as [[outs st1]| |]; try discriminate.
  intros H. injection H as <- <-. exists outs. split; [reflexivity|].
  apply join_lines_outline; [reflexivity|apply outline_strip].
Qed.

Lemma for_lines iterator limit start stop step body st text st' :
  process_node (ForRange iterator limit start stop step body) st
  = Ok (text, st') ->
  exists first last by_ outs st1,
    mapM process_node body st = Ok (outs, st1)
    /\ outline text
       = (outline ("for (" ++ (if declared iterator st1 then EmptyString
                               else "int ")
                   ++ iterator ++ " = " ++ first ++ "; " ++ iterator ++ " < "
                   ++ last ++ "; "
                   ++ (if by_ =? "1" then iterator ++ "++"
                       else iterator ++ " += " ++ by_)
                   ++ ") {")
          ++ concat (map outline outs) ++ ["}"])%list.
Proof.
  cbn [process_node]. unfold bind at 1. unfold lift at 1.
  match goal with
  | |- match match ?r with _ => _ end with _ => _ end = _ -> _ =>
      destruct r as [first| |]; try discriminate
  end.
  unfold bind at 1. unfold lift at 1.
  match goal with
  | |- match match ?r with _ => _ end with _ => _ end = _ -> _ =>
      destruct r as [last| |]; try discriminate
  end.
  unfold bind at 1. unfold lift at 1.
  match goal with
  | |- match match ?r with _ => _ end with _ => _ end = _ -> _ =>
      destruct r as [by_| |]; try discriminate
  end.
  unfold bind at 1.
  destruct (mapM process_node body st) as [[outs st1]| |]; try discriminate.
  unfold bind at 1. unfold is_declared at 1.
  intros H. exists first, last, by_, outs, st1. split; [reflexivity|].
  destruct (declared iterator st1); cbn [negb] in H.
  - injection H as <- _.
    replace ("    for (" ++ EmptyString ++ iterator ++ " = " ++ first ++ "; "
             ++ iterator ++ " < " ++ last ++ "; "
             ++ (if by_ =? "1" then iterator ++ "++"
                 else iterator ++ " += " ++ by_)
             ++ ") {" ++ nl ++ join_lines "        " rstrip outs ++ nl
             ++ "    }")
      with ("    " ++ ("for (" ++ EmptyString ++ iterator ++ " = " ++ first
                       ++ "; "
                       ++ iterator ++ " < " ++ last ++ "; "
                       ++ (if by_ =? "1" then iterator ++ "++"
                           else iterator ++ " += " ++ by_)
                       ++ ") {")
            ++ nl ++ join_lines "        " rstrip outs ++ nl ++ "    }")
      by (rewrite ?string_app_assoc; reflexivity).
    rewrite outline_braced, join_lines_outline;
      [reflexivity|reflexivity|apply outline_rstrip].
  - unfold bind, add_variable, modify, ret in H. injection H as <- _.
    replace ("    for (" ++ "int " ++ iterator ++ " = " ++ first ++ "; "
             ++ iterator ++ " < " ++ last ++ "; "
             ++ (if by_ =? "1" then iterator ++ "++"
                 else iterator ++ " += " ++ by_)
             ++ ") {" ++ nl ++ join_lines "        " rstrip outs ++ nl
             ++ "    }")
      with ("    " ++ ("for (" ++ "int " ++ iterator ++ " = " ++ first ++ "; "
                       ++ iterator ++ " < " ++ last ++ "; "
                       ++ (if by_ =? "1" then iterator ++ "++"
                           else iterator ++ " += " ++ by_)
                       ++ ") {")
            ++ nl ++ join_lines "        " rstrip outs ++ nl ++ "    }")
      by (rewrite ?string_app_assoc; reflexivity).
    rewrite outline_braced, join_lines_outline;
      [reflexivity|reflexivity|apply outline_rstrip].
Qed.
End PythonContainers.

Section PythonBranches.
Import PythonToCppConverter.

Lemma outline_braced_then header body rest :
  rest = EmptyString \/ (exists r, rest = nl ++ r) ->
  outline ("    " ++ header ++ nl ++ body ++ nl ++ "    }" ++ rest)
  = (outline header ++ outline body ++ ["}"] ++ outline rest)%list.
Proof.
  intros Hrest.
  replace ("    " ++ header ++ nl ++ body ++ nl ++ "    }" ++ rest)
    with (("    " ++ header ++ nl ++ body ++ nl ++ "    }") ++ rest)
    by (rewrite ?string_app_assoc; reflexivity).
  rewrite outline_continued by exact Hrest.
  rewrite outline_braced, <- !app_assoc. reflexivity.
Qed.

Lemma branch_lines b st body st' :
  branch process_node b st = Ok (body, st') ->
  match b with
  | Block stmts =>
      exists outs,
        mapM process_node stmts st = Ok (outs, st')
        /\ outline body = concat (map outline outs)
  | _ =>
      exists text,
        process_node b st = Ok (text, st') /\ outline body = outline text
  end.
Proof.
  assert (Hone : (body0 <- process_node b ;;
                  ret (if nonempty body0 then "        " ++ body0
                       else EmptyString))%monad st = Ok (body, st') ->
                 exists text,
                   process_node b st = Ok (text, st')
                   /\ outline body = outline text).
  { unfold bind. destruct (process_node b st) as [[t st1]| |];
      try discriminate.
    intros H. injection H as <- <-. exists t. split; [reflexivity|].
    unfold nonempty. destruct (t =? EmptyString) eqn:E; cbn [negb].
    - apply String.eqb_eq in E. subst t. reflexivity.
    - apply outline_blank_app. reflexivity. }
  destruct b; try exact Hone.
  clear Hone. cbn [branch]. unfold bind.
  destruct (mapM process_node statements0 st) as [[outs st1]| |];
    try discriminate.
  intros H. injection H as <- <-. exists outs. split; [reflexivity|].
  apply join_lines_outline; [reflexivity|reflexivity].
Qed.

Lemma else_chain_starts fb st rest st' :
  else_chain process_node fb st = Ok (rest, st') -> exists r, rest = nl ++ r.
Proof.
  destruct fb; cbn [else_chain]; unfold bind, lift;
    repeat match goal with
           | |- match match ?r with _ => _ end with _ => _ end = _ -> _ =>
               destruct r as [[? ?]| |]; try discriminate
           | |- match ?r with _ => _ end = _ -> _ =>
               destruct r as [[? ?]| |]; try discriminate
           end;
    intros H; injection H as <- _; eexists; reflexivity.
Qed.

Lemma chain_lines fb st rest st' :
  else_chain process_node fb st = Ok (rest, st') ->
  match fb with
  | IfStatement c t next =>
      exists c' body st1 rest',
        generate_expression c None false = Ok c'
        /\ branch process_node t st = Ok (body, st1)
        /\ match next with
           | Some more => else_chain process_node more st1
           | None => Ok (EmptyString, st1)
           end = Ok (rest', st')
        /\ outline rest
           = (outline ("else if (" ++ c' ++ ") {") ++ outline body ++ ["}"]
              ++ outline rest')%list
  | _ =>
      exists body,
        branch process_node fb st = Ok (body, st')
        /\ outline rest = (["else {"] ++ outline body ++ ["}"])%list
  end.
Proof.
  assert (Hlast : (else_body <- branch process_node fb ;;
                   ret (nl ++ "    else {" ++ nl ++ else_body ++ nl
                        ++ "    }"))%monad st = Ok (rest, st') ->
                  exists body,
                    branch process_node fb st = Ok (body, st')
                    /\ outline rest
                       = (["else {"] ++ outline body ++ ["}"])%list).
  { unfold bind. destruct (branch process_node fb st) as [[b st1]| |];
      try discriminate.
    intros H. injection H as <- <-. exists b. split; [reflexivity|].
    rewrite outline_nl_cons.
    change ("    else {" ++ nl ++ b ++ nl ++ "    }")
      with ("    " ++ "else {" ++ nl ++ b ++ nl ++ "    }").
    rewrite outline_braced. reflexivity. }
  destruct fb; try exact Hlast.
  clear Hlast. cbn [else_chain]. unfold bind at 1. unfold lift.
  destruct (generate_expression fb1 None false) as [c'| |];
    try discriminate.
  unfold bind at 1.
  destruct (branch process_node fb2 st) as [[body st1]| |];
    try discriminate.
  unfold bind at 1.
  destruct (match false_branch with
            | Some fb => else_chain process_node fb
            | None => ret EmptyString
            end st1) as [[rest' st2]| |] eqn:E; try discriminate.
  intros H. injection H as <- <-.
  exists c', body, st1, rest'.
  split; [reflexivity|]. split; [reflexivity|].
  split; [destruct false_branch; exact E|].
  rewrite outline_nl_cons.
  replace ("    else if (" ++ c' ++ ") {" ++ nl ++ body ++ nl ++ "    }"
           ++ rest')
    with ("    " ++ ("else if (" ++ c' ++ ") {") ++ nl ++ body ++ nl
          ++ "    }" ++ rest')
    by (rewrite ?string_app_assoc; reflexivity).
  apply outline_braced_then.
  destruct false_branch as [more|].
  - right. eapply else_chain_starts. exact E.
  - left. injection E as <- _. reflexivity.
Qed.

Lemma if_lines c t fb st text st' :
  process_node (IfStatement c t fb) st = Ok (text, st') ->
  exists c' body st1 rest,
    generate_expression c None false = Ok c'
    /\ branch process_node t st = Ok (body, st1)
    /\ match fb with
       | Some more => else_chain process_node more st1
       | None => Ok (EmptyString, st1)
       end = Ok (rest, st')
    /\ outline text
       = (outline ("if (" ++ c' ++ ") {") ++ outline body ++ ["}"]
          ++ outline rest)%list.
Proof.
  cbn [process_node]. unfold bind at 1. unfold lift.
  destruct (generate_expression c None false) as [c'| |]; try discriminate.
  unfold bind at 1.
  destruct (branch process_node t st) as [[body st1]| |]; try discriminate.
  unfold bind at 1.
  destruct (match fb with
            | Some fb => else_chain process_node fb
            | None => ret EmptyString
            end st1) as [[rest st2]| |] eqn:E; try discriminate.
  intros H. injection H as <- <-.
  exists c', body, st1, rest.
  split; [reflexivity|]. split; [reflexivity|].
  split; [destruct fb; exact E|].
  replace ("    if (" ++ c' ++ ") {" ++ nl ++ body ++ nl ++ "    }" ++ rest)
    with ("    " ++ ("if (" ++ c' ++ ") {") ++ nl ++ body ++ nl
          ++ "    }" ++ rest)
    by (rewrite ?string_app_assoc; reflexivity).
  apply outline_braced_then.
  destruct fb as [more|].
  - right. eapply else_chain_starts. exact E.
  - left. injection E as <- _. reflexivity.
Qed.
End PythonBranches.

Section CppContainers.
Variable ast : node.
Variable use_main : bool.
Variable semantic_analyzer : SemanticAnalyzer.state.
Variable gen :
  node -> option (list node) -> nat -> option (list node) -> result string.

Lemma concat_outline_nonempty texts :
  concat (map outline (List.filter Converter.nonempty texts))
  = concat (map outline texts).
Proof.
  apply concat_outline_filter. intros s Hs. unfold Converter.nonempty in Hs.
  apply Bool.negb_false_iff, String.eqb_eq in Hs. subst s. reflexivity.
Qed.

(** A header line and an indented body. *)
Lemma outline_headed header body :
  outline (header ++ nl ++ "    " ++ Converter.indent body)
  = (outline header ++ outline body)%list.
Proof.
  rewrite outline_app_nl, (outline_blank_app "    ") by reflexivity.
  rewrite outline_indent. reflexivity.
Qed.

Lemma program_lines stmts context pos parent text :
  Converter.generate_node_body ast use_main semantic_analyzer gen
    (Program stmts) context pos parent = Ok text ->
  exists texts,
    Converter.enumerate_from
      (fun i stmt => gen stmt (Some stmts) i (Some stmts)) 0 stmts
    = Ok texts
    /\ outline text = concat (map outline texts).
Proof.
  cbn [Converter.generate_node_body].
  unfold Converter.each.
  destruct (Converter.enumerate_from _ 0 stmts) as [texts| |];
    try discriminate.
  cbn [rbind]. intros H. injection H as <-. exists texts.
  split; [reflexivity|].
  rewrite outline_join, (concat_outline_map lstrip) by apply outline_lstrip.
  apply concat_outline_nonempty.
Qed.

Lemma function_lines return_type func_name body context pos parent text :
  Converter.generate_node_body ast use_main semantic_analyzer gen
    (FunctionDefinition return_type func_name body) context pos parent
  = Ok text ->
  exists texts,
    Converter.enumerate_from
      (fun i stmt => gen stmt (Some body) i (Some body)) 0 body
    = Ok texts
    /\ outline text
       = ((if (func_name =? "main") && negb use_main then []
           else outline ("def " ++ func_name ++ "():"))
          ++ concat (map outline texts))%list.
Proof.
  cbn [Converter.generate_node_body].
  unfold Converter.each.
  destruct (Converter.enumerate_from _ 0 body) as [texts| |];
    try discriminate.
  cbn [rbind]. intros H. exists texts. split; [reflexivity|].
  assert (Hbody : outline
                    (join nl
                       (List.filter
                          (fun s => Converter.nonempty (strip s)) texts))
                  = concat (map outline texts)).
  { rewrite outline_join. apply concat_outline_filter. intros s Hs.
    unfold Converter.nonempty in Hs.
    apply Bool.negb_false_iff, String.eqb_eq in Hs.
    apply outline_blank. exact Hs. }
  destruct ((func_name =? "main") && negb use_main);
    injection H as <-.
  - exact Hbody.
  - replace ("def " ++ func_name ++ "():" ++ nl ++ "    "
             ++ Converter.indent
                  (join nl
                     (List.filter
                        (fun s => Converter.nonempty (strip s)) texts)))
      with (("def " ++ func_name ++ "():") ++ nl ++ "    "
            ++ Converter.indent
                 (join nl
                    (List.filter
                       (fun s => Converter.nonempty (strip s)) texts)))
      by (rewrite ?string_app_assoc; reflexivity).
    rewrite outline_headed, Hbody. reflexivity.
Qed.

Lemma while_block_lines condition stmts context pos parent text :
  Converter.generate_node_body ast use_main semantic_analyzer gen
    (WhileLoop condition (Block stmts)) context pos parent = Ok text ->
  exists c texts,
    gen condition None 0 None = Ok c
    /\ Converter.enumerate_from
         (fun i stmt => gen stmt (Some stmts) i parent) 0 stmts
       = Ok texts
    /\ outline text
       = (outline ("while " ++ c ++ ":") ++ concat (map outline texts))%list.
Proof.
  cbn [Converter.generate_node_body].
  unfold Converter.gen1, Converter.each.
  destruct (gen condition None 0 None) as [c| |]; try discriminate.
  cbn [rbind].
  destruct (Converter.enumerate_from _ 0 stmts) as [texts| |];
    try discriminate.
  cbn [rbind]. intros H. injection H as <-. exists c, texts.
  split; [reflexivity|]. split; [reflexivity|].
  replace ("while " ++ c ++ ":" ++ nl ++ "    "
           ++ Converter.indent (join nl (List.filter Converter.nonempty texts)))
    with (("while " ++ c ++ ":") ++ nl ++ "    "
          ++ Converter.indent
               (join nl (List.filter Converter.nonempty texts)))
    by (rewrite ?string_app_assoc; reflexivity).
  rewrite outline_headed, outline_join, concat_outline_nonempty.
  reflexivity.
Qed.

Lemma for_block_lines init condition increment stmts context pos parent
  text :
  Converter.generate_node_body ast use_main semantic_analyzer gen
    (ForLoop init condition increment (Block stmts)) context pos parent
  = Ok text ->
  exists start end_ step var_name texts,
    Converter.range_arguments gen init condition increment
    = Ok (start, end_, step)
    /\ Keys.var_name_of init = Ok var_name
    /\ Converter.enumerate_from
         (fun i stmt => gen stmt (Some stmts) i None) 0 stmts
       = Ok texts
    /\ outline text
       = (outline ("for " ++ var_name ++ " in range(" ++ start ++ ", "
                   ++ end_ ++ ", " ++ step ++ "):")
          ++ concat (map outline texts))%list.
Proof.
  cbn [Converter.generate_node_body].
  destruct (Converter.range_arguments gen init condition increment)
    as [[[start end_] step]| |]; try discriminate.
  cbn [rbind].
  destruct (Keys.var_name_of init) as [var_name| |]; try discriminate.
  cbn [rbind]. unfold Converter.each.
  destruct (Converter.enumerate_from _ 0 stmts) as [texts| |];
    try discriminate.
  cbn [rbind]. intros H. injection H as <-.
  exists start, end_, step, var_name, texts.
  split; [reflexivity|]. split; [reflexivity|]. split; [reflexivity|].
  replace ("for " ++ var_name ++ " in "
           ++ ("range(" ++ start ++ ", " ++ end_ ++ ", " ++ step ++ ")")
           ++ ":" ++ nl ++ "    " ++ Converter.indent (join nl texts))
    with (("for " ++ var_name ++ " in range(" ++ start ++ ", " ++ end_
           ++ ", " ++ step ++ "):")
          ++ nl ++ "    " ++ Converter.indent (join nl texts))
    by (rewrite ?string_app_assoc; reflexivity).
  rewrite outline_headed, outline_join. reflexivity.
Qed.

Lemma branch_text_lines branch text :
  Converter.branch_text gen branch = Ok text ->
  match branch with
  | Block stmts =>
      exists texts,
        Converter.enumerate_from
          (fun i stmt => gen stmt (Some stmts) i (Some stmts)) 0 stmts
        = Ok texts
        /\ outline text = concat (map outline texts)
  | _ =>
      exists one,
        gen branch None 0 None = Ok one /\ outline text = outline one
  end.
Proof.
  assert (Hone : (if bare branch "BLOCK" then Raise (KeyError "statements")
                  else rbind (Converter.gen1 gen branch)
                         (fun s => Ok (Converter.indent s)))
                 = Ok text ->
                 exists one,
                   gen branch None 0 None = Ok one
                   /\ outline text = outline one).
  { destruct (bare branch "BLOCK"); [discriminate|]. unfold Converter.gen1.
    destruct (gen branch None 0 None) as [one| |]; try discriminate.
    cbn [rbind]. intros H. injection H as <-. exists one.
    split; [reflexivity|apply outline_indent]. }
  destruct branch; try exact Hone.
  clear Hone. cbn [Converter.branch_text]. unfold Converter.each.
  destruct (Converter.enumerate_from _ 0 statements) as [texts| |];
    try discriminate.
  cbn [rbind]. intros H. injection H as <-. exists texts.
  split; [reflexivity|].
  rewrite outline_indent, outline_join. apply concat_outline_nonempty.
Qed.

Lemma false_branch_starts fb rest :
  Converter.process_false_branch gen fb = Ok rest -> exists r, rest = nl ++ r.
Proof.
  destruct fb; cbn [Converter.process_false_branch bare];
    repeat match goal with
           | |- (if ?b then _ else _) = _ -> _ =>
               destruct b; try discriminate
           | |- rbind ?r _ = _ -> _ =>
               destruct r as [?| |]; cbn [rbind]; try discriminate
           end;
    intros H; injection H as <-; eexists; reflexivity.
Qed.

Lemma false_branch_lines fb rest :
  Converter.process_false_branch gen fb = Ok rest ->
  match fb with
  | IfStatement condition true_branch next =>
      exists c body more,
        gen condition None 0 None = Ok c
        /\ Converter.branch_text gen true_branch = Ok body
        /\ match next with
           | Some after => Converter.process_false_branch gen after
           | None => Ok EmptyString
           end = Ok more
        /\ outline rest
           = (outline ("elif " ++ c ++ ":") ++ outline body
              ++ outline more)%list
  | _ =>
      exists body,
        Converter.branch_text gen fb = Ok body
        /\ outline rest = (["else:"] ++ outline body)%list
  end.
Proof.
  assert (Hlast : (if bare fb "IF_STATEMENT" then Raise (KeyError "condition")
                   else
                     rbind (Converter.branch_text gen fb)
                       (fun f => Ok (nl ++ "else:" ++ nl ++ "    " ++ f)))
                  = Ok rest ->
                  exists body,
                    Converter.branch_text gen fb = Ok body
                    /\ outline rest = (["else:"] ++ outline body)%list).
  { destruct (bare fb "IF_STATEMENT"); [discriminate|].
    destruct (Converter.branch_text gen fb) as [f| |]; try discriminate.
    cbn [rbind]. intros H. injection H as <-. exists f.
    split; [reflexivity|].
    rewrite outline_nl_cons, outline_app_nl, (outline_blank_app "    ")
      by reflexivity.
    reflexivity. }
  destruct fb; try exact Hlast.
  clear Hlast. cbn [Converter.process_false_branch]. unfold Converter.gen1.
  destruct (gen fb1 None 0 None) as [c| |]; try discriminate.
  cbn [rbind].
  destruct (Converter.branch_text gen fb2) as [body| |]; try discriminate.
  cbn [rbind].
  destruct (match false_branch with
            | Some fb => Converter.process_false_branch gen fb
            | None => Ok EmptyString
            end) as [more| |] eqn:E; try discriminate.
  cbn [rbind]. intros H. injection H as <-. exists c, body, more.
  split; [reflexivity|]. split; [reflexivity|]. split; [reflexivity|].
  rewrite outline_nl_cons.
  replace ("elif " ++ c ++ ":" ++ nl ++ "    " ++ body ++ more)
    with (("elif " ++ c ++ ":") ++ nl ++ "    " ++ body ++ more)
    by (rewrite ?string_app_assoc; reflexivity).
  rewrite outline_app_nl, (outline_blank_app "    ") by reflexivity.
  rewrite (outline_continued body more); [reflexivity|].
  destruct false_branch as [after|].
  - right. eapply false_branch_starts. exact E.
  - left. injection E as <-. reflexivity.
Qed.

Lemma if_statement_lines condition true_branch false_branch context pos
  parent text :
  Converter.generate_node_body ast use_main semantic_analyzer gen
    (IfStatement condition true_branch false_branch) context pos parent
  = Ok text ->
  exists c body rest,
    gen condition None 0 None = Ok c
    /\ Converter.branch_text gen true_branch = Ok body
    /\ match false_branch with
       | Some after => Converter.process_false_branch gen after
       | None => Ok EmptyString
       end = Ok rest
    /\ outline text
       = (outline ("if " ++ c ++ ":") ++ outline body ++ outline rest)%list.
Proof.
  cbn [Converter.generate_node_body].
  unfold Converter.gen1.
  destruct (gen condition None 0 None) as [c| |]; try discriminate.
  cbn [rbind].
  destruct (Converter.branch_text gen true_branch) as [body| |];
    try discriminate.
  cbn [rbind].
  destruct (match false_branch with
            | Some fb => Converter.process_false_branch gen fb
            | None => Ok EmptyString
            end) as [rest| |] eqn:E; try discriminate.
  cbn [rbind]. intros H. injection H as <-. exists c, body, rest.
  split; [reflexivity|]. split; [reflexivity|]. split; [reflexivity|].
  replace ("if " ++ c ++ ":" ++ nl ++ "    " ++ body ++ rest)
    with (("if " ++ c ++ ":") ++ nl ++ "    " ++ body ++ rest)
    by (rewrite ?string_app_assoc; reflexivity).
  rewrite outline_app_nl, (outline_blank_app "    ") by reflexivity.
  rewrite (outline_continued body rest); [reflexivity|].
  destruct false_branch as [after|].
  - right. eapply false_branch_starts. exact E.
  - left. injection E as <-. reflexivity.
Qed.
End CppContainers.

Lemma generate_node_S ast use_main st fuel nd stmts pos parent :
  Converter.generate_node ast use_main st (S fuel) nd stmts pos parent
  = Converter.generate_node_body ast use_main st
      (Converter.generate_node ast use_main st fuel) nd stmts pos parent.
Proof. reflexivity. Qed.

Lemma enumerate_from_app {A B} (f : nat -> A -> result B) (a b : list A) i :
  Converter.enumerate_from f i (a ++ b)
  = rbind (Converter.enumerate_from f i a)
      (fun first =>
         rbind (Converter.enumerate_from f (i + length a) b)
           (fun second => Ok (first ++ second)%list)).
Proof.
  revert i. induction a as [|x a IH]; intros i.
  - cbn [app Converter.enumerate_from rbind length].
    rewrite Nat.add_0_r.
    destruct (Converter.enumerate_from f i b); reflexivity.
  - cbn [app Converter.enumerate_from length].
    destruct (f i x) as [y| |]; try reflexivity. cbn [rbind].
    rewrite IH. replace (S i + length a) with (i + S (length a)) by lia.
    destruct (Converter.enumerate_from f (S i) a) as [ys| |];
      try reflexivity.
    cbn [rbind].
    destruct (Converter.enumerate_from f (i + S (length a)) b);
      reflexivity.
Qed.

Section TopLevel.

Lemma program_text_outline body :
  outline ("#include <iostream>" ++ nl ++ "#include <string>" ++ nl
           ++ "using namespace std;" ++ nl ++ nl ++ "int main() {" ++ nl
           ++ nl ++ body ++ nl ++ "    return 0;" ++ nl ++ "}")
  = (["#include <iostream>"; "#include <string>"; "using namespace std;";
      "int main() {"] ++ outline body ++ ["return 0;"; "}"])%list.
Proof.
  rewrite (outline_app_nl "#include <iostream>").
  rewrite (outline_app_nl "#include <string>").
  rewrite (outline_app_nl "using namespace std;").
  rewrite outline_nl_cons.
  rewrite (outline_app_nl "int main() {").
  rewrite outline_nl_cons.
  rewrite (outline_app_nl body).
  rewrite (outline_app_nl "    return 0;").
  reflexivity.
Qed.

Lemma main_wrapper_outline use_main code :
  outline (Converter.main_wrapper use_main (strip code))
  = if use_main
    then (["def main():"] ++ outline code
          ++ [("if __name__ == " ++ dq ++ "__main__" ++ dq ++ ":")%string;
              "main()"])%list
    else outline code.
Proof.
  unfold Converter.main_wrapper. destruct use_main; [|apply outline_strip].
  rewrite (outline_app_nl "def main():").
  replace ("    " ++ Converter.indent (strip code) ++ nl ++ nl
           ++ "if __name__ == " ++ dq ++ "__main__" ++ dq ++ ":" ++ nl
           ++ "    main()")
    with (("    " ++ Converter.indent (strip code)) ++ nl ++ nl
          ++ ("if __name__ == " ++ dq ++ "__main__" ++ dq ++ ":") ++ nl
          ++ "    main()")
    by (rewrite ?string_app_assoc; reflexivity).
  rewrite (outline_app_nl ("    " ++ Converter.indent (strip code))).
  rewrite outline_nl_cons.
  rewrite (outline_app_nl ("if __name__ == " ++ dq ++ "__main__" ++ dq ++ ":")).
  rewrite (outline_blank_app "    ") by reflexivity.
  rewrite outline_indent, outline_strip. reflexivity.
Qed.
End TopLevel.

(** C7.  Both generators write the statements of every statement
    container in the order of the source.  [outline] is what a text says,
    line by line, its indentation and blank lines put aside.  Python to
    C++: the statements of the program go to [self.statements] one after
    the other, nothing ever reaches [self.declarations], a first
    assignment included, and the lines of the generated program are its
    four opening lines, the lines of the translated statements in source
    order and the two closing lines; the lines of a while loop, a for
    loop, a block and each branch of an if statement are the header, the
    lines of the statements inside in source order, each translated after
    the ones before it, and the closing brace.  C++ to Python: the lines
    of a program, a function, a loop over a block and each branch of an
    if statement are the header, when there is one, and the lines of the
    statements inside in source order.  A list of statements is
    translated part by part ([mapM] and [enumerate_from] over [++]). *)
Theorem C7_statement_order_preserved (stmts : list node) :
  (* Python to C++: the program *)
  PythonToCppConverter.process_program (Program stmts)
    PythonToCppConverter.initial
  = match mapM PythonToCppConverter.process_node stmts
            PythonToCppConverter.initial with
    | Ok (outs, st1) =>
        Ok (tt, {| PythonToCppConverter.variables :=
                     PythonToCppConverter.variables st1;
                   PythonToCppConverter.declarations := [];
                   PythonToCppConverter.statements := emitted outs |})
    | Raise e => Raise e
    | Diverge => Diverge
    end
  /\ PythonToCppConverter.generate_code (Program stmts)
     = match mapM PythonToCppConverter.process_node stmts
               PythonToCppConverter.initial with
       | Ok (outs, _) =>
           Ok ("#include <iostream>" ++ nl ++ "#include <string>" ++ nl
               ++ "using namespace std;" ++ nl ++ nl ++ "int main() {" ++ nl
               ++ nl ++ join nl (emitted outs) ++ nl
               ++ "    return 0;" ++ nl ++ "}")
       | Raise e => Raise e
       | Diverge => Diverge
       end
  /\ (forall code,
        PythonToCppConverter.generate_code (Program stmts) = Ok code ->
        exists outs st1,
          mapM PythonToCppConverter.process_node stmts
            PythonToCppConverter.initial = Ok (outs, st1)
          /\ outline code
             = (["#include <iostream>"; "#include <string>";
                 "using namespace std;"; "int main() {"]
                ++ concat (map outline outs) ++ ["return 0;"; "}"])%list)
  (* Python to C++: the statements that hold statements *)
  /\ (forall nd st text st',
        PythonToCppConverter.process_node nd st = Ok (text, st') ->
        match nd with
        | WhileLoopPy condition body =>
            exists c outs,
              PythonToCppConverter.generate_expression condition None false
              = Ok c
              /\ mapM PythonToCppConverter.process_node body st
                 = Ok (outs, st')
              /\ outline text
                 = (outline ("while (" ++ c ++ ") {")
                    ++ concat (map outline outs) ++ ["}"])%list
        | ForRange iterator _ _ _ _ body =>
            exists first last by_ outs st1,
              mapM PythonToCppConverter.process_node body st = Ok (outs, st1)
              /\ outline text
                 = (outline
                      ("for ("
                       ++ (if PythonToCppConverter.declared iterator st1
                           then EmptyString else "int ")
                       ++ iterator ++ " = " ++ first ++ "; " ++ iterator
                       ++ " < " ++ last ++ "; "
                       ++ (if by_ =? "1" then iterator ++ "++"
                           else iterator ++ " += " ++ by_)
                       ++ ") {")
                    ++ concat (map outline outs) ++ ["}"])%list
        | Block body =>
            exists outs,
              mapM PythonToCppConverter.process_node body st = Ok (outs, st')
              /\ outline text = concat (map outline outs)
        | IfStatement condition true_branch false_branch =>
            exists c body st1 rest,
              PythonToCppConverter.generate_expression condition None false
              = Ok c
              /\ PythonToCppConverter.branch
                   PythonToCppConverter.process_node true_branch st
                 = Ok (body, st1)
              /\ match false_branch with
                 | Some more =>
                     PythonToCppConverter.else_chain
                       PythonToCppConverter.process_node more st1
                 | None => Ok (EmptyString, st1)
                 end = Ok (rest, st')
              /\ outline text
                 = (outline ("if (" ++ c ++ ") {") ++ outline body ++ ["}"]
                    ++ outline rest)%list
        | _ => True
        end)
  /\ (forall branch st body st',
        PythonToCppConverter.branch PythonToCppConverter.process_node
          branch st = Ok (body, st') ->
        match branch with
        | Block inside =>
            exists outs,
              mapM PythonToCppConverter.process_node inside st
              = Ok (outs, st')
              /\ outline body = concat (map outline outs)
        | _ =>
            exists one,
              PythonToCppConverter.process_node branch st = Ok (one, st')
              /\ outline body = outline one
        end)
  /\ (forall fb st rest st',
        PythonToCppConverter.else_chain PythonToCppConverter.process_node
          fb st = Ok (rest, st') ->
        match fb with
        | IfStatement condition true_branch next =>
            exists c body st1 rest',
              PythonToCppConverter.generate_expression condition None false
              = Ok c
              /\ PythonToCppConverter.branch
                   PythonToCppConverter.process_node true_branch st
                 = Ok (body, st1)
              /\ match next with
                 | Some more =>
                     PythonToCppConverter.else_chain
                       PythonToCppConverter.process_node more st1
                 | None => Ok (EmptyString, st1)
                 end = Ok (rest', st')
              /\ outline rest
                 = (outline ("else if (" ++ c ++ ") {") ++ outline body
                    ++ ["}"] ++ outline rest')%list
        | _ =>
            exists body,
              PythonToCppConverter.branch PythonToCppConverter.process_node
                fb st = Ok (body, st')
              /\ outline rest = (["else {"] ++ outline body ++ ["}"])%list
        end)
  /\ (forall (before after : list node) st,
        mapM PythonToCppConverter.process_node (before ++ after) st
        = match mapM PythonToCppConverter.process_node before st with
          | Ok (first, st1) =>
              match mapM PythonToCppConverter.process_node after st1 with
              | Ok (second, st2) => Ok ((first ++ second)%list, st2)
              | Raise e => Raise e
              | Diverge => Diverge
              end
          | Raise e => Raise e
          | Diverge => Diverge
          end)
  (* C++ to Python *)
  /\ (forall ast use_main st fuel nd context pos parent text,
        Converter.generate_node ast use_main st (S fuel) nd context pos
          parent = Ok text ->
        match nd with
        | Program body =>
            exists texts,
              Converter.enumerate_from
                (fun i stmt =>
                   Converter.generate_node ast use_main st fuel stmt
                     (Some body) i (Some body)) 0 body
              = Ok texts
              /\ outline text = concat (map outline texts)
        | FunctionDefinition _ func_name body =>
            exists texts,
              Converter.enumerate_from
                (fun i stmt =>
                   Converter.generate_node ast use_main st fuel stmt
                     (Some body) i (Some body)) 0 body
              = Ok texts
              /\ outline text
                 = ((if (func_name =? "main") && negb use_main then []
                     else outline ("def " ++ func_name ++ "():"))
                    ++ concat (map outline texts))%list
        | ForLoop init condition increment (Block body) =>
            exists start end_ step var_name texts,
              Converter.range_arguments
                (Converter.generate_node ast use_main st fuel)
                init condition increment
              = Ok (start, end_, step)
              /\ Keys.var_name_of init = Ok var_name
              /\ Converter.enumerate_from
                   (fun i stmt =>
                      Converter.generate_node ast use_main st fuel stmt
                        (Some body) i None) 0 body
                 = Ok texts
              /\ outline text
                 = (outline ("for " ++ var_name ++ " in range(" ++ start
                             ++ ", " ++ end_ ++ ", " ++ step ++ "):")
                    ++ concat (map outline texts))%list
        | WhileLoop condition (Block body) =>
            exists c texts,
              Converter.generate_node ast use_main st fuel condition None 0
                None = Ok c
              /\ Converter.enumerate_from
                   (fun i stmt =>
                      Converter.generate_node ast use_main st fuel stmt
                        (Some body) i parent) 0 body
                 = Ok texts
              /\ outline text
                 = (outline ("while " ++ c ++ ":")
                    ++ concat (map outline texts))%list
        | IfStatement condition true_branch false_branch =>
            exists c body rest,
              Converter.generate_node ast use_main st fuel condition None 0
                None = Ok c
              /\ Converter.branch_text
                   (Converter.generate_node ast use_main st fuel) true_branch
                 = Ok body
              /\ match false_branch with
                 | Some after =>
                     Converter.process_false_branch
                       (Converter.generate_node ast use_main st fuel) after
                 | None => Ok EmptyString
                 end = Ok rest
              /\ outline text
                 = (outline ("if " ++ c ++ ":") ++ outline body
                    ++ outline rest)%list
        | _ => True
        end)
  /\ (forall ast use_main st fuel branch text,
        Converter.branch_text (Converter.generate_node ast use_main st fuel)
          branch = Ok text ->
        match branch with
        | Block body =>
            exists texts,
              Converter.enumerate_from
                (fun i stmt =>
                   Converter.generate_node ast use_main st fuel stmt
                     (Some body) i (Some body)) 0 body
              = Ok texts
              /\ outline text = concat (map outline texts)
        | _ =>
            exists one,
              Converter.generate_node ast use_main st fuel branch None 0 None
              = Ok one
              /\ outline text = outline one
        end)
  /\ (forall ast use_main st fuel fb rest,
        Converter.process_false_branch
          (Converter.generate_node ast use_main st fuel) fb = Ok rest ->
        match fb with
        | IfStatement condition true_branch next =>
            exists c body more,
              Converter.generate_node ast use_main st fuel condition None 0
                None = Ok c
              /\ Converter.branch_text
                   (Converter.generate_node ast use_main st fuel) true_branch
                 = Ok body
              /\ match next with
                 | Some after =>
                     Converter.process_false_branch
                       (Converter.generate_node ast use_main st fuel) after
                 | None => Ok EmptyString
                 end = Ok more
              /\ outline rest
                 = (outline ("elif " ++ c ++ ":") ++ outline body
                    ++ outline more)%list
        | _ =>
            exists body,
              Converter.branch_text
                (Converter.generate_node ast use_main st fuel) fb = Ok body
              /\ outline rest = (["else:"] ++ outline body)%list
        end)
  /\ (forall (f : nat -> node -> result string) (before after : list node) i,
        Converter.enumerate_from f i (before ++ after)
        = rbind (Converter.enumerate_from f i before)
            (fun first =>
               rbind (Converter.enumerate_from f (i + length before) after)
                 (fun second => Ok (first ++ second)%list)))
  /\ (forall ast use_main code,
        Converter.generate_code ast use_main = Ok code ->
        code = EmptyString
        \/ exists st text,
             SemanticAnalyzer.analyze ast = Ok ([], st)
             /\ Converter.generate_node ast use_main st (S (Keys.depth ast))
                  ast None 0 None = Ok text
             /\ outline code
                = if use_main
                  then (["def main():"] ++ outline text
                        ++ [("if __name__ == " ++ dq ++ "__main__" ++ dq
                             ++ ":")%string; "main()"])%list
                  else outline text).
Proof.
  assert (H : PythonToCppConverter.process_program (Program stmts)
                PythonToCppConverter.initial
              = match mapM PythonToCppConverter.process_node stmts
                        PythonToCppConverter.initial with
                | Ok (outs, st1) =>
                    Ok (tt, {| PythonToCppConverter.variables :=
                                 PythonToCppConverter.variables st1;
                               PythonToCppConverter.declarations := [];
                               PythonToCppConverter.statements :=
                                 emitted outs |})
                | Raise e => Raise e
                | Diverge => Diverge
                end).
  { cbn [PythonToCppConverter.process_program].
    rewrite process_statements_in_order.
    destruct (mapM _ stmts _) as [[outs st1]| |]; reflexivity. }
  assert (H2 : PythonToCppConverter.generate_code (Program stmts)
               = match mapM PythonToCppConverter.process_node stmts
                         PythonToCppConverter.initial with
                 | Ok (outs, _) =>
                     Ok ("#include <iostream>" ++ nl ++ "#include <string>"
                         ++ nl ++ "using namespace std;" ++ nl ++ nl
                         ++ "int main() {" ++ nl ++ nl
                         ++ join nl (emitted outs) ++ nl
                         ++ "    return 0;" ++ nl ++ "}")
                 | Raise e => Raise e
                 | Diverge => Diverge
                 end).
  { unfold PythonToCppConverter.generate_code. rewrite H.
    destruct (mapM _ stmts _) as [[outs st1]| |]; reflexivity. }
  split; [exact H|]. split; [exact H2|].
  split.
  { intros code Hc. rewrite H2 in Hc.
    destruct (mapM _ stmts _) as [[outs st1]| |]; try discriminate.
    injection Hc as <-. exists outs, st1. split; [reflexivity|].
    rewrite program_text_outline, emitted_outline. reflexivity. }
  split.
  { intros nd st text st' Hnd. destruct nd; try exact I.
    - apply if_lines. exact Hnd.
    - apply while_lines. exact Hnd.
    - eapply for_lines. exact Hnd.
    - apply block_lines. exact Hnd. }
  split.
  { intros branch st body st' Hb. exact (branch_lines _ _ _ _ Hb). }
  split; [intros fb st rest st'; apply chain_lines|].
  split; [intros before after st; apply mapM_app|].
  split.
  { intros ast use_main st fuel nd context pos parent text Hnd.
    rewrite generate_node_S in Hnd. destruct nd; try exact I.
    - eapply program_lines. exact Hnd.
    - eapply function_lines. exact Hnd.
    - eapply if_statement_lines. exact Hnd.
    - destruct nd2; try exact I. eapply while_block_lines. exact Hnd.
    - destruct nd3; try exact I. eapply for_block_lines. exact Hnd. }
  split; [intros ast use_main st fuel branch text; apply branch_text_lines|].
  split; [intros ast use_main st fuel fb rest; apply false_branch_lines|].
  split; [intros f before after i; apply enumerate_from_app|].
  intros ast use_main code. unfold Converter.generate_code.
  destruct (SemanticAnalyzer.analyze ast) as [[errors st]| |];
    try discriminate.
  cbn [rbind]. destruct errors as [|e errors].
  - destruct (Converter.generate_node ast use_main st (S (Keys.depth ast))
                ast None 0 None) as [text| |] eqn:E; try discriminate.
    cbn [rbind]. intros Hc. injection Hc as <-. right.
    exists st, text. split; [reflexivity|]. split; [exact E|].
    apply main_wrapper_outline.
  - intros Hc. injection Hc as <-. left. reflexivity.
Qed.

(** The translations of [x = 1], [print(x)], [y = x] come out in that
    order, the two declarations in place. *)
Lemma statement_order_example :
  Pipeline.python_to_cpp ("x = 1" ++ nl ++ "print(x)" ++ nl ++ "y = x")
  = Ok (Pipeline.Translated
          ("#include <iostream>" ++ nl ++ "#include <string>" ++ nl
           ++ "using namespace std;" ++ nl ++ nl ++ "int main() {" ++ nl
           ++ nl ++ "    int x = 1;" ++ nl ++ "    cout << x << endl;" ++ nl
           ++ "    auto y = x;" ++ nl ++ "    return 0;" ++ nl ++ "}")).
Proof. vm_compute. reflexivity. Qed.

(** The same inside containers, both ways: a loop in a program, and a
    loop and the two branches of an if statement in a function. *)
Lemma nested_order_example :
  PythonToCppConverter.generate_code
    (Program
       [Assignment "i" (Number "0");
        WhileLoopPy (BinaryExpression "<" (Identifier "i") (Number "3"))
          [PrintStatement [Identifier "i"];
           Assignment "i" (BinaryExpression "+" (Identifier "i") (Number "1"))];
        PrintStatement [Identifier "i"]])
  = Ok ("#include <iostream>" ++ nl ++ "#include <string>" ++ nl
        ++ "using namespace std;" ++ nl ++ nl ++ "int main() {" ++ nl ++ nl
        ++ "    int i = 0;" ++ nl ++ "    while (i < 3) {" ++ nl
        ++ "            cout << i << endl;" ++ nl ++ "            i += 1;"
        ++ nl ++ "    }" ++ nl ++ "    cout << i << endl;" ++ nl
        ++ "    return 0;" ++ nl ++ "}")
  /\ Pipeline.cpp_to_python
       "int f() { int i = 0; while (i < 3) { i = i + 1; i = i * 2; } if (i > 2) { i = 0; i = 1; } else { i = 2; } return i; }"
     = Ok ("def f():" ++ nl ++ "    i = 0" ++ nl ++ "    while i < 3:" ++ nl
           ++ "        i += 1" ++ nl ++ "        i *= 2" ++ nl
           ++ "    if i > 2:" ++ nl ++ "        i = 0" ++ nl
           ++ "        i = 1" ++ nl ++ "    else:" ++ nl ++ "        i = 2"
           ++ nl ++ "    return i").
Proof. split; vm_compute; reflexivity. Qed.

(** ** Reading input *)

(** The type of the variable read into is fixed by the assignment that
    reads it: [x = input("Enter: ")] declares [string x], and the
    conversion [y = int(x)] in a later statement changes neither that
    declaration nor the read (and is itself rendered without a value). *)
Lemma C8_later_conversion_counterexample :
  Pipeline.python_to_cpp later_conversion_source
  = Ok (Pipeline.Translated
          ("#include <iostream>" ++ nl ++ "#include <string>" ++ nl
           ++ "using namespace std;" ++ nl ++ nl ++ "int main() {" ++ nl
           ++ nl ++ read_into "string" "x" (dq ++ "Enter: " ++ dq) ++ nl
           ++ "    int y = ;" ++ nl ++ "    return 0;" ++ nl ++ "}"))
  /\ (forall code,
        Pipeline.python_to_cpp later_conversion_source
          = Ok (Pipeline.Translated code) ->
        contains code "int x" = false /\ contains code "string x;" = true).
Proof.
  split; [vm_compute; reflexivity|].
  intros code. vm_compute. intros H. injection H as <-.
  split; reflexivity.
Qed.

(** C8 (as amended).  An assignment of an input call with a prompt to a
    variable not yet declared expands into the declaration of the
    variable, the statement that prints the prompt and the statement that
    reads into the variable.  The variable is declared [int], so that the
    read parses a number, when the input call is the argument of [int] in
    that same assignment, and [string] when it is assigned as it is. *)
Theorem C8_input_call_expansion (x : string) (p : node) (prompt : string)
  (st : PythonToCppConverter.state) :
  x <> EmptyString ->
  PythonToCppConverter.declared x st = false ->
  PythonToCppConverter.generate_expression p None false = Ok prompt ->
  PythonToCppConverter.process_node
    (Assignment x (FunctionCall "input" [p])) st
  = Ok (read_into "string" x prompt, declare x st)
  /\ PythonToCppConverter.process_node
       (Assignment x (FunctionCall "int" [FunctionCall "input" [p]])) st
     = Ok (read_into "int" x prompt, declare x st).
Proof.
  intros Hx Hd Hp. destruct x as [|c x]; [congruence|].
  split.
  - cbn [PythonToCppConverter.process_node
         PythonToCppConverter.process_assignment bare].
    unfold PythonToCppConverter.assign_regular, bind,
      PythonToCppConverter.lift, PythonToCppConverter.is_declared.
    cbn [PythonToCppConverter.generate_expression]. rewrite Hp. cbn.
    rewrite Hd. reflexivity.
  - cbn [PythonToCppConverter.process_node
         PythonToCppConverter.process_assignment bare].
    unfold PythonToCppConverter.assign_regular, bind,
      PythonToCppConverter.lift, PythonToCppConverter.is_declared.
    cbn [PythonToCppConverter.generate_expression]. rewrite Hp. cbn.
    rewrite Hd. reflexivity.
Qed.

(** [n = int(input("How many? "))] in the initial state. *)
Lemma C8_input_call_expansion_witness :
  ("n" <> EmptyString
   /\ PythonToCppConverter.declared "n" PythonToCppConverter.initial = false
   /\ PythonToCppConverter.generate_expression
        (StringLiteral (dq ++ "How many? " ++ dq)) None false
      = Ok (dq ++ "How many? " ++ dq))
  /\ PythonToCppConverter.process_node
       (Assignment "n"
          (FunctionCall "int"
             [FunctionCall "input"
                [StringLiteral (dq ++ "How many? " ++ dq)]]))
       PythonToCppConverter.initial
     = Ok (read_into "int" "n" (dq ++ "How many? " ++ dq),
           declare "n" PythonToCppConverter.initial).
Proof.
  assert (H1 : "n" <> EmptyString) by discriminate.
  assert (H2 : PythonToCppConverter.declared "n" PythonToCppConverter.initial
               = false) by reflexivity.
  assert (H3 : PythonToCppConverter.generate_expression
                 (StringLiteral (dq ++ "How many? " ++ dq)) None false
               = Ok (dq ++ "How many? " ++ dq)) by reflexivity.
  split; [auto|].
  exact (proj2 (C8_input_call_expansion "n" _ _ _ H1 H2 H3)).
Defined.
(** ** Uses of undeclared names *)

Section Undeclared.
Import SemanticAnalyzer.

(** The search runs from the innermost frame outwards. *)
Lemma lookup_stack_innermost x stk scope :
  lookup_stack x (stk ++ [scope])
  = match scope !! x with
    | Some v => Some v
    | None => lookup_stack x stk
    end.
Proof. unfold lookup_stack. rewrite rev_app_distr. reflexivity. Qed.

Lemma extends_refl st : extends st st [].
Proof. split; [reflexivity|]. symmetry. apply app_nil_r. Qed.

Lemma extends_report st msg : extends st (with_error st msg) [msg].
Proof. split; reflexivity. Qed.

Lemma extends_trans st1 st2 st3 e1 e2 :
  extends st1 st2 e1 -> extends st2 st3 e2 -> extends st1 st3 (e1 ++ e2).
Proof.
  intros [H1 H2] [H3 H4]. split; [congruence|].
  rewrite H4, H2, app_assoc. reflexivity.
Qed.

(** Typing a call-free expression returns, leaves the scopes as they
    are and only adds diagnostics. *)
Lemma evaluate_call_free e : forall context st,
  call_free e = true ->
  exists ty st' extra,
    evaluate_expression_type e context st = Ok (ty, st')
    /\ extends st st' extra.
Proof.
  induction e; intros context st Hsafe; try discriminate Hsafe;
    try (cbn; do 3 eexists; split;
         [reflexivity | first [apply extends_refl | apply extends_report]]).
  - (* binary *)
    cbn in Hsafe. apply andb_prop in Hsafe as [Hl Hr].
    cbn [evaluate_expression_type]. unfold bind at 1.
    edestruct IHe1 as (tl & st1 & x1 & -> & E1); [exact Hl|].
    unfold bind at 1.
    edestruct IHe2 as (tr & st2 & x2 & -> & E2); [exact Hr|].
    pose proof (extends_trans _ _ _ _ _ E1 E2) as E12.
    repeat match goal with
           | |- context [if ?b then _ else _] => destruct b
           end; cbn;
      do 3 eexists;
      (split; [reflexivity|]);
      first [ exact E12
            | eapply extends_trans; [exact E12 | apply extends_report] ].
  - (* identifier *)
    cbn. unfold bind, lookup_variable, get, bind, ret.
    destruct (lookup_stack value (scope_stack st));
      do 3 eexists; (split; [reflexivity|]);
      first [apply extends_refl | apply extends_report].
Qed.

Lemma places_mentioned x e : forall context,
  mentions x e = true -> places x e context <> [].
Proof.
  induction e; intros context Hm; try discriminate Hm.
  - cbn [mentions] in Hm. cbn [places].
    destruct (mentions x e1) eqn:H1.
    + intros Hnil. apply app_eq_nil in Hnil as [Hl _].
      exact (IHe1 _ eq_refl Hl).
    + cbn in Hm. intros Hnil. apply app_eq_nil in Hnil as [_ Hr].
      exact (IHe2 _ Hm Hr).
  - cbn [mentions] in Hm. cbn [places]. rewrite Hm. discriminate.
Qed.

(** Typing a call-free expression reports every use of an unbound name,
    each with its place. *)
Lemma evaluate_reports_places x e : forall context st,
  call_free e = true ->
  lookup_stack x (scope_stack st) = None ->
  exists ty st' extra,
    evaluate_expression_type e context st = Ok (ty, st')
    /\ extends st st' extra
    /\ Forall (fun place => In (msg_undeclared_in x place) extra)
         (places x e context).
Proof.
  induction e; intros context st Hsafe Hnone; try discriminate Hsafe;
    try (cbn; do 3 eexists; split;
         [reflexivity
         | split; [first [apply extends_refl | apply extends_report]
                  | apply List.Forall_nil]]).
  - (* binary *)
    cbn in Hsafe. apply andb_prop in Hsafe as [Hl Hr].
    cbn [evaluate_expression_type places]. unfold bind at 1.
    edestruct IHe1 as (tl & st1 & x1 & -> & E1 & F1); [exact Hl|exact Hnone|].
    unfold bind at 1.
    edestruct IHe2 as (tr & st2 & x2 & -> & E2 & F2);
      [exact Hr|destruct E1 as [-> _]; exact Hnone|].
    pose proof (extends_trans _ _ _ _ _ E1 E2) as E12.
    assert (F12 : Forall (fun place => In (msg_undeclared_in x place)
                                         (x1 ++ x2)%list)
                    (places x e1
                       ("left operand of '" ++ operator ++ "' in " ++ context)
                     ++ places x e2
                          ("right operand of '" ++ operator ++ "' in "
                           ++ context))%list).
    { apply Forall_app. split.
      - eapply Forall_impl; [exact F1|]. intros p Hp.
        apply in_or_app; left; exact Hp.
      - eapply Forall_impl; [exact F2|]. intros p Hp.
        apply in_or_app; right; exact Hp. }
    repeat match goal with
           | |- context [if ?b then _ else _] => destruct b
           end; cbn;
      do 3 eexists;
      (split; [reflexivity|]);
      first [ split; [exact E12 | exact F12]
            | split; [eapply extends_trans; [exact E12 | apply extends_report]
                     | eapply Forall_impl; [exact F12|]; intros p Hp;
                       apply in_or_app; left; exact Hp] ].
  - (* identifier *)
    cbn [evaluate_expression_type places].
    unfold bind, lookup_variable, get, bind, ret.
    destruct (value =? x) eqn:Hv.
    + apply String.eqb_eq in Hv. subst value. rewrite Hnone.
      exists None, (with_error st (msg_undeclared_in x context)),
        [msg_undeclared_in x context].
      split; [reflexivity|]. split; [apply extends_report|].
      apply List.Forall_cons; [left; reflexivity|apply List.Forall_nil].
    + destruct (lookup_stack value (scope_stack st));
        do 3 eexists; (split; [reflexivity|]);
        (split; [first [apply extends_refl | apply extends_report]
                |apply List.Forall_nil]).
Qed.
End Undeclared.

Section NameBlind.
Import PythonSemanticAnalyzer.

Lemma extend_all_app f a b :
  extend_all f (a ++ b)%list
  = match extend_all f a with
    | Ok ea =>
        match extend_all f b with
        | Ok eb => Ok (ea ++ eb)%list
        | Raise e => Raise e
        | Diverge => Diverge
        end
    | Raise e => Raise e
    | Diverge => Diverge
    end.
Proof.
  induction a as [|s a IH]; cbn [app extend_all rbind].
  - destruct (extend_all f b); reflexivity.
  - destruct (f s) as [es| |]; cbn [rbind]; try reflexivity.
    rewrite IH. destruct (extend_all f a) as [ea| |]; cbn [rbind];
      try reflexivity.
    destruct (extend_all f b) as [eb| |]; cbn [rbind]; try reflexivity.
    rewrite app_assoc. reflexivity.
Qed.

Lemma rename_type f n : node_type (rename_uses f n) = node_type n.
Proof. destruct n; reflexivity. Qed.

Lemma rename_bare f n t : bare (rename_uses f n) t = bare n t.
Proof. destruct n; reflexivity. Qed.

Lemma extend_all_renamed f g l :
  Forall (fun s => g (rename_uses f s) = g s) l ->
  extend_all g (map (rename_uses f) l) = extend_all g l.
Proof.
  induction 1 as [|s l Hs _ IH]; cbn [map extend_all]; [reflexivity|].
  rewrite Hs, IH. reflexivity.
Qed.

Lemma flat_map_renamed {T} f (g h : node -> list T) l :
  (forall n, g (rename_uses f n) = h n) ->
  flat_map g (map (rename_uses f) l) = flat_map h l.
Proof.
  intros H. induction l as [|a l IH]; cbn; [reflexivity|].
  rewrite H, IH. reflexivity.
Qed.

Lemma present_renamed f o :
  present (option_map (rename_uses f) o) = present o.
Proof. destruct o; reflexivity. Qed.

(** The diagnostics of a statement are those of the statement with
    other names in its expressions. *)
Lemma analyze_statement_renamed f s :
  analyze_statement (rename_uses f s) = analyze_statement s.
Proof.
  induction s as [s IH] using node_children_ind.
  destruct s; try reflexivity; cbn [rename_uses analyze_statement];
    cbn [children] in IH.
  - (* declaration *)
    destruct initializer as [init|]; [|reflexivity].
    cbn [option_map]. rewrite rename_type. reflexivity.
  - (* assignment *)
    rewrite rename_bare.
    match goal with
    | |- context [bare ?e _] => destruct e; reflexivity
    end.
  - (* if *)
    apply List.Forall_cons_iff in IH as [_ IH].
    apply List.Forall_cons_iff in IH as [Ht IH].
    rewrite rename_type.
    assert (H1 : match rename_uses f s2 with
                 | Block statements => extend_all analyze_statement statements
                 | _ => analyze_statement (rename_uses f s2)
                 end
                 = match s2 with
                   | Block statements =>
                       extend_all analyze_statement statements
                   | _ => analyze_statement s2
                   end).
    { destruct s2; try exact Ht. }
    assert (H2 : match option_map (rename_uses f) false_branch with
                 | Some (Block statements) =>
                     extend_all analyze_statement statements
                 | Some fb => analyze_statement fb
                 | None => Ok []
                 end
                 = match false_branch with
                   | Some (Block statements) =>
                       extend_all analyze_statement statements
                   | Some fb => analyze_statement fb
                   | None => Ok []
                   end).
    { destruct false_branch as [fb|]; [|reflexivity].
      cbn in IH. apply List.Forall_cons_iff in IH as [Hf _].
      cbn [option_map]. destruct fb; try exact Hf. }
    rewrite H1, H2. reflexivity.
  - (* while, statement body *)
    rewrite rename_type. reflexivity.
  - (* while *)
    apply List.Forall_cons_iff in IH as [_ IH].
    rewrite rename_type, (extend_all_renamed f _ body IH). reflexivity.
  - (* for range *)
    rewrite !present_renamed.
    repeat (apply Forall_app in IH as [_ IH]).
    rewrite (extend_all_renamed f _ body IH). reflexivity.
  - (* print *)
    destruct args as [|a args]; [reflexivity|].
    cbn [map]. f_equal.
    change (rename_uses f a :: map (rename_uses f) args)
      with (map (rename_uses f) (a :: args)).
    apply flat_map_renamed. intros n. rewrite rename_type. reflexivity.
  - (* block *)
    apply (extend_all_renamed f _ statements IH).
Qed.

Lemma analyze_renamed f ast :
  analyze (rename_uses f ast) = analyze ast.
Proof.
  destruct ast; try reflexivity; cbn [rename_uses analyze];
    apply extend_all_renamed; apply Forall_forall; intros s _;
    apply analyze_statement_renamed.
Qed.
End NameBlind.

(** C6 (as amended).  On the C++ side, when the analyzer types an
    expression built from literals, identifiers and operators, every use
    in it of a name that no frame binds gets an undeclared-variable error
    naming it and the place of that use ([places]); the scope stack is
    searched from the innermost frame outwards ([lookup_stack_innermost])
    and is left unchanged, and no earlier diagnostic is lost.  The
    Python-side analyzer looks at the shape of the statements only: its
    diagnostics are the same whatever names the expressions use, and
    those of a statement do not depend on the statements before it, so
    it keeps no table and reports no undeclared use. *)
Theorem C6_undeclared_operand_reported (e : node) (x : string) :
  (forall context st,
     call_free e = true ->
     mentions x e = true ->
     SemanticAnalyzer.lookup_stack x (SemanticAnalyzer.scope_stack st)
     = None ->
     exists ty st' extra,
       SemanticAnalyzer.evaluate_expression_type e context st = Ok (ty, st')
       /\ extends st st' extra
       /\ places x e context <> []
       /\ Forall (fun place =>
                    In (SemanticAnalyzer.msg_undeclared_in x place) extra)
            (places x e context))
  /\ (forall (other : string -> string) (ast : node),
        PythonSemanticAnalyzer.analyze (rename_uses other ast)
        = PythonSemanticAnalyzer.analyze ast)
  /\ (forall before after : list node,
        PythonSemanticAnalyzer.analyze (Program (before ++ after))
        = rbind (PythonSemanticAnalyzer.analyze (Program before))
            (fun first =>
               rbind (PythonSemanticAnalyzer.analyze (Program after))
                 (fun second => Ok (first ++ second)%list))).
Proof.
  split; [|split].
  - intros context st Hsafe Hx Hnone.
    destruct (evaluate_reports_places x e context st Hsafe Hnone)
      as (ty & st' & extra & Heq & Hext & HF).
    exists ty, st', extra.
    split; [exact Heq|]. split; [exact Hext|].
    split; [apply places_mentioned; exact Hx|exact HF].
  - intros other ast. apply analyze_renamed.
  - intros before after. cbn [PythonSemanticAnalyzer.analyze].
    rewrite extend_all_app.
    destruct (PythonSemanticAnalyzer.extend_all _ before) as [ea| |];
      reflexivity.
Qed.

(** [a + k * 2] with [a] declared and [k] not. *)
Lemma C6_undeclared_operand_witness :
  let st :=
    {| SemanticAnalyzer.scope_stack :=
         [<["a" := SemanticAnalyzer.VarType "int"]> ∅; ∅];
       SemanticAnalyzer.errors := [] |} in
  (call_free undeclared_operand_example = true
   /\ mentions "k" undeclared_operand_example = true
   /\ SemanticAnalyzer.lookup_stack "k" (SemanticAnalyzer.scope_stack st)
      = None)
  /\ exists ty st' extra,
       SemanticAnalyzer.evaluate_expression_type undeclared_operand_example
         "expression statement" st = Ok (ty, st')
       /\ extends st st' extra
       /\ In (SemanticAnalyzer.msg_undeclared_in "k"
                ("left operand of '*' in right operand of '+' in "
                 ++ "expression statement"))
            extra.
Proof.
  intros st.
  assert (H1 : call_free undeclared_operand_example = true) by reflexivity.
  assert (H2 : mentions "k" undeclared_operand_example = true)
    by reflexivity.
  assert (H3 : SemanticAnalyzer.lookup_stack "k"
                 (SemanticAnalyzer.scope_stack st) = None)
    by (vm_compute; reflexivity).
  split; [auto|].
  destruct (proj1 (C6_undeclared_operand_reported undeclared_operand_example "k")
              "expression statement" st H1 H2 H3)
    as (ty & st' & extra & Heq & Hext & _ & HF).
  exists ty, st', extra. split; [exact Heq|]. split; [exact Hext|].
  cbn in HF. apply List.Forall_cons_iff in HF as [Hin _]. exact Hin.
Defined.

(** The Python-side analyzer keeps no symbol table: [print(y)], with [y]
    bound nowhere, yields no diagnostic at all and is translated. *)
Lemma C6_python_side_counterexample :
  Pipeline.python_ast "print(y)" = Ok (Program [PrintStatement [Identifier "y"]])
  /\ PythonSemanticAnalyzer.analyze (Program [PrintStatement [Identifier "y"]])
     = Ok []
  /\ Pipeline.python_to_cpp "print(y)"
     = Ok (Pipeline.Translated
             ("#include <iostream>" ++ nl ++ "#include <string>" ++ nl
              ++ "using namespace std;" ++ nl ++ nl ++ "int main() {" ++ nl
              ++ nl ++ "    cout << y << endl;" ++ nl ++ "    return 0;" ++ nl
              ++ "}")).
Proof. repeat split; vm_compute; reflexivity. Qed.
(** The C++-side analyzer has places it does not look at: the right-hand
    side of a loop step written as an assignment is one.  [k] is bound
    nowhere, no diagnostic names it, and it ends up in the generated
    range. *)
Lemma undeclared_loop_step_unreported :
  Pipeline.cpp_to_python "for (int i = 0; i < 3; i = i + k) cout << i;"
  = Ok ("for i in range(0, 3, k):" ++ nl ++ "    print(f" ++ dq ++ "{i}" ++ dq
        ++ ")").
Proof. vm_compute. reflexivity. Qed.

(** ** Termination of the tokenizers *)

Section PythonLexerLoop.
Import Regex TokenLoop.

(** At offset 0 of ["!"] the first pattern that matches is
    BITWISE_OPERATOR, through its anchor alternative, and it matches the
    empty string: the turn appends an empty token and leaves the position
    where it was. *)
Lemma python_step_at_bang toks :
  step PythonLexer.TOKEN_TYPES PythonLexer.emit
    {| cur := start_of "!"; tokens := toks |}
  = Running {| cur := start_of "!"; tokens := toks ++ [empty_operator] |}.
Proof. reflexivity. Qed.

Lemma python_iterate_at_bang n : forall toks,
  iterate PythonLexer.TOKEN_TYPES PythonLexer.emit n
    {| cur := start_of "!"; tokens := toks |}
  = Some {| cur := start_of "!";
            tokens := toks ++ repeat empty_operator n |}.
Proof.
  induction n as [|n IH]; intros toks.
  - cbn. rewrite app_nil_r. reflexivity.
  - cbn [iterate]. rewrite python_step_at_bang, IH.
    rewrite <- app_assoc. reflexivity.
Qed.

Lemma python_run_at_bang fuel : forall toks,
  run PythonLexer.TOKEN_TYPES PythonLexer.emit fuel
    {| cur := start_of "!"; tokens := toks |} = Diverge.
Proof.
  induction fuel as [|fuel IH]; intros toks; [reflexivity|].
  cbn [run]. rewrite python_step_at_bang. apply IH.
Qed.
End PythonLexerLoop.

(** C4 (the code departs from the claim).  On the input ["!"] the
    Python-side tokenizer never returns and never raises: after any number
    of turns of its loop it is still at offset 0, having appended one empty
    BITWISE_OPERATOR token per turn; so no amount of fuel yields a result.
    The same character at offset 1 raises the failure naming that offset,
    and the C++-side tokenizer reads ["!"] as one token. *)
Theorem C4_python_tokenizer_never_ends :
  (forall n,
     TokenLoop.iterate PythonLexer.TOKEN_TYPES PythonLexer.emit n
       (TokenLoop.init "!")
     = Some {| TokenLoop.cur := Regex.start_of "!";
               TokenLoop.tokens := repeat empty_operator n |})
  /\ (forall fuel, PythonLexer.tokenize_fuel fuel "!" = Diverge)
  /\ PythonLexer.tokenize "x!" = Raise (LexError 1)
  /\ Lexer.tokenize "!" = Ok [("SPECIAL_CHARACTER", "!")].
Proof.
  split; [|split; [|split; vm_compute; reflexivity]].
  - intros n. apply (python_iterate_at_bang n []).
  - intros fuel. apply (python_run_at_bang fuel []).
Qed.

(** *** Patterns that consume input *)

Section Progress.
Import Regex TokenLoop.

(** A match hands to its continuation a cursor that is not behind the
    start, and is ahead of it when the pattern is consuming. *)
Lemma rmatch_advances r : forall c k c',
  rmatch r c k = Some c' ->
  exists c1, k c1 = Some c'
             /\ left_of c1 <= left_of c
             /\ (consuming r = true -> left_of c1 < left_of c).
Proof.
  induction r as [|p|r1 IH1 r2 IH2|r1 IH1 r2 IH2|r1 IH1| | |a];
    intros c k c' H; cbn [rmatch] in H.
  - exists c. split; [exact H|]. split; [lia|discriminate].
  - destruct (after c) as [|a rest] eqn:E; [discriminate|].
    destruct (p a); [|discriminate].
    eexists. split; [exact H|]. unfold left_of. cbn. rewrite E. cbn.
    split; [lia|intros _; lia].
  - apply IH1 in H as (c1 & H & Hle1 & Hlt1).
    apply IH2 in H as (c2 & H & Hle2 & Hlt2).
    exists c2. split; [exact H|]. split; [lia|]. cbn. intros Hc.
    apply orb_prop in Hc as [Hc|Hc]; [specialize (Hlt1 Hc)|specialize (Hlt2 Hc)];
      lia.
  - cbn [consuming].
    destruct (rmatch r1 c k) as [c0|] eqn:E.
    + injection H as ->. apply IH1 in E as (c1 & E & Hle & Hlt).
      exists c1. split; [exact E|]. split; [exact Hle|]. intros Hc.
      apply andb_prop in Hc as [Hc _]. auto.
    + apply IH2 in H as (c1 & H & Hle & Hlt).
      exists c1. split; [exact H|]. split; [exact Hle|]. intros Hc.
      apply andb_prop in Hc as [_ Hc]. auto.
  - cbn [consuming]. revert H. generalize (length (after c)) at 1.
    intros n. revert c. induction n as [|n IHn]; intros c H.
    + exists c. split; [exact H|]. split; [lia|discriminate].
    + match type of H with
      | match ?m with _ => _ end = _ => destruct m as [c0|] eqn:E
      end.
      * injection H as ->. apply IH1 in E as (c1 & E & Hle & _).
        destruct (length (after c1) <? length (after c))%nat eqn:Hlt;
          [|discriminate].
        apply IHn in E as (c2 & E & Hle2 & _).
        exists c2. split; [exact E|]. split; [lia|discriminate].
      * exists c. split; [exact H|]. split; [lia|discriminate].
  - destruct (before c); [|discriminate].
    exists c. split; [exact H|]. split; [lia|discriminate].
  - destruct (at_word_boundary c); [|discriminate].
    exists c. split; [exact H|]. split; [lia|discriminate].
  - exists c. split; [|split; [lia|discriminate]].
    destruct (before c) as [|b ?]; [exact H|].
    destruct (Ascii.eqb b a); [discriminate|exact H].
Qed.

Lemma match_at_advances r c c' :
  consuming r = true -> match_at r c = Some c' -> left_of c' < left_of c.
Proof.
  intros Hc H. apply rmatch_advances in H as (c1 & H & _ & Hlt).
  injection H as ->. auto.
Qed.

Section Loop.
Variable table : token_types.
Variable emit : string -> string -> option token.

Lemma first_match_advances c name c' :
  forallb (fun np => consuming (snd np)) table = true ->
  first_match table c = Some (name, c') -> left_of c' < left_of c.
Proof.
  induction table as [|[n r] table' IH]; [discriminate|].
  cbn. intros Hall H. apply andb_prop in Hall as [Hr Hall].
  destruct (match_at r c) as [c0|] eqn:E.
  - injection H as _ <-. eapply match_at_advances; eassumption.
  - auto.
Qed.

(** With consuming patterns only, the loop ends within as many turns as
    there are characters left, plus one. *)
Lemma run_ends fuel : forall st,
  forallb (fun np => consuming (snd np)) table = true ->
  left_of (cur st) < fuel ->
  run table emit fuel st <> Diverge.
Proof.
  induction fuel as [|fuel IH]; intros st Hall Hlt; [lia|].
  cbn [run]. unfold step.
  destruct (after (cur st)) as [|a rest] eqn:E; [discriminate|].
  destruct (first_match table (cur st)) as [[name c']|] eqn:F; [|discriminate].
  apply IH; [exact Hall|]. cbn.
  apply first_match_advances in F; [|exact Hall]. lia.
Qed.

(** The loop raises exactly when it reaches, before the end of the text,
    a position where no pattern matches; the failure names that position. *)
Lemma run_raises_at n : forall st st' fuel,
  iterate table emit n st = Some st' ->
  after (cur st') <> [] ->
  first_match table (cur st') = None ->
  n < fuel ->
  run table emit fuel st = Raise (LexError (position (cur st'))).
Proof.
  induction n as [|n IH]; intros st st' fuel Hit Hmore Hnone Hlt.
  - injection Hit as ->. destruct fuel; [lia|]. cbn [run]. unfold step.
    destruct (after (cur st')); [congruence|]. rewrite Hnone. reflexivity.
  - destruct fuel; [lia|]. cbn [run]. cbn [iterate] in Hit.
    destruct (step table emit st) as [st1| |]; try discriminate.
    apply (IH st1 st'); auto. lia.
Qed.

Lemma run_raise_inv fuel : forall st e,
  run table emit fuel st = Raise e ->
  exists n st',
    iterate table emit n st = Some st'
    /\ after (cur st') <> []
    /\ first_match table (cur st') = None
    /\ e = LexError (position (cur st')).
Proof.
  induction fuel as [|fuel IH]; intros st e H; [discriminate|].
  cbn [run] in H. destruct (step table emit st) as [st1| |] eqn:S.
  - apply IH in H as (n & st' & Hit & Hrest).
    exists (Datatypes.S n), st'. cbn [iterate]. rewrite S. auto.
  - discriminate.
  - injection H as <-. exists 0, st. split; [reflexivity|].
    unfold step in S. destruct (after (cur st)) eqn:E; [discriminate|].
    destruct (first_match table (cur st)) as [[? ?]|] eqn:F; [discriminate|].
    injection S as <-. repeat split; congruence.
Qed.
End Loop.

Lemma length_list_ascii_of_string s :
  length (list_ascii_of_string s) = String.length s.
Proof. induction s; cbn; congruence. Qed.

(** The C++-side tokenizer always returns or raises. *)
Lemma Lexer_tokenize_total contents : Lexer.tokenize contents <> Diverge.
Proof.
  unfold Lexer.tokenize, Lexer.tokenize_fuel. apply run_ends; [reflexivity|].
  unfold left_of, init, start_of. cbn.
  rewrite length_list_ascii_of_string. lia.
Qed.

(** Both tokenizers raise nothing but the failure that names the offset
    where no pattern matched. *)
Lemma tokenize_raises_lex_error contents e :
  Lexer.tokenize contents = Raise e
  \/ (exists fuel, PythonLexer.tokenize_fuel fuel contents = Raise e) ->
  exists offset, e = LexError offset.
Proof.
  intros [H|[fuel H]]; apply run_raise_inv in H as (n & st' & _ & _ & _ & ->);
    eauto.
Qed.
End Progress.
(** ** Loops *)

Section Ranges.
Import LoopSemantics.
Local Open Scope Z_scope.

Lemma range_length_up_done a b step :
  0 < step -> b <= a -> range_length a b step = O.
Proof.
  intros Hs Hab. unfold range_length.
  destruct (step >? 0) eqn:E; [|lia].
  assert ((b - a + step - 1) / step < 1)
    by (apply Z.div_lt_upper_bound; lia).
  lia.
Qed.

Lemma range_length_up_more a b step :
  0 < step -> a < b ->
  range_length a b step = S (range_length (a + step) b step).
Proof.
  intros Hs Hab. unfold range_length.
  destruct (step >? 0) eqn:E; [|lia].
  replace (b - a + step - 1) with ((b - (a + step) + step - 1) + 1 * step)
    by lia.
  rewrite Z.div_add by lia.
  assert (0 <= (b - (a + step) + step - 1) / step)
    by (apply Z.div_pos; lia).
  lia.
Qed.

Lemma range_length_down_done a b step :
  step < 0 -> a <= b -> range_length a b step = O.
Proof.
  intros Hs Hab. unfold range_length.
  destruct (step >? 0) eqn:E; [lia|].
  destruct (step <? 0) eqn:E'; [|lia].
  assert ((a - b - step - 1) / - step < 1)
    by (apply Z.div_lt_upper_bound; lia).
  lia.
Qed.

Lemma range_length_down_more a b step :
  step < 0 -> b < a ->
  range_length a b step = S (range_length (a + step) b step).
Proof.
  intros Hs Hab. unfold range_length.
  destruct (step >? 0) eqn:E; [lia|].
  destruct (step <? 0) eqn:E'; [|lia].
  replace (a - b - step - 1) with ((a + step - b - step - 1) + 1 * - step)
    by lia.
  rewrite Z.div_add by lia.
  assert (0 <= (a + step - b - step - 1) / - step)
    by (apply Z.div_pos; lia).
  lia.
Qed.

Lemma py_range_unfold a b step :
  range_length a b step = S (range_length (a + step) b step) ->
  py_range a b step = a :: py_range (a + step) b step.
Proof.
  intros H. unfold py_range. rewrite H. cbn [seq map].
  f_equal; [lia|]. rewrite <- seq_shift, map_map.
  apply map_ext. intros k. lia.
Qed.

(** An ascending range: [a], [a + step], ... while below [b]. *)
Lemma py_range_up a b step :
  0 < step ->
  py_range a b step
  = if a <? b then a :: py_range (a + step) b step else [].
Proof.
  intros Hs. destruct (a <? b) eqn:E.
  - apply py_range_unfold, range_length_up_more; lia.
  - unfold py_range. rewrite range_length_up_done by lia. reflexivity.
Qed.

(** A descending range: [a], [a + step], ... while above [b]. *)
Lemma py_range_down a b step :
  step < 0 ->
  py_range a b step
  = if a >? b then a :: py_range (a + step) b step else [].
Proof.
  intros Hs. destruct (a >? b) eqn:E.
  - apply py_range_unfold, range_length_down_more; lia.
  - unfold py_range. rewrite range_length_down_done by lia. reflexivity.
Qed.

(** What the generated range has to be for each direction: for [<] the
    bound itself, for [<=] the bound plus one, for [>=] the bound minus
    one, and for [>] the bound itself, start and bound in their places. *)
Lemma loop_values_as_range fuel : forall a b step,
  (range_length a b step <= fuel)%nat ->
  (0 < step -> cpp_for_values fuel "<" a b step = py_range a b step)
  /\ (step < 0 -> cpp_for_values fuel ">" a b step = py_range a b step).
Proof.
  induction fuel as [|fuel IH]; intros a b step Hlen.
  - assert (range_length a b step = O) as H0 by lia.
    unfold py_range. rewrite H0. split; reflexivity.
  - split; intros Hs; cbn [cpp_for_values]; unfold holds; cbn [String.eqb Ascii.eqb Bool.eqb].
    + rewrite (py_range_up a b step Hs).
      destruct (a <? b) eqn:E; [|reflexivity].
      f_equal. apply IH; [|exact Hs].
      rewrite range_length_up_more in Hlen by lia. lia.
    + rewrite (py_range_down a b step Hs).
      destruct (a >? b) eqn:E; [|reflexivity].
      f_equal. apply IH; [|exact Hs].
      rewrite range_length_down_more in Hlen by lia. lia.
Qed.
End Ranges.
Section Directions.
Import LoopSemantics.
Local Open Scope Z_scope.

Lemma inclusive_bounds fuel : forall a b step,
  cpp_for_values fuel "<=" a b step = cpp_for_values fuel "<" a (b + 1) step
  /\ cpp_for_values fuel ">=" a b step
     = cpp_for_values fuel ">" a (b - 1) step.
Proof.
  induction fuel as [|fuel IH]; intros a b step; [split; reflexivity|].
  cbn [cpp_for_values]. unfold holds. cbn [String.eqb Ascii.eqb Bool.eqb].
  destruct (IH (a + step) b step) as [-> ->].
  replace (a <=? b) with (a <? b + 1) by lia.
  replace (a >=? b) with (a >? b - 1) by lia.
  split; reflexivity.
Qed.

(** The loops of the four directions and the ranges that enumerate the
    same values. *)
Lemma directions_as_ranges a b step fuel :
  (0 < step -> (range_length a b step <= fuel)%nat ->
   cpp_for_values fuel "<" a b step = py_range a b step)
  /\ (0 < step -> (range_length a (b + 1) step <= fuel)%nat ->
      cpp_for_values fuel "<=" a b step = py_range a (b + 1) step)
  /\ (step < 0 -> (range_length a (b - 1) step <= fuel)%nat ->
      cpp_for_values fuel ">=" a b step = py_range a (b - 1) step)
  /\ (step < 0 -> (range_length a b step <= fuel)%nat ->
      cpp_for_values fuel ">" a b step = py_range a b step).
Proof.
  repeat split; intros Hs Hlen.
  - apply loop_values_as_range; assumption.
  - rewrite (proj1 (inclusive_bounds fuel a b step)).
    apply loop_values_as_range; assumption.
  - rewrite (proj2 (inclusive_bounds fuel a b step)).
    apply loop_values_as_range; assumption.
  - apply loop_values_as_range; assumption.
Qed.
End Directions.

(** The generator gets three of the four directions right. *)
Lemma three_directions_translated :
  Pipeline.cpp_to_python "int x = 0; for (int i = 0; i < 5; i++) x = i;"
    = Ok ("x = 0" ++ nl ++ "for i in range(0, 5, 1):" ++ nl ++ "    x = i")
  /\ Pipeline.cpp_to_python "int x = 0; for (int i = 1; i <= 5; i++) x = i;"
     = Ok ("x = 0" ++ nl ++ "for i in range(1, 6, 1):" ++ nl ++ "    x = i")
  /\ Pipeline.cpp_to_python "int x = 0; for (int i = 5; i >= 1; i--) x = i;"
     = Ok ("x = 0" ++ nl ++ "for i in range(5, 0, -1):" ++ nl ++ "    x = i").
Proof. repeat split; vm_compute; reflexivity. Qed.

(** An ascending loop comes back from Python with its header intact. *)
Lemma ascending_loop_round_trip :
  Pipeline.python_to_cpp
    ("x = 0" ++ nl ++ "for i in range(0, 5, 1):" ++ nl ++ "    x = i")
  = Ok (Pipeline.Translated
          ("#include <iostream>" ++ nl ++ "#include <string>" ++ nl
           ++ "using namespace std;" ++ nl ++ nl ++ "int main() {" ++ nl
           ++ nl ++ "    int x = 0;" ++ nl
           ++ "    for (int i = 0; i < 5; i++) {" ++ nl
           ++ "            x = i;" ++ nl ++ "    }" ++ nl
           ++ "    return 0;" ++ nl ++ "}")).
Proof. vm_compute. reflexivity. Qed.

(** C2 (the code departs from the claim).  The loop
    [for (int i = 3; i > 0; i--)] runs its body with [i] equal to 3, 2, 1.
    For the direction [>] the generator swaps start and bound as well as
    negating the step, and writes [range(0, 3, -1)], which is empty; the
    range with the same values is [range(3, 0, -1)].  The generated text
    does not come back either: the Python front end has no negative
    numbers. *)
Theorem C2_descending_loop_loses_its_values :
  Pipeline.cpp_ast descending_source = Ok descending_ast
  /\ Pipeline.cpp_to_python descending_source
     = Ok ("for i in range(0, 3, -1):" ++ nl ++ "    print(f" ++ dq ++ "{i}"
           ++ dq ++ ")")
  /\ (forall fuel, 3 <= fuel ->
        LoopSemantics.cpp_for_values fuel ">" 3 0 (-1) = [3; 2; 1]%Z)
  /\ LoopSemantics.py_range 0 3 (-1) = []
  /\ LoopSemantics.py_range 3 0 (-1) = [3; 2; 1]%Z
  /\ Pipeline.python_to_cpp
       ("for i in range(0, 3, -1):" ++ nl ++ "    print(f" ++ dq ++ "{i}"
        ++ dq ++ ")")
     = Raise (SyntaxError "Unexpected token in expression: "
                (Some ("ARITHMETIC_OPERATOR", "-"))).
Proof.
  split; [vm_compute; reflexivity|].
  split; [vm_compute; reflexivity|].
  split.
  - intros fuel Hfuel.
    destruct (directions_as_ranges 3 0 (-1) fuel) as (_ & _ & _ & H).
    rewrite H; [reflexivity|lia|]. vm_compute. lia.
  - repeat split; vm_compute; reflexivity.
Qed.

(** * Further properties of the code *)

Section Reading.
Import Regex TokenLoop.

Lemma reads_refl c : reads c [] c.
Proof. split; reflexivity. Qed.

Lemma reads_trans c1 m1 c2 m2 c3 :
  reads c1 m1 c2 -> reads c2 m2 c3 -> reads c1 (m1 ++ m2) c3.
Proof.
  intros [H1 H2] [H3 H4]. split.
  - rewrite H1, H3, app_assoc. reflexivity.
  - rewrite H4, H2, rev_app_distr, app_assoc. reflexivity.
Qed.

(** A match hands to its continuation the cursor moved forward over the
    characters it has taken. *)
Lemma rmatch_within p r : forall c k c',
  within p r ->
  rmatch r c k = Some c' ->
  exists mid c1, reads c mid c1 /\ forallb p mid = true /\ k c1 = Some c'.
Proof.
  induction r as [|q|r1 IH1 r2 IH2|r1 IH1 r2 IH2|r1 IH1| | |a];
    intros c k c' Hw H; cbn [rmatch] in H.
  - exists [], c. auto using reads_refl.
  - destruct (after c) as [|a rest] eqn:E; [discriminate|].
    destruct (q a) eqn:Q; [|discriminate].
    exists [a], {| before := a :: before c; after := rest |}.
    split; [split; [exact E|reflexivity]|]. split; [|exact H].
    cbn. rewrite (Hw a Q). reflexivity.
  - destruct Hw as [Hw1 Hw2].
    apply IH1 in H as (m1 & c1 & R1 & P1 & H); [|exact Hw1].
    apply IH2 in H as (m2 & c2 & R2 & P2 & H); [|exact Hw2].
    exists (m1 ++ m2)%list, c2. split; [eapply reads_trans; eassumption|].
    split; [|exact H]. rewrite forallb_app, P1, P2. reflexivity.
  - destruct Hw as [Hw1 Hw2].
    destruct (rmatch r1 c k) as [c0|] eqn:E.
    + injection H as ->. eapply IH1; eassumption.
    + eapply IH2; eassumption.
  - cbn in Hw. revert H. generalize (length (after c)) at 1.
    intros n. revert c. induction n as [|n IHn]; intros c H.
    + exists [], c. auto using reads_refl.
    + match type of H with
      | match ?m with _ => _ end = _ => destruct m as [c0|] eqn:E
      end.
      * injection H as ->.
        apply IH1 in E as (m1 & c1 & R1 & P1 & E); [|exact Hw].
        destruct (length (after c1) <? length (after c))%nat; [|discriminate].
        apply IHn in E as (m2 & c2 & R2 & P2 & E).
        exists (m1 ++ m2)%list, c2. split; [eapply reads_trans; eassumption|].
        split; [|exact E]. rewrite forallb_app, P1, P2. reflexivity.
      * exists [], c. auto using reads_refl.
  - destruct (before c); [|discriminate]. exists [], c. auto using reads_refl.
  - destruct (at_word_boundary c); [|discriminate].
    exists [], c. auto using reads_refl.
  - exists [], c. split; [apply reads_refl|]. split; [reflexivity|].
    destruct (before c) as [|b ?]; [exact H|].
    destruct (Ascii.eqb b a); [discriminate|exact H].
Qed.

Lemma within_any r : within (fun _ => true) r.
Proof. induction r; cbn; auto. Qed.

Lemma match_at_reads r c c' :
  match_at r c = Some c' -> exists mid, reads c mid c'.
Proof.
  intros H. apply (rmatch_within (fun _ => true)) in H as (mid & c1 & R & _ & H);
    [|apply within_any].
  injection H as ->. eauto.
Qed.

Lemma reads_group0 c mid c' :
  reads c mid c' -> group0 c c' = string_of_list_ascii mid.
Proof.
  intros [_ H]. unfold group0, position. rewrite H, length_app, length_rev.
  replace (length mid + length (before c) - length (before c)) with (length mid)
    by lia.
  rewrite <- (length_rev mid), firstn_app, Nat.sub_diag, firstn_all.
  cbn. rewrite app_nil_r, rev_involutive. reflexivity.
Qed.

Lemma reads_left_of c mid c' :
  reads c mid c' -> left_of c = length mid + left_of c'.
Proof. intros [H _]. unfold left_of. rewrite H, length_app. reflexivity. Qed.

Lemma first_match_in table : forall c name c',
  first_match table c = Some (name, c') ->
  exists r, In (name, r) table /\ match_at r c = Some c'.
Proof.
  induction table as [|[n r] table IH]; intros c name c' H; [discriminate|].
  cbn in H. destruct (match_at r c) as [c0|] eqn:E.
  - injection H as <- <-. exists r. split; [left; reflexivity|exact E].
  - apply IH in H as (r' & Hin & H). exists r'. split; [right; exact Hin|exact H].
Qed.
End Reading.

Section Tokens.
Import Regex TokenLoop.

Section Loop.
Variable table : token_types.
Variable emit : string -> string -> option token.

Lemma step_running st st1 :
  step table emit st = Running st1 ->
  exists name,
    after (cur st) <> []
    /\ first_match table (cur st) = Some (name, cur st1)
    /\ tokens st1
       = match emit name (group0 (cur st) (cur st1)) with
         | Some t => (tokens st ++ [t])%list
         | None => tokens st
         end.
Proof.
  unfold step. destruct (after (cur st)) eqn:E; [discriminate|].
  destruct (first_match table (cur st)) as [[name c']|]; [|discriminate].
  intros H. injection H as <-. exists name. cbn. auto.
Qed.

Lemma step_reads st st1 :
  step table emit st = Running st1 -> exists mid, reads (cur st) mid (cur st1).
Proof.
  intros H. apply step_running in H as (name & _ & F & _).
  apply first_match_in in F as (r & _ & F). eapply match_at_reads; exact F.
Qed.

Lemma iterate_reads n : forall st st',
  iterate table emit n st = Some st' ->
  exists mid, reads (cur st) mid (cur st').
Proof.
  induction n as [|n IH]; intros st st' H.
  - injection H as ->. exists []. apply reads_refl.
  - cbn [iterate] in H. destruct (step table emit st) as [st1| |] eqn:S;
      try discriminate.
    apply step_reads in S as (m1 & R1). apply IH in H as (m2 & R2).
    exists (m1 ++ m2)%list. eapply reads_trans; eassumption.
Qed.

(** What holds of every token a turn can append holds of the tokens
    returned. *)
Lemma run_tokens (P : token -> Prop) :
  (forall c name c' t,
     first_match table c = Some (name, c') ->
     emit name (group0 c c') = Some t -> P t) ->
  forall fuel st toks,
    Forall P (tokens st) -> run table emit fuel st = Ok toks -> Forall P toks.
Proof.
  intros Hemit. induction fuel as [|fuel IH]; intros st toks Hall H;
    [discriminate|].
  cbn [run] in H. destruct (step table emit st) as [st1| |] eqn:S;
    try discriminate.
  - apply IH in H; [exact H|].
    apply step_running in S as (name & _ & F & ->).
    destruct (emit name _) as [t|] eqn:E; [|exact Hall].
    apply Forall_app. split; [exact Hall|].
    constructor; [|constructor]. eapply Hemit; eassumption.
  - injection H as <-. unfold step in S.
    destruct (after (cur st)); [injection S as <-; exact Hall|].
    destruct (first_match table (cur st)) as [[? ?]|]; discriminate.
Qed.

Lemma spaced_after_space ls : forall ws text,
  forallb is_space ws = true -> spaced ls text -> spaced ls (ws ++ text).
Proof.
  destruct ls as [|l ls]; intros ws text Hws H; cbn in *.
  - rewrite forallb_app, Hws, H. reflexivity.
  - destruct H as (ws' & rest & Hws' & -> & H).
    exists (ws ++ ws')%list, rest. rewrite forallb_app, Hws, Hws'.
    rewrite <- app_assoc. auto.
Qed.

(** When the table matches white space under the name the loop drops and
    nothing else is dropped, the tokens returned are the text that was
    left, white space apart. *)
Lemma run_spaced :
  (forall name r c c' mid,
     In (name, r) table -> match_at r c = Some c' -> reads c mid c' ->
     match emit name (string_of_list_ascii mid) with
     | Some t => snd t = string_of_list_ascii mid
     | None => forallb is_space mid = true
     end) ->
  forall fuel st toks,
    run table emit fuel st = Ok toks ->
    exists new, toks = (tokens st ++ new)%list
                /\ spaced (map snd new) (after (cur st)).
Proof.
  intros Hemit. induction fuel as [|fuel IH]; intros st toks H; [discriminate|].
  cbn [run] in H. destruct (step table emit st) as [st1| |] eqn:S;
    try discriminate.
  - apply IH in H as (new & -> & Hsp).
    apply step_running in S as (name & _ & F & Htok).
    apply first_match_in in F as (r & Hin & F).
    destruct (match_at_reads _ _ _ F) as (mid & R).
    specialize (Hemit name r _ _ mid Hin F R).
    rewrite (reads_group0 _ _ _ R) in Htok. rewrite Htok.
    destruct R as [-> _].
    destruct (emit name (string_of_list_ascii mid)) as [t|].
    + exists (t :: new). rewrite <- app_assoc. split; [reflexivity|].
      cbn. exists [], (after (cur st1)). split; [reflexivity|].
      rewrite Hemit, list_ascii_of_string_of_list_ascii.
      split; [reflexivity|exact Hsp].
    + exists new. split; [reflexivity|]. apply spaced_after_space; [exact Hemit|exact Hsp].
  - injection H as <-. unfold step in S.
    destruct (after (cur st)) eqn:E.
    + exists []. rewrite app_nil_r. injection S as <-.
      split; reflexivity.
    + destruct (first_match table (cur st)) as [[? ?]|]; discriminate.
Qed.
End Loop.

Lemma reads_from_start s mid c :
  reads (start_of s) mid c -> c = cursor_at s (length mid).
Proof.
  intros [H1 H2]. cbn in H1, H2. unfold cursor_at. rewrite H1.
  rewrite firstn_app, Nat.sub_diag, firstn_all, skipn_app, Nat.sub_diag,
    skipn_all. cbn. rewrite app_nil_r in *.
  destruct c; cbn in *. subst. reflexivity.
Qed.
End Tokens.

Section LexerProperties.
Import Regex TokenLoop.

Lemma mem_In x l : mem x l = true <-> In x l.
Proof.
  unfold mem. rewrite existsb_exists. split.
  - intros (y & Hin & E). apply String.eqb_eq in E. subst. exact Hin.
  - intros Hin. exists x. split; [exact Hin|apply String.eqb_refl].
Qed.

Lemma token_kinds_In table name :
  In name (map fst table) -> (name =? "WHITESPACE") = false ->
  mem name (token_kinds table) = true.
Proof.
  intros Hin Hne. apply mem_In. unfold token_kinds. apply filter_In.
  split; [exact Hin|]. rewrite Hne. reflexivity.
Qed.

Lemma reads_unique c mid mid' c' : reads c mid c' -> reads c mid' c' -> mid = mid'.
Proof.
  intros [H _] [H' _]. rewrite H in H'. eapply app_inv_tail. exact H'.
Qed.

Lemma string_of_list_ascii_nonempty l :
  l <> [] -> string_of_list_ascii l <> EmptyString.
Proof. destruct l; [congruence|discriminate]. Qed.

(** A consuming table yields no empty lexeme. *)
Lemma first_match_lexeme table c name c' :
  forallb (fun np => consuming (snd np)) table = true ->
  first_match table c = Some (name, c') ->
  group0 c c' <> EmptyString /\ In name (map fst table).
Proof.
  intros Hall F. pose proof (first_match_advances _ _ _ _ Hall F) as Hlt.
  apply first_match_in in F as (r & Hin & F).
  destruct (match_at_reads _ _ _ F) as (mid & R).
  rewrite (reads_group0 _ _ _ R). split.
  - apply string_of_list_ascii_nonempty. intros ->.
    apply reads_left_of in R. cbn in R. lia.
  - apply in_map_iff. exists (name, r). auto.
Qed.

Lemma Lexer_emit_some name v t :
  Lexer.emit name v = Some t ->
  snd t = v
  /\ (name =? "WHITESPACE") = false
  /\ (fst t = name \/ fst t = "KEYWORD")
  /\ (fst t = "IDENTIFIER" -> mem v Lexer.keywords = false).
Proof.
  unfold Lexer.emit.
  destruct (name =? "IDENTIFIER") eqn:Ei; cbn [andb].
  - apply String.eqb_eq in Ei. subst name.
    destruct (mem v Lexer.keywords) eqn:K.
    + intros H. injection H as <-. cbn [fst snd].
      split; [reflexivity|]. split; [reflexivity|].
      split; [right; reflexivity|discriminate].
    + cbn [negb]. intros H. injection H as <-. cbn [fst snd].
      split; [reflexivity|]. split; [reflexivity|].
      split; [left; reflexivity|reflexivity].
  - destruct (name =? "WHITESPACE") eqn:Ew; cbn [negb]; [discriminate|].
    intros H. injection H as <-. cbn [fst snd].
    split; [reflexivity|]. split; [reflexivity|].
    split; [left; reflexivity|].
    intros ->. rewrite String.eqb_refl in Ei. discriminate.
Qed.

Lemma Lexer_emit_none name v :
  Lexer.emit name v = None -> name = "WHITESPACE".
Proof.
  unfold Lexer.emit. destruct (_ && _); [discriminate|].
  destruct (name =? "WHITESPACE") eqn:E; [|discriminate].
  intros _. apply String.eqb_eq. exact E.
Qed.

Lemma PythonLexer_emit_some name v t :
  PythonLexer.emit name v = Some t ->
  t = (name, v) /\ (name =? "WHITESPACE") = false.
Proof.
  unfold PythonLexer.emit. destruct (name =? "WHITESPACE"); cbn; [discriminate|].
  intros H. injection H as <-. auto.
Qed.

Lemma PythonLexer_emit_none name v :
  PythonLexer.emit name v = None -> name = "WHITESPACE".
Proof.
  unfold PythonLexer.emit. destruct (name =? "WHITESPACE") eqn:E; [|discriminate].
  intros _. apply String.eqb_eq. exact E.
Qed.

Lemma white_space_match c c' mid :
  match_at (plus space) c = Some c' -> reads c mid c' ->
  forallb is_space mid = true.
Proof.
  intros H R.
  apply (rmatch_within is_space) in H as (mid' & c1 & R' & P & H).
  - injection H as ->. rewrite (reads_unique _ _ _ _ R R'). exact P.
  - cbn. auto.
Qed.

Lemma Lexer_white_space r :
  In ("WHITESPACE", r) Lexer.TOKEN_TYPES -> r = plus space.
Proof.
  unfold Lexer.TOKEN_TYPES. cbn [In]. intros H.
  repeat (destruct H as [H|H]; [try discriminate H|]); try contradiction.
  injection H as <-. reflexivity.
Qed.

Lemma PythonLexer_white_space r :
  In ("WHITESPACE", r) PythonLexer.TOKEN_TYPES -> r = plus space.
Proof.
  unfold PythonLexer.TOKEN_TYPES. cbn [In]. intros H.
  repeat (destruct H as [H|H]; [try discriminate H|]); try contradiction.
  injection H as <-. reflexivity.
Qed.
End LexerProperties.

(** X1.  The C++-side tokenizer ends on every text: it returns a token
    list, or it raises the failure that names an offset inside the text at
    which no pattern of the table matches. *)
Theorem Lexer_tokenize_outcome (contents : string) :
  (exists toks, Lexer.tokenize contents = Ok toks)
  \/ (exists p,
        Lexer.tokenize contents = Raise (LexError p)
        /\ p < String.length contents
        /\ TokenLoop.first_match Lexer.TOKEN_TYPES (cursor_at contents p)
           = None).
Proof.
  destruct (Lexer.tokenize contents) as [toks|e|] eqn:H.
  - left. eauto.
  - right. unfold Lexer.tokenize, Lexer.tokenize_fuel in H.
    apply run_raise_inv in H as (n & st' & Hit & Hmore & Hnone & ->).
    apply iterate_reads in Hit as (mid & R). cbn [TokenLoop.init TokenLoop.cur] in R.
    pose proof (reads_from_start _ _ _ R) as Hc.
    exists (length mid). split; [|split].
    + rewrite Hc. unfold Regex.position, cursor_at. cbn.
      destruct R as [R _]. cbn in R. rewrite R.
      rewrite firstn_app, Nat.sub_diag, firstn_all. cbn.
      rewrite app_nil_r, length_rev. reflexivity.
    + destruct R as [R _]. cbn in R.
      rewrite <- length_list_ascii_of_string, R, length_app.
      destruct (Regex.after (TokenLoop.cur st')); [congruence|cbn; lia].
    + rewrite <- Hc. exact Hnone.
  - exfalso. exact (Lexer_tokenize_total contents H).
Qed.

(** X2.  Every token the C++-side tokenizer returns has one of the kinds
    of the table other than WHITESPACE and a lexeme that is not empty, and
    no token of kind IDENTIFIER carries a keyword: an identifier-shaped
    match that is a keyword has been re-tagged. *)
Theorem Lexer_tokens_well_formed (contents : string) (toks : list token) :
  Lexer.tokenize contents = Ok toks ->
  Forall (fun t =>
            mem (fst t) (token_kinds Lexer.TOKEN_TYPES) = true
            /\ snd t <> EmptyString
            /\ (fst t = "IDENTIFIER" -> mem (snd t) Lexer.keywords = false))
    toks.
Proof.
  unfold Lexer.tokenize, Lexer.tokenize_fuel.
  apply run_tokens; [|constructor].
  intros c name c' t F E.
  destruct (first_match_lexeme Lexer.TOKEN_TYPES _ _ _ eq_refl F) as [Hne Hin].
  apply Lexer_emit_some in E as (Hv & Hw & Hk & Hid).
  rewrite Hv. split; [|split; [exact Hne|exact Hid]].
  destruct Hk as [->| ->]; [|reflexivity].
  apply token_kinds_In; assumption.
Qed.

Lemma Lexer_tokens_well_formed_witness :
  Lexer.tokenize "int b = x1;"
  = Ok [("KEYWORD", "int"); ("KEYWORD", "b"); ("ARITHMETIC_OPERATOR", "=");
        ("IDENTIFIER", "x1"); ("SEMICOLON", ";")]
  /\ Forall (fun t =>
               mem (fst t) (token_kinds Lexer.TOKEN_TYPES) = true
               /\ snd t <> EmptyString
               /\ (fst t = "IDENTIFIER" -> mem (snd t) Lexer.keywords = false))
       [("KEYWORD", "int"); ("KEYWORD", "b"); ("ARITHMETIC_OPERATOR", "=");
        ("IDENTIFIER", "x1"); ("SEMICOLON", ";")].
Proof.
  assert (H : Lexer.tokenize "int b = x1;"
              = Ok [("KEYWORD", "int"); ("KEYWORD", "b");
                    ("ARITHMETIC_OPERATOR", "="); ("IDENTIFIER", "x1");
                    ("SEMICOLON", ";")]) by (vm_compute; reflexivity).
  split; [exact H|]. exact (Lexer_tokens_well_formed _ _ H).
Defined.

(** X3.  Tokenizing loses nothing but white space, on either side: the
    text is the lexemes of the returned tokens, in their order, with
    nothing but white space before, between and after them. *)
Theorem tokens_spell_the_text (text : string) (toks : list token) :
  Lexer.tokenize text = Ok toks
  \/ (exists fuel, PythonLexer.tokenize_fuel fuel text = Ok toks) ->
  spaced (map snd toks) (list_ascii_of_string text).
Proof.
  intros [H|[fuel H]].
  - unfold Lexer.tokenize, Lexer.tokenize_fuel in H.
    apply run_spaced in H as (new & -> & H); [exact H|].
    intros name r c c' mid Hin F R.
    destruct (Lexer.emit name _) as [t|] eqn:E.
    + apply Lexer_emit_some in E as [E _]. exact E.
    + apply Lexer_emit_none in E. subst name.
      apply Lexer_white_space in Hin. subst r.
      eapply white_space_match; eassumption.
  - unfold PythonLexer.tokenize_fuel in H.
    apply run_spaced in H as (new & -> & H); [exact H|].
    intros name r c c' mid Hin F R.
    destruct (PythonLexer.emit name _) as [t|] eqn:E.
    + apply PythonLexer_emit_some in E as [-> _]. reflexivity.
    + apply PythonLexer_emit_none in E. subst name.
      apply PythonLexer_white_space in Hin. subst r.
      eapply white_space_match; eassumption.
Qed.

Lemma tokens_spell_the_text_witness :
  spaced ["x"; "="; "1"; ";"] (list_ascii_of_string " x = 1 ;").
Proof.
  apply (tokens_spell_the_text " x = 1 ;"
           [("IDENTIFIER", "x"); ("ARITHMETIC_OPERATOR", "=");
            ("NUMBER", "1"); ("SEMICOLON", ";")]).
  left. vm_compute. reflexivity.
Defined.

Section Inside.
Import Regex TokenLoop.

(** Past the start of the text a match of a pattern that is consuming
    but for the anchor takes a character. *)
Lemma rmatch_advances_inside r : forall c k c',
  before c <> [] ->
  rmatch r c k = Some c' ->
  exists c1, k c1 = Some c'
             /\ left_of c1 <= left_of c
             /\ before c1 <> []
             /\ (consuming_inside r = true -> left_of c1 < left_of c).
Proof.
  induction r as [|p|r1 IH1 r2 IH2|r1 IH1 r2 IH2|r1 IH1| | |a];
    intros c k c' Hb H; cbn [rmatch] in H.
  - exists c. split; [exact H|]. split; [lia|]. split; [exact Hb|discriminate].
  - destruct (after c) as [|a rest] eqn:E; [discriminate|].
    destruct (p a); [|discriminate].
    eexists. split; [exact H|]. unfold left_of. cbn. rewrite E. cbn.
    split; [lia|]. split; [discriminate|intros _; lia].
  - apply IH1 in H as (c1 & H & Hle1 & Hb1 & Hlt1); [|exact Hb].
    apply IH2 in H as (c2 & H & Hle2 & Hb2 & Hlt2); [|exact Hb1].
    exists c2. split; [exact H|]. split; [lia|]. split; [exact Hb2|].
    cbn. intros Hc.
    apply orb_prop in Hc as [Hc|Hc]; [specialize (Hlt1 Hc)|specialize (Hlt2 Hc)];
      lia.
  - cbn [consuming_inside].
    destruct (rmatch r1 c k) as [c0|] eqn:E.
    + injection H as ->. apply IH1 in E as (c1 & E & Hle & Hb1 & Hlt); [|exact Hb].
      exists c1. split; [exact E|]. split; [exact Hle|]. split; [exact Hb1|].
      intros Hc. apply andb_prop in Hc as [Hc _]. auto.
    + apply IH2 in H as (c1 & H & Hle & Hb1 & Hlt); [|exact Hb].
      exists c1. split; [exact H|]. split; [exact Hle|]. split; [exact Hb1|].
      intros Hc. apply andb_prop in Hc as [_ Hc]. auto.
  - cbn [consuming_inside]. revert H. generalize (length (after c)) at 1.
    intros n. revert c Hb. induction n as [|n IHn]; intros c Hb H.
    + exists c. split; [exact H|]. split; [lia|]. split; [exact Hb|discriminate].
    + match type of H with
      | match ?m with _ => _ end = _ => destruct m as [c0|] eqn:E
      end.
      * injection H as ->. apply IH1 in E as (c1 & E & Hle & Hb1 & _); [|exact Hb].
        destruct (length (after c1) <? length (after c))%nat eqn:Hlt;
          [|discriminate].
        apply IHn in E as (c2 & E & Hle2 & Hb2 & _); [|exact Hb1].
        exists c2. split; [exact E|]. split; [lia|].
        split; [exact Hb2|discriminate].
      * exists c. split; [exact H|]. split; [lia|].
        split; [exact Hb|discriminate].
  - destruct (before c); [congruence|discriminate].
  - destruct (at_word_boundary c); [|discriminate].
    exists c. split; [exact H|]. split; [lia|]. split; [exact Hb|discriminate].
  - exists c. split; [|split; [lia|split; [exact Hb|discriminate]]].
    destruct (before c) as [|b ?]; [exact H|].
    destruct (Ascii.eqb b a); [discriminate|exact H].
Qed.

Lemma first_match_still table c name c' :
  first_match table c = Some (name, c') ->
  left_of c' <= left_of c
  /\ (left_of c' = left_of c -> c' = c)
  /\ (left_of c' < left_of c -> before c' <> []).
Proof.
  intros F. apply first_match_in in F as (r & _ & F).
  apply match_at_reads in F as (mid & R).
  pose proof (reads_left_of _ _ _ R) as Hl. split; [lia|]. split.
  - intros E. assert (mid = []) by (destruct mid; [reflexivity|cbn in Hl; lia]).
    subst mid. destruct R as [R1 R2]. cbn in R1, R2.
    destruct c, c'; cbn in *. congruence.
  - intros Hlt. destruct R as [_ R2]. rewrite R2.
    destruct mid using rev_ind; [cbn in Hl; lia|].
    rewrite rev_app_distr. discriminate.
Qed.
Section Loop.
Variable table : token_types.
Variable emit : string -> string -> option token.

Lemma first_match_advances_inside c name c' :
  forallb (fun np => consuming_inside (snd np)) table = true ->
  before c <> [] ->
  first_match table c = Some (name, c') ->
  left_of c' < left_of c /\ before c' <> [].
Proof.
  induction table as [|[n r] table' IH]; [discriminate|].
  cbn. intros Hall Hb H. apply andb_prop in Hall as [Hr Hall].
  destruct (match_at r c) as [c0|] eqn:E.
  - injection H as _ <-.
    apply rmatch_advances_inside in E as (c1 & E & _ & Hb1 & Hlt); [|exact Hb].
    injection E as ->. auto.
  - auto.
Qed.

(** Past the start of the text the loop ends within as many turns as
    there are characters left, plus one. *)
Lemma run_ends_inside fuel : forall st,
  forallb (fun np => consuming_inside (snd np)) table = true ->
  before (cur st) <> [] ->
  left_of (cur st) < fuel ->
  run table emit fuel st <> Diverge.
Proof.
  induction fuel as [|fuel IH]; intros st Hall Hb Hlt; [lia|].
  cbn [run]. unfold step.
  destruct (after (cur st)) as [|a rest] eqn:E; [discriminate|].
  destruct (first_match table (cur st)) as [[name c']|] eqn:F; [|discriminate].
  apply first_match_advances_inside in F as [F Hb']; [|exact Hall|exact Hb].
  apply IH; [exact Hall|exact Hb'|]. cbn. lia.
Qed.

(** A turn that leaves the cursor where it was is repeated for ever. *)
Lemma run_stalls c name :
  after c <> [] ->
  first_match table c = Some (name, c) ->
  forall fuel toks, run table emit fuel {| cur := c; tokens := toks |} = Diverge.
Proof.
  intros Hmore F. induction fuel as [|fuel IH]; intros toks; [reflexivity|].
  cbn [run]. unfold step. cbn [cur tokens].
  destruct (after c); [congruence|]. rewrite F. apply IH.
Qed.

(** The failure names an offset inside the text at which no pattern
    matches. *)
Lemma run_raise_position fuel s e :
  run table emit fuel (init s) = Raise e ->
  exists p, e = LexError p /\ p < String.length s
            /\ first_match table (cursor_at s p) = None.
Proof.
  intros H. apply run_raise_inv in H as (n & st' & Hit & Hmore & Hnone & ->).
  apply iterate_reads in Hit as (mid & R). cbn [init cur] in R.
  pose proof (reads_from_start _ _ _ R) as Hc.
  exists (length mid). split; [|split].
  - rewrite Hc. unfold position, cursor_at. cbn.
    destruct R as [R _]. cbn in R. rewrite R.
    rewrite firstn_app, Nat.sub_diag, firstn_all. cbn.
    rewrite app_nil_r, length_rev. reflexivity.
  - destruct R as [R _]. cbn in R.
    rewrite <- length_list_ascii_of_string, R, length_app.
    destruct (after (cur st')); [congruence|cbn; lia].
  - rewrite <- Hc. exact Hnone.
Qed.

(** The first turn on a text that is not empty. *)
Lemma run_from_start fuel a rest :
  run table emit (S fuel) (init (String a rest))
  = match first_match table (start_of (String a rest)) with
    | Some (name, c') =>
        run table emit fuel
          {| cur := c';
             tokens :=
               match emit name (group0 (start_of (String a rest)) c') with
               | Some t => [t]
               | None => []
               end |}
    | None => Raise (LexError 0)
    end.
Proof.
  cbn [run]. unfold step.
  cbn [init cur tokens start_of after list_ascii_of_string].
  destruct (first_match table _) as [[name c']|]; [|reflexivity].
  destruct (emit name _); reflexivity.
Qed.

(** With patterns that are consuming but for the anchor, the loop ends
    unless its first turn has left the cursor at the start. *)
Lemma run_ends_unless_stalled a rest :
  forallb (fun np => consuming_inside (snd np)) table = true ->
  match first_match table (start_of (String a rest)) with
  | Some (_, c') =>
      if (left_of c' =? left_of (start_of (String a rest)))%nat
      then forall fuel, run table emit fuel (init (String a rest)) = Diverge
      else run table emit (S (String.length (String a rest)))
             (init (String a rest)) <> Diverge
  | None =>
      run table emit (S (String.length (String a rest))) (init (String a rest))
      <> Diverge
  end.
Proof.
  intros Hall. rewrite run_from_start.
  destruct (first_match table _) as [[name c']|] eqn:F; [|discriminate].
  destruct (first_match_still _ _ _ _ F) as (Hle & Hsame & Hin).
  destruct (left_of c' =? left_of _)%nat eqn:E.
  - apply Nat.eqb_eq in E. apply Hsame in E. subst c'.
    intros fuel. unfold init. eapply run_stalls; [discriminate|exact F].
  - apply Nat.eqb_neq in E.
    apply run_ends_inside; [exact Hall|apply Hin; lia|].
    cbn [cur]. unfold left_of in *. cbn [start_of after] in Hle, E.
    rewrite length_list_ascii_of_string in *. lia.
Qed.
End Loop.

End Inside.

(** X4.  The Python-side tokenizer ends exactly on the texts its first
    turn does not stall on.  When the first turn matches the empty string,
    the loop never ends, whatever the fuel; otherwise the tokenizer returns
    a token list or raises the failure that names an offset inside the text
    at which no pattern matches. *)
Theorem PythonLexer_ends_unless_stalled (source : string) :
  if stalls source
  then forall fuel, PythonLexer.tokenize_fuel fuel source = Diverge
  else (exists toks, PythonLexer.tokenize source = Ok toks)
       \/ (exists p,
             PythonLexer.tokenize source = Raise (LexError p)
             /\ p < String.length source
             /\ TokenLoop.first_match PythonLexer.TOKEN_TYPES
                  (cursor_at source p) = None).
Proof.
  assert (Hres : PythonLexer.tokenize source <> Diverge ->
    (exists toks, PythonLexer.tokenize source = Ok toks)
    \/ (exists p,
          PythonLexer.tokenize source = Raise (LexError p)
          /\ p < String.length source
          /\ TokenLoop.first_match PythonLexer.TOKEN_TYPES
               (cursor_at source p) = None)).
  { intros Hnd. destruct (PythonLexer.tokenize source) as [toks|e|] eqn:H;
      [left; eauto| |congruence].
    right. unfold PythonLexer.tokenize, PythonLexer.tokenize_fuel in H.
    apply run_raise_position in H as (p & -> & Hp). eauto. }
  destruct source as [|a rest]; [apply Hres; discriminate|].
  pose proof (run_ends_unless_stalled PythonLexer.TOKEN_TYPES PythonLexer.emit
                a rest eq_refl) as H.
  unfold stalls.
  destruct (TokenLoop.first_match PythonLexer.TOKEN_TYPES
              (Regex.start_of (String a rest))) as [[name c']|].
  - destruct (left_of c' =? left_of (Regex.start_of (String a rest)))%nat.
    + exact H.
    + apply Hres. exact H.
  - apply Hres. exact H.
Qed.
(** X5.  A Python-side text whose first character begins no string, name
    or operator (a digit, white space, a parenthesis, a colon, a comma
    among others) is never tokenized: at offset 0 the anchor of
    BITWISE_OPERATOR matches the empty string before the patterns for
    those characters are tried, and the loop does not end. *)
Theorem PythonLexer_stalls_on_first_character (a : ascii) (rest : string) :
  opens_token a = false ->
  forall fuel, PythonLexer.tokenize_fuel fuel (String a rest) = Diverge.
Proof.
  intros H fuel.
  assert (F : TokenLoop.first_match PythonLexer.TOKEN_TYPES
                (Regex.start_of (String a rest))
              = Some ("BITWISE_OPERATOR", Regex.start_of (String a rest))).
  { destruct a as [b0 b1 b2 b3 b4 b5 b6 b7].
    destruct b0, b1, b2, b3, b4, b5, b6, b7;
      first [ discriminate H | vm_compute; reflexivity ]. }
  unfold PythonLexer.tokenize_fuel, TokenLoop.init.
  eapply run_stalls; [discriminate|exact F].
Qed.

Lemma PythonLexer_stalls_on_first_character_witness :
  opens_token "5" = false
  /\ PythonLexer.tokenize_fuel 1000 "5 + x" = Diverge.
Proof.
  split; [reflexivity|].
  exact (PythonLexer_stalls_on_first_character "5" " + x" eq_refl 1000).
Defined.

Section Chains.
Import Tokens.

Lemma operand_cases t n :
  operand t = Some n ->
  (fst t = "NUMBER" /\ n = Number (snd t))
  \/ (fst t = "IDENTIFIER" /\ n = Identifier (snd t))
  \/ (fst t = "STRING" /\ n = StringLiteral (snd t)).
Proof.
  unfold operand.
  destruct (fst t =? "NUMBER") eqn:E1.
  { apply String.eqb_eq in E1. intros H. injection H as <-. auto. }
  destruct (fst t =? "IDENTIFIER") eqn:E2.
  { apply String.eqb_eq in E2. intros H. injection H as <-. auto. }
  destruct (fst t =? "STRING") eqn:E3; [|discriminate].
  apply String.eqb_eq in E3. intros H. injection H as <-. auto.
Qed.

Lemma leaf_operand t : is_Some (operand t) -> operand t = Some (leaf t).
Proof. intros [n H]. unfold leaf. rewrite H. reflexivity. Qed.

Lemma cpp_parse_term_operand fuel t ts :
  is_Some (operand t) -> no_increment ts ->
  Parser.parse_term (S fuel) (t :: ts) = Ok (leaf t, ts).
Proof.
  intros Ht Hn. apply leaf_operand in Ht.
  destruct (operand_cases _ _ Ht) as [[Hk ->]|[[Hk ->]|[Hk ->]]];
    destruct t as [k v]; cbn [fst snd] in *; subst k.
  - reflexivity.
  - cbn [Parser.parse_term]. unfold bind, current_unchecked, current_token, peek.
    cbn [nth_error fst snd bind ret String.eqb Ascii.eqb Bool.eqb].
    unfold match_, bind, ret. cbn [fst snd String.eqb Ascii.eqb Bool.eqb].
    destruct ts as [|[k' v'] ts']; [reflexivity|].
    cbn [nth_error]. cbn [no_increment fst snd] in Hn.
    unfold value_in, is_type. cbn [fst snd]. rewrite Hn. reflexivity.
  - reflexivity.
Qed.

Lemma binary_operator_spec kinds o :
  binary_operator kinds o = true ->
  mem (fst o) kinds = true /\ mem (snd o) ["++"; "--"] = false.
Proof.
  unfold binary_operator. intros H. apply andb_prop in H as [H1 H2].
  split; [exact H1|]. destruct (mem (snd o) _); [discriminate|reflexivity].
Qed.

Lemma no_increment_chain kinds rest more :
  Forall (fun p => binary_operator kinds (fst p) = true
                   /\ is_Some (operand (snd p))) rest ->
  stops kinds [] more = true ->
  incl ["ARITHMETIC_OPERATOR"] kinds ->
  no_increment (chain_tokens rest ++ more).
Proof.
  intros Hall Hstop Hk. destruct rest as [|[o t] rest].
  - cbn. destruct more as [|m more]; [exact I|]. cbn in *.
    apply andb_prop in Hstop as [Hstop _].
    destruct (fst m =? "ARITHMETIC_OPERATOR") eqn:E; [|reflexivity].
    apply String.eqb_eq in E. exfalso.
    assert (Hin : mem (fst m) kinds = true).
    { apply mem_In. rewrite E. apply Hk. left. reflexivity. }
    rewrite Hin in Hstop. discriminate.
  - apply List.Forall_cons_iff in Hall as [[Ho _] _]. cbn [fst snd] in Ho.
    cbn [chain_tokens flat_map app no_increment fst snd].
    apply binary_operator_spec in Ho as [_ Ho]. rewrite Ho.
    apply andb_false_r.
Qed.

Lemma cpp_expression_loop_chain rest : forall left more fuel,
  Forall (fun p => binary_operator cpp_operator_kinds (fst p) = true
                   /\ is_Some (operand (snd p))) rest ->
  stops cpp_operator_kinds [] more = true ->
  length rest + 1 <= fuel ->
  Parser.expression_loop fuel left (chain_tokens rest ++ more)
  = Ok (fold_left
          (fun left p => BinaryExpression (snd (fst p)) left (leaf (snd p)))
          rest left, more).
Proof.
  induction rest as [|[o t] rest IH]; intros left more fuel Hall Hstop Hfuel.
  - destruct fuel as [|fuel]; [cbn in Hfuel; lia|].
    cbn [chain_tokens flat_map app fold_left Parser.expression_loop].
    unfold bind, current_token, peek, ret.
    destruct more as [|m more]; [reflexivity|].
    cbn [nth_error type_in]. cbn [stops] in Hstop.
    apply andb_prop in Hstop as [Hstop _].
    unfold cpp_operator_kinds in Hstop.
    destruct (mem (fst m) _); [discriminate|reflexivity].
  - destruct fuel as [|fuel]; [cbn in Hfuel; lia|].
    assert (Hf : exists f, fuel = S f)
      by (destruct fuel; [cbn in Hfuel; lia|eauto]).
    pose proof Hall as Hall0.
    apply List.Forall_cons_iff in Hall as [[Ho Ht] Hall].
    cbn [fst snd] in Ho, Ht.
    apply binary_operator_spec in Ho as [Hk Hv].
    cbn [chain_tokens flat_map app fold_left fst snd].
    change (flat_map (fun p : token * token => [fst p; snd p]) rest)
      with (chain_tokens rest).
    cbn [Parser.expression_loop].
    unfold bind at 1. unfold current_token, peek. cbn [nth_error].
    unfold type_in at 1. unfold cpp_operator_kinds in Hk. rewrite Hk.
    unfold bind at 1. unfold current_unchecked, bind, current_token, peek, ret.
    cbn [nth_error]. unfold match_. rewrite String.eqb_refl.
    destruct Hf as [f ->].
    rewrite cpp_parse_term_operand;
      [|exact Ht
       |eapply no_increment_chain;
          [exact Hall|exact Hstop|intros x [<-|[]]; left; reflexivity]].
    apply IH; [exact Hall|exact Hstop|cbn in Hfuel; lia].
Qed.
End Chains.

(** X6.  The C++-side expression parser builds one flat chain from left to
    right, without precedence: for operands [first], [t1], [t2], ...
    separated by operator tokens [op1], [op2], ... of the kinds
    ARITHMETIC_OPERATOR and RELATIONAL_OPERATOR, other than [++] and
    [--], the tree is [((first op1 t1) op2 t2) ...], whichever of these
    operators they are, and the tokens after the chain are left unread. *)
Theorem cpp_expression_is_a_left_chain
  (first : token) (rest : list (token * token)) (more : list token)
  (fuel : nat) :
  is_Some (operand first) ->
  Forall (fun p => binary_operator cpp_operator_kinds (fst p) = true
                   /\ is_Some (operand (snd p))) rest ->
  stops cpp_operator_kinds [] more = true ->
  length rest + 2 <= fuel ->
  Parser.parse_expression fuel (first :: chain_tokens rest ++ more)
  = Ok (chain_tree first rest, more).
Proof.
  intros Hfirst Hall Hstop Hfuel.
  destruct fuel as [|fuel]; [lia|].
  assert (Hf : exists f, fuel = S f) by (destruct fuel; [lia|eauto]).
  cbn [Parser.parse_expression]. unfold bind at 1. destruct Hf as [f ->].
  rewrite cpp_parse_term_operand;
    [|exact Hfirst
     |eapply no_increment_chain;
        [exact Hall|exact Hstop|intros x [<-|[]]; left; reflexivity]].
  apply cpp_expression_loop_chain; [exact Hall|exact Hstop|lia].
Qed.

Lemma cpp_expression_is_a_left_chain_witness :
  Lexer.tokenize "1 + 2 * 3;"
  = Ok [("NUMBER", "1"); ("ARITHMETIC_OPERATOR", "+"); ("NUMBER", "2");
        ("ARITHMETIC_OPERATOR", "*"); ("NUMBER", "3"); ("SEMICOLON", ";")]
  /\ Parser.parse_expression 4
       [("NUMBER", "1"); ("ARITHMETIC_OPERATOR", "+"); ("NUMBER", "2");
        ("ARITHMETIC_OPERATOR", "*"); ("NUMBER", "3"); ("SEMICOLON", ";")]
     = Ok (BinaryExpression "*"
             (BinaryExpression "+" (Number "1") (Number "2")) (Number "3"),
           [("SEMICOLON", ";")]).
Proof.
  split; [vm_compute; reflexivity|].
  refine (cpp_expression_is_a_left_chain ("NUMBER", "1")
            [(("ARITHMETIC_OPERATOR", "+"), ("NUMBER", "2"));
             (("ARITHMETIC_OPERATOR", "*"), ("NUMBER", "3"))]
            [("SEMICOLON", ";")] 4 _ _ _ _).
  - eexists; reflexivity.
  - repeat constructor; eexists; reflexivity.
  - reflexivity.
  - cbn; lia.
Defined.

Section PythonChains.
Import Tokens.

Lemma python_parse_term_operand fuel t ts :
  is_Some (operand t) -> no_call ts ->
  PythonParser.parse_term (S fuel) (t :: ts) = Ok (leaf t, ts).
Proof.
  intros Ht Hn. apply leaf_operand in Ht.
  destruct (operand_cases _ _ Ht) as [[Hk ->]|[[Hk ->]|[Hk ->]]];
    destruct t as [k v]; cbn [fst snd] in *; subst k.
  - reflexivity.
  - cbn [PythonParser.parse_term]. unfold bind, current_token, peek.
    cbn [nth_error fst snd bind ret String.eqb Ascii.eqb Bool.eqb mem existsb
         orb].
    unfold match_, bind, ret. cbn [fst snd String.eqb Ascii.eqb Bool.eqb].
    destruct ts as [|[k' v'] ts']; [reflexivity|].
    cbn [nth_error]. cbn [no_call fst snd] in Hn.
    unfold is_type. cbn [fst snd]. rewrite Hn. reflexivity.
  - reflexivity.
Qed.

Lemma no_call_chain rest more :
  Forall (fun p => binary_operator python_operator_kinds (fst p) = true
                   /\ is_Some (operand (snd p))) rest ->
  stops python_operator_kinds ["LPAREN"] more = true ->
  no_call (chain_tokens rest ++ more).
Proof.
  intros Hall Hstop. destruct rest as [|[o t] rest].
  - cbn [chain_tokens flat_map app no_call].
    destruct more as [|m more]; [exact I|]. cbn [stops] in Hstop.
    apply andb_prop in Hstop as [_ Hstop]. cbn [mem existsb] in Hstop.
    rewrite orb_false_r in Hstop. cbn [no_call].
    destruct (fst m =? "LPAREN"); [discriminate|reflexivity].
  - apply List.Forall_cons_iff in Hall as [[Ho _] _]. cbn [fst snd] in Ho.
    cbn [chain_tokens flat_map app no_call fst snd].
    apply binary_operator_spec in Ho as [Ho _].
    destruct (fst o =? "LPAREN") eqn:E; [|reflexivity].
    apply String.eqb_eq in E. rewrite E in Ho. discriminate.
Qed.

Lemma python_expression_loop_chain rest : forall left more fuel,
  Forall (fun p => binary_operator python_operator_kinds (fst p) = true
                   /\ is_Some (operand (snd p))) rest ->
  stops python_operator_kinds ["LPAREN"] more = true ->
  length rest + 1 <= fuel ->
  PythonParser.expression_loop fuel left (chain_tokens rest ++ more)
  = Ok (fold_left
          (fun left p => BinaryExpression (snd (fst p)) left (leaf (snd p)))
          rest left, more).
Proof.
  induction rest as [|[o t] rest IH]; intros left more fuel Hall Hstop Hfuel.
  - destruct fuel as [|fuel]; [cbn in Hfuel; lia|].
    cbn [chain_tokens flat_map app fold_left PythonParser.expression_loop].
    unfold bind, current_token, peek, ret.
    destruct more as [|m more]; [reflexivity|].
    cbn [nth_error type_in]. cbn [stops] in Hstop.
    apply andb_prop in Hstop as [Hstop _].
    unfold python_operator_kinds in Hstop.
    destruct (mem (fst m) _); [discriminate|reflexivity].
  - destruct fuel as [|fuel]; [cbn in Hfuel; lia|].
    assert (Hf : exists f, fuel = S f)
      by (destruct fuel; [cbn in Hfuel; lia|eauto]).
    apply List.Forall_cons_iff in Hall as [[Ho Ht] Hall].
    cbn [fst snd] in Ho, Ht.
    apply binary_operator_spec in Ho as [Hk Hv].
    cbn [chain_tokens flat_map app fold_left fst snd].
    change (flat_map (fun p : token * token => [fst p; snd p]) rest)
      with (chain_tokens rest).
    cbn [PythonParser.expression_loop].
    unfold bind at 1. unfold current_token, peek. cbn [nth_error].
    unfold type_in at 1. unfold python_operator_kinds in Hk. rewrite Hk.
    unfold bind at 1. unfold current_unchecked, bind, current_token, peek, ret.
    cbn [nth_error]. unfold match_. rewrite String.eqb_refl.
    destruct Hf as [f ->].
    rewrite python_parse_term_operand;
      [|exact Ht|apply no_call_chain; [exact Hall|exact Hstop]].
    apply IH; [exact Hall|exact Hstop|cbn in Hfuel; lia].
Qed.
End PythonChains.

(** X7.  The Python-side expression parser builds the same flat chain
    from left to right: [((first op1 t1) op2 t2) ...], for arithmetic and
    comparison operators alike, leaving the tokens after the chain
    unread. *)
Theorem python_expression_is_a_left_chain
  (first : token) (rest : list (token * token)) (more : list token)
  (fuel : nat) :
  is_Some (operand first) ->
  Forall (fun p => binary_operator python_operator_kinds (fst p) = true
                   /\ is_Some (operand (snd p))) rest ->
  stops python_operator_kinds ["LPAREN"] more = true ->
  length rest + 2 <= fuel ->
  PythonParser.parse_expression fuel (first :: chain_tokens rest ++ more)
  = Ok (chain_tree first rest, more).
Proof.
  intros Hfirst Hall Hstop Hfuel.
  destruct fuel as [|fuel]; [lia|].
  assert (Hf : exists f, fuel = S f) by (destruct fuel; [lia|eauto]).
  cbn [PythonParser.parse_expression]. unfold bind at 1. destruct Hf as [f ->].
  rewrite python_parse_term_operand;
    [|exact Hfirst|apply no_call_chain; [exact Hall|exact Hstop]].
  apply python_expression_loop_chain; [exact Hall|exact Hstop|lia].
Qed.

Lemma python_expression_is_a_left_chain_witness :
  PythonLexer.tokenize "a - b < c:"
  = Ok [("IDENTIFIER", "a"); ("ARITHMETIC_OPERATOR", "-"); ("IDENTIFIER", "b");
        ("COMPARISON_OPERATOR", "<"); ("IDENTIFIER", "c"); ("COLON", ":")]
  /\ PythonParser.parse_expression 4
       [("IDENTIFIER", "a"); ("ARITHMETIC_OPERATOR", "-"); ("IDENTIFIER", "b");
        ("COMPARISON_OPERATOR", "<"); ("IDENTIFIER", "c"); ("COLON", ":")]
     = Ok (BinaryExpression "<"
             (BinaryExpression "-" (Identifier "a") (Identifier "b"))
             (Identifier "c"),
           [("COLON", ":")]).
Proof.
  split; [vm_compute; reflexivity|].
  refine (python_expression_is_a_left_chain ("IDENTIFIER", "a")
            [(("ARITHMETIC_OPERATOR", "-"), ("IDENTIFIER", "b"));
             (("COMPARISON_OPERATOR", "<"), ("IDENTIFIER", "c"))]
            [("COLON", ":")] 4 _ _ _ _).
  - eexists; reflexivity.
  - repeat constructor; eexists; reflexivity.
  - reflexivity.
  - cbn; lia.
Defined.

Section ParserLoops.
Import Tokens.

(** A [while] loop ends on a turn whose condition fails. *)
Lemma collect_end {A} turns (body : P (option A)) : forall acc ts l ts',
  Parser.collect turns body acc ts = Ok (l, ts') ->
  exists ts0, body ts0 = Ok (None, ts').
Proof.
  induction turns as [|turns IH]; intros acc ts l ts' H; [discriminate|].
  cbn [Parser.collect] in H. unfold bind at 1 in H.
  destruct (body ts) as [[[a|] ts1]| |] eqn:B; try discriminate.
  - eapply IH. exact H.
  - unfold ret in H. injection H as _ <-. eauto.
Qed.

Lemma program_turn_end (parse_definition parse_statement : P node) ts0 ts' :
  (t <- current_token ;;
   match t with
   | Some _ =>
       fd <- is_function_definition ;;
       if fd then st <- parse_definition ;; ret (Some st)
       else st <- parse_statement ;; ret (Some st)
   | None => ret None
   end)%monad ts0 = Ok (None, ts') ->
  ts' = [].
Proof.
  unfold bind at 1. unfold current_token, peek.
  destruct ts0 as [|t ts0]; cbn [nth_error].
  - unfold ret. intros H. injection H as <-. reflexivity.
  - unfold bind at 1. unfold is_function_definition, bind, peek, ret.
    match goal with
    | |- (if ?b then _ else _) _ = _ -> _ => destruct b
    end.
    + destruct (parse_definition _) as [[st ts1]| |]; discriminate.
    + destruct (parse_statement _) as [[st ts1]| |]; discriminate.
Qed.
End ParserLoops.

(** X8.  When either parser returns a program it has read every token:
    the loop of [parse_program] ends only when no token is left, so no
    trailing text is dropped without a failure. *)
Theorem parse_program_reads_every_token
  (fuel : nat) (tokens rest : list token) (ast : node) :
  Parser.parse_program_fuel fuel tokens = Ok (ast, rest)
  \/ PythonParser.parse_program_fuel fuel tokens = Ok (ast, rest) ->
  rest = [] /\ exists statements, ast = Program statements.
Proof.
  intros [H|H].
  - unfold Parser.parse_program_fuel in H. unfold bind at 1 in H.
    unfold Parser.turns_left, bind, get, ret in H.
    match type of H with
    | match Parser.collect ?n ?b ?a ?t with _ => _ end = _ =>
        destruct (Parser.collect n b a t) as [[l ts']| |] eqn:C;
          try discriminate
    end.
    injection H as <- <-. split; [|eauto].
    apply collect_end in C as (ts0 & C).
    eapply program_turn_end. exact C.
  - unfold PythonParser.parse_program_fuel in H. unfold bind at 1 in H.
    unfold PythonParser.turns_left, Parser.turns_left, bind, get, ret in H.
    unfold PythonParser.collect in H.
    match type of H with
    | match Parser.collect ?n ?b ?a ?t with _ => _ end = _ =>
        destruct (Parser.collect n b a t) as [[l ts']| |] eqn:C;
          try discriminate
    end.
    injection H as <- <-. split; [|eauto].
    apply collect_end in C as (ts0 & C).
    eapply program_turn_end. exact C.
Qed.

Lemma parse_program_reads_every_token_witness :
  Parser.parse_program_fuel 12
    [("KEYWORD", "int"); ("IDENTIFIER", "x");
     ("ARITHMETIC_OPERATOR", "="); ("NUMBER", "5"); ("SEMICOLON", ";")]
  = Ok (Program [VariableDeclaration "int" "x" (Some (Number "5"))], [])
  /\ ([] : list token) = []
  /\ exists statements,
       Program [VariableDeclaration "int" "x" (Some (Number "5"))]
       = Program statements.
Proof.
  split; [vm_compute; reflexivity|].
  apply (parse_program_reads_every_token 12
           [("KEYWORD", "int"); ("IDENTIFIER", "x");
            ("ARITHMETIC_OPERATOR", "="); ("NUMBER", "5");
            ("SEMICOLON", ";")]
           [] (Program [VariableDeclaration "int" "x" (Some (Number "5"))])).
  left. vm_compute. reflexivity.
Defined.

Section Scopes.
Import SemanticAnalyzer.

Lemma keeps_weaken (R1 R2 : relation (list (gmap string symbol))) {T}
  (m : A T) :
  (forall a b, R1 a b -> R2 a b) -> keeps R1 m -> keeps R2 m.
Proof.
  intros Hsub Hm st a st' H. destruct (Hm _ _ _ H) as [Hr He].
  split; [|exact He]. eapply rtc_subrel; [|exact Hr]. exact Hsub.
Qed.

Lemma keeps_ext R {T} (m m' : A T) :
  (forall st, m st = m' st) -> keeps R m -> keeps R m'.
Proof. intros E Hm st a st' H. rewrite <- E in H. exact (Hm _ _ _ H). Qed.

Lemma bind_assoc {S T U V} (m : M S T) (k : T -> M S U) (h : U -> M S V) st :
  bind (bind m k) h st = bind m (fun a => bind (k a) h) st.
Proof. unfold bind. destruct (m st) as [[a st1]| |]; reflexivity. Qed.

Lemma bind_congr {S T U} (m : M S T) (k k' : T -> M S U) st :
  (forall a st1, k a st1 = k' a st1) -> bind m k st = bind m k' st.
Proof. intros E. unfold bind. destruct (m st) as [[a st1]| |]; auto. Qed.

Lemma keeps_ret R {T} (a : T) : keeps R (ret a).
Proof.
  intros st b st' H. injection H as _ <-. split; [reflexivity|].
  exists []. symmetry. apply app_nil_r.
Qed.

Lemma keeps_raise R {T} e : keeps R (@raise state T e).
Proof. intros st b st' H. discriminate H. Qed.

Lemma keeps_bind R {T U} (m : A T) (k : T -> A U) :
  keeps R m -> (forall a, keeps R (k a)) -> keeps R (bind m k).
Proof.
  intros Hm Hk st b st' H. unfold bind in H.
  destruct (m st) as [[a st1]| |] eqn:E; try discriminate.
  destruct (Hm _ _ _ E) as [Hr1 [x1 He1]].
  destruct (Hk _ _ _ _ H) as [Hr2 [x2 He2]].
  split; [etrans; eassumption|].
  exists (x1 ++ x2)%list. rewrite He2, He1, app_assoc. reflexivity.
Qed.

Lemma keeps_report R msg : keeps R (report msg).
Proof.
  intros st b st' H. injection H as _ <-. split; [reflexivity|].
  exists [msg]. reflexivity.
Qed.

Lemma keeps_lookup_variable R x : keeps R (lookup_variable x).
Proof.
  intros st b st' H. injection H as _ <-. split; [reflexivity|].
  exists []. symmetry. apply app_nil_r.
Qed.

Lemma keeps_if R {T} (b : bool) (m1 m2 : A T) :
  keeps R m1 -> keeps R m2 -> keeps R (if b then m1 else m2).
Proof. destruct b; auto. Qed.

Lemma keeps_forM_ R {T} (f : T -> A unit) l :
  Forall (fun a => keeps R (f a)) l -> keeps R (forM_ f l).
Proof.
  induction 1 as [|a l Ha _ IH]; cbn [forM_].
  - apply keeps_ret.
  - apply keeps_bind; [exact Ha|intros _; exact IH].
Qed.

End Scopes.

Ltac keeps_step :=
  first
    [ apply keeps_ret | apply keeps_raise | apply keeps_report
    | apply keeps_lookup_variable
    | apply keeps_bind; [|intros ?]
    | apply keeps_if
    | assumption ].

Section ScopeWrites.
Import SemanticAnalyzer.

(** Typing an expression writes to no frame. *)
Lemma keeps_evaluate R e : forall context,
  keeps R (evaluate_expression_type e context).
Proof.
  induction e; intros context; cbn [evaluate_expression_type];
    try (repeat keeps_step; fail).
  - (* binary *)
    apply keeps_bind; [apply IHe1|intros lt].
    apply keeps_bind; [apply IHe2|intros rt].
    repeat keeps_step.
  - (* identifier *)
    apply keeps_bind; [apply keeps_lookup_variable|intros [v|]];
      repeat keeps_step.
  - (* call *)
    apply keeps_bind; [apply keeps_lookup_variable|intros v].
    apply keeps_if; [destruct v as [[?|?]|]|]; repeat keeps_step.
Qed.

Lemma keeps_declare_variable x ty :
  keeps writes (declare_variable x (VarType ty) false).
Proof.
  intros st b st' H. unfold declare_variable, bind, get in H.
  destruct (last (scope_stack st)) as [scope|] eqn:L; [|discriminate].
  apply last_Some in L as [outer L].
  destruct (scope !! x) as [v|] eqn:S.
  { revert H. apply keeps_report. }
  destruct (lookup_stack x (scope_stack st)) as [v|] eqn:K.
  { cbn [negb] in H. revert H. apply keeps_report. }
  unfold set_stack, modify in H. injection H as _ <-. cbn [scope_stack errors].
  split; [|exists []; symmetry; apply app_nil_r].
  rewrite L in K |- *. rewrite removelast_last.
  apply rtc_once. left. constructor. exact K.
Qed.

(** Under a frame that is later dropped, all that reaches the frames
    below is function definitions. *)
Lemma writes_under stk0 stk2 :
  rtc writes stk0 stk2 ->
  forall stk t0, stk0 = (stk ++ [t0])%list ->
  exists stk1 top, stk2 = (stk1 ++ [top])%list /\ rtc defines stk stk1.
Proof.
  induction 1 as [stk0|a b c Hab Hbc IH]; intros stk t0 E.
  - exists stk, t0. split; [exact E|reflexivity].
  - destruct Hab as [Hab|Hab]; destruct Hab.
    + apply app_inj_tail in E as [-> ->]. eapply IH. reflexivity.
    + destruct stk as [|g stk].
      * cbn in E. injection E as -> ->.
        destruct (IH [] (<[f:=FunctionInfo rt]> t0) eq_refl) as (s1 & top & -> & Hd).
        exists s1, top. auto.
      * cbn in E. injection E as -> ->.
        destruct (IH (<[f:=FunctionInfo rt]> g :: stk) t0 eq_refl)
          as (s1 & top & -> & Hd).
        exists s1, top. split; [reflexivity|].
        eapply rtc_l; [|exact Hd]. constructor. assumption.
Qed.

(** [enter_scope(); body; exit_scope()] *)
Lemma keeps_scoped (body : A unit) :
  keeps writes body ->
  keeps defines (enter_scope ;;; body ;;; exit_scope)%monad.
Proof.
  intros Hbody st b st' H.
  unfold enter_scope, get, set_stack, modify in H. unfold bind in H.
  cbv beta iota in H.
  destruct (body _) as [[[] st2]| |] eqn:B; try discriminate.
  destruct (Hbody _ _ _ B) as [Hr [extra He]]. cbn [scope_stack errors] in Hr, He.
  destruct (writes_under _ _ Hr _ _ eq_refl) as (stk1 & top & E2 & Hd).
  unfold exit_scope, bind, get, set_stack, modify in H. rewrite E2 in H.
  destruct (stk1 ++ [top])%list as [|x l] eqn:E3;
    [destruct stk1; discriminate|].
  injection H as _ <-. cbn [scope_stack errors].
  change (match l with [] => [] | _ :: _ => x :: removelast l end)
    with (removelast (x :: l)).
  rewrite <- E3, removelast_last.
  split; [exact Hd|]. exists extra. exact He.
Qed.

Lemma defines_writes a b : defines a b -> writes a b.
Proof. intros H. right. exact H. Qed.

Lemma keeps_declaration ty x init :
  keeps writes (_analyze_variable_declaration ty x init).
Proof.
  unfold _analyze_variable_declaration.
  apply keeps_bind; [apply keeps_lookup_variable|intros bound].
  apply keeps_bind.
  - apply keeps_if; [apply keeps_report|apply keeps_declare_variable].
  - intros _. destruct init as [init|]; [|apply keeps_ret].
    apply keeps_bind; [apply keeps_evaluate|intros ?]. repeat keeps_step.
Qed.

Lemma keeps_check_assignment R x e : keeps R (check_assignment x e).
Proof.
  unfold check_assignment.
  apply keeps_bind; [apply keeps_lookup_variable|intros [v|]];
    [|apply keeps_report].
  apply keeps_bind; [apply keeps_evaluate|intros ?]. repeat keeps_step.
Qed.

Lemma keeps_check_increment R x missing : keeps R (check_increment x missing).
Proof.
  unfold check_increment.
  apply keeps_bind; [apply keeps_lookup_variable|intros [v|]];
    repeat keeps_step.
Qed.

Lemma keeps_for_header init condition increment :
  keeps writes (analyze_for_header init condition increment).
Proof.
  unfold analyze_for_header.
  apply keeps_bind.
  { destruct init; try (repeat keeps_step; fail).
    - apply keeps_declaration.
    - apply keeps_check_assignment. }
  intros _. apply keeps_bind; [apply keeps_evaluate|intros ct].
  apply keeps_bind; [destruct ct; repeat keeps_step|intros _].
  destruct increment as [inc|]; [|apply keeps_raise].
  destruct inc; try apply keeps_ret;
    try (apply keeps_bind; [apply keeps_evaluate|intros ?; apply keeps_ret]);
    (apply keeps_bind; [apply keeps_lookup_variable|intros [v|]]);
    repeat keeps_step.
Qed.

Lemma keeps_bare_node t handler :
  bare_node t = Some handler -> keeps writes handler.
Proof.
  unfold bare_node.
  repeat match goal with
         | |- (if ?b then _ else _) = _ -> _ => destruct b
         end; intros H; try discriminate H; injection H as <-;
    repeat keeps_step.
Qed.

(** Every statement is analysed with writes of the two kinds only. *)
Lemma keeps_analyze_statement statement :
  keeps writes (analyze_statement statement).
Proof.
  induction statement as [nd IH] using node_children_ind.
  destruct nd; cbn [analyze_statement]; cbn [children] in IH;
    try (repeat keeps_step; fail).
  - (* function definition *)
    assert (Hbody : keeps writes
              (enter_scope ;;;
               (enter_scope ;;; forM_ analyze_statement body ;;; exit_scope) ;;;
               exit_scope)%monad).
    { eapply keeps_weaken; [exact defines_writes|].
      apply keeps_scoped.
      eapply keeps_weaken; [exact defines_writes|].
      apply keeps_scoped. apply keeps_forM_. exact IH. }
    assert (Hsame : forall st,
              (enter_scope ;;;
               (enter_scope ;;; forM_ analyze_statement body ;;; exit_scope) ;;;
               exit_scope)%monad st
              = (enter_scope ;;; enter_scope ;;;
                 forM_ analyze_statement body ;;; exit_scope ;;;
                 exit_scope)%monad st).
    { intros st. apply bind_congr. intros _ st1. rewrite bind_assoc.
      apply bind_congr. intros _ st2. apply bind_assoc. }
    apply (keeps_ext _ _ _ Hsame) in Hbody.
    intros st b st' H. unfold bind at 1 in H. unfold get in H.
    cbv beta iota in H.
    destruct (scope_stack st) as [|global inner] eqn:E; [discriminate|].
    destruct (global !! func_name) as [v|] eqn:G.
    + rewrite <- E. revert H. apply keeps_bind; [apply keeps_report|].
      intros _. exact Hbody.
    + unfold bind at 1 in H. unfold set_stack, modify in H.
      cbv beta iota in H.
      destruct (Hbody _ _ _ H) as [Hr He]. cbn [scope_stack errors] in Hr, He.
      split; [|exact He].
      eapply rtc_l; [|exact Hr]. right. constructor. exact G.
  - apply keeps_declaration.
  - apply keeps_check_assignment.
  - (* expression statement *)
    unfold analyze_expression_statement.
    match goal with
    | |- keeps _ (match ?e with _ => _ end) => destruct e
    end; try apply keeps_check_increment;
      try (apply keeps_if; [apply keeps_raise|];
           apply keeps_bind; [apply keeps_evaluate|intros ?; apply keeps_ret]).
  - apply keeps_check_increment.
  - (* if *)
    apply List.Forall_cons_iff in IH as [_ IH].
    apply List.Forall_cons_iff in IH as [Ht IH].
    apply keeps_bind; [apply keeps_evaluate|intros ct].
    apply keeps_bind; [unfold condition_must_be_bool; repeat keeps_step|intros _].
    apply keeps_bind; [exact Ht|intros _].
    destruct false_branch as [fb|]; [|apply keeps_ret].
    cbn in IH. apply List.Forall_cons_iff in IH as [Hf _]. exact Hf.
  - (* while *)
    apply List.Forall_cons_iff in IH as [_ IH].
    apply List.Forall_cons_iff in IH as [Hb _].
    apply keeps_bind; [apply keeps_evaluate|intros ct].
    apply keeps_bind; [unfold condition_must_be_bool; repeat keeps_step|intros _].
    exact Hb.
  - (* while, Python shape *)
    apply keeps_bind; [apply keeps_evaluate|intros ct].
    apply keeps_bind; [unfold condition_must_be_bool; repeat keeps_step|intros _].
    apply keeps_raise.
  - (* for *)
    apply keeps_bind; [apply keeps_for_header|intros _].
    apply List.Forall_cons_iff in IH as [_ IH].
    apply List.Forall_cons_iff in IH as [_ IH].
    apply Forall_app in IH as [_ IH].
    apply List.Forall_cons_iff in IH as [Hb _]. exact Hb.
  - (* io *)
    unfold analyze_io_statement. apply keeps_forM_.
    apply Forall_forall. intros e _.
    apply keeps_bind; [apply keeps_evaluate|intros [v|]]; repeat keeps_step.
  - (* return *)
    unfold analyze_return_statement.
    apply keeps_bind; [apply keeps_evaluate|intros [v|]]; repeat keeps_step.
  - (* block *)
    eapply keeps_weaken; [exact defines_writes|].
    apply keeps_scoped. apply keeps_forM_. exact IH.
  - (* other *)
    destruct (bare_node type) as [handler|] eqn:B; [|apply keeps_report].
    eapply keeps_bare_node. exact B.
Qed.

(** A block, and a function definition, leave behind them nothing but the
    names of the functions defined. *)
Lemma keeps_closed_scope statement :
  mem (node_type statement) ["BLOCK"; "FUNCTION_DEFINITION"] = true ->
  bare statement (node_type statement) = false ->
  keeps defines (analyze_statement statement).
Proof.
  assert (Hall : forall l, Forall (fun s => keeps writes (analyze_statement s)) l).
  { intros l. apply Forall_forall. intros s _. apply keeps_analyze_statement. }
  intros Ht Hb.
  destruct statement; try discriminate Ht; cbn [analyze_statement].
  - assert (Hbody : keeps defines
              (enter_scope ;;;
               (enter_scope ;;; forM_ analyze_statement body ;;; exit_scope) ;;;
               exit_scope)%monad).
    { apply keeps_scoped.
      eapply keeps_weaken; [exact defines_writes|].
      apply keeps_scoped. apply keeps_forM_. apply Hall. }
    assert (Hsame : forall st,
              (enter_scope ;;;
               (enter_scope ;;; forM_ analyze_statement body ;;; exit_scope) ;;;
               exit_scope)%monad st
              = (enter_scope ;;; enter_scope ;;;
                 forM_ analyze_statement body ;;; exit_scope ;;;
                 exit_scope)%monad st).
    { intros st. apply bind_congr. intros _ st1. rewrite bind_assoc.
      apply bind_congr. intros _ st2. apply bind_assoc. }
    apply (keeps_ext _ _ _ Hsame) in Hbody.
    intros st b st' H. unfold bind at 1 in H. unfold get in H.
    cbv beta iota in H.
    destruct (scope_stack st) as [|global inner] eqn:E; [discriminate|].
    destruct (global !! func_name) as [v|] eqn:G.
    + rewrite <- E. revert H. apply keeps_bind; [apply keeps_report|].
      intros _. exact Hbody.
    + unfold bind at 1 in H. unfold set_stack, modify in H.
      cbv beta iota in H.
      destruct (Hbody _ _ _ H) as [Hr He]. cbn [scope_stack errors] in Hr, He.
      split; [|exact He].
      eapply rtc_l; [|exact Hr]. constructor. exact G.
  - apply keeps_scoped. apply keeps_forM_. apply Hall.
  - cbn in Hb. rewrite String.eqb_refl in Hb. discriminate.
Qed.

Lemma writes_length a b : rtc writes a b -> length b = length a.
Proof.
  induction 1 as [|a b c Hab _ IH]; [reflexivity|]. rewrite IH.
  destruct Hab as [Hab|Hab]; destruct Hab; [|reflexivity].
  rewrite !length_app. reflexivity.
Qed.

Lemma lookup_in_app x l1 l2 :
  lookup_in x (l1 ++ l2)
  = match lookup_in x l1 with
    | Some v => Some v
    | None => lookup_in x l2
    end.
Proof.
  induction l1 as [|f l1 IH]; cbn; [reflexivity|].
  destruct (f !! x); [reflexivity|exact IH].
Qed.

Lemma lookup_stack_global x global inner :
  lookup_stack x (global :: inner)
  = match lookup_stack x inner with
    | Some v => Some v
    | None => global !! x
    end.
Proof.
  unfold lookup_stack. cbn [rev]. rewrite lookup_in_app. cbn.
  destruct (lookup_in x (rev inner)); [reflexivity|].
  destruct (global !! x); reflexivity.
Qed.

(** A name that resolves keeps resolving to the same thing. *)
Lemma writes_lookup a b :
  rtc writes a b ->
  forall x v, lookup_stack x a = Some v -> lookup_stack x b = Some v.
Proof.
  induction 1 as [|a b c Hab _ IH]; intros y v Hy; [exact Hy|].
  apply IH. destruct Hab as [Hab|Hab]; destruct Hab.
  - rewrite lookup_stack_innermost in *.
    destruct (decide (x = y)) as [->|Hne].
    + congruence.
    + rewrite lookup_insert_ne by exact Hne. exact Hy.
  - rewrite lookup_stack_global in *.
    destruct (lookup_stack y inner); [exact Hy|].
    destruct (decide (f = y)) as [->|Hne]; [congruence|].
    rewrite lookup_insert_ne by exact Hne. exact Hy.
Qed.

(** After definitions alone a name resolves as before, or it was free and
    now names a function. *)
Lemma defines_lookup a b :
  rtc defines a b ->
  forall x,
    lookup_stack x b = lookup_stack x a
    \/ (lookup_stack x a = None
        /\ exists rt, lookup_stack x b = Some (FunctionInfo rt)).
Proof.
  induction 1 as [|a b c Hab Hbc IH]; intros y; [left; reflexivity|].
  destruct (lookup_stack y a) as [v|] eqn:Ha.
  - left. eapply writes_lookup; [|exact Ha].
    eapply rtc_l; [right; exact Hab|].
    eapply rtc_subrel; [|exact Hbc]. exact defines_writes.
  - destruct (IH y) as [Hc|[Hb [rt Hc]]].
    + destruct Hab. rewrite lookup_stack_global in Ha, Hc.
      destruct (lookup_stack y inner); [discriminate|].
      destruct (decide (f = y)) as [->|Hne].
      * rewrite lookup_insert_eq in Hc. right. split; [reflexivity|]. eauto.
      * rewrite lookup_insert_ne in Hc by exact Hne. left. congruence.
    + right. split; [reflexivity|]. eauto.
Qed.
End ScopeWrites.

(** X9.  Whatever statement the C++-side analyzer has analysed, it leaves
    the scope stack as deep as it found it, it has lost no diagnostic, and
    every name that resolved before resolves to the same thing after: no
    binding is overwritten or hidden. *)
Theorem analysis_keeps_scopes
  (statement : node) (st st' : SemanticAnalyzer.state) :
  SemanticAnalyzer.analyze_statement statement st = Ok (tt, st') ->
  length (SemanticAnalyzer.scope_stack st')
  = length (SemanticAnalyzer.scope_stack st)
  /\ (exists extra,
        SemanticAnalyzer.errors st'
        = (SemanticAnalyzer.errors st ++ extra)%list)
  /\ (forall x v,
        SemanticAnalyzer.lookup_stack x (SemanticAnalyzer.scope_stack st)
        = Some v ->
        SemanticAnalyzer.lookup_stack x (SemanticAnalyzer.scope_stack st')
        = Some v).
Proof.
  intros H. destruct (keeps_analyze_statement _ _ _ _ H) as [Hr He].
  split; [apply writes_length; exact Hr|]. split; [exact He|].
  apply writes_lookup. exact Hr.
Qed.

(** X10.  A block and a function definition close their scope: after
    either, every name resolves exactly as before it, except that a name
    that was free may now name a function defined inside.  No variable
    declared inside is visible afterwards. *)
Theorem closed_scope_leaks_functions_only
  (statement : node) (st st' : SemanticAnalyzer.state) :
  (exists statements, statement = Block statements)
  \/ (exists return_type func_name body,
        statement = FunctionDefinition return_type func_name body) ->
  SemanticAnalyzer.analyze_statement statement st = Ok (tt, st') ->
  forall x,
    SemanticAnalyzer.lookup_stack x (SemanticAnalyzer.scope_stack st')
    = SemanticAnalyzer.lookup_stack x (SemanticAnalyzer.scope_stack st)
    \/ (SemanticAnalyzer.lookup_stack x (SemanticAnalyzer.scope_stack st)
        = None
        /\ exists rt,
             SemanticAnalyzer.lookup_stack x (SemanticAnalyzer.scope_stack st')
             = Some (SemanticAnalyzer.FunctionInfo rt)).
Proof.
  intros Hshape H.
  assert (Hk : keeps defines (SemanticAnalyzer.analyze_statement statement)).
  { destruct Hshape as [[s ->]|(rt & f & body & ->)];
      apply keeps_closed_scope; reflexivity. }
  destruct (Hk _ _ _ H) as [Hr _]. apply defines_lookup. exact Hr.
Qed.

Lemma analysis_keeps_scopes_witness :
  let st :=
    {| SemanticAnalyzer.scope_stack :=
         [<["x" := SemanticAnalyzer.VarType "int"]> ∅];
       SemanticAnalyzer.errors := [] |} in
  exists st',
    SemanticAnalyzer.analyze_statement
      (Block [VariableDeclaration "int" "y" (Some (Identifier "x"))]) st
    = Ok (tt, st')
    /\ length (SemanticAnalyzer.scope_stack st') = 1
    /\ (exists extra, SemanticAnalyzer.errors st' = ([] ++ extra)%list)
    /\ (forall x v,
          SemanticAnalyzer.lookup_stack x (SemanticAnalyzer.scope_stack st)
          = Some v ->
          SemanticAnalyzer.lookup_stack x (SemanticAnalyzer.scope_stack st')
          = Some v).
Proof.
  intros st.
  destruct (SemanticAnalyzer.analyze_statement
              (Block [VariableDeclaration "int" "y" (Some (Identifier "x"))])
              st) as [[[] st']| |] eqn:E;
    [|vm_compute in E; discriminate E..].
  exists st'. split; [reflexivity|].
  exact (analysis_keeps_scopes _ _ _ E).
Defined.

Lemma closed_scope_leaks_functions_only_witness :
  exists st',
    SemanticAnalyzer.analyze_statement
      (Block [VariableDeclaration "int" "y" (Some (Number "1"))])
      SemanticAnalyzer.initial
    = Ok (tt, st')
    /\ forall x,
         SemanticAnalyzer.lookup_stack x (SemanticAnalyzer.scope_stack st')
         = SemanticAnalyzer.lookup_stack x
             (SemanticAnalyzer.scope_stack SemanticAnalyzer.initial)
         \/ (SemanticAnalyzer.lookup_stack x
               (SemanticAnalyzer.scope_stack SemanticAnalyzer.initial) = None
             /\ exists rt,
                  SemanticAnalyzer.lookup_stack x
                    (SemanticAnalyzer.scope_stack st')
                  = Some (SemanticAnalyzer.FunctionInfo rt)).
Proof.
  destruct (SemanticAnalyzer.analyze_statement
              (Block [VariableDeclaration "int" "y" (Some (Number "1"))])
              SemanticAnalyzer.initial) as [[[] st']| |] eqn:E;
    [|vm_compute in E; discriminate E..].
  exists st'. split; [reflexivity|].
  refine (closed_scope_leaks_functions_only _ _ _ _ E).
  left. eexists. reflexivity.
Defined.

Section AnalyzerFacts.
Import SemanticAnalyzer.

Lemma bind_Ok {S T U} (m : M S T) (k : T -> M S U) st b st' :
  bind m k st = Ok (b, st') ->
  exists a st1, m st = Ok (a, st1) /\ k a st1 = Ok (b, st').
Proof.
  unfold bind. destruct (m st) as [[a st1]| |]; try discriminate. eauto.
Qed.

(** A first declaration binds the name in the innermost frame. *)
Lemma declare_fresh x ty st st' :
  lookup_stack x (scope_stack st) = None ->
  declare_variable x ty false st = Ok (tt, st') ->
  lookup_stack x (scope_stack st') = Some ty
  /\ (forall y, y <> x ->
        lookup_stack y (scope_stack st') = lookup_stack y (scope_stack st))
  /\ errors st' = errors st.
Proof.
  intros Hnone H. unfold declare_variable, bind, get in H.
  destruct (last (scope_stack st)) as [scope|] eqn:L; [|discriminate].
  pose proof L as L'. apply last_Some in L' as [outer L'].
  destruct (declare_variable_outcomes x ty st scope L) as (_ & _ & Hd).
  specialize (Hd Hnone). unfold declare_variable, bind, get in Hd.
  rewrite L in Hd. rewrite Hd in H. injection H as <-. cbn [scope_stack errors].
  rewrite L', removelast_last.
  split; [|split; [|reflexivity]].
  - rewrite lookup_stack_innermost, lookup_insert_eq. reflexivity.
  - intros y Hy. rewrite !lookup_stack_innermost.
    rewrite lookup_insert_ne by congruence. reflexivity.
Qed.

Lemma truthy_nonempty ty : ty <> EmptyString -> truthy (Some (VarType ty)) = true.
Proof.
  intros H. cbn. destruct (ty =? EmptyString) eqn:E; [|reflexivity].
  apply String.eqb_eq in E. contradiction.
Qed.

Lemma declaration_binds ty x init st st0 :
  lookup_stack x (scope_stack st) = None ->
  _analyze_variable_declaration ty x init st = Ok (tt, st0) ->
  lookup_stack x (scope_stack st0) = Some (VarType ty).
Proof.
  intros Hnone H. unfold _analyze_variable_declaration in H.
  apply bind_Ok in H as (bound & st1 & Hl & H).
  unfold lookup_variable, bind, get, ret in Hl. injection Hl as <- <-.
  rewrite Hnone in H. cbn [truthy] in H.
  apply bind_Ok in H as ([] & st2 & Hd & H).
  apply declare_fresh in Hd as (Hx & _); [|exact Hnone].
  assert (Hk : keeps writes
                 (match init with
                  | Some init0 =>
                      init_type <-
                        evaluate_expression_type init0
                          ("initializer for '" ++ x ++ "'") ;;
                      if truthy init_type
                         && negb (_is_type_compatible ty init_type)
                      then
                        report ("Error: Type mismatch in variable declaration: '"
                                ++ x ++ "' declared as '" ++ ty
                                ++ "' but initialized with type '"
                                ++ fmt init_type ++ "'.")
                      else ret tt
                  | None => ret tt
                  end)%monad).
  { destruct init as [init|]; [|apply keeps_ret].
    apply keeps_bind; [apply keeps_evaluate|intros ?]. repeat keeps_step. }
  destruct (Hk _ _ _ H) as [Hr _]. eapply writes_lookup; eassumption.
Qed.

Lemma header_keeps_declaration ty x init condition increment st st1 :
  lookup_stack x (scope_stack st) = None ->
  analyze_for_header (VariableDeclaration ty x init) condition increment st
  = Ok (tt, st1) ->
  lookup_stack x (scope_stack st1) = Some (VarType ty).
Proof.
  intros Hnone H. unfold analyze_for_header in H.
  apply bind_Ok in H as ([] & st0 & Hd & H).
  apply declaration_binds in Hd; [|exact Hnone].
  match type of H with
  | ?m st0 = _ => assert (Hk : keeps writes m)
  end.
  { apply keeps_bind; [apply keeps_evaluate|intros ct].
    apply keeps_bind; [destruct ct; repeat keeps_step|intros _].
    destruct increment as [inc|]; [|apply keeps_raise].
    destruct inc; try apply keeps_ret;
      try (apply keeps_bind; [apply keeps_evaluate|intros ?; apply keeps_ret]);
      (apply keeps_bind; [apply keeps_lookup_variable|intros [v|]]);
      repeat keeps_step. }
  destruct (Hk _ _ _ H) as [Hr _]. eapply writes_lookup; eassumption.
Qed.

Lemma declared_fresh_exists x ty st :
  scope_stack st <> [] ->
  lookup_stack x (scope_stack st) = None ->
  exists st',
    declare_variable x ty false st = Ok (tt, st')
    /\ errors st' = errors st
    /\ lookup_stack x (scope_stack st') = Some ty.
Proof.
  intros Hne Hnone.
  destruct (last (scope_stack st)) as [scope|] eqn:L.
  2:{ apply last_None in L. contradiction. }
  destruct (declare_variable_outcomes x ty st scope L) as (_ & _ & Hd).
  specialize (Hd Hnone). eexists. split; [exact Hd|].
  destruct (declare_fresh _ _ _ _ Hnone Hd) as (Hx & _ & He). auto.
Qed.
End AnalyzerFacts.

(** X11.  The C++-side analyzer gives a for loop no scope of its own: a
    variable declared in the loop header is still bound when the loop has
    been analysed, so that declaring it again after the loop, as the
    header of a second loop over the same variable does, is reported as
    an error. *)
Theorem loop_variable_outlives_loop
  (ty x : string) (init : option node) (condition : node)
  (increment : option node) (body : node) (st st' : SemanticAnalyzer.state) :
  SemanticAnalyzer.analyze_statement
    (ForLoop (VariableDeclaration ty x init) condition increment body) st
  = Ok (tt, st') ->
  SemanticAnalyzer.lookup_stack x (SemanticAnalyzer.scope_stack st) = None ->
  ty <> EmptyString ->
  SemanticAnalyzer.lookup_stack x (SemanticAnalyzer.scope_stack st')
  = Some (SemanticAnalyzer.VarType ty)
  /\ forall ty',
       SemanticAnalyzer.analyze_statement (VariableDeclaration ty' x None) st'
       = Ok (tt, with_error st' (SemanticAnalyzer.msg_already_declared x)).
Proof.
  intros H Hnone Hty. cbn [SemanticAnalyzer.analyze_statement] in H.
  apply bind_Ok in H as ([] & st1 & Hh & Hb).
  apply header_keeps_declaration in Hh; [|exact Hnone].
  destruct (keeps_analyze_statement _ _ _ _ Hb) as [Hr _].
  pose proof (writes_lookup _ _ Hr _ _ Hh) as Hx.
  split; [exact Hx|]. intros ty'.
  cbn [SemanticAnalyzer.analyze_statement].
  unfold SemanticAnalyzer._analyze_variable_declaration.
  unfold bind at 1. unfold SemanticAnalyzer.lookup_variable, bind, get, ret.
  rewrite Hx, (truthy_nonempty _ Hty). reflexivity.
Qed.

Lemma loop_variable_outlives_loop_witness :
  exists st',
    SemanticAnalyzer.analyze_statement
      (ForLoop (VariableDeclaration "int" "i" (Some (Number "0")))
         (BinaryExpression "<" (Identifier "i") (Number "3"))
         (Some (Increment "i" "++")) (IOStatement "cout" [Identifier "i"]))
      SemanticAnalyzer.initial
    = Ok (tt, st')
    /\ SemanticAnalyzer.errors st' = []
    /\ SemanticAnalyzer.lookup_stack "i" (SemanticAnalyzer.scope_stack st')
       = Some (SemanticAnalyzer.VarType "int")
    /\ forall ty',
         SemanticAnalyzer.analyze_statement
           (VariableDeclaration ty' "i" None) st'
         = Ok (tt, with_error st'
                     (SemanticAnalyzer.msg_already_declared "i")).
Proof.
  destruct (SemanticAnalyzer.analyze_statement
              (ForLoop (VariableDeclaration "int" "i" (Some (Number "0")))
                 (BinaryExpression "<" (Identifier "i") (Number "3"))
                 (Some (Increment "i" "++"))
                 (IOStatement "cout" [Identifier "i"]))
              SemanticAnalyzer.initial) as [[[] st']| |] eqn:E;
    [|vm_compute in E; discriminate E..].
  exists st'. split; [reflexivity|]. split.
  - revert E. vm_compute. intros E. injection E as <-. reflexivity.
  - refine (loop_variable_outlives_loop "int" "i" _ _ _ _ _ _ E _ _).
    + reflexivity.
    + discriminate.
Defined.

(** Two loops over the same variable, one after the other, are rejected:
    no code is generated. *)
Lemma consecutive_loops_rejected :
  Pipeline.cpp_to_python
    "for (int i = 0; i < 2; i++) cout << i; for (int i = 0; i < 2; i++) cout << i;"
  = Ok EmptyString.
Proof. vm_compute. reflexivity. Qed.

(** X12.  Declaring and looking up agree.  A name that no frame binds,
    once declared, resolves to the declared type; the other names resolve
    as before and no diagnostic is added; declaring the name again in the
    same frame is reported as a redeclaration and does not replace the
    first binding. *)
Theorem declared_name_resolves
  (x : string) (ty ty2 : SemanticAnalyzer.symbol)
  (st : SemanticAnalyzer.state) :
  SemanticAnalyzer.scope_stack st <> [] ->
  SemanticAnalyzer.lookup_stack x (SemanticAnalyzer.scope_stack st) = None ->
  exists st',
    SemanticAnalyzer.declare_variable x ty false st = Ok (tt, st')
    /\ SemanticAnalyzer.errors st' = SemanticAnalyzer.errors st
    /\ SemanticAnalyzer.lookup_variable x st' = Ok (Some ty, st')
    /\ (forall y, y <> x ->
          SemanticAnalyzer.lookup_stack y (SemanticAnalyzer.scope_stack st')
          = SemanticAnalyzer.lookup_stack y (SemanticAnalyzer.scope_stack st))
    /\ SemanticAnalyzer.declare_variable x ty2 false st'
       = Ok (tt, with_error st' (SemanticAnalyzer.msg_redeclared x)).
Proof.
  intros Hne Hnone.
  destruct (last (SemanticAnalyzer.scope_stack st)) as [scope|] eqn:L.
  2:{ apply last_None in L. contradiction. }
  destruct (declare_variable_outcomes x ty st scope L) as (_ & _ & Hd).
  specialize (Hd Hnone). eexists. split; [exact Hd|].
  destruct (declare_fresh _ _ _ _ Hnone Hd) as (Hx & Hy & He).
  split; [exact He|]. split.
  { unfold SemanticAnalyzer.lookup_variable, bind, get, ret. rewrite Hx.
    reflexivity. }
  split; [exact Hy|].
  match goal with
  | |- SemanticAnalyzer.declare_variable _ _ _ ?s = _ =>
      destruct (declare_variable_outcomes x ty2 s (<[x := ty]> scope))
        as (Hr & _)
  end.
  { cbn [SemanticAnalyzer.scope_stack]. apply last_snoc. }
  apply Hr. rewrite lookup_insert_eq. eauto.
Qed.

Lemma declared_name_resolves_witness :
  exists st',
    SemanticAnalyzer.declare_variable "x" (SemanticAnalyzer.VarType "int")
      false SemanticAnalyzer.initial = Ok (tt, st')
    /\ SemanticAnalyzer.errors st' = []
    /\ SemanticAnalyzer.lookup_variable "x" st'
       = Ok (Some (SemanticAnalyzer.VarType "int"), st')
    /\ (forall y, y <> "x" ->
          SemanticAnalyzer.lookup_stack y (SemanticAnalyzer.scope_stack st')
          = SemanticAnalyzer.lookup_stack y [∅])
    /\ SemanticAnalyzer.declare_variable "x"
         (SemanticAnalyzer.VarType "string") false st'
       = Ok (tt, with_error st' (SemanticAnalyzer.msg_redeclared "x")).
Proof.
  refine (declared_name_resolves "x" (SemanticAnalyzer.VarType "int")
            (SemanticAnalyzer.VarType "string") SemanticAnalyzer.initial _ _).
  - discriminate.
  - reflexivity.
Defined.

(** X13.  Assignment asks for the very type of the variable, where
    initialisation accepts either numeric type for the other: for a
    variable of type float, [x = 1] is a type mismatch, although
    [float y = 1] is analysed without a diagnostic. *)
Theorem assignment_is_stricter_than_initialisation
  (x y n : string) (st : SemanticAnalyzer.state) :
  SemanticAnalyzer.lookup_stack x (SemanticAnalyzer.scope_stack st)
  = Some (SemanticAnalyzer.VarType "float") ->
  SemanticAnalyzer.lookup_stack y (SemanticAnalyzer.scope_stack st) = None ->
  SemanticAnalyzer.scope_stack st <> [] ->
  SemanticAnalyzer.check_assignment x (Number n) st
  = Ok (tt, with_error st
              ("Error: Type mismatch in assignment to '" ++ x
               ++ "'. Expected float, got int."))
  /\ exists st',
       SemanticAnalyzer._analyze_variable_declaration "float" y
         (Some (Number n)) st = Ok (tt, st')
       /\ SemanticAnalyzer.errors st' = SemanticAnalyzer.errors st
       /\ SemanticAnalyzer.lookup_stack y (SemanticAnalyzer.scope_stack st')
          = Some (SemanticAnalyzer.VarType "float").
Proof.
  intros Hx Hy Hne. split.
  - unfold SemanticAnalyzer.check_assignment. unfold bind at 1.
    unfold SemanticAnalyzer.lookup_variable, bind, get, ret. rewrite Hx.
    reflexivity.
  - destruct (declared_fresh_exists y (SemanticAnalyzer.VarType "float") st Hne Hy)
      as (st' & Hd & He & Hl).
    exists st'. split; [|split; [exact He|exact Hl]].
    unfold SemanticAnalyzer._analyze_variable_declaration. unfold bind at 1.
    unfold SemanticAnalyzer.lookup_variable, bind, get, ret. rewrite Hy.
    cbn [SemanticAnalyzer.truthy]. rewrite Hd. reflexivity.
Qed.

Lemma assignment_is_stricter_than_initialisation_witness :
  let st :=
    {| SemanticAnalyzer.scope_stack :=
         [<["x" := SemanticAnalyzer.VarType "float"]> ∅];
       SemanticAnalyzer.errors := [] |} in
  SemanticAnalyzer.check_assignment "x" (Number "1") st
  = Ok (tt, with_error st
              "Error: Type mismatch in assignment to 'x'. Expected float, got int.")
  /\ exists st',
       SemanticAnalyzer._analyze_variable_declaration "float" "y"
         (Some (Number "1")) st = Ok (tt, st')
       /\ SemanticAnalyzer.errors st' = []
       /\ SemanticAnalyzer.lookup_stack "y" (SemanticAnalyzer.scope_stack st')
          = Some (SemanticAnalyzer.VarType "float").
Proof.
  intros st.
  refine (assignment_is_stricter_than_initialisation "x" "y" "1" st _ _ _).
  - vm_compute. reflexivity.
  - vm_compute. reflexivity.
  - discriminate.
Defined.

Section Ends.
Context {S : Type}.

Lemma ends_ret {T} (a : T) : ends (@ret S T a).
Proof. intros st. discriminate. Qed.

Lemma ends_raise {T} e : ends (@raise S T e).
Proof. intros st. discriminate. Qed.

Lemma ends_get : ends (@get S).
Proof. intros st. discriminate. Qed.

Lemma ends_modify f : ends (@modify S f).
Proof. intros st. discriminate. Qed.

Lemma ends_bind {T U} (m : M S T) (k : T -> M S U) :
  ends m -> (forall a, ends (k a)) -> ends (bind m k).
Proof.
  intros Hm Hk st. unfold bind. specialize (Hm st).
  destruct (m st) as [[a st1]| |]; [apply Hk|discriminate|congruence].
Qed.

Lemma ends_if {T} (b : bool) (m1 m2 : M S T) :
  ends m1 -> ends m2 -> ends (if b then m1 else m2).
Proof. destruct b; auto. Qed.

Lemma ends_forM_ {T} (f : T -> M S unit) l :
  Forall (fun a => ends (f a)) l -> ends (forM_ f l).
Proof.
  induction 1 as [|a l Ha _ IH]; cbn [forM_].
  - apply ends_ret.
  - apply ends_bind; [exact Ha|intros _; exact IH].
Qed.
End Ends.

Ltac ends_step :=
  first
    [ apply ends_ret | apply ends_raise | apply ends_get | apply ends_modify
    | apply ends_bind; [|intros ?]
    | apply ends_if
    | assumption
    | match goal with
      | |- ends (match ?x with _ => _ end) => destruct x
      end ].

Section AnalyzerEnds.
Import SemanticAnalyzer.

Lemma ends_report msg : ends (report msg).
Proof. apply ends_modify. Qed.

Lemma ends_lookup_variable x : ends (lookup_variable x).
Proof. unfold lookup_variable. repeat ends_step. Qed.

Lemma ends_enter_scope : ends enter_scope.
Proof. unfold enter_scope, set_stack. repeat ends_step. Qed.

Lemma ends_exit_scope : ends exit_scope.
Proof. unfold exit_scope, set_stack. repeat ends_step. Qed.

Lemma ends_declare_variable x ty m : ends (declare_variable x ty m).
Proof.
  unfold declare_variable, set_stack.
  apply ends_bind; [apply ends_get|intros st].
  destruct (last (scope_stack st)); [|apply ends_raise].
  destruct (_ !! x); [apply ends_report|].
  destruct (lookup_stack x _); [|apply ends_modify].
  destruct m; [apply ends_modify|apply ends_report].
Qed.

Lemma ends_evaluate e : forall context,
  ends (evaluate_expression_type e context).
Proof.
  induction e; intros context; cbn [evaluate_expression_type];
    try (apply ends_bind; [apply ends_report|intros ?; apply ends_ret]);
    try apply ends_ret.
  - apply ends_bind; [apply IHe1|intros lt].
    apply ends_bind; [apply IHe2|intros rt].
    repeat first [apply ends_report | ends_step].
  - apply ends_bind; [apply ends_lookup_variable|intros [v|]];
      repeat first [apply ends_report | ends_step].
  - apply ends_bind; [apply ends_lookup_variable|intros v].
    apply ends_if; [destruct v as [[?|?]|]|];
      repeat first [apply ends_report | ends_step].
  - repeat first [apply ends_report | ends_step].
Qed.

Ltac ends_analyzer :=
  repeat first
    [ apply ends_report | apply ends_lookup_variable | apply ends_evaluate
    | apply ends_declare_variable | apply ends_enter_scope
    | apply ends_exit_scope | ends_step ].

Lemma ends_declaration ty x init :
  ends (_analyze_variable_declaration ty x init).
Proof. unfold _analyze_variable_declaration. ends_analyzer. Qed.

Lemma ends_check_assignment x e : ends (check_assignment x e).
Proof. unfold check_assignment. ends_analyzer. Qed.

Lemma ends_check_increment x missing : ends (check_increment x missing).
Proof. unfold check_increment. ends_analyzer. Qed.

Lemma ends_for_header init condition increment :
  ends (analyze_for_header init condition increment).
Proof.
  unfold analyze_for_header.
  apply ends_bind.
  { destruct init;
      first [apply ends_declaration | apply ends_check_assignment
            | ends_analyzer]. }
  intros _. ends_analyzer.
Qed.

Lemma ends_bare_node t handler : bare_node t = Some handler -> ends handler.
Proof.
  unfold bare_node.
  repeat match goal with
         | |- (if ?b then _ else _) = _ -> _ => destruct b
         end; intros H; try discriminate H; injection H as <-;
    ends_analyzer.
Qed.

(** The analysis of a statement always returns or raises. *)
Lemma ends_analyze_statement statement : ends (analyze_statement statement).
Proof.
  induction statement as [nd IH] using node_children_ind.
  destruct nd; cbn [analyze_statement]; cbn [children] in IH;
    try (apply ends_report).
  - (* function definition *)
    apply ends_bind; [apply ends_get|intros st].
    apply ends_bind; [unfold set_stack; ends_analyzer|intros _].
    apply ends_bind; [apply ends_enter_scope|intros _].
    apply ends_bind; [apply ends_enter_scope|intros _].
    apply ends_bind; [apply ends_forM_; exact IH|intros _].
    ends_analyzer.
  - apply ends_declaration.
  - apply ends_check_assignment.
  - unfold analyze_expression_statement.
    match goal with
    | |- ends (match ?e with _ => _ end) => destruct e
    end; try apply ends_check_increment; ends_analyzer.
  - apply ends_check_increment.
  - apply List.Forall_cons_iff in IH as [_ IH].
    apply List.Forall_cons_iff in IH as [Ht IH].
    apply ends_bind; [apply ends_evaluate|intros ct].
    apply ends_bind; [unfold condition_must_be_bool; ends_analyzer|intros _].
    apply ends_bind; [exact Ht|intros _].
    destruct false_branch as [fb|]; [|apply ends_ret].
    cbn in IH. apply List.Forall_cons_iff in IH as [Hf _]. exact Hf.
  - apply List.Forall_cons_iff in IH as [_ IH].
    apply List.Forall_cons_iff in IH as [Hb _].
    apply ends_bind; [apply ends_evaluate|intros ct].
    apply ends_bind; [unfold condition_must_be_bool; ends_analyzer|intros _].
    exact Hb.
  - unfold condition_must_be_bool. ends_analyzer.
  - apply ends_bind; [apply ends_for_header|intros _].
    apply List.Forall_cons_iff in IH as [_ IH].
    apply List.Forall_cons_iff in IH as [_ IH].
    apply Forall_app in IH as [_ IH].
    apply List.Forall_cons_iff in IH as [Hb _]. exact Hb.
  - unfold analyze_io_statement. apply ends_forM_.
    apply Forall_forall. intros e _. ends_analyzer.
  - unfold analyze_return_statement. ends_analyzer.
  - apply ends_bind; [apply ends_enter_scope|intros _].
    apply ends_bind; [apply ends_forM_; exact IH|intros _].
    apply ends_exit_scope.
  - destruct (bare_node type) as [handler|] eqn:B; [|apply ends_report].
    eapply ends_bare_node. exact B.
Qed.

Lemma ends_analyze ast : analyze ast <> Diverge.
Proof.
  unfold analyze.
  assert (H : ends (analyze_from ast)).
  { unfold analyze_from. destruct ast; try (ends_analyzer; fail).
    apply ends_forM_. apply Forall_forall. intros s _.
    apply ends_analyze_statement. }
  specialize (H initial).
  destruct (analyze_from ast initial) as [[[] st]| |];
    [discriminate|discriminate|congruence].
Qed.
End AnalyzerEnds.

Section AnalyzerEdges.
Import SemanticAnalyzer.

Lemma forM_app {S T} (f : T -> M S unit) l1 l2 st :
  forM_ f (l1 ++ l2) st = bind (forM_ f l1) (fun _ => forM_ f l2) st.
Proof.
  revert st. induction l1 as [|a l1 IH]; intros st; cbn [forM_ app].
  - reflexivity.
  - rewrite bind_assoc. apply bind_congr. intros _ st1. apply IH.
Qed.

(** A statement without a handler is answered with a warning. *)
Lemma unhandled_reports s st :
  mem (node_type s) analyzed_kinds = false ->
  analyze_statement s st
  = Ok (tt, with_error st (msg_unsupported_statement (node_type s))).
Proof.
  intros H. destruct s; try discriminate H; try reflexivity.
  cbn [node_type] in *. cbn [analyze_statement]. unfold analyzed_kinds in H.
  split_mem H. unfold bare_node.
  rewrite Hne, Hne0, Hne1, Hne2, Hne3, Hne4, Hne5, Hne6, Hne7, Hne8, Hne9,
    Hne10.
  reflexivity.
Qed.

Lemma header_without_step init condition st r :
  analyze_for_header init condition None st = Ok r -> False.
Proof.
  unfold analyze_for_header. intros H. destruct r as [a st'].
  apply bind_Ok in H as (a1 & st1 & _ & H).
  apply bind_Ok in H as (a2 & st2 & _ & H).
  apply bind_Ok in H as (a3 & st3 & _ & H).
  discriminate H.
Qed.
End AnalyzerEdges.

(** X14.  A for loop whose header has no step is never analysed to the
    end: the C++-side parser leaves the increment empty, and the analyzer,
    which looks for a key in it, raises.  [for (int i = 0; i < 3;) ...]
    is such a loop, and its translation ends with that exception. *)
Theorem loop_without_step_raises
  (init condition body : node) (st : SemanticAnalyzer.state) :
  (exists e,
     SemanticAnalyzer.analyze_statement (ForLoop init condition None body) st
     = Raise e)
  /\ Pipeline.cpp_ast "for (int i = 0; i < 3;) cout << i;"
     = Ok (Program
             [ForLoop (VariableDeclaration "int" "i" (Some (Number "0")))
                (BinaryExpression "<" (Identifier "i") (Number "3")) None
                (IOStatement "cout" [Identifier "i"])])
  /\ Pipeline.cpp_to_python "for (int i = 0; i < 3;) cout << i;"
     = Raise (TypeError "argument of type 'NoneType' is not iterable").
Proof.
  split; [|split; vm_compute; reflexivity].
  destruct (SemanticAnalyzer.analyze_statement
              (ForLoop init condition None body) st) as [r|e|] eqn:H.
  - exfalso. cbn [SemanticAnalyzer.analyze_statement] in H.
    destruct r as [a st']. apply bind_Ok in H as (a1 & st1 & H & _).
    eapply header_without_step. exact H.
  - eauto.
  - exfalso. exact (ends_analyze_statement _ _ H).
Qed.

(** X15.  A program with a statement the C++-side analyzer has no handler
    for, a call statement or an empty statement for instance, is never
    translated: the analyzer answers such a statement with a warning, the
    warning stays in the list to the end, and [generate_code] returns the
    empty string for any list that is not empty (or the analysis has
    raised). *)
Theorem unhandled_statement_blocks_translation
  (pre post : list node) (s : node) (use_main : bool) :
  mem (node_type s) analyzed_kinds = false ->
  Converter.generate_code (Program (pre ++ s :: post)) use_main
  = Ok EmptyString
  \/ exists e,
       Converter.generate_code (Program (pre ++ s :: post)) use_main
       = Raise e.
Proof.
  intros Hs. unfold Converter.generate_code.
  pose proof (ends_analyze (Program (pre ++ s :: post))) as Hend.
  destruct (SemanticAnalyzer.analyze (Program (pre ++ s :: post)))
    as [[errors st]|e|] eqn:H; [|right; eauto|congruence].
  left. cbn [rbind].
  unfold SemanticAnalyzer.analyze, SemanticAnalyzer.analyze_from in H.
  destruct (forM_ SemanticAnalyzer.analyze_statement (pre ++ s :: post)
              SemanticAnalyzer.initial) as [[[] st2]| |] eqn:F;
    try discriminate.
  injection H as <- <-.
  rewrite forM_app in F. apply bind_Ok in F as ([] & st0 & _ & F).
  cbn [forM_] in F. apply bind_Ok in F as ([] & st1 & F1 & F).
  rewrite (unhandled_reports _ _ Hs) in F1. injection F1 as <-.
  assert (Hk : keeps writes (forM_ SemanticAnalyzer.analyze_statement post)).
  { apply keeps_forM_. apply Forall_forall. intros x _.
    apply keeps_analyze_statement. }
  destruct (Hk _ _ _ F) as [_ [extra He]]. rewrite He. cbn [with_error SemanticAnalyzer.errors].
  destruct (SemanticAnalyzer.errors st0); reflexivity.
Qed.

Lemma unhandled_statement_blocks_translation_witness :
  Pipeline.cpp_ast "int x = 1; foo(); ;"
  = Ok (Program [VariableDeclaration "int" "x" (Some (Number "1"));
                 FunctionCall "foo" []; EmptyStatement])
  /\ (Converter.generate_code
        (Program ([VariableDeclaration "int" "x" (Some (Number "1"))]
                  ++ FunctionCall "foo" [] :: [EmptyStatement])) false
      = Ok EmptyString
      \/ exists e,
           Converter.generate_code
             (Program ([VariableDeclaration "int" "x" (Some (Number "1"))]
                       ++ FunctionCall "foo" [] :: [EmptyStatement])) false
           = Raise e).
Proof.
  split; [vm_compute; reflexivity|].
  exact (unhandled_statement_blocks_translation
           [VariableDeclaration "int" "x" (Some (Number "1"))]
           [EmptyStatement] (FunctionCall "foo" []) false eq_refl).
Defined.

Section PlainExpressions.

Lemma depth_binary op l r :
  Keys.depth (BinaryExpression op l r)
  = S (Nat.max (Keys.depth l) (Keys.depth r)).
Proof. reflexivity. Qed.

(** A plain expression is rendered as its infix text. *)
Lemma generate_node_plain ast use_main st e : forall fuel stmts pos parent,
  plain e = true -> Keys.depth e <= fuel ->
  Converter.generate_node ast use_main st fuel e stmts pos parent
  = Ok (infix id e).
Proof.
  induction e; intros fuel stmts pos parent Hp Hd; try discriminate Hp;
    (destruct fuel as [|fuel]; [cbn in Hd; lia|]); try reflexivity.
  rewrite depth_binary in Hd. cbn [plain] in Hp.
  apply andb_prop in Hp as [H1 H2].
  cbn [Converter.generate_node Converter.generate_node_body].
  unfold Converter.gen1.
  rewrite IHe1 by (auto; lia). rewrite IHe2 by (auto; lia). reflexivity.
Qed.

Lemma generate_expression_plain e : forall wrap,
  plain e = true ->
  PythonToCppConverter.generate_expression e None wrap
  = Ok (if wrap then
          match e with
          | BinaryExpression _ _ _ => "(" ++ infix requoted e ++ ")"
          | _ => infix requoted e
          end
        else infix requoted e).
Proof.
  induction e; intros wrap Hp; try discriminate Hp;
    try (destruct wrap; reflexivity).
  cbn [plain] in Hp. apply andb_prop in Hp as [H1 H2].
  cbn [PythonToCppConverter.generate_expression].
  rewrite (IHe1 false H1), (IHe2 false H2). cbn [rbind infix].
  destruct wrap; reflexivity.
Qed.

Lemma infix_regrouped quote op1 op2 a b c :
  infix quote (BinaryExpression op1 a (BinaryExpression op2 b c))
  = infix quote (BinaryExpression op2 (BinaryExpression op1 a b) c).
Proof.
  cbn [infix]. rewrite ?string_app_assoc. reflexivity.
Qed.
End PlainExpressions.

(** X16.  Neither generator writes a parenthesis inside an expression: an
    expression of literals, names and operators is rendered as the bare
    sequence of its operands and operators, so that a right-nested tree,
    which only parentheses in the source can produce, is rendered exactly
    like the left-nested one; [x = 9 - (5 - 2)] becomes [x = 9 - 5 - 2]. *)
Theorem expressions_lose_their_parentheses
  (op1 op2 : string) (a b c : node)
  (ast : node) (use_main : bool) (st : SemanticAnalyzer.state) (fuel : nat)
  (stmts : option (list node)) (pos : nat) (parent : option (list node)) :
  plain a = true -> plain b = true -> plain c = true ->
  Keys.depth a + Keys.depth b + Keys.depth c + 2 <= fuel ->
  Converter.generate_node ast use_main st fuel
    (BinaryExpression op1 a (BinaryExpression op2 b c)) stmts pos parent
  = Ok (infix id a ++ " " ++ op1 ++ " " ++ infix id b ++ " " ++ op2 ++ " "
        ++ infix id c)
  /\ Converter.generate_node ast use_main st fuel
       (BinaryExpression op2 (BinaryExpression op1 a b) c) stmts pos parent
     = Ok (infix id a ++ " " ++ op1 ++ " " ++ infix id b ++ " " ++ op2 ++ " "
           ++ infix id c)
  /\ PythonToCppConverter.generate_expression
       (BinaryExpression op1 a (BinaryExpression op2 b c)) None false
     = PythonToCppConverter.generate_expression
         (BinaryExpression op2 (BinaryExpression op1 a b) c) None false.
Proof.
  intros Ha Hb Hc Hfuel.
  assert (Hr : plain (BinaryExpression op1 a (BinaryExpression op2 b c)) = true)
    by (cbn; rewrite Ha, Hb, Hc; reflexivity).
  assert (Hl : plain (BinaryExpression op2 (BinaryExpression op1 a b) c) = true)
    by (cbn; rewrite Ha, Hb, Hc; reflexivity).
  split; [|split].
  - rewrite generate_node_plain; [|exact Hr|rewrite !depth_binary; lia].
    cbn [infix]. rewrite ?string_app_assoc. reflexivity.
  - rewrite generate_node_plain; [|exact Hl|rewrite !depth_binary; lia].
    cbn [infix]. rewrite ?string_app_assoc. reflexivity.
  - rewrite !generate_expression_plain by assumption.
    rewrite infix_regrouped. reflexivity.
Qed.

Lemma expressions_lose_their_parentheses_witness :
  Pipeline.cpp_ast "int x = 9 - (5 - 2);"
  = Ok (Program
          [VariableDeclaration "int" "x"
             (Some (BinaryExpression "-" (Number "9")
                      (BinaryExpression "-" (Number "5") (Number "2"))))])
  /\ Pipeline.cpp_to_python "int x = 9 - (5 - 2);" = Ok "x = 9 - 5 - 2"
  /\ Converter.generate_node EmptyStatement false SemanticAnalyzer.initial 5
       (BinaryExpression "-" (Number "9")
          (BinaryExpression "-" (Number "5") (Number "2"))) None 0 None
     = Ok "9 - 5 - 2"
  /\ Converter.generate_node EmptyStatement false SemanticAnalyzer.initial 5
       (BinaryExpression "-" (BinaryExpression "-" (Number "9") (Number "5"))
          (Number "2")) None 0 None
     = Ok "9 - 5 - 2".
Proof.
  split; [vm_compute; reflexivity|]. split; [vm_compute; reflexivity|].
  pose proof (expressions_lose_their_parentheses "-" "-" (Number "9")
                (Number "5") (Number "2") EmptyStatement false
                SemanticAnalyzer.initial 5 None 0 None eq_refl eq_refl eq_refl)
    as H.
  destruct H as (H1 & H2 & _); [cbn; lia|]. split; [exact H1|exact H2].
Defined.

Section ConverterFacts.

Lemma find_app {T} (f : T -> bool) l1 l2 :
  find f (l1 ++ l2)
  = match find f l1 with Some a => Some a | None => find f l2 end.
Proof.
  induction l1 as [|a l1 IH]; cbn; [reflexivity|].
  destruct (f a); [reflexivity|exact IH].
Qed.

Lemma find_none {T} (f : T -> bool) l :
  forallb (fun a => negb (f a)) l = true -> find f l = None.
Proof.
  induction l as [|a l IH]; cbn; [reflexivity|].
  destruct (f a); cbn; [discriminate|exact IH].
Qed.

Lemma alpha_is_no_digit c :
  is_alpha_ c = true ->
  is_space c = false /\ is_digit c = false
  /\ Ascii.eqb c "-" = false /\ Ascii.eqb c "+" = false.
Proof.
  destruct c as [b0 b1 b2 b3 b4 b5 b6 b7].
  destruct b0, b1, b2, b3, b4, b5, b6, b7; intros H;
    first [discriminate H | repeat split; reflexivity].
Qed.

Lemma rstrip_keeps_head p c s :
  p c = false -> exists r, rstrip_by p (String c s) = String c r.
Proof.
  intros H. cbn [rstrip_by]. destruct (rstrip_by p s); rewrite ?H; eauto.
Qed.

(** [int(s)] of a text that begins like a name fails. *)
Lemma int_of_name s :
  begins_like_a_name s = true -> int_of_str s = Raise (IntValueError s).
Proof.
  destruct s as [|c s]; [discriminate|]. cbn [begins_like_a_name]. intros H.
  destruct (alpha_is_no_digit c H) as (Hs & Hd & Hm & Hp).
  unfold int_of_str, strip, rstrip, lstrip.
  destruct (rstrip_keeps_head is_space c s Hs) as [r ->].
  cbn [lstrip_by]. rewrite Hs.
  destruct c as [b0 b1 b2 b3 b4 b5 b6 b7].
  destruct b0, b1, b2, b3, b4, b5, b6, b7; try discriminate Hm;
    try discriminate Hp; cbn [digits_value]; rewrite Hd; reflexivity.
Qed.
End ConverterFacts.

(** X17.  [lookup_variable_type] answers with the nearest declaration
    before the position: of the statements before [position], the last
    that declares the name gives the type, whatever is declared earlier or
    at and after the position; at position 0 there is no answer, and a
    position beyond the end of the list raises. *)
Theorem nearest_declaration_wins
  (x ty : string) (init : option node) (pre mid rest : list node) :
  forallb (fun stmt => negb (declares_name x stmt)) mid = true ->
  Converter.lookup_variable_type x
    (Some (pre ++ VariableDeclaration ty x init :: mid ++ rest)%list)
    (length pre + 1 + length mid)
  = Ok (Some ty)
  /\ Converter.lookup_variable_type x
       (Some (pre ++ VariableDeclaration ty x init :: mid ++ rest)%list) 0
     = Ok None
  /\ Converter.lookup_variable_type x
       (Some (pre ++ VariableDeclaration ty x init :: mid ++ rest)%list)
       (length pre + 1 + length mid + length rest + 1)
     = Raise IndexError.
Proof.
  intros Hmid. unfold Converter.lookup_variable_type, Converter.some_nonempty.
  destruct (pre ++ VariableDeclaration ty x init :: mid ++ rest)%list
    as [|s0 l0] eqn:E; [destruct pre; discriminate|].
  rewrite <- E. clear E s0 l0.
  assert (Hlen : length (pre ++ VariableDeclaration ty x init :: mid ++ rest)%list
                 = length pre + 1 + length mid + length rest).
  { rewrite length_app. cbn [length]. rewrite length_app. lia. }
  split; [|split].
  - replace (length _ <? _)%nat with false
      by (symmetry; apply Nat.ltb_ge; lia).
    replace (pre ++ VariableDeclaration ty x init :: mid ++ rest)%list
      with ((pre ++ VariableDeclaration ty x init :: mid) ++ rest)%list
      by (rewrite <- app_assoc; reflexivity).
    rewrite firstn_app.
    replace (length pre + 1 + length mid
             - length (pre ++ VariableDeclaration ty x init :: mid))
      with 0 by (rewrite length_app; cbn [length]; lia).
    rewrite firstn_all2 by (rewrite length_app; cbn [length]; lia).
    cbn [firstn]. rewrite app_nil_r, rev_app_distr. cbn [rev].
    rewrite <- app_assoc, find_app.
    rewrite find_none.
    + cbn. rewrite String.eqb_refl. reflexivity.
    + rewrite forallb_forall in *. intros s Hs. apply Hmid.
      apply in_rev. exact Hs.
  - replace (length _ <? 0)%nat with false
      by (symmetry; apply Nat.ltb_ge; lia).
    reflexivity.
  - replace (length _ <? _)%nat with true
      by (symmetry; apply Nat.ltb_lt; lia).
    reflexivity.
Qed.

Lemma nearest_declaration_wins_witness :
  Converter.lookup_variable_type "x"
    (Some ([VariableDeclaration "string" "x" None]
           ++ VariableDeclaration "int" "x" None
              :: [VariableDeclaration "int" "y" None]
              ++ [VariableDeclaration "float" "x" None])%list)
    (1 + 1 + 1)
  = Ok (Some "int").
Proof.
  exact (proj1 (nearest_declaration_wins "x" "int" None
                  [VariableDeclaration "string" "x" None]
                  [VariableDeclaration "int" "y" None]
                  [VariableDeclaration "float" "x" None] eq_refl)).
Defined.

(** X18.  The inclusive bounds need a literal: for the operators [<=]
    and [>=] the generator computes with the text of the bound, so that a
    loop bounded by a variable, [for (int i = 0; i <= n; i++)], makes it
    raise the failure of [int] on the name, whatever the rest of the
    loop. *)
Theorem inclusive_bound_needs_a_literal
  (ty x op b : string) (e0 l : node) (increment : option node) (body : node)
  (ast : node) (use_main : bool) (st : SemanticAnalyzer.state) (fuel : nat)
  (stmts : option (list node)) (pos : nat) (parent : option (list node)) :
  plain e0 = true -> Keys.depth e0 <= S fuel ->
  mem op ["<="; ">="] = true ->
  begins_like_a_name b = true ->
  Converter.generate_node ast use_main st (S (S fuel))
    (ForLoop (VariableDeclaration ty x (Some e0))
       (BinaryExpression op l (Identifier b)) increment body)
    stmts pos parent
  = Raise (IntValueError b).
Proof.
  intros He0 Hd Hop Hb.
  rewrite generate_node_S. cbn [Converter.generate_node_body].
  unfold Converter.range_arguments, Converter.gen1.
  rewrite generate_node_plain by assumption.
  cbn [rbind Keys.right_of Keys.operator_of].
  rewrite generate_node_S. cbn [Converter.generate_node_body rbind].
  rewrite (int_of_name _ Hb).
  cbn [mem existsb] in Hop.
  destruct (op =? "<=") eqn:E1; [reflexivity|].
  destruct (op =? ">=") eqn:E2; [|discriminate Hop].
  apply String.eqb_eq in E2. subst op. reflexivity.
Qed.

Lemma inclusive_bound_needs_a_literal_witness :
  Pipeline.cpp_to_python "int n = 3; for (int i = 0; i <= n; i++) cout << i;"
  = Raise (IntValueError "n")
  /\ Converter.generate_node EmptyStatement false SemanticAnalyzer.initial 3
       (ForLoop (VariableDeclaration "int" "i" (Some (Number "0")))
          (BinaryExpression "<=" (Identifier "i") (Identifier "n"))
          (Some (Increment "i" "++")) (IOStatement "cout" [Identifier "i"]))
       None 0 None
     = Raise (IntValueError "n").
Proof.
  split; [vm_compute; reflexivity|].
  exact (inclusive_bound_needs_a_literal "int" "i" "<=" "n" (Number "0")
           (Identifier "i") (Some (Increment "i" "++"))
           (IOStatement "cout" [Identifier "i"]) EmptyStatement false
           SemanticAnalyzer.initial 1 None 0 None eq_refl
           (le_S _ _ (le_n 1)) eq_refl eq_refl).
Defined.

(** X19.  A prompt is folded into the input that follows it: a [cout]
    of one string literal directly before a [cin] produces no line of its
    own, and the [cin] becomes an [input] call with the text of the
    literal, its quotes stripped, as the prompt; the call is wrapped into
    [int] exactly when the variable is known as an [int], to the analyzer
    or else to [lookup_variable_type]. *)
Theorem prompt_is_folded_into_input
  (p x ty : string) (stmts : list node) (pos : nat)
  (ast : node) (use_main : bool) (st : SemanticAnalyzer.state) (fuel : nat)
  (parent : option (list node)) :
  nth_error stmts pos = Some (IOStatement "cout" [StringLiteral p]) ->
  nth_error stmts (pos + 1) = Some (IOStatement "cin" [Identifier x]) ->
  startswith p dq = true ->
  (SemanticAnalyzer.lookup_stack x (SemanticAnalyzer.scope_stack st)
   = Some (SemanticAnalyzer.VarType ty) /\ ty <> EmptyString)
  \/ (SemanticAnalyzer.lookup_stack x (SemanticAnalyzer.scope_stack st)
      = None
      /\ Converter.lookup_variable_type x (Some stmts) (pos + 1)
         = Ok (Some ty)) ->
  Converter.generate_node ast use_main st (S (S fuel))
    (IOStatement "cout" [StringLiteral p]) (Some stmts) pos parent
  = Ok EmptyString
  /\ Converter.generate_node ast use_main st (S (S fuel))
       (IOStatement "cin" [Identifier x]) (Some stmts) (pos + 1) parent
     = Ok (if ty =? "int"
           then x ++ " = int(input(" ++ dq ++ strip_char "034" p ++ dq
                ++ "))"
           else x ++ " = input(" ++ dq ++ strip_char "034" p ++ dq ++ ")").
Proof.
  intros Hcout Hcin Hp Hknown.
  assert (Hne : Converter.some_nonempty (Some stmts) = Some stmts).
  { destruct stmts; [destruct pos; discriminate Hcout|reflexivity]. }
  split.
  - rewrite generate_node_S. cbn [Converter.generate_node_body].
    unfold Converter.io_statement.
    cbn [Converter.io_expressions Converter.gen1 Converter.generate_node
         Converter.generate_node_body rbind fst snd app].
    rewrite Hne, Hcin.
    cbn [String.eqb Ascii.eqb Bool.eqb Converter.is_cin rbind length
         Nat.eqb hd andb].
    rewrite Hp. reflexivity.
  - replace (pos + 1) with (S pos) in * by lia.
    rewrite generate_node_S. cbn [Converter.generate_node_body].
    unfold Converter.io_statement.
    cbn [Converter.io_expressions Converter.gen1 Converter.generate_node
         Converter.generate_node_body rbind fst snd app hd].
    rewrite Hne, Hcout.
    cbn [String.eqb Ascii.eqb Bool.eqb rbind Converter.gen1
         Converter.generate_node Converter.generate_node_body].
    destruct Hknown as [[Hl Hty]|[Hl Hty]]; rewrite Hl.
    + cbn [SemanticAnalyzer.truthy SemanticAnalyzer.is_str].
      destruct (ty =? EmptyString) eqn:E;
        [apply String.eqb_eq in E; contradiction|].
      cbn [negb rbind]. destruct (ty =? "int"); reflexivity.
    + cbn [SemanticAnalyzer.truthy]. rewrite Hty. cbn [rbind]. destruct (ty =? "int"); reflexivity.
Qed.

Lemma prompt_is_folded_into_input_witness :
  Converter.generate_node EmptyStatement false SemanticAnalyzer.initial 2
    (IOStatement "cout" [StringLiteral (dq ++ "Age: " ++ dq)])
    (Some [VariableDeclaration "int" "age" None;
           IOStatement "cout" [StringLiteral (dq ++ "Age: " ++ dq)];
           IOStatement "cin" [Identifier "age"]]) 1 None
  = Ok EmptyString
  /\ Converter.generate_node EmptyStatement false SemanticAnalyzer.initial 2
       (IOStatement "cin" [Identifier "age"])
       (Some [VariableDeclaration "int" "age" None;
              IOStatement "cout" [StringLiteral (dq ++ "Age: " ++ dq)];
              IOStatement "cin" [Identifier "age"]]) (1 + 1) None
     = Ok ("age = int(input(" ++ dq ++ "Age: " ++ dq ++ "))").
Proof.
  exact (prompt_is_folded_into_input (dq ++ "Age: " ++ dq) "age" "int"
           [VariableDeclaration "int" "age" None;
            IOStatement "cout" [StringLiteral (dq ++ "Age: " ++ dq)];
            IOStatement "cin" [Identifier "age"]] 1
           EmptyStatement false SemanticAnalyzer.initial 0 None
           eq_refl eq_refl eq_refl (or_intror (conj eq_refl eq_refl))).
Defined.

Section ReturnFacts.

Lemma node_eqb_plain e : plain e = true -> Keys.node_eqb e e = true.
Proof.
  induction e; intros Hp; try discriminate Hp; cbn [Keys.node_eqb];
    try apply String.eqb_refl.
  cbn [plain] in Hp. apply andb_prop in Hp as [H1 H2].
  rewrite String.eqb_refl, IHe1, IHe2 by assumption. reflexivity.
Qed.

(** The scan of [search] over the statements of [n], as the source's
    loop: the first statement equal to the target answers [n], a
    statement that contains it answers what the search inside found. *)
Lemma search_function_body rt f target pre post :
  Forall (fun stmt => Keys.node_eqb stmt target = false
                      /\ Converter.search stmt target = None) pre ->
  Keys.node_eqb target target = true ->
  Converter.search (FunctionDefinition rt f (pre ++ target :: post)%list)
    target
  = Some (FunctionDefinition rt f (pre ++ target :: post)%list).
Proof.
  intros Hpre Heq. cbn [Converter.search].
  generalize (FunctionDefinition rt f (pre ++ target :: post)%list) at 1 2.
  intros n. induction Hpre as [|s pre [Hs1 Hs2] _ IH]; cbn [app].
  - rewrite Heq. reflexivity.
  - rewrite Hs1, Hs2. exact IH.
Qed.
Lemma search_loop_body c target pre post :
  Forall (fun stmt => Keys.node_eqb stmt target = false
                      /\ Converter.search stmt target = None) pre ->
  Keys.node_eqb target target = true ->
  Converter.search (WhileLoop c (Block (pre ++ target :: post)%list)) target
  = Some (WhileLoop c (Block (pre ++ target :: post)%list)).
Proof.
  intros Hpre Heq. cbn [Converter.search].
  generalize (WhileLoop c (Block (pre ++ target :: post)%list)) at 1 2.
  intros n. induction Hpre as [|s pre [Hs1 Hs2] _ IH]; cbn [app].
  - rewrite Heq. reflexivity.
  - rewrite Hs1, Hs2. exact IH.
Qed.

Lemma search_function_inner rt f target pre inner found post :
  Forall (fun stmt => Keys.node_eqb stmt target = false
                      /\ Converter.search stmt target = None) pre ->
  Keys.node_eqb inner target = false ->
  Converter.search inner target = Some found ->
  Converter.search (FunctionDefinition rt f (pre ++ inner :: post)%list)
    target
  = Some found.
Proof.
  intros Hpre Hne Hin. cbn [Converter.search].
  generalize (FunctionDefinition rt f (pre ++ inner :: post)%list) at 1.
  intros n. induction Hpre as [|s pre [Hs1 Hs2] _ IH]; cbn [app].
  - rewrite Hne, Hin. reflexivity.
  - rewrite Hs1, Hs2. exact IH.
Qed.
End ReturnFacts.

(** X20.  A return statement is judged by its first twin: [find_parent]
    looks for a statement with the same content as the one translated,
    from the top of the tree.  If the first function of the program has a
    [return e] among its statements, and no statement before it in that
    function is or holds an equal statement, then every [return e],
    wherever it stands, is translated as that one is: to [return e] if
    that function is not [main], and to nothing if it is.  If instead the
    first such statement stands in the block of a while loop of that
    function, [find_parent] answers the loop, and every [return e] is
    translated to nothing. *)
Theorem return_is_judged_by_its_first_twin
  (rt f : string) (e : node) (pre post others : list node)
  (use_main : bool) (st : SemanticAnalyzer.state) (fuel : nat)
  (stmts : option (list node)) (pos : nat) (parent : option (list node)) :
  Forall (fun stmt => Keys.node_eqb stmt (ReturnStatement e) = false
                      /\ Converter.search stmt (ReturnStatement e) = None)
    pre ->
  plain e = true -> Keys.depth e <= fuel ->
  Converter.generate_node
    (Program
       (FunctionDefinition rt f (pre ++ ReturnStatement e :: post)%list
        :: others))
    use_main st (S fuel) (ReturnStatement e) stmts pos parent
  = Ok (if f =? "main" then EmptyString else "return " ++ infix id e)
  /\ forall condition inner_pre inner_post,
       Forall (fun stmt => Keys.node_eqb stmt (ReturnStatement e) = false
                           /\ Converter.search stmt (ReturnStatement e)
                              = None) inner_pre ->
       Converter.generate_node
         (Program
            (FunctionDefinition rt f
               (pre
                ++ WhileLoop condition
                     (Block (inner_pre ++ ReturnStatement e :: inner_post))
                   :: post)%list
             :: others))
         use_main st (S fuel) (ReturnStatement e) stmts pos parent
       = Ok EmptyString.
Proof.
  intros Hpre Hp Hd. split.
  - rewrite generate_node_S.
    cbn [Converter.generate_node_body]. unfold Converter.gen1.
    rewrite generate_node_plain by assumption. cbn [rbind].
    unfold Converter.find_parent.
    assert (Hs : Converter.search
                   (Program
                      (FunctionDefinition rt f
                         (pre ++ ReturnStatement e :: post)%list :: others))
                   (ReturnStatement e)
                 = Some (FunctionDefinition rt f
                           (pre ++ ReturnStatement e :: post)%list)).
    { pose proof (search_function_body rt f (ReturnStatement e) pre post Hpre
                    (node_eqb_plain e Hp)) as Hf.
      cbn [Converter.search]. cbn [Converter.search] in Hf.
      cbn [Keys.node_eqb]. rewrite Hf. reflexivity. }
    rewrite Hs. destruct (f =? "main"); reflexivity.
  - intros c ipre ipost Hin. rewrite generate_node_S.
    cbn [Converter.generate_node_body]. unfold Converter.gen1.
    rewrite generate_node_plain by assumption. cbn [rbind].
    unfold Converter.find_parent.
    assert (Hs : Converter.search
                   (Program
                      (FunctionDefinition rt f
                         (pre
                          ++ WhileLoop c
                               (Block (ipre ++ ReturnStatement e :: ipost))
                             :: post)%list :: others))
                   (ReturnStatement e)
                 = Some (WhileLoop c
                           (Block (ipre ++ ReturnStatement e :: ipost)%list))).
    { pose proof (search_function_inner rt f (ReturnStatement e) pre
                    (WhileLoop c (Block (ipre ++ ReturnStatement e :: ipost)))
                    _ post Hpre eq_refl
                    (search_loop_body c (ReturnStatement e) ipre ipost Hin
                       (node_eqb_plain e Hp))) as Hf.
      cbn [Converter.search]. cbn [Converter.search] in Hf.
      cbn [Keys.node_eqb]. rewrite Hf. reflexivity. }
    rewrite Hs. reflexivity.
Qed.

Lemma return_is_judged_by_its_first_twin_witness :
  (Converter.generate_node
     (Program
        [FunctionDefinition "int" "f"
           ([VariableDeclaration "int" "x" (Some (Number "1"))]
            ++ ReturnStatement (Number "0") :: [])%list;
         FunctionDefinition "int" "main" [ReturnStatement (Number "0")]])
     false SemanticAnalyzer.initial 2 (ReturnStatement (Number "0"))
     (Some [ReturnStatement (Number "0")]) 0 None
   = Ok "return 0"
   /\ forall condition inner_pre inner_post,
        Forall (fun stmt =>
                  Keys.node_eqb stmt (ReturnStatement (Number "0")) = false
                  /\ Converter.search stmt (ReturnStatement (Number "0"))
                     = None) inner_pre ->
        Converter.generate_node
          (Program
             [FunctionDefinition "int" "f"
                ([VariableDeclaration "int" "x" (Some (Number "1"))]
                 ++ WhileLoop condition
                      (Block (inner_pre ++ ReturnStatement (Number "0")
                              :: inner_post))
                    :: [])%list;
              FunctionDefinition "int" "main"
                [ReturnStatement (Number "0")]])
          false SemanticAnalyzer.initial 2 (ReturnStatement (Number "0"))
          (Some [ReturnStatement (Number "0")]) 0 None
        = Ok EmptyString)
  /\ Pipeline.cpp_to_python
       "int f() { int x = 1; return 0; } int main() { return 0; }"
     = Ok ("def f():" ++ nl ++ "    x = 1" ++ nl ++ "    return 0" ++ nl
           ++ "return 0")
  /\ Pipeline.cpp_to_python
       "int main() { return 0; } int f() { int x = 1; return 0; }"
     = Ok ("def f():" ++ nl ++ "    x = 1")
  /\ Pipeline.cpp_to_python
       "int f() { int i = 0; while (i < 3) { return 0; } return 0; } int main() { return 0; }"
     = Ok ("def f():" ++ nl ++ "    i = 0" ++ nl ++ "    while i < 3:").
Proof.
  split; [|repeat split; vm_compute; reflexivity].
  apply (return_is_judged_by_its_first_twin "int" "f" (Number "0")
           [VariableDeclaration "int" "x" (Some (Number "1"))] []
           [FunctionDefinition "int" "main" [ReturnStatement (Number "0")]]
           false SemanticAnalyzer.initial 1
           (Some [ReturnStatement (Number "0")]) 0 None);
    [repeat constructor | reflexivity | apply le_n].
Defined.

Section Grows.
Import PythonToCppConverter.

Lemma grows_ret {A} (a : A) : grows (ret a).
Proof. intros st b st' H x Hx. injection H as _ <-. exact Hx. Qed.

Lemma grows_raise {A} e : grows (@raise state A e).
Proof. intros st b st' H. discriminate H. Qed.

Lemma grows_lift {A} (r : result A) : grows (lift r).
Proof.
  intros st b st' H x Hx. destruct r; try discriminate H.
  injection H as _ <-. exact Hx.
Qed.

Lemma grows_is_declared y : grows (is_declared y).
Proof. intros st b st' H x Hx. injection H as _ <-. exact Hx. Qed.

Lemma grows_add_variable y : grows (add_variable y).
Proof.
  intros st b st' H x Hx. injection H as _ <-. unfold declared in *.
  cbn [variables]. apply bool_decide_eq_true.
  apply bool_decide_eq_true in Hx. set_solver.
Qed.

Lemma grows_bind {A B} (m : M state A) (k : A -> M state B) :
  grows m -> (forall a, grows (k a)) -> grows (bind m k).
Proof.
  intros Hm Hk st b st' H x Hx. unfold bind in H.
  destruct (m st) as [[a st1]| |] eqn:E; try discriminate H.
  eapply Hk; [exact H|]. eapply Hm; [exact E|exact Hx].
Qed.

Lemma grows_mapM {A B} (f : A -> M state B) l :
  Forall (fun a => grows (f a)) l -> grows (mapM f l).
Proof.
  induction 1 as [|a l Ha _ IH]; cbn [mapM].
  - apply grows_ret.
  - apply grows_bind; [exact Ha|]. intros b.
    apply grows_bind; [exact IH|]. intros bs. apply grows_ret.
Qed.

Lemma grows_if {A} (b : bool) (m1 m2 : M state A) :
  grows m1 -> grows m2 -> grows (if b then m1 else m2).
Proof. destruct b; auto. Qed.

Ltac grows_step :=
  repeat first
    [ apply grows_ret | apply grows_raise | apply grows_lift
    | apply grows_is_declared | apply grows_add_variable
    | apply grows_bind; [|intros ?]
    | apply grows_if
    | assumption
    | match goal with
      | |- grows (match ?x with _ => _ end) => destruct x
      end ].

Lemma grows_assign_regular x e : grows (assign_regular x e).
Proof. unfold assign_regular. grows_step. Qed.

Lemma grows_assign_compound x op e : grows (assign_compound x op e).
Proof. unfold assign_compound. grows_step. Qed.

Lemma grows_process_assignment x e : grows (process_assignment x e).
Proof.
  unfold process_assignment.
  destruct e;
    try (apply grows_if; [apply grows_raise|apply grows_assign_regular]);
    try apply grows_assign_regular.
  apply grows_if; [|apply grows_assign_regular].
  destruct e1;
    try (apply grows_if; [apply grows_raise|apply grows_assign_regular]);
    try apply grows_assign_regular.
  apply grows_if; [apply grows_assign_compound|apply grows_assign_regular].
Qed.

Lemma grows_branch (process : node -> M state string) b :
  grows (process b) ->
  Forall (fun c => grows (process c)) (children b) ->
  grows (branch process b).
Proof.
  intros Hb Hc. unfold branch.
  destruct b; try (apply grows_bind; [exact Hb|intros ?; apply grows_ret]).
  cbn [children] in Hc.
  apply grows_bind; [apply grows_mapM; exact Hc|intros ?; apply grows_ret].
Qed.

(** [process_node] only ever adds to [self.variables]. *)
Lemma grows_process_node nd :
  grows (process_node nd)
  /\ grows (branch process_node nd)
  /\ grows (else_chain process_node nd).
Proof.
  induction nd as [nd IH] using node_children_ind.
  assert (H1 : grows (process_node nd)).
  { destruct nd; cbn [process_node]; try apply grows_ret;
      try apply grows_raise; cbn [children] in IH.
    - apply grows_process_assignment.
    - apply List.Forall_cons_iff in IH as [_ IH].
      apply List.Forall_cons_iff in IH as [Ht IH].
      apply grows_bind; [apply grows_lift|intros c].
      apply grows_bind; [apply Ht|intros body].
      apply grows_bind; [|intros rest; apply grows_ret].
      destruct false_branch as [fb|]; [|apply grows_ret].
      cbn in IH. apply List.Forall_cons_iff in IH as [Hf _]. apply Hf.
    - apply grows_bind; [apply grows_lift|intros ?; apply grows_raise].
    - apply List.Forall_cons_iff in IH as [_ IH].
      apply grows_bind; [apply grows_lift|intros c].
      apply grows_bind; [|intros ?; apply grows_ret].
      apply grows_mapM. eapply Forall_impl; [exact IH|]. intros ? H; apply H.
    - apply grows_bind; [apply grows_lift|intros ?].
      apply grows_bind; [apply grows_lift|intros ?].
      apply grows_bind; [apply grows_lift|intros ?].
      apply grows_bind.
      + apply grows_mapM.
        repeat (apply Forall_app in IH as [_ IH]).
        eapply Forall_impl; [exact IH|]. intros ? H; apply H.
      + intros ?. apply grows_bind; [apply grows_is_declared|intros known].
        apply grows_if; [|apply grows_ret].
        apply grows_bind; [apply grows_add_variable|intros ?; apply grows_ret].
    - apply grows_bind; [apply grows_lift|intros ?; apply grows_ret].
    - apply grows_bind; [|intros ?; apply grows_ret].
      apply grows_mapM. eapply Forall_impl; [exact IH|]. intros ? H; apply H.
    - repeat (apply grows_if; [apply grows_raise|]). apply grows_ret. }
  assert (H2 : grows (branch process_node nd)).
  { apply grows_branch; [exact H1|].
    eapply Forall_impl; [exact IH|]. intros ? H; apply H. }
  split; [exact H1|]. split; [exact H2|].
  destruct nd; try exact (grows_bind _ _ H2 (fun _ => grows_ret _)).
  cbn [else_chain]. cbn [children] in IH.
  apply List.Forall_cons_iff in IH as [_ IH].
  apply List.Forall_cons_iff in IH as [Ht IH].
  apply grows_bind; [apply grows_lift|intros c].
  apply grows_bind; [apply Ht|intros body].
  apply grows_bind; [|intros rest; apply grows_ret].
  destruct false_branch as [fb|]; [|apply grows_ret].
  cbn in IH. apply List.Forall_cons_iff in IH as [Hf _]. apply Hf.
Qed.

Lemma generate_expression_target e t wrap :
  plain e = true ->
  generate_expression e t wrap = generate_expression e None wrap.
Proof. destruct e; intros Hp; try discriminate Hp; reflexivity. Qed.

Lemma prefix_app p s : String.prefix p (p ++ s) = true.
Proof.
  induction p as [|c p IH]; simpl.
  - destruct s; reflexivity.
  - destruct (ascii_dec c c); [exact IH|congruence].
Qed.

Lemma starts_with_name x s :
  startswith ("    " ++ x ++ " " ++ s) ("    " ++ x ++ " ") = true.
Proof.
  unfold startswith.
  replace ("    " ++ x ++ " " ++ s) with (("    " ++ x ++ " ") ++ s).
  - apply prefix_app.
  - rewrite !string_app_assoc. reflexivity.
Qed.

(** An assignment to a known name: the variable alone, no type. *)
Lemma known_assignment x e st :
  declared x st = true -> plain e = true ->
  infix requoted e <> EmptyString ->
  exists text,
    process_node (Assignment x e) st = Ok (text, st)
    /\ startswith text ("    " ++ x ++ " ") = true.
Proof.
  intros Hx Hp Hne. cbn [process_node].
  assert (Hreg : exists text,
             assign_regular x e st = Ok (text, st)
             /\ startswith text ("    " ++ x ++ " ") = true).
  { unfold assign_regular, bind, lift, is_declared.
    rewrite generate_expression_target, generate_expression_plain
      by assumption.
    rewrite Hx. cbn [negb]. unfold nonempty.
    destruct (infix requoted e =? EmptyString) eqn:E;
      [apply String.eqb_eq in E; contradiction|].
    cbn [negb]. eexists. split; [reflexivity|apply starts_with_name]. }
  unfold process_assignment.
  destruct e; try discriminate Hp; try exact Hreg.
  destruct (mem operator _); [|exact Hreg].
  cbn [plain] in Hp. apply andb_prop in Hp as [Hp1 Hp2].
  destruct e1; try discriminate Hp1; try exact Hreg.
  destruct (value =? x); [|exact Hreg].
  unfold assign_compound, bind, lift, is_declared.
  rewrite generate_expression_plain by assumption. rewrite Hx. cbn [negb].
  eexists. split; [reflexivity|apply starts_with_name].
Qed.
End Grows.

Section Later.
Import PythonToCppConverter.

(** An assignment to a known name, whatever its expression: no type,
    and the set of names as it was. *)
Lemma later_assignment x e st text st' :
  declared x st = true ->
  process_node (Assignment x e) st = Ok (text, st') ->
  st' = st
  /\ (text = EmptyString \/ startswith text ("    " ++ x ++ " ") = true).
Proof.
  intros Hx. cbn [process_node].
  assert (Hreg : assign_regular x e st = Ok (text, st') ->
                 st' = st
                 /\ (text = EmptyString
                     \/ startswith text ("    " ++ x ++ " ") = true)).
  { unfold assign_regular, bind, lift, is_declared.
    destruct (generate_expression e (Some x) false) as [r| |];
      try discriminate.
    rewrite Hx. cbn [negb]. destruct (nonempty r); intros H;
      injection H as <- <-; (split; [reflexivity|]).
    - right. apply starts_with_name.
    - left. reflexivity. }
  unfold process_assignment.
  destruct e; try (cbn [bare]; try destruct (_ =? _)%string;
                   first [discriminate | exact Hreg]).
  destruct (mem operator _); [|exact Hreg].
  destruct e1; try (cbn [bare]; try destruct (_ =? _)%string;
                    first [discriminate | exact Hreg]).
  destruct (value =? x)%string; [|exact Hreg].
  clear Hreg. unfold assign_compound, bind, lift, is_declared.
  destruct (generate_expression e2 None false) as [r| |]; try discriminate.
  rewrite Hx. cbn [negb]. intros H. injection H as <- <-.
  split; [reflexivity|]. right. apply starts_with_name.
Qed.
End Later.

(** X21.  A name gets its type once: after an assignment to a name has
    been translated, whatever is translated afterwards, at any depth, a
    later assignment to the same name never carries a type.  When it is
    translated it leaves the set of known names as it is and writes
    either nothing (its expression has no text, as in [x = int(y)]) or a
    line that starts with the name; and for an expression of literals,
    names and operators whose text is not empty it is translated, to such
    a line. *)
Theorem name_is_typed_once
  (x : string) (first : node) (between : list node)
  (st st1 st2 : PythonToCppConverter.state) (r0 : string)
  (outs : list string) :
  PythonToCppConverter.process_node (Assignment x first) st = Ok (r0, st1) ->
  mapM PythonToCppConverter.process_node between st1 = Ok (outs, st2) ->
  (forall e text st3,
     PythonToCppConverter.process_node (Assignment x e) st2
     = Ok (text, st3) ->
     st3 = st2
     /\ (text = EmptyString
         \/ startswith text ("    " ++ x ++ " ") = true))
  /\ (forall e,
        plain e = true -> infix requoted e <> EmptyString ->
        exists text,
          PythonToCppConverter.process_node (Assignment x e) st2
          = Ok (text, st2)
          /\ startswith text ("    " ++ x ++ " ") = true).
Proof.
  intros H0 Hb.
  assert (Hx : PythonToCppConverter.declared x st2 = true).
  { eapply grows_mapM; [|exact Hb|].
    - apply Forall_forall. intros nd _. apply grows_process_node.
    - eapply assignment_declares. exact H0. }
  split.
  - intros e text st3. apply later_assignment. exact Hx.
  - intros e Hp Hne. apply known_assignment; assumption.
Qed.

Lemma name_is_typed_once_witness :
  ((forall e text st3,
      PythonToCppConverter.process_node (Assignment "x" e)
        (declare "i" (declare "x" PythonToCppConverter.initial))
      = Ok (text, st3) ->
      st3 = declare "i" (declare "x" PythonToCppConverter.initial)
      /\ (text = EmptyString \/ startswith text "    x " = true))
   /\ (forall e,
         plain e = true -> infix requoted e <> EmptyString ->
         exists text,
           PythonToCppConverter.process_node (Assignment "x" e)
             (declare "i" (declare "x" PythonToCppConverter.initial))
           = Ok (text, declare "i" (declare "x" PythonToCppConverter.initial))
           /\ startswith text "    x " = true))
  /\ PythonToCppConverter.process_node (Assignment "x" (Number "2"))
       (declare "i" (declare "x" PythonToCppConverter.initial))
     = Ok ("    x = 2;",
           declare "i" (declare "x" PythonToCppConverter.initial))
  /\ PythonToCppConverter.process_node
       (Assignment "x" (FunctionCall "int" [Identifier "y"]))
       (declare "i" (declare "x" PythonToCppConverter.initial))
     = Ok (EmptyString,
           declare "i" (declare "x" PythonToCppConverter.initial)).
Proof.
  split; [|split; reflexivity].
  apply (name_is_typed_once "x" (Number "1")
           [ForRange "i" (Some (Number "3")) None None None
              [Assignment "x" (Identifier "i")]]
           PythonToCppConverter.initial
           (declare "x" PythonToCppConverter.initial)
           (declare "i" (declare "x" PythonToCppConverter.initial))
           "    int x = 1;"
           ["    for (int i = 0; i < 3; i++) {" ++ nl
            ++ "            x = i;" ++ nl ++ "    }"]);
    reflexivity.
Defined.

(** X22.  The Python-side diagnostics come statement by statement, in
    the order of the text: the list for a program is the list for its
    first part followed by the list for the rest, a failure in the rest
    is the failure of the whole, and a block or the body of a loop
    with a well-formed condition contributes exactly the diagnostics of
    its statements. *)
Theorem python_diagnostics_in_order (a b : list node) (ea : list string) :
  PythonSemanticAnalyzer.analyze (Program a) = Ok ea ->
  (forall eb, PythonSemanticAnalyzer.analyze (Program b) = Ok eb ->
     PythonSemanticAnalyzer.analyze (Program (a ++ b)%list)
     = Ok (ea ++ eb)%list)
  /\ (forall e, PythonSemanticAnalyzer.analyze (Program b) = Raise e ->
        PythonSemanticAnalyzer.analyze (Program (a ++ b)%list) = Raise e)
  /\ PythonSemanticAnalyzer.analyze (Program [Block a]) = Ok ea
  /\ (forall condition,
        mem (node_type condition) PythonSemanticAnalyzer.expression_types
        = true ->
        PythonSemanticAnalyzer.analyze (Program [WhileLoopPy condition a])
        = Ok ea).
Proof.
  cbn [PythonSemanticAnalyzer.analyze]. intros Ha.
  split; [|split; [|split]].
  - intros eb Hb. rewrite extend_all_app, Ha, Hb. reflexivity.
  - intros e Hb. rewrite extend_all_app, Ha, Hb. reflexivity.
  - cbn [PythonSemanticAnalyzer.extend_all
         PythonSemanticAnalyzer.analyze_statement].
    rewrite Ha. cbn [rbind]. rewrite app_nil_r. reflexivity.
  - intros c Hc.
    cbn [PythonSemanticAnalyzer.extend_all
         PythonSemanticAnalyzer.analyze_statement].
    rewrite Ha, Hc. cbn [rbind negb app]. rewrite app_nil_r. reflexivity.
Qed.

Lemma python_diagnostics_in_order_witness :
  PythonSemanticAnalyzer.analyze
    (Program ([PrintStatement []; Assignment "x" (FunctionCall "len" [])]
              ++ [PrintStatement []])%list)
  = Ok (["Print statement must have at least one argument to print.";
         "Unsupported function call 'len' in assignment."]
        ++ ["Print statement must have at least one argument to print."])%list.
Proof.
  exact (proj1 (python_diagnostics_in_order
                  [PrintStatement []; Assignment "x" (FunctionCall "len" [])]
                  [PrintStatement []] _ eq_refl) _ eq_refl).
Defined.
